(** * Raster annotation engine of the notebook application

    A shallow embedding of the drawing surfaces found in
    [src/components/DrawingCell.tsx] (the standalone drawing cell), the
    [MiniDrawing] component of the mini notebook and the [PDFCell]
    annotation overlay, together with the properties their specification
    states about history, layering, erasing, page rendering and resizing.

    Numbers that the program computes with (coordinates, pressures, widths)
    are rationals; canvas dimensions and history cursors are integers.
    The browser's rasteriser is an interface ([Canvas2D.Backend]); every
    general theorem holds for all of its implementations, and a small
    reference implementation ([RefRaster]) is used to run the components
    on concrete inputs. *)

From Stdlib Require Import ZArith QArith Qminmax Qabs Qround List Bool Lia String Ascii.
From Stdlib Require Import FunctionalExtensionality.
From Stdlib Require Import Lqa.
From Stdlib Require Import Permutation.
Import ListNotations.
Open Scope string_scope.
Open Scope list_scope.
Open Scope Z_scope.

(* ------------------------------------------------------------------ *)
(** ** JavaScript runtime fragments *)

Module Js.

(** The outcome of running a handler: a value, or an uncaught exception. *)
Inductive Outcome (A : Type) : Type :=
| Ok (a : A)
| Throw (name : string).
Arguments Ok {A} a.
Arguments Throw {A} name.

Definition bind {A B : Type} (m : Outcome A) (k : A -> Outcome B) : Outcome B :=
  match m with
  | Ok a => k a
  | Throw e => Throw e
  end.

(** [arr.slice(0, e)]: a negative [e] counts from the end. *)
Definition slice0 {A : Type} (e : Z) (arr : list A) : list A :=
  let n := Z.of_nat (List.length arr) in
  let k := if e <? 0 then Z.max (n + e) 0 else Z.min e n in
  firstn (Z.to_nat k) arr.

(** [arr[i]]: [undefined] (here [None]) outside the array. *)
Definition index {A : Type} (arr : list A) (i : Z) : option A :=
  if i <? 0 then None else nth_error arr (Z.to_nat i).

(** [arr.push(x)] and [arr.shift()] on the array itself. *)
Definition push {A : Type} (arr : list A) (x : A) : list A := arr ++ [x].
Definition shift {A : Type} (arr : list A) : list A := tl arr.

(** [s ? .. : ..] on a string: the empty string is falsy. *)
Definition truthy (s : string) : bool :=
  match s with
  | EmptyString => false
  | _ => true
  end.

(** [arr.slice(b)]: a negative [b] counts from the end. *)
Definition slice_from {A : Type} (b : Z) (arr : list A) : list A :=
  let n := Z.of_nat (List.length arr) in
  let k := if b <? 0 then Z.max (n + b) 0 else Z.min b n in
  skipn (Z.to_nat k) arr.

(** [arr.splice(start, 0, x)] on the array itself. *)
Definition splice_insert {A : Type} (start : Z) (x : A) (arr : list A) : list A :=
  slice0 start arr ++ x :: slice_from start arr.

(** [arr.findIndex(p)]: the first position whose element satisfies [p],
    or [-1]. *)
Fixpoint findIndex_from {A : Type} (p : A -> bool) (arr : list A) (i : Z) : Z :=
  match arr with
  | [] => -1
  | a :: rest => if p a then i else findIndex_from p rest (i + 1)
  end.

Definition findIndex {A : Type} (p : A -> bool) (arr : list A) : Z :=
  findIndex_from p arr 0.

(** [arr.filter((_, index) => keep(index))]. *)
Fixpoint filter_index_from {A : Type} (keep : Z -> bool) (arr : list A) (i : Z) : list A :=
  match arr with
  | [] => []
  | a :: rest =>
      if keep i then a :: filter_index_from keep rest (i + 1)
      else filter_index_from keep rest (i + 1)
  end.

Definition filter_index {A : Type} (keep : Z -> bool) (arr : list A) : list A :=
  filter_index_from keep arr 0.

(** [arr[i] = v] on an array whose slots may hold [undefined] ([None]):
    a negative [i] names a property beside the elements, an [i] past the
    end extends the array with empty slots. *)
Definition assign {A : Type} (arr : list (option A)) (i : Z) (v : option A) : list (option A) :=
  if i <? 0 then arr
  else
    let k := Z.to_nat i in
    if (k <? List.length arr)%nat then firstn k arr ++ v :: skipn (S k) arr
    else arr ++ repeat None (k - List.length arr) ++ [v].

(** Reading a slot: [undefined] outside the array and in an empty slot. *)
Definition read {A : Type} (arr : list (option A)) (i : Z) : option A :=
  match index arr i with
  | Some v => v
  | None => None
  end.

(** The value of [a / b] on numbers: dividing by zero gives an infinity,
    or [NaN] when the dividend is zero too. *)
Inductive Number := Fin (q : Q) | PosInf | NegInf | NaN.

Definition div (a b : Q) : Number :=
  if Qeq_bool b 0 then
    if Qeq_bool a 0 then NaN else if Qle_bool 0 a then PosInf else NegInf
  else Fin (a / b).

(** [Math.min(a, b)]. *)
Definition min (a b : Number) : Number :=
  match a, b with
  | NaN, _ | _, NaN => NaN
  | NegInf, _ | _, NegInf => NegInf
  | PosInf, n | n, PosInf => n
  | Fin p, Fin q => Fin (Qmin p q)
  end.

End Js.

Notation "x <- m ;; k" := (Js.bind m (fun x => k))
  (at level 61, m at next level, right associativity).

(* ------------------------------------------------------------------ *)
(** ** The 2D canvas API used by the components *)

Module Canvas2D.

Definition Color := string.

(** A colour written ["#rrggbb"] carries no alpha channel: it is opaque. *)
Definition opaque (c : Color) : bool :=
  match c with
  | String "#" (String _ (String _ (String _ (String _ (String _ (String _ EmptyString)))))) =>
      true
  | _ => false
  end.

Inductive CompositeOp := SourceOver | DestinationOut | Multiply.
Inductive LineCap := CapButt | CapRound | CapSquare.
Inductive LineJoin := JoinMiter | JoinRound | JoinBevel.

(** Path segments.  Every [arc] and [ellipse] call of the program sweeps
    the full turn [0 .. 2 * Math.PI] with rotation [0], so only the centre
    and the radii are kept. *)
Inductive PathCmd :=
| MoveTo (x y : Q)
| LineTo (x y : Q)
| Arc (x y r : Q)
| Ellipse (cx cy rx ry : Q).

Record Blend := mkBlend { b_alpha : Q; b_op : CompositeOp }.
Record LineStyle := mkLineStyle { ls_width : Q; ls_cap : LineCap; ls_join : LineJoin }.

(** A drawing request as it reaches the rasteriser, with the context state
    it depends on made explicit. *)
Inductive DrawOp (Px : Type) : Type :=
| FillRect (b : Blend) (style : Color) (x y w h : Q)
| StrokeRect (b : Blend) (style : Color) (pen : LineStyle) (x y w h : Q)
| ClearRect (x y w h : Q)
| StrokePath (b : Blend) (style : Color) (pen : LineStyle) (p : list PathCmd)
| FillPath (b : Blend) (style : Color) (p : list PathCmd)
| DrawImage (b : Blend) (img : Px) (x y : Q) (size : option (Q * Q)).
Arguments FillRect {Px}.
Arguments StrokeRect {Px}.
Arguments ClearRect {Px}.
Arguments StrokePath {Px}.
Arguments FillPath {Px}.
Arguments DrawImage {Px}.

(** The rasteriser of the browser.  [Pixels] is the content of an
    [ImageData] (and of a canvas bitmap); [blank w h] is the bitmap of a
    canvas whose size has just been set (transparent black); [put img px]
    is [putImageData(img, 0, 0)] on a bitmap [px]; [decode url] is the
    image an [Image] element
    yields when its [src] is set to [url] ([None] when [onload] never
    fires) and [encode] is [canvas.toDataURL('image/png')]. *)
Class Backend := {
  Pixels : Type;
  blank : Z -> Z -> Pixels;
  dims : Pixels -> Z * Z;
  render : DrawOp Pixels -> Pixels -> Pixels;
  put : Pixels -> Pixels -> Pixels;
  decode : string -> option Pixels;
  encode : Pixels -> string
}.

(** Floating-point trigonometry of the arrow head:
    [barb len start end sign] stands for the point
    [(end.x - len * cos (a + sign * PI / 6), end.y - len * sin (a + sign * PI / 6))]
    with [a = atan2 (end.y - start.y) (end.x - start.x)]. *)
Class Trig := {
  barb : Q -> Q * Q -> Q * Q -> bool -> Q * Q
}.

Section Context2D.
Context {B : Backend}.

(** The state of a [CanvasRenderingContext2D] together with its bitmap. *)
Record Ctx := mkCtx {
  pixels : Pixels;
  fillStyle : Color;
  strokeStyle : Color;
  lineWidth : Q;
  lineCap : LineCap;
  lineJoin : LineJoin;
  globalAlpha : Q;
  globalCompositeOperation : CompositeOp;
  path : list PathCmd
}.

(** The context of a canvas whose [width]/[height] has just been set. *)
Definition fresh (w h : Z) : Ctx :=
  mkCtx (blank w h) "#000000" "#000000" 1 CapButt JoinMiter 1 SourceOver [].

Definition canvas_width (c : Ctx) : Z := fst (dims (pixels c)).
Definition canvas_height (c : Ctx) : Z := snd (dims (pixels c)).

Definition with_pixels (px : Pixels) (c : Ctx) : Ctx :=
  mkCtx px (fillStyle c) (strokeStyle c) (lineWidth c) (lineCap c) (lineJoin c)
        (globalAlpha c) (globalCompositeOperation c) (path c).
Definition with_path (p : list PathCmd) (c : Ctx) : Ctx :=
  mkCtx (pixels c) (fillStyle c) (strokeStyle c) (lineWidth c) (lineCap c) (lineJoin c)
        (globalAlpha c) (globalCompositeOperation c) p.
Definition set_fillStyle (s : Color) (c : Ctx) : Ctx :=
  mkCtx (pixels c) s (strokeStyle c) (lineWidth c) (lineCap c) (lineJoin c)
        (globalAlpha c) (globalCompositeOperation c) (path c).
Definition set_strokeStyle (s : Color) (c : Ctx) : Ctx :=
  mkCtx (pixels c) (fillStyle c) s (lineWidth c) (lineCap c) (lineJoin c)
        (globalAlpha c) (globalCompositeOperation c) (path c).
(** Assigning a width that is not positive is ignored by the canvas. *)
Definition set_lineWidth (w : Q) (c : Ctx) : Ctx :=
  if Qlt_le_dec 0 w then
    mkCtx (pixels c) (fillStyle c) (strokeStyle c) w (lineCap c) (lineJoin c)
          (globalAlpha c) (globalCompositeOperation c) (path c)
  else c.
Definition set_lineCap (k : LineCap) (c : Ctx) : Ctx :=
  mkCtx (pixels c) (fillStyle c) (strokeStyle c) (lineWidth c) k (lineJoin c)
        (globalAlpha c) (globalCompositeOperation c) (path c).
Definition set_lineJoin (k : LineJoin) (c : Ctx) : Ctx :=
  mkCtx (pixels c) (fillStyle c) (strokeStyle c) (lineWidth c) (lineCap c) k
        (globalAlpha c) (globalCompositeOperation c) (path c).
(** Assigning an alpha outside [0, 1] is ignored by the canvas. *)
Definition set_globalAlpha (a : Q) (c : Ctx) : Ctx :=
  if Qle_bool 0 a && Qle_bool a 1 then
    mkCtx (pixels c) (fillStyle c) (strokeStyle c) (lineWidth c) (lineCap c) (lineJoin c)
          a (globalCompositeOperation c) (path c)
  else c.
Definition set_globalCompositeOperation (o : CompositeOp) (c : Ctx) : Ctx :=
  mkCtx (pixels c) (fillStyle c) (strokeStyle c) (lineWidth c) (lineCap c) (lineJoin c)
        (globalAlpha c) o (path c).

Definition blend_of (c : Ctx) : Blend := mkBlend (globalAlpha c) (globalCompositeOperation c).
Definition pen_of (c : Ctx) : LineStyle := mkLineStyle (lineWidth c) (lineCap c) (lineJoin c).

Definition beginPath (c : Ctx) : Ctx := with_path [] c.
Definition moveTo (x y : Q) (c : Ctx) : Ctx := with_path (path c ++ [MoveTo x y]) c.
Definition lineTo (x y : Q) (c : Ctx) : Ctx := with_path (path c ++ [LineTo x y]) c.
Definition arc (x y r : Q) (c : Ctx) : Ctx := with_path (path c ++ [Arc x y r]) c.
Definition ellipse (cx cy rx ry : Q) (c : Ctx) : Ctx :=
  with_path (path c ++ [Ellipse cx cy rx ry]) c.

Definition stroke (c : Ctx) : Ctx :=
  with_pixels (render (StrokePath (blend_of c) (strokeStyle c) (pen_of c) (path c)) (pixels c)) c.
Definition fill (c : Ctx) : Ctx :=
  with_pixels (render (FillPath (blend_of c) (fillStyle c) (path c)) (pixels c)) c.
Definition fillRect (x y w h : Q) (c : Ctx) : Ctx :=
  with_pixels (render (FillRect (blend_of c) (fillStyle c) x y w h) (pixels c)) c.
Definition strokeRect (x y w h : Q) (c : Ctx) : Ctx :=
  with_pixels (render (StrokeRect (blend_of c) (strokeStyle c) (pen_of c) x y w h) (pixels c)) c.
Definition clearRect (x y w h : Q) (c : Ctx) : Ctx :=
  with_pixels (render (ClearRect x y w h) (pixels c)) c.
Definition drawImage (img : Pixels) (x y : Q) (c : Ctx) : Ctx :=
  with_pixels (render (DrawImage (blend_of c) img x y None) (pixels c)) c.
Definition drawImageScaled (img : Pixels) (x y w h : Q) (c : Ctx) : Ctx :=
  with_pixels (render (DrawImage (blend_of c) img x y (Some (w, h))) (pixels c)) c.

(** [getImageData(0, 0, canvas.width, canvas.height)]: a copy of the whole
    bitmap (the canvases of the components have a non-empty area). *)
Definition getImageData (c : Ctx) : Pixels := pixels c.

(** [putImageData(img, 0, 0)]; compositing settings are not consulted. *)
Definition putImageData (img : Pixels) (c : Ctx) : Ctx :=
  with_pixels (put img (pixels c)) c.

End Context2D.

End Canvas2D.

(* ------------------------------------------------------------------ *)
(** ** Types shared by the three surfaces *)

Module Types.

Inductive BackgroundType := Blank | Grid | Lines | Dots.

Record Point := mkPoint { x : Q; y : Q; pressure : Q }.

(** A pointer event together with the layout box
    [canvas.getBoundingClientRect()] has when the handler runs. *)
Record PointerEvent := mkPointerEvent {
  clientX : Q;
  clientY : Q;
  e_pressure : Q;
  rect_left : Q;
  rect_top : Q;
  rect_width : Q;
  rect_height : Q
}.

Definition gridSize : Z := 20.

Definition bg_eqb (a b : BackgroundType) : bool :=
  match a, b with
  | Blank, Blank | Grid, Grid | Lines, Lines | Dots, Dots => true
  | _, _ => false
  end.

(** The fields of a [KeyboardEvent] the handlers read. *)
Record KeyboardEvent := mkKeyboardEvent {
  ctrlKey : bool;
  shiftKey : bool;
  key : string
}.

(** The listeners an ink canvas is rendered with. *)
Inductive CanvasInput :=
| OnPointerDown (e : PointerEvent)
| OnPointerMove (e : PointerEvent)
| OnPointerUp (e : PointerEvent)
| OnPointerLeave (e : PointerEvent)
| OnClick.

End Types.

(* ------------------------------------------------------------------ *)
(** ** The history of snapshots
    ([saveToHistory], [undo] and [redo] are the same text in
    [DrawingCell.tsx] and in the PDF cell) *)

Module History.
Import Canvas2D.

Section Refs.
Context {B : Backend}.

Record Refs := mkRefs {
  historyRef : list Pixels;
  historyIndexRef : Z
}.

Definition empty : Refs := mkRefs [] (-1).

Definition saveToHistory (canvas : Ctx) (r : Refs) : Refs :=
  let imageData := getImageData canvas in
  let h := Js.slice0 (historyIndexRef r + 1) (historyRef r) in
  let h := Js.push h imageData in
  let i := Z.of_nat (List.length h) - 1 in
  if Z.of_nat (List.length h) >? 50
  then mkRefs (Js.shift h) (i - 1)
  else mkRefs h i.

(** [putImageData] raises a [TypeError] when handed [undefined]. *)
Definition undo (canvas : Ctx) (r : Refs) : Js.Outcome (Ctx * Refs) :=
  if historyIndexRef r >? 0 then
    let i := historyIndexRef r - 1 in
    match Js.index (historyRef r) i with
    | Some img => Js.Ok (putImageData img canvas, mkRefs (historyRef r) i)
    | None => Js.Throw "TypeError"
    end
  else Js.Ok (canvas, r).

Definition redo (canvas : Ctx) (r : Refs) : Js.Outcome (Ctx * Refs) :=
  if historyIndexRef r <? Z.of_nat (List.length (historyRef r)) - 1 then
    let i := historyIndexRef r + 1 in
    match Js.index (historyRef r) i with
    | Some img => Js.Ok (putImageData img canvas, mkRefs (historyRef r) i)
    | None => Js.Throw "TypeError"
    end
  else Js.Ok (canvas, r).

End Refs.

End History.

(* ------------------------------------------------------------------ *)
(** ** The ruling loops shared by the three background painters *)

Module Ruling.
Import Canvas2D Types.

Section Loops.
Context {B : Backend}.

(** [for (let v = gridSize; v < limit; v += gridSize) body(v)], started
    at [v]; the loop runs fewer than [limit] times. *)
Fixpoint for_from (fuel : nat) (v limit : Z) (body : Z -> Ctx -> Ctx) (c : Ctx) : Ctx :=
  match fuel with
  | O => c
  | S fuel' =>
      if v <? limit then for_from fuel' (v + gridSize) limit body (body v c) else c
  end.

Definition for_grid (limit : Z) (body : Z -> Ctx -> Ctx) (c : Ctx) : Ctx :=
  for_from (Z.to_nat limit) gridSize limit body c.

Definition vline (height : Z) (x : Z) (c : Ctx) : Ctx :=
  stroke (lineTo (inject_Z x) (inject_Z height) (moveTo (inject_Z x) 0 (beginPath c))).
Definition hline (width : Z) (y : Z) (c : Ctx) : Ctx :=
  stroke (lineTo (inject_Z width) (inject_Z y) (moveTo 0 (inject_Z y) (beginPath c))).
Definition dot (x y : Z) (c : Ctx) : Ctx :=
  fill (arc (inject_Z x) (inject_Z y) (3 # 2) (beginPath c)).

End Loops.

Arguments for_from : simpl never.
Arguments for_grid : simpl never.

End Ruling.

(* ------------------------------------------------------------------ *)
(** ** The standalone drawing cell ([src/components/DrawingCell.tsx]) *)

Module DrawingCell.
Import Canvas2D Types Ruling.

Inductive ToolType := Pen | Eraser | Line | Rect | Circle | Arrow.

Section Component.
Context {B : Backend} {T : Trig}.

(** Props, hook state and refs of one mounted cell.  [canvas], [bgCanvas]
    and [previewCanvas] are the contexts of the three canvas elements;
    [loading] holds the images whose [onload] has not fired yet and
    [updates] the payloads handed to [onUpdate]. *)
Record State := mkState {
  cell_dataUrl : string;
  canvas : Ctx;
  bgCanvas : Ctx;
  previewCanvas : Ctx;
  isDrawing : bool;
  isEditing : bool;
  color : Color;
  brushSize : Q;
  tool : ToolType;
  fillShape : bool;
  background : BackgroundType;
  isDarkMode : bool;
  lastPoint : option Point;
  shapeStartPoint : option Point;
  history : History.Refs;
  loading : list Pixels;
  updates : list string
}.

Definition set_canvas (c : Ctx) (s : State) : State :=
  mkState (cell_dataUrl s) c (bgCanvas s) (previewCanvas s) (isDrawing s) (isEditing s)
    (color s) (brushSize s) (tool s) (fillShape s) (background s) (isDarkMode s)
    (lastPoint s) (shapeStartPoint s) (history s) (loading s) (updates s).
Definition set_bgCanvas (c : Ctx) (s : State) : State :=
  mkState (cell_dataUrl s) (canvas s) c (previewCanvas s) (isDrawing s) (isEditing s)
    (color s) (brushSize s) (tool s) (fillShape s) (background s) (isDarkMode s)
    (lastPoint s) (shapeStartPoint s) (history s) (loading s) (updates s).
Definition set_previewCanvas (c : Ctx) (s : State) : State :=
  mkState (cell_dataUrl s) (canvas s) (bgCanvas s) c (isDrawing s) (isEditing s)
    (color s) (brushSize s) (tool s) (fillShape s) (background s) (isDarkMode s)
    (lastPoint s) (shapeStartPoint s) (history s) (loading s) (updates s).
Definition setIsDrawing (b : bool) (s : State) : State :=
  mkState (cell_dataUrl s) (canvas s) (bgCanvas s) (previewCanvas s) b (isEditing s)
    (color s) (brushSize s) (tool s) (fillShape s) (background s) (isDarkMode s)
    (lastPoint s) (shapeStartPoint s) (history s) (loading s) (updates s).
Definition setIsEditing (b : bool) (s : State) : State :=
  mkState (cell_dataUrl s) (canvas s) (bgCanvas s) (previewCanvas s) (isDrawing s) b
    (color s) (brushSize s) (tool s) (fillShape s) (background s) (isDarkMode s)
    (lastPoint s) (shapeStartPoint s) (history s) (loading s) (updates s).
Definition setColor (c : Color) (s : State) : State :=
  mkState (cell_dataUrl s) (canvas s) (bgCanvas s) (previewCanvas s) (isDrawing s) (isEditing s)
    c (brushSize s) (tool s) (fillShape s) (background s) (isDarkMode s)
    (lastPoint s) (shapeStartPoint s) (history s) (loading s) (updates s).
Definition setBrushSize (n : Q) (s : State) : State :=
  mkState (cell_dataUrl s) (canvas s) (bgCanvas s) (previewCanvas s) (isDrawing s) (isEditing s)
    (color s) n (tool s) (fillShape s) (background s) (isDarkMode s)
    (lastPoint s) (shapeStartPoint s) (history s) (loading s) (updates s).
Definition setTool (t : ToolType) (s : State) : State :=
  mkState (cell_dataUrl s) (canvas s) (bgCanvas s) (previewCanvas s) (isDrawing s) (isEditing s)
    (color s) (brushSize s) t (fillShape s) (background s) (isDarkMode s)
    (lastPoint s) (shapeStartPoint s) (history s) (loading s) (updates s).
Definition setFillShape (b : bool) (s : State) : State :=
  mkState (cell_dataUrl s) (canvas s) (bgCanvas s) (previewCanvas s) (isDrawing s) (isEditing s)
    (color s) (brushSize s) (tool s) b (background s) (isDarkMode s)
    (lastPoint s) (shapeStartPoint s) (history s) (loading s) (updates s).
Definition set_background (b : BackgroundType) (s : State) : State :=
  mkState (cell_dataUrl s) (canvas s) (bgCanvas s) (previewCanvas s) (isDrawing s) (isEditing s)
    (color s) (brushSize s) (tool s) (fillShape s) b (isDarkMode s)
    (lastPoint s) (shapeStartPoint s) (history s) (loading s) (updates s).
Definition set_isDarkMode (b : bool) (s : State) : State :=
  mkState (cell_dataUrl s) (canvas s) (bgCanvas s) (previewCanvas s) (isDrawing s) (isEditing s)
    (color s) (brushSize s) (tool s) (fillShape s) (background s) b
    (lastPoint s) (shapeStartPoint s) (history s) (loading s) (updates s).
Definition set_lastPoint (p : option Point) (s : State) : State :=
  mkState (cell_dataUrl s) (canvas s) (bgCanvas s) (previewCanvas s) (isDrawing s) (isEditing s)
    (color s) (brushSize s) (tool s) (fillShape s) (background s) (isDarkMode s)
    p (shapeStartPoint s) (history s) (loading s) (updates s).
Definition set_shapeStartPoint (p : option Point) (s : State) : State :=
  mkState (cell_dataUrl s) (canvas s) (bgCanvas s) (previewCanvas s) (isDrawing s) (isEditing s)
    (color s) (brushSize s) (tool s) (fillShape s) (background s) (isDarkMode s)
    (lastPoint s) p (history s) (loading s) (updates s).
Definition set_history (h : History.Refs) (s : State) : State :=
  mkState (cell_dataUrl s) (canvas s) (bgCanvas s) (previewCanvas s) (isDrawing s) (isEditing s)
    (color s) (brushSize s) (tool s) (fillShape s) (background s) (isDarkMode s)
    (lastPoint s) (shapeStartPoint s) h (loading s) (updates s).
Definition set_loading (l : list Pixels) (s : State) : State :=
  mkState (cell_dataUrl s) (canvas s) (bgCanvas s) (previewCanvas s) (isDrawing s) (isEditing s)
    (color s) (brushSize s) (tool s) (fillShape s) (background s) (isDarkMode s)
    (lastPoint s) (shapeStartPoint s) (history s) l (updates s).
Definition set_updates (l : list string) (s : State) : State :=
  mkState (cell_dataUrl s) (canvas s) (bgCanvas s) (previewCanvas s) (isDrawing s) (isEditing s)
    (color s) (brushSize s) (tool s) (fillShape s) (background s) (isDarkMode s)
    (lastPoint s) (shapeStartPoint s) (history s) (loading s) l.

(** Theme colours. *)
Definition bgColor (s : State) : Color := if isDarkMode s then "#1f2937" else "#ffffff".
Definition gridColor (s : State) : Color := if isDarkMode s then "#374151" else "#e5e7eb".
Definition eraserColor (s : State) : Color := bgColor s.

Definition drawBackground (ctx : Ctx) (width height : Z) (bgType : BackgroundType)
    (dark : bool) : Ctx :=
  let bg : Color := if dark then "#1f2937" else "#ffffff" in
  let grid : Color := if dark then "#374151" else "#e5e7eb" in
  let ctx := set_fillStyle bg ctx in
  let ctx := fillRect 0 0 (inject_Z width) (inject_Z height) ctx in
  match bgType with
  | Blank => ctx
  | Grid =>
      let ctx := set_strokeStyle grid ctx in
      let ctx := set_lineWidth 1 ctx in
      let ctx := for_grid width (vline height) ctx in
      for_grid height (hline width) ctx
  | Lines =>
      let ctx := set_strokeStyle grid ctx in
      let ctx := set_lineWidth 1 ctx in
      for_grid height (hline width) ctx
  | Dots =>
      let ctx := set_fillStyle grid ctx in
      for_grid width (fun x c => for_grid height (fun y c' => dot x y c') c) ctx
  end.

Definition saveToHistory (s : State) : State :=
  set_history (History.saveToHistory (canvas s) (history s)) s.

Definition undo (s : State) : Js.Outcome State :=
  r <- History.undo (canvas s) (history s) ;;
  Js.Ok (set_history (snd r) (set_canvas (fst r) s)).

Definition redo (s : State) : Js.Outcome State :=
  r <- History.redo (canvas s) (history s) ;;
  Js.Ok (set_history (snd r) (set_canvas (fst r) s)).

(** The "Initialize canvas" effect; with a saved payload the [onload]
    callback is parked in [loading]. *)
Definition initEffect (s : State) : State :=
  let s := set_bgCanvas
             (drawBackground (bgCanvas s) (canvas_width (bgCanvas s)) (canvas_height (bgCanvas s))
                (background s) (isDarkMode s)) s in
  if Js.truthy (cell_dataUrl s) then
    match decode (cell_dataUrl s) with
    | Some img => set_loading (loading s ++ [img]) s
    | None => s
    end
  else
    let s := set_canvas
               (drawBackground (canvas s) (canvas_width (canvas s)) (canvas_height (canvas s))
                  (background s) (isDarkMode s)) s in
    saveToHistory s.

(** [img.onload] of the init effect, for the first parked image. *)
Definition onload (s : State) : State :=
  match loading s with
  | [] => s
  | img :: rest =>
      let s := set_loading rest s in
      let s := set_canvas (drawImage img 0 0 (canvas s)) s in
      saveToHistory s
  end.

(** The "Update background when theme or type changes" effect. *)
Definition backgroundEffect (s : State) : State :=
  set_bgCanvas
    (drawBackground (bgCanvas s) (canvas_width (bgCanvas s)) (canvas_height (bgCanvas s))
       (background s) (isDarkMode s)) s.

(** The "Set default color based on theme" effect. *)
Definition colorEffect (s : State) : State :=
  if isDarkMode s && String.eqb (color s) "#000000" then setColor "#ffffff" s
  else if negb (isDarkMode s) && String.eqb (color s) "#ffffff" then setColor "#000000" s
  else s.

(** A state setter called with the value already held triggers nothing. *)
Definition setBackground (b : BackgroundType) (s : State) : State :=
  if bg_eqb b (background s) then s
  else backgroundEffect (initEffect (set_background b s)).

Definition setIsDarkMode (b : bool) (s : State) : State :=
  if Bool.eqb b (isDarkMode s) then s
  else colorEffect (backgroundEffect (initEffect (set_isDarkMode b s))).

(** First render and its effects; [dark] tells whether the document
    carries the [dark] class when the theme effect looks. *)
Definition mount (dataUrl : string) (width height : Z) (dark : bool) : State :=
  let s := mkState dataUrl (fresh width height) (fresh width height) (fresh width height)
             false (negb (Js.truthy dataUrl)) "#000000" 3 Pen false Blank false
             None None History.empty [] [] in
  let s := colorEffect (backgroundEffect (initEffect s)) in
  if dark then setIsDarkMode true s else s.

Definition getCanvasPoint (e : PointerEvent) (s : State) : Point :=
  let scaleX := (inject_Z (canvas_width (canvas s)) / rect_width e)%Q in
  let scaleY := (inject_Z (canvas_height (canvas s)) / rect_height e)%Q in
  mkPoint ((clientX e - rect_left e) * scaleX)%Q
          ((clientY e - rect_top e) * scaleY)%Q
          (if Qeq_bool (e_pressure e) 0 then 1 # 2 else e_pressure e).

Definition drawLine (s : State) (from to : Point) (ctx : Ctx) : Ctx :=
  let pressure := ((pressure from + pressure to) / 2)%Q in
  let size :=
    match tool s with
    | Eraser => (brushSize s * 8)%Q
    | _ => (brushSize s * ((1 # 2) + pressure))%Q
    end in
  let ctx := beginPath ctx in
  let ctx := moveTo (x from) (y from) ctx in
  let ctx := lineTo (x to) (y to) ctx in
  let ctx := set_strokeStyle (match tool s with Eraser => eraserColor s | _ => color s end) ctx in
  let ctx := set_lineWidth size ctx in
  let ctx := set_lineCap CapRound ctx in
  let ctx := set_lineJoin JoinRound ctx in
  stroke ctx.

Definition isShapeTool (t : ToolType) : bool :=
  match t with
  | Line | Rect | Circle | Arrow => true
  | Pen | Eraser => false
  end.

Definition drawShape (s : State) (ctx : Ctx) (start end_ : Point) (shapeType : ToolType)
    (preview : bool) : Ctx :=
  let ctx := beginPath ctx in
  let ctx := set_strokeStyle (color s) ctx in
  let ctx := set_lineWidth (brushSize s) ctx in
  let ctx := set_lineCap CapRound ctx in
  let ctx := set_lineJoin JoinRound ctx in
  let filled := fillShape s && negb preview in
  let ctx := if filled then set_fillStyle (color s) ctx else ctx in
  match shapeType with
  | Line =>
      stroke (lineTo (x end_) (y end_) (moveTo (x start) (y start) ctx))
  | Arrow =>
      let ctx := stroke (lineTo (x end_) (y end_) (moveTo (x start) (y start) ctx)) in
      let headLength := Qmax 10 (brushSize s * 4) in
      let b1 := barb headLength (x start, y start) (x end_, y end_) false in
      let b2 := barb headLength (x start, y start) (x end_, y end_) true in
      let ctx := beginPath ctx in
      let ctx := moveTo (x end_) (y end_) ctx in
      let ctx := lineTo (fst b1) (snd b1) ctx in
      let ctx := moveTo (x end_) (y end_) ctx in
      let ctx := lineTo (fst b2) (snd b2) ctx in
      stroke ctx
  | Rect =>
      let rectW := (x end_ - x start)%Q in
      let rectH := (y end_ - y start)%Q in
      let ctx := if filled then fillRect (x start) (y start) rectW rectH ctx else ctx in
      strokeRect (x start) (y start) rectW rectH ctx
  | Circle =>
      let radiusX := (Qabs (x end_ - x start) / 2)%Q in
      let radiusY := (Qabs (y end_ - y start) / 2)%Q in
      let centerX := (x start + (x end_ - x start) / 2)%Q in
      let centerY := (y start + (y end_ - y start) / 2)%Q in
      let ctx := ellipse centerX centerY radiusX radiusY ctx in
      let ctx := if filled then fill ctx else ctx in
      stroke ctx
  | Pen | Eraser => ctx
  end.

Definition clearPreviewCanvas (s : State) : State :=
  let p := previewCanvas s in
  set_previewCanvas
    (clearRect 0 0 (inject_Z (canvas_width p)) (inject_Z (canvas_height p)) p) s.

Definition handlePointerDown (e : PointerEvent) (s : State) : State :=
  if negb (isEditing s) then s else
  let s := setIsDrawing true s in
  let point := getCanvasPoint e s in
  let s := set_lastPoint (Some point) s in
  if isShapeTool (tool s) then set_shapeStartPoint (Some point) s else s.

Definition handlePointerMove (e : PointerEvent) (s : State) : State :=
  if negb (isDrawing s) || negb (isEditing s) then s else
  let currentPoint := getCanvasPoint e s in
  if isShapeTool (tool s) then
    match shapeStartPoint s with
    | None => s
    | Some start =>
        let s := clearPreviewCanvas s in
        set_previewCanvas (drawShape s (previewCanvas s) start currentPoint (tool s) true) s
    end
  else
    match lastPoint s with
    | None => s
    | Some last =>
        let s := set_canvas (drawLine s last currentPoint (canvas s)) s in
        set_lastPoint (Some currentPoint) s
    end.

(** Also bound to [onPointerLeave]. *)
Definition handlePointerUp (e : PointerEvent) (s : State) : State :=
  if negb (isDrawing s) then s else
  let s :=
    match isShapeTool (tool s), shapeStartPoint s with
    | true, Some start =>
        let endPoint := getCanvasPoint e s in
        let s := set_canvas (drawShape s (canvas s) start endPoint (tool s) false) s in
        let s := clearPreviewCanvas s in
        set_shapeStartPoint None s
    | _, _ => s
    end in
  let s := setIsDrawing false s in
  let s := set_lastPoint None s in
  saveToHistory s.

Definition handleSave (s : State) : State :=
  let dataUrl := encode (pixels (canvas s)) in
  setIsEditing false (set_updates (updates s ++ [dataUrl]) s).

Definition handleClear (s : State) : State :=
  let s := set_canvas
             (drawBackground (canvas s) (canvas_width (canvas s)) (canvas_height (canvas s))
                (background s) (isDarkMode s)) s in
  saveToHistory s.

(** A completed gesture: tool-bar settings chosen beforehand, one
    pointer-down, the moves, and the pointer-up (or pointer-leave). *)
Record Gesture := mkGesture {
  g_tool : ToolType;
  g_color : Color;
  g_brushSize : Q;
  g_fill : bool;
  g_down : PointerEvent;
  g_moves : list PointerEvent;
  g_up : PointerEvent
}.

Definition configure (g : Gesture) (s : State) : State :=
  setFillShape (g_fill g) (setBrushSize (g_brushSize g) (setColor (g_color g) (setTool (g_tool g) s))).

Definition moves (es : list PointerEvent) (s : State) : State :=
  fold_left (fun st e => handlePointerMove e st) es s.

Definition gesture (g : Gesture) (s : State) : State :=
  handlePointerUp (g_up g) (moves (g_moves g) (handlePointerDown (g_down g) (configure g s))).


(** [n] presses of undo (redo), stopping at the first exception. *)
Fixpoint undos (n : nat) (s : State) : Js.Outcome State :=
  match n with
  | O => Js.Ok s
  | S n' => s' <- undo s ;; undos n' s'
  end.

Fixpoint redos (n : nat) (s : State) : Js.Outcome State :=
  match n with
  | O => Js.Ok s
  | S n' => s' <- redo s ;; redos n' s'
  end.

(** Stacking of the three canvases in the rendered markup, bottom first. *)
Definition layers (s : State) : list Pixels :=
  [pixels (bgCanvas s); pixels (canvas s); pixels (previewCanvas s)].

(** [img.onload] inside [handleInsertImage]: the picture is scaled by
    [Math.min(canvas.width / img.width, canvas.height / img.height, 1)],
    centred and drawn, and the result is saved.  When the scale is not a
    finite number, so are the arguments of [drawImage], which then
    returns without drawing. *)
Definition handleInsertImage (img : Pixels) (s : State) : State :=
  let cw := inject_Z (canvas_width (canvas s)) in
  let ch := inject_Z (canvas_height (canvas s)) in
  let iw := inject_Z (fst (dims img)) in
  let ih := inject_Z (snd (dims img)) in
  let s :=
    match Js.min (Js.min (Js.div cw iw) (Js.div ch ih)) (Js.Fin 1) with
    | Js.Fin scale =>
        let width := (iw * scale)%Q in
        let height := (ih * scale)%Q in
        let x := ((cw - width) / 2)%Q in
        let y := ((ch - height) / 2)%Q in
        set_canvas (drawImageScaled img x y width height (canvas s)) s
    | _ => s
    end in
  saveToHistory s.

(** The listeners of the ink canvas: a click outside edit mode enters it. *)
Definition onCanvas (i : CanvasInput) (s : State) : State :=
  match i with
  | OnPointerDown e => handlePointerDown e s
  | OnPointerMove e => handlePointerMove e s
  | OnPointerUp e => handlePointerUp e s
  | OnPointerLeave e => handlePointerUp e s
  | OnClick => if negb (isEditing s) then setIsEditing true s else s
  end.

Definition inputs (l : list CanvasInput) (s : State) : State :=
  fold_left (fun st i => onCanvas i st) l s.

(** The [keydown] listener of the window. *)
Definition handleKeyDown (e : KeyboardEvent) (s : State) : Js.Outcome State :=
  if negb (isEditing s) then Js.Ok s
  else if ctrlKey e && String.eqb (key e) "z" then
    if shiftKey e then redo s else undo s
  else Js.Ok s.

(** A run of key presses, stopping at the first exception. *)
Fixpoint keys (es : list KeyboardEvent) (s : State) : Js.Outcome State :=
  match es with
  | [] => Js.Ok s
  | e :: rest => s' <- handleKeyDown e s ;; keys rest s'
  end.

(** What changes the ink layer of a cell in edit mode and saves it: a
    completed gesture, the clear button, an inserted picture once loaded. *)
Inductive Action :=
| Stroke (g : Gesture)
| Clear
| Insert (img : Pixels).

Definition act (a : Action) (s : State) : State :=
  match a with
  | Stroke g => gesture g s
  | Clear => handleClear s
  | Insert img => handleInsertImage img s
  end.

Definition acts (l : list Action) (s : State) : State :=
  fold_left (fun st a => act a st) l s.

End Component.

Arguments drawBackground : simpl never.
Arguments drawLine : simpl never.
Arguments drawShape : simpl never.
Arguments getCanvasPoint : simpl never.

End DrawingCell.

(* ------------------------------------------------------------------ *)
(** ** The mini drawing cell ([MiniDrawing] of the mini notebook) *)

Module MiniDrawing.
Import Canvas2D Types Ruling.

Inductive MiniToolType := Pen | Eraser | Line | Rect | Circle | Arrow.

Record Point := mkPoint { x : Q; y : Q }.

Definition CANVAS_WIDTH : Z := 400.

Section Component.
Context {B : Backend} {T : Trig}.

(** Props, hook state and refs of one mounted mini cell; the component
    declares no history refs.  [updates] records the calls of [onUpdate]. *)
Record State := mkState {
  cell_dataUrl : string;
  canvas : Ctx;
  bgCanvas : Ctx;
  previewCanvas : Ctx;
  isDrawing : bool;
  isEditing : bool;
  isResizing : bool;
  color : Color;
  brushSize : Q;
  tool : MiniToolType;
  fillShape : bool;
  canvasHeight : Z;
  background : BackgroundType;
  lastPoint : option Point;
  shapeStartPoint : option Point;
  resizeStartY : Z;
  resizeStartHeight : Z;
  loading : list Pixels;
  updates : list (string * Z * BackgroundType)
}.

Definition set_canvas (c : Ctx) (s : State) : State :=
  mkState (cell_dataUrl s) c (bgCanvas s) (previewCanvas s) (isDrawing s) (isEditing s)
    (isResizing s) (color s) (brushSize s) (tool s) (fillShape s) (canvasHeight s)
    (background s) (lastPoint s) (shapeStartPoint s) (resizeStartY s) (resizeStartHeight s)
    (loading s) (updates s).
Definition set_bgCanvas (c : Ctx) (s : State) : State :=
  mkState (cell_dataUrl s) (canvas s) c (previewCanvas s) (isDrawing s) (isEditing s)
    (isResizing s) (color s) (brushSize s) (tool s) (fillShape s) (canvasHeight s)
    (background s) (lastPoint s) (shapeStartPoint s) (resizeStartY s) (resizeStartHeight s)
    (loading s) (updates s).
Definition set_previewCanvas (c : Ctx) (s : State) : State :=
  mkState (cell_dataUrl s) (canvas s) (bgCanvas s) c (isDrawing s) (isEditing s)
    (isResizing s) (color s) (brushSize s) (tool s) (fillShape s) (canvasHeight s)
    (background s) (lastPoint s) (shapeStartPoint s) (resizeStartY s) (resizeStartHeight s)
    (loading s) (updates s).
Definition setIsDrawing (b : bool) (s : State) : State :=
  mkState (cell_dataUrl s) (canvas s) (bgCanvas s) (previewCanvas s) b (isEditing s)
    (isResizing s) (color s) (brushSize s) (tool s) (fillShape s) (canvasHeight s)
    (background s) (lastPoint s) (shapeStartPoint s) (resizeStartY s) (resizeStartHeight s)
    (loading s) (updates s).
Definition set_isEditing (b : bool) (s : State) : State :=
  mkState (cell_dataUrl s) (canvas s) (bgCanvas s) (previewCanvas s) (isDrawing s) b
    (isResizing s) (color s) (brushSize s) (tool s) (fillShape s) (canvasHeight s)
    (background s) (lastPoint s) (shapeStartPoint s) (resizeStartY s) (resizeStartHeight s)
    (loading s) (updates s).
Definition setIsResizing (b : bool) (s : State) : State :=
  mkState (cell_dataUrl s) (canvas s) (bgCanvas s) (previewCanvas s) (isDrawing s) (isEditing s)
    b (color s) (brushSize s) (tool s) (fillShape s) (canvasHeight s)
    (background s) (lastPoint s) (shapeStartPoint s) (resizeStartY s) (resizeStartHeight s)
    (loading s) (updates s).
Definition setColor (c : Color) (s : State) : State :=
  mkState (cell_dataUrl s) (canvas s) (bgCanvas s) (previewCanvas s) (isDrawing s) (isEditing s)
    (isResizing s) c (brushSize s) (tool s) (fillShape s) (canvasHeight s)
    (background s) (lastPoint s) (shapeStartPoint s) (resizeStartY s) (resizeStartHeight s)
    (loading s) (updates s).
Definition setBrushSize (n : Q) (s : State) : State :=
  mkState (cell_dataUrl s) (canvas s) (bgCanvas s) (previewCanvas s) (isDrawing s) (isEditing s)
    (isResizing s) (color s) n (tool s) (fillShape s) (canvasHeight s)
    (background s) (lastPoint s) (shapeStartPoint s) (resizeStartY s) (resizeStartHeight s)
    (loading s) (updates s).
Definition setTool (t : MiniToolType) (s : State) : State :=
  mkState (cell_dataUrl s) (canvas s) (bgCanvas s) (previewCanvas s) (isDrawing s) (isEditing s)
    (isResizing s) (color s) (brushSize s) t (fillShape s) (canvasHeight s)
    (background s) (lastPoint s) (shapeStartPoint s) (resizeStartY s) (resizeStartHeight s)
    (loading s) (updates s).
Definition setFillShape (b : bool) (s : State) : State :=
  mkState (cell_dataUrl s) (canvas s) (bgCanvas s) (previewCanvas s) (isDrawing s) (isEditing s)
    (isResizing s) (color s) (brushSize s) (tool s) b (canvasHeight s)
    (background s) (lastPoint s) (shapeStartPoint s) (resizeStartY s) (resizeStartHeight s)
    (loading s) (updates s).
Definition set_canvasHeight (h : Z) (s : State) : State :=
  mkState (cell_dataUrl s) (canvas s) (bgCanvas s) (previewCanvas s) (isDrawing s) (isEditing s)
    (isResizing s) (color s) (brushSize s) (tool s) (fillShape s) h
    (background s) (lastPoint s) (shapeStartPoint s) (resizeStartY s) (resizeStartHeight s)
    (loading s) (updates s).
Definition set_background (b : BackgroundType) (s : State) : State :=
  mkState (cell_dataUrl s) (canvas s) (bgCanvas s) (previewCanvas s) (isDrawing s) (isEditing s)
    (isResizing s) (color s) (brushSize s) (tool s) (fillShape s) (canvasHeight s)
    b (lastPoint s) (shapeStartPoint s) (resizeStartY s) (resizeStartHeight s)
    (loading s) (updates s).
Definition set_lastPoint (p : option Point) (s : State) : State :=
  mkState (cell_dataUrl s) (canvas s) (bgCanvas s) (previewCanvas s) (isDrawing s) (isEditing s)
    (isResizing s) (color s) (brushSize s) (tool s) (fillShape s) (canvasHeight s)
    (background s) p (shapeStartPoint s) (resizeStartY s) (resizeStartHeight s)
    (loading s) (updates s).
Definition set_shapeStartPoint (p : option Point) (s : State) : State :=
  mkState (cell_dataUrl s) (canvas s) (bgCanvas s) (previewCanvas s) (isDrawing s) (isEditing s)
    (isResizing s) (color s) (brushSize s) (tool s) (fillShape s) (canvasHeight s)
    (background s) (lastPoint s) p (resizeStartY s) (resizeStartHeight s)
    (loading s) (updates s).
Definition set_resizeStart (y0 h0 : Z) (s : State) : State :=
  mkState (cell_dataUrl s) (canvas s) (bgCanvas s) (previewCanvas s) (isDrawing s) (isEditing s)
    (isResizing s) (color s) (brushSize s) (tool s) (fillShape s) (canvasHeight s)
    (background s) (lastPoint s) (shapeStartPoint s) y0 h0
    (loading s) (updates s).
Definition set_loading (l : list Pixels) (s : State) : State :=
  mkState (cell_dataUrl s) (canvas s) (bgCanvas s) (previewCanvas s) (isDrawing s) (isEditing s)
    (isResizing s) (color s) (brushSize s) (tool s) (fillShape s) (canvasHeight s)
    (background s) (lastPoint s) (shapeStartPoint s) (resizeStartY s) (resizeStartHeight s)
    l (updates s).
Definition set_updates (l : list (string * Z * BackgroundType)) (s : State) : State :=
  mkState (cell_dataUrl s) (canvas s) (bgCanvas s) (previewCanvas s) (isDrawing s) (isEditing s)
    (isResizing s) (color s) (brushSize s) (tool s) (fillShape s) (canvasHeight s)
    (background s) (lastPoint s) (shapeStartPoint s) (resizeStartY s) (resizeStartHeight s)
    (loading s) l.

Definition isShapeTool (t : MiniToolType) : bool :=
  match t with
  | Line | Rect | Circle | Arrow => true
  | Pen | Eraser => false
  end.

Definition drawBackground (ctx : Ctx) (width height : Z) (bgType : BackgroundType) : Ctx :=
  let gridColor : Color := "#e5e7eb" in
  let ctx := set_fillStyle "#ffffff" ctx in
  let ctx := fillRect 0 0 (inject_Z width) (inject_Z height) ctx in
  let ctx := set_strokeStyle gridColor ctx in
  let ctx := set_fillStyle gridColor ctx in
  let ctx := set_lineWidth 1 ctx in
  match bgType with
  | Blank => ctx
  | Grid =>
      let ctx := for_grid width (vline height) ctx in
      for_grid height (hline width) ctx
  | Lines => for_grid height (hline width) ctx
  | Dots => for_grid width (fun x c => for_grid height (fun y c' => dot x y c') c) ctx
  end.

(** The "Initialize canvases" effect. *)
Definition initEffect (s : State) : State :=
  let s := set_bgCanvas (drawBackground (bgCanvas s) CANVAS_WIDTH (canvasHeight s) (background s)) s in
  if Js.truthy (cell_dataUrl s) then
    match decode (cell_dataUrl s) with
    | Some img => set_loading (loading s ++ [img]) s
    | None => s
    end
  else
    set_canvas (drawBackground (canvas s) CANVAS_WIDTH (canvasHeight s) (background s)) s.

(** [img.onload] of the init effect, for the first parked image. *)
Definition onload (s : State) : State :=
  match loading s with
  | [] => s
  | img :: rest =>
      let s := set_loading rest s in
      let c := drawBackground (canvas s) CANVAS_WIDTH (canvasHeight s) (background s) in
      set_canvas (drawImage img 0 0 c) s
  end.

(** The "Update background when it changes" effect. *)
Definition backgroundEffect (s : State) : State :=
  set_bgCanvas (drawBackground (bgCanvas s) CANVAS_WIDTH (canvasHeight s) (background s)) s.

Definition setIsEditing (b : bool) (s : State) : State :=
  if Bool.eqb b (isEditing s) then s else initEffect (set_isEditing b s).

Definition setBackground (b : BackgroundType) (s : State) : State :=
  if bg_eqb b (background s) then s
  else backgroundEffect (initEffect (set_background b s)).

(** A new height re-renders the three canvas elements with a new
    [height] attribute, which resets their bitmaps and contexts, and
    re-runs both effects. *)
Definition setCanvasHeight (h : Z) (s : State) : State :=
  if h =? canvasHeight s then s else
  let s := set_canvasHeight h s in
  let s := set_canvas (fresh CANVAS_WIDTH h) s in
  let s := set_bgCanvas (fresh CANVAS_WIDTH h) s in
  let s := set_previewCanvas (fresh CANVAS_WIDTH h) s in
  backgroundEffect (initEffect s).

(** [cell.height || 150] and [cell.background || 'blank']. *)
Definition mount (dataUrl : string) (height : Z) (bg : BackgroundType) : State :=
  let h := if height =? 0 then 150 else height in
  let s := mkState dataUrl (fresh CANVAS_WIDTH h) (fresh CANVAS_WIDTH h) (fresh CANVAS_WIDTH h)
             false (negb (Js.truthy dataUrl)) false "#000000" 2 Pen false h bg
             None None 0 0 [] [] in
  backgroundEffect (initEffect s).

Definition getCanvasPoint (e : PointerEvent) (s : State) : Point :=
  mkPoint ((clientX e - rect_left e) * (inject_Z (canvas_width (canvas s)) / rect_width e))%Q
          ((clientY e - rect_top e) * (inject_Z (canvas_height (canvas s)) / rect_height e))%Q.

Definition drawShape (s : State) (ctx : Ctx) (start end_ : Point) (shapeType : MiniToolType)
    (preview : bool) : Ctx :=
  let ctx := beginPath ctx in
  let ctx := set_strokeStyle (color s) ctx in
  let ctx := set_lineWidth (brushSize s) ctx in
  let ctx := set_lineCap CapRound ctx in
  let filled := fillShape s && negb preview in
  let ctx := if filled then set_fillStyle (color s) ctx else ctx in
  match shapeType with
  | Line =>
      stroke (lineTo (x end_) (y end_) (moveTo (x start) (y start) ctx))
  | Arrow =>
      let ctx := stroke (lineTo (x end_) (y end_) (moveTo (x start) (y start) ctx)) in
      let headLen := Qmax 8 (brushSize s * 3) in
      let b1 := barb headLen (x start, y start) (x end_, y end_) false in
      let b2 := barb headLen (x start, y start) (x end_, y end_) true in
      let ctx := beginPath ctx in
      let ctx := moveTo (x end_) (y end_) ctx in
      let ctx := lineTo (fst b1) (snd b1) ctx in
      let ctx := moveTo (x end_) (y end_) ctx in
      let ctx := lineTo (fst b2) (snd b2) ctx in
      stroke ctx
  | Rect =>
      let ctx :=
        if filled
        then fillRect (x start) (y start) (x end_ - x start)%Q (y end_ - y start)%Q ctx
        else ctx in
      strokeRect (x start) (y start) (x end_ - x start)%Q (y end_ - y start)%Q ctx
  | Circle =>
      let rx := (Qabs (x end_ - x start) / 2)%Q in
      let ry := (Qabs (y end_ - y start) / 2)%Q in
      let cx := (x start + (x end_ - x start) / 2)%Q in
      let cy := (y start + (y end_ - y start) / 2)%Q in
      let ctx := ellipse cx cy rx ry ctx in
      let ctx := if filled then fill ctx else ctx in
      stroke ctx
  | Pen | Eraser => ctx
  end.

Definition clearPreview (s : State) : State :=
  let p := previewCanvas s in
  set_previewCanvas
    (clearRect 0 0 (inject_Z (canvas_width p)) (inject_Z (canvas_height p)) p) s.

Definition handlePointerDown (e : PointerEvent) (s : State) : State :=
  if negb (isEditing s) then s else
  let s := setIsDrawing true s in
  let point := getCanvasPoint e s in
  let s := set_lastPoint (Some point) s in
  if isShapeTool (tool s) then set_shapeStartPoint (Some point) s else s.

Definition handlePointerMove (e : PointerEvent) (s : State) : State :=
  if negb (isDrawing s) || negb (isEditing s) then s else
  let currentPoint := getCanvasPoint e s in
  if isShapeTool (tool s) then
    match shapeStartPoint s with
    | None => s
    | Some start =>
        let s := clearPreview s in
        set_previewCanvas (drawShape s (previewCanvas s) start currentPoint (tool s) true) s
    end
  else
    match lastPoint s with
    | None => s
    | Some last =>
        let ctx := beginPath (canvas s) in
        let ctx := moveTo (x last) (y last) ctx in
        let ctx := lineTo (x currentPoint) (y currentPoint) ctx in
        let ctx := set_strokeStyle (match tool s with Eraser => "#ffffff" | _ => color s end) ctx in
        let ctx := set_lineWidth
                     (match tool s with Eraser => (brushSize s * 8)%Q | _ => brushSize s end) ctx in
        let ctx := set_lineCap CapRound ctx in
        let ctx := stroke ctx in
        set_lastPoint (Some currentPoint) (set_canvas ctx s)
    end.

(** Also bound to [onPointerLeave]. *)
Definition handlePointerUp (e : PointerEvent) (s : State) : State :=
  if negb (isDrawing s) then s else
  let s :=
    match isShapeTool (tool s), shapeStartPoint s with
    | true, Some start =>
        let s := set_canvas (drawShape s (canvas s) start (getCanvasPoint e s) (tool s) false) s in
        let s := clearPreview s in
        set_shapeStartPoint None s
    | _, _ => s
    end in
  let s := setIsDrawing false s in
  set_lastPoint None s.

Definition handleSave (s : State) : State :=
  let s := set_updates
             (updates s ++ [(encode (pixels (canvas s)), canvasHeight s, background s)]) s in
  setIsEditing false s.

Definition handleClear (s : State) : State :=
  set_canvas (drawBackground (canvas s) CANVAS_WIDTH (canvasHeight s) (background s)) s.

(** The resize handle; [y] is [e.clientY]. *)
Definition handleResizeStart (y : Z) (s : State) : State :=
  let s := setIsResizing true s in
  set_resizeStart y (canvasHeight s) s.

Definition handleMouseMove (y : Z) (s : State) : State :=
  let deltaY := y - resizeStartY s in
  let newHeight := Z.max 100 (Z.min 600 (resizeStartHeight s + deltaY)) in
  setCanvasHeight newHeight s.

Definition handleMouseUp (s : State) : State := setIsResizing false s.

(** The window listeners exist only while [isResizing] holds. *)
Definition mouseMove (y : Z) (s : State) : State :=
  if isResizing s then handleMouseMove y s else s.

Definition mouseUp (s : State) : State :=
  if isResizing s then handleMouseUp s else s.

(** One drag of the resize handle: press at [y0], then the moves. *)
Definition drag (y0 : Z) (ys : list Z) (s : State) : State :=
  fold_left (fun st y => mouseMove y st) ys (handleResizeStart y0 s).

Definition moves (es : list PointerEvent) (s : State) : State :=
  fold_left (fun st e => handlePointerMove e st) es s.

Definition gesture (down : PointerEvent) (ms : list PointerEvent) (up : PointerEvent)
    (s : State) : State :=
  handlePointerUp up (moves ms (handlePointerDown down s)).

(** Stacking of the three canvases in the rendered markup, bottom first. *)
Definition layers (s : State) : list Pixels :=
  [pixels (bgCanvas s); pixels (canvas s); pixels (previewCanvas s)].

(** The listeners of the ink canvas: a click outside edit mode enters it. *)
Definition onCanvas (i : CanvasInput) (s : State) : State :=
  match i with
  | OnPointerDown e => handlePointerDown e s
  | OnPointerMove e => handlePointerMove e s
  | OnPointerUp e => handlePointerUp e s
  | OnPointerLeave e => handlePointerUp e s
  | OnClick => if negb (isEditing s) then setIsEditing true s else s
  end.

Definition inputs (l : list CanvasInput) (s : State) : State :=
  fold_left (fun st i => onCanvas i st) l s.

End Component.

Arguments drawBackground : simpl never.
Arguments drawShape : simpl never.
Arguments getCanvasPoint : simpl never.

End MiniDrawing.

(* ------------------------------------------------------------------ *)
(** ** The PDF cell and its annotation overlay ([PDFCell]) *)

Module PDFCell.
Import Canvas2D Types Ruling.

Inductive Tool := Pen | Eraser | Highlighter.

Record PDFPage := mkPage {
  pageNumber : option Z;
  drawingDataUrl : string;
  isCustomPage : bool;
  customDrawingDataUrl : string
}.

(** The page-rendering collaborator (pdf.js): whether [getPage n]
    resolves, the canvas size of the viewport of page [n] scaled to a
    given canvas width, and the raster a completed render of page [n]
    leaves on the canvas. *)
Class PdfDocument {B : Backend} := {
  hasPage : Z -> bool;
  viewport : Z -> Z -> Z * Z;
  pageRaster : Z -> Z * Z -> Pixels
}.

(** A render task of pdf.js. *)
Inductive TaskState :=
| Running (page : Z) (size : Z * Z)
| Cancelled
| Finished
| Failed.

(** An activation of [renderPage] suspended at one of its two [await]s,
    with the page its closure captured. *)
Inductive Parked :=
| AwaitGetPage (p : PDFPage)
| AwaitRender (p : PDFPage) (task : nat).

Section Component.
Context {B : Backend} {D : PdfDocument}.

(** Props, hook state and refs of one mounted PDF cell, and the
    asynchronous work in flight: [tasks] are the render tasks created so
    far (a task's id is its position), [parked] the suspended activations
    of [renderPage], [loading] the overlay images whose [onload] has not
    fired, [console] the calls of [console.error]; [armed] tells whether
    the last run of the render effect returned its clean-up function. *)
Record State := mkState {
  pages : list PDFPage;
  currentPageIndex : Z;
  pdfDoc : bool;
  isDrawing : bool;
  isEditingDrawing : bool;
  color : Color;
  brushSize : Q;
  tool : Tool;
  isDarkMode : bool;
  customPageBackground : BackgroundType;
  pdfCanvas : Ctx;
  drawingCanvas : Ctx;
  renderTaskRef : option nat;
  armed : bool;
  lastPoint : option Point;
  history : History.Refs;
  tasks : list TaskState;
  parked : list Parked;
  loading : list Pixels;
  console : list string;
  updates : list (list PDFPage)
}.

Definition set_pages (v : list PDFPage) (s : State) : State :=
  mkState v (currentPageIndex s) (pdfDoc s) (isDrawing s) (isEditingDrawing s) (color s)
    (brushSize s) (tool s) (isDarkMode s) (customPageBackground s) (pdfCanvas s)
    (drawingCanvas s) (renderTaskRef s) (armed s) (lastPoint s) (history s) (tasks s)
    (parked s) (loading s) (console s) (updates s).
Definition set_currentPageIndex (v : Z) (s : State) : State :=
  mkState (pages s) v (pdfDoc s) (isDrawing s) (isEditingDrawing s) (color s) (brushSize s)
    (tool s) (isDarkMode s) (customPageBackground s) (pdfCanvas s) (drawingCanvas s)
    (renderTaskRef s) (armed s) (lastPoint s) (history s) (tasks s) (parked s) (loading s)
    (console s) (updates s).
Definition set_pdfDoc (v : bool) (s : State) : State :=
  mkState (pages s) (currentPageIndex s) v (isDrawing s) (isEditingDrawing s) (color s)
    (brushSize s) (tool s) (isDarkMode s) (customPageBackground s) (pdfCanvas s)
    (drawingCanvas s) (renderTaskRef s) (armed s) (lastPoint s) (history s) (tasks s)
    (parked s) (loading s) (console s) (updates s).
Definition set_isDrawing (v : bool) (s : State) : State :=
  mkState (pages s) (currentPageIndex s) (pdfDoc s) v (isEditingDrawing s) (color s)
    (brushSize s) (tool s) (isDarkMode s) (customPageBackground s) (pdfCanvas s)
    (drawingCanvas s) (renderTaskRef s) (armed s) (lastPoint s) (history s) (tasks s)
    (parked s) (loading s) (console s) (updates s).
Definition set_isEditingDrawing (v : bool) (s : State) : State :=
  mkState (pages s) (currentPageIndex s) (pdfDoc s) (isDrawing s) v (color s) (brushSize s)
    (tool s) (isDarkMode s) (customPageBackground s) (pdfCanvas s) (drawingCanvas s)
    (renderTaskRef s) (armed s) (lastPoint s) (history s) (tasks s) (parked s) (loading s)
    (console s) (updates s).
Definition set_color (v : Color) (s : State) : State :=
  mkState (pages s) (currentPageIndex s) (pdfDoc s) (isDrawing s) (isEditingDrawing s) v
    (brushSize s) (tool s) (isDarkMode s) (customPageBackground s) (pdfCanvas s)
    (drawingCanvas s) (renderTaskRef s) (armed s) (lastPoint s) (history s) (tasks s)
    (parked s) (loading s) (console s) (updates s).
Definition set_brushSize (v : Q) (s : State) : State :=
  mkState (pages s) (currentPageIndex s) (pdfDoc s) (isDrawing s) (isEditingDrawing s)
    (color s) v (tool s) (isDarkMode s) (customPageBackground s) (pdfCanvas s)
    (drawingCanvas s) (renderTaskRef s) (armed s) (lastPoint s) (history s) (tasks s)
    (parked s) (loading s) (console s) (updates s).
Definition set_tool (v : Tool) (s : State) : State :=
  mkState (pages s) (currentPageIndex s) (pdfDoc s) (isDrawing s) (isEditingDrawing s)
    (color s) (brushSize s) v (isDarkMode s) (customPageBackground s) (pdfCanvas s)
    (drawingCanvas s) (renderTaskRef s) (armed s) (lastPoint s) (history s) (tasks s)
    (parked s) (loading s) (console s) (updates s).
Definition set_isDarkMode (v : bool) (s : State) : State :=
  mkState (pages s) (currentPageIndex s) (pdfDoc s) (isDrawing s) (isEditingDrawing s)
    (color s) (brushSize s) (tool s) v (customPageBackground s) (pdfCanvas s)
    (drawingCanvas s) (renderTaskRef s) (armed s) (lastPoint s) (history s) (tasks s)
    (parked s) (loading s) (console s) (updates s).
Definition set_customPageBackground (v : BackgroundType) (s : State) : State :=
  mkState (pages s) (currentPageIndex s) (pdfDoc s) (isDrawing s) (isEditingDrawing s)
    (color s) (brushSize s) (tool s) (isDarkMode s) v (pdfCanvas s) (drawingCanvas s)
    (renderTaskRef s) (armed s) (lastPoint s) (history s) (tasks s) (parked s) (loading s)
    (console s) (updates s).
Definition set_pdfCanvas (v : Ctx) (s : State) : State :=
  mkState (pages s) (currentPageIndex s) (pdfDoc s) (isDrawing s) (isEditingDrawing s)
    (color s) (brushSize s) (tool s) (isDarkMode s) (customPageBackground s) v
    (drawingCanvas s) (renderTaskRef s) (armed s) (lastPoint s) (history s) (tasks s)
    (parked s) (loading s) (console s) (updates s).
Definition set_drawingCanvas (v : Ctx) (s : State) : State :=
  mkState (pages s) (currentPageIndex s) (pdfDoc s) (isDrawing s) (isEditingDrawing s)
    (color s) (brushSize s) (tool s) (isDarkMode s) (customPageBackground s) (pdfCanvas s) v
    (renderTaskRef s) (armed s) (lastPoint s) (history s) (tasks s) (parked s) (loading s)
    (console s) (updates s).
Definition set_renderTaskRef (v : option nat) (s : State) : State :=
  mkState (pages s) (currentPageIndex s) (pdfDoc s) (isDrawing s) (isEditingDrawing s)
    (color s) (brushSize s) (tool s) (isDarkMode s) (customPageBackground s) (pdfCanvas s)
    (drawingCanvas s) v (armed s) (lastPoint s) (history s) (tasks s) (parked s) (loading s)
    (console s) (updates s).
Definition set_armed (v : bool) (s : State) : State :=
  mkState (pages s) (currentPageIndex s) (pdfDoc s) (isDrawing s) (isEditingDrawing s)
    (color s) (brushSize s) (tool s) (isDarkMode s) (customPageBackground s) (pdfCanvas s)
    (drawingCanvas s) (renderTaskRef s) v (lastPoint s) (history s) (tasks s) (parked s)
    (loading s) (console s) (updates s).
Definition set_lastPoint (v : option Point) (s : State) : State :=
  mkState (pages s) (currentPageIndex s) (pdfDoc s) (isDrawing s) (isEditingDrawing s)
    (color s) (brushSize s) (tool s) (isDarkMode s) (customPageBackground s) (pdfCanvas s)
    (drawingCanvas s) (renderTaskRef s) (armed s) v (history s) (tasks s) (parked s)
    (loading s) (console s) (updates s).
Definition set_history (v : History.Refs) (s : State) : State :=
  mkState (pages s) (currentPageIndex s) (pdfDoc s) (isDrawing s) (isEditingDrawing s)
    (color s) (brushSize s) (tool s) (isDarkMode s) (customPageBackground s) (pdfCanvas s)
    (drawingCanvas s) (renderTaskRef s) (armed s) (lastPoint s) v (tasks s) (parked s)
    (loading s) (console s) (updates s).
Definition set_tasks (v : list TaskState) (s : State) : State :=
  mkState (pages s) (currentPageIndex s) (pdfDoc s) (isDrawing s) (isEditingDrawing s)
    (color s) (brushSize s) (tool s) (isDarkMode s) (customPageBackground s) (pdfCanvas s)
    (drawingCanvas s) (renderTaskRef s) (armed s) (lastPoint s) (history s) v (parked s)
    (loading s) (console s) (updates s).
Definition set_parked (v : list Parked) (s : State) : State :=
  mkState (pages s) (currentPageIndex s) (pdfDoc s) (isDrawing s) (isEditingDrawing s)
    (color s) (brushSize s) (tool s) (isDarkMode s) (customPageBackground s) (pdfCanvas s)
    (drawingCanvas s) (renderTaskRef s) (armed s) (lastPoint s) (history s) (tasks s) v
    (loading s) (console s) (updates s).
Definition set_loading (v : list Pixels) (s : State) : State :=
  mkState (pages s) (currentPageIndex s) (pdfDoc s) (isDrawing s) (isEditingDrawing s)
    (color s) (brushSize s) (tool s) (isDarkMode s) (customPageBackground s) (pdfCanvas s)
    (drawingCanvas s) (renderTaskRef s) (armed s) (lastPoint s) (history s) (tasks s)
    (parked s) v (console s) (updates s).
Definition set_console (v : list string) (s : State) : State :=
  mkState (pages s) (currentPageIndex s) (pdfDoc s) (isDrawing s) (isEditingDrawing s)
    (color s) (brushSize s) (tool s) (isDarkMode s) (customPageBackground s) (pdfCanvas s)
    (drawingCanvas s) (renderTaskRef s) (armed s) (lastPoint s) (history s) (tasks s)
    (parked s) (loading s) v (updates s).
Definition set_updates (v : list (list PDFPage)) (s : State) : State :=
  mkState (pages s) (currentPageIndex s) (pdfDoc s) (isDrawing s) (isEditingDrawing s)
    (color s) (brushSize s) (tool s) (isDarkMode s) (customPageBackground s) (pdfCanvas s)
    (drawingCanvas s) (renderTaskRef s) (armed s) (lastPoint s) (history s) (tasks s)
    (parked s) (loading s) (console s) v.

Definition currentPage (s : State) : option PDFPage :=
  Js.index (pages s) (currentPageIndex s).

Definition saveToHistory (s : State) : State :=
  set_history (History.saveToHistory (drawingCanvas s) (history s)) s.

Definition undo (s : State) : Js.Outcome State :=
  r <- History.undo (drawingCanvas s) (history s) ;;
  Js.Ok (set_history (snd r) (set_drawingCanvas (fst r) s)).

Definition redo (s : State) : Js.Outcome State :=
  r <- History.redo (drawingCanvas s) (history s) ;;
  Js.Ok (set_history (snd r) (set_drawingCanvas (fst r) s)).

(** [task.cancel()]: only a task that is still rendering is affected. *)
Definition cancel (t : nat) (s : State) : State :=
  match nth_error (tasks s) t with
  | Some (Running _ _) =>
      set_tasks (firstn t (tasks s) ++ Cancelled :: skipn (S t) (tasks s)) s
  | _ => s
  end.

Definition settle (t : nat) (st : TaskState) (s : State) : State :=
  set_tasks (firstn t (tasks s) ++ st :: skipn (S t) (tasks s)) s.

(** The custom-page branch of [renderPage] paints the base canvas. *)
Definition paintCustomPage (pdfCtx : Ctx) (bgType : BackgroundType) (dark : bool) : Ctx :=
  let bg : Color := if dark then "#1f2937" else "#ffffff" in
  let grid : Color := if dark then "#374151" else "#e5e7eb" in
  let width := canvas_width pdfCtx in
  let height := canvas_height pdfCtx in
  let ctx := set_fillStyle bg pdfCtx in
  let ctx := fillRect 0 0 (inject_Z width) (inject_Z height) ctx in
  match bgType with
  | Blank => ctx
  | Grid =>
      let ctx := set_strokeStyle grid ctx in
      let ctx := set_lineWidth 1 ctx in
      let ctx := for_grid width (vline height) ctx in
      for_grid height (hline width) ctx
  | Lines =>
      let ctx := set_strokeStyle grid ctx in
      let ctx := set_lineWidth 1 ctx in
      for_grid height (hline width) ctx
  | Dots =>
      let ctx := set_fillStyle grid ctx in
      for_grid width (fun x c => for_grid height (fun y c' => dot x y c') c) ctx
  end.

Definition clearDrawing (s : State) : State :=
  let d := drawingCanvas s in
  set_drawingCanvas
    (clearRect 0 0 (inject_Z (canvas_width d)) (inject_Z (canvas_height d)) d) s.

(** "Load drawing overlay if exists" for the payload [url]: either the
    image is parked until its [onload], or the overlay is cleared and
    saved at once. *)
Definition loadOverlay (url : string) (s : State) : State :=
  if Js.truthy url then
    match decode url with
    | Some img => set_loading (loading s ++ [img]) s
    | None => s
    end
  else saveToHistory (clearDrawing s).

(** [img.onload] of an overlay image, for the first parked image. *)
Definition onload (s : State) : State :=
  match loading s with
  | [] => s
  | img :: rest =>
      let s := set_loading rest s in
      let s := clearDrawing s in
      let s := set_drawingCanvas (drawImage img 0 0 (drawingCanvas s)) s in
      saveToHistory s
  end.

(** [renderPage()] up to its first [await]; [page] is the [currentPage]
    its closure captured. *)
Definition renderPage (page : PDFPage) (s : State) : State :=
  let s :=
    match renderTaskRef s with
    | Some t => set_renderTaskRef None (cancel t s)
    | None => s
    end in
  if isCustomPage page then
    let s := set_pdfCanvas
               (paintCustomPage (pdfCanvas s) (customPageBackground s) (isDarkMode s)) s in
    loadOverlay (customDrawingDataUrl page) s
  else
    match pageNumber page with
    | Some _ => set_parked (parked s ++ [AwaitGetPage page]) s
    | None => s
    end.

(** The clean-up function the render effect returns. *)
Definition cleanup (s : State) : State :=
  match renderTaskRef s with
  | Some t => cancel t s
  | None => s
  end.

(** One run of the "Render current page" effect after its dependencies
    changed: the clean-up of the previous run, if that run returned one,
    then the body. *)
Definition renderEffect (s : State) : State :=
  let s := if armed s then cleanup s else s in
  match pdfDoc s, currentPage s with
  | true, Some page => set_armed true (renderPage page s)
  | _, _ => set_armed false s
  end.

Definition remove_nth {A : Type} (k : nat) (l : list A) : list A :=
  firstn k l ++ skipn (S k) l.

(** The [k]-th parked activation resumes after [await pdfDoc.getPage]. *)
Definition resumeGetPage (k : nat) (s : State) : State :=
  match nth_error (parked s) k with
  | Some (AwaitGetPage page) =>
      let s := set_parked (remove_nth k (parked s)) s in
      match pageNumber page with
      | None => s
      | Some n =>
          if hasPage n then
            let size := viewport n (canvas_width (pdfCanvas s)) in
            let s := set_pdfCanvas (fresh (fst size) (snd size)) s in
            let s := set_drawingCanvas (fresh (fst size) (snd size)) s in
            let t := List.length (tasks s) in
            let s := set_tasks (tasks s ++ [Running n size]) s in
            let s := set_renderTaskRef (Some t) s in
            set_parked (parked s ++ [AwaitRender page t]) s
          else
            set_console (console s ++ ["Error rendering page:"]) s
      end
  | _ => s
  end.

(** The [k]-th parked activation resumes after [await renderTask.promise]:
    a cancelled task rejects with [RenderingCancelledException], which the
    handler drops; a running task either completes ([ok]) or fails. *)
Definition resumeRender (k : nat) (ok : bool) (s : State) : State :=
  match nth_error (parked s) k with
  | Some (AwaitRender page t) =>
      match nth_error (tasks s) t with
      | Some Cancelled => set_parked (remove_nth k (parked s)) s
      | Some (Running n size) =>
          let s := set_parked (remove_nth k (parked s)) s in
          if ok then
            let s := settle t Finished s in
            let s := set_pdfCanvas
                       (putImageData (pageRaster n size) (pdfCanvas s)) s in
            loadOverlay (drawingDataUrl page) s
          else
            let s := settle t Failed s in
            set_console (console s ++ ["Error rendering page:"]) s
      | _ => s
      end
  | _ => s
  end.

Definition setCurrentPageIndex (i : Z) (s : State) : State :=
  if i =? currentPageIndex s then s else renderEffect (set_currentPageIndex i s).

Definition setIsDarkMode (b : bool) (s : State) : State :=
  if Bool.eqb b (isDarkMode s) then s else renderEffect (set_isDarkMode b s).

Definition setCustomPageBackground (b : BackgroundType) (s : State) : State :=
  if bg_eqb b (customPageBackground s) then s
  else renderEffect (set_customPageBackground b s).

Definition setPdfDoc (s : State) : State :=
  renderEffect (set_pdfDoc true s).

(** The parent replaces [cell.pages] (after [onUpdate]). *)
Definition setPages (ps : list PDFPage) (s : State) : State :=
  renderEffect (set_pages ps s).

Definition mount (ps : list PDFPage) : State :=
  mkState ps 0 false false false "#ef4444" 3 Pen false Lines
    (fresh 800 1000) (fresh 800 1000) None false None History.empty [] [] [] [] [].

Definition getCanvasPoint (e : PointerEvent) (s : State) : Point :=
  let scaleX := (inject_Z (canvas_width (drawingCanvas s)) / rect_width e)%Q in
  let scaleY := (inject_Z (canvas_height (drawingCanvas s)) / rect_height e)%Q in
  mkPoint ((clientX e - rect_left e) * scaleX)%Q
          ((clientY e - rect_top e) * scaleY)%Q
          (if Qeq_bool (e_pressure e) 0 then 1 # 2 else e_pressure e).

Definition drawLine (s : State) (from to : Point) (ctx : Ctx) : Ctx :=
  let pressure := ((pressure from + pressure to) / 2)%Q in
  let ctx := beginPath ctx in
  let ctx := moveTo (x from) (y from) ctx in
  let ctx := lineTo (x to) (y to) ctx in
  let ctx :=
    match tool s with
    | Eraser =>
        let ctx := set_globalCompositeOperation DestinationOut ctx in
        let ctx := set_strokeStyle "rgba(0,0,0,1)" ctx in
        set_lineWidth (brushSize s * 3) ctx
    | Highlighter =>
        let ctx := set_globalCompositeOperation Multiply ctx in
        let ctx := set_strokeStyle (color s) ctx in
        let ctx := set_lineWidth (brushSize s * 4) ctx in
        set_globalAlpha (3 # 10) ctx
    | Pen =>
        let ctx := set_globalCompositeOperation SourceOver ctx in
        let ctx := set_strokeStyle (color s) ctx in
        let ctx := set_lineWidth (brushSize s * ((1 # 2) + pressure)) ctx in
        set_globalAlpha 1 ctx
    end in
  let ctx := set_lineCap CapRound ctx in
  let ctx := set_lineJoin JoinRound ctx in
  let ctx := stroke ctx in
  let ctx := set_globalCompositeOperation SourceOver ctx in
  set_globalAlpha 1 ctx.

Definition handlePointerDown (e : PointerEvent) (s : State) : State :=
  if negb (isEditingDrawing s) then s else
  let s := set_isDrawing true s in
  set_lastPoint (Some (getCanvasPoint e s)) s.

Definition handlePointerMove (e : PointerEvent) (s : State) : State :=
  if negb (isDrawing s) || negb (isEditingDrawing s) then s else
  match lastPoint s with
  | None => s
  | Some last =>
      let currentPoint := getCanvasPoint e s in
      let s := set_drawingCanvas (drawLine s last currentPoint (drawingCanvas s)) s in
      set_lastPoint (Some currentPoint) s
  end.

(** Also bound to [onPointerLeave]. *)
Definition handlePointerUp (e : PointerEvent) (s : State) : State :=
  if negb (isDrawing s) then s else
  let s := set_isDrawing false s in
  let s := set_lastPoint None s in
  saveToHistory s.

Definition handleClearDrawing (s : State) : State :=
  saveToHistory (clearDrawing s).

(** [updatedPages[currentPageIndex] = {...currentPage, ...}] on a copy. *)
Definition replace_page (i : Z) (p : PDFPage) (ps : list PDFPage) : list PDFPage :=
  if i <? 0 then ps
  else firstn (Z.to_nat i) ps ++ p :: skipn (S (Z.to_nat i)) ps.

Definition handleSaveDrawing (s : State) : State :=
  match currentPage s with
  | None => s
  | Some page =>
      let dataUrl := encode (pixels (drawingCanvas s)) in
      let page' :=
        if isCustomPage page
        then mkPage (pageNumber page) (drawingDataUrl page) (isCustomPage page) dataUrl
        else mkPage (pageNumber page) dataUrl (isCustomPage page) (customDrawingDataUrl page) in
      let updatedPages := replace_page (currentPageIndex s) page' (pages s) in
      let s := set_updates (updates s ++ [updatedPages]) s in
      set_isEditingDrawing false s
  end.

(** What the user and the environment can do to a mounted cell. *)
Inductive Event :=
| PointerDown (e : PointerEvent)
| PointerMove (e : PointerEvent)
| PointerUp (e : PointerEvent)
| PointerLeave (e : PointerEvent)
| Undo
| Redo
| ClearDrawing
| SaveDrawing
| Edit
| Cancel
| SetTool (t : Tool)
| SetColor (c : Color)
| SetBrushSize (n : Q)
| PdfLoaded
| GoToPage (i : Z)
| SetDark (b : bool)
| SetCustomPageBackground (b : BackgroundType)
| PagesChanged (ps : list PDFPage)
| GetPageSettled (k : nat)
| RenderSettled (k : nat) (ok : bool)
| Onload.

(** The annotation tool bar is rendered, and Ctrl+Z is listened to, only
    in edit mode. *)
Definition toolbar (s : State) (k : Js.Outcome State) : Js.Outcome State :=
  if isEditingDrawing s then k else Js.Ok s.

Definition step (ev : Event) (s : State) : Js.Outcome State :=
  match ev with
  | PointerDown e => Js.Ok (handlePointerDown e s)
  | PointerMove e => Js.Ok (handlePointerMove e s)
  | PointerUp e => Js.Ok (handlePointerUp e s)
  | PointerLeave e => Js.Ok (handlePointerUp e s)
  | Undo => toolbar s (undo s)
  | Redo => toolbar s (redo s)
  | ClearDrawing => toolbar s (Js.Ok (handleClearDrawing s))
  | SaveDrawing => toolbar s (Js.Ok (handleSaveDrawing s))
  | Edit => Js.Ok (set_isEditingDrawing true s)
  | Cancel => toolbar s (Js.Ok (set_isEditingDrawing false s))
  | SetTool t => toolbar s (Js.Ok (set_tool t s))
  | SetColor c => toolbar s (Js.Ok (set_color c s))
  | SetBrushSize n => toolbar s (Js.Ok (set_brushSize n s))
  | PdfLoaded => Js.Ok (setPdfDoc s)
  | GoToPage i => Js.Ok (setCurrentPageIndex i s)
  | SetDark b => Js.Ok (setIsDarkMode b s)
  | SetCustomPageBackground b => Js.Ok (setCustomPageBackground b s)
  | PagesChanged ps => Js.Ok (setPages ps s)
  | GetPageSettled k => Js.Ok (resumeGetPage k s)
  | RenderSettled k ok => Js.Ok (resumeRender k ok s)
  | Onload => Js.Ok (onload s)
  end.

Fixpoint run (evs : list Event) (s : State) : Js.Outcome State :=
  match evs with
  | [] => Js.Ok s
  | ev :: rest => s' <- step ev s ;; run rest s'
  end.

Definition moves (es : list PointerEvent) (s : State) : State :=
  fold_left (fun st e => handlePointerMove e st) es s.

Definition gesture (down : PointerEvent) (ms : list PointerEvent) (up : PointerEvent)
    (s : State) : State :=
  handlePointerUp up (moves ms (handlePointerDown down s)).

(** Stacking of the two canvases in the rendered markup, bottom first. *)
Definition layers (s : State) : list Pixels :=
  [pixels (pdfCanvas s); pixels (drawingCanvas s)].

(** The listeners of the overlay canvas: a click outside edit mode
    enters it. *)
Definition onCanvas (i : CanvasInput) (s : State) : State :=
  match i with
  | OnPointerDown e => handlePointerDown e s
  | OnPointerMove e => handlePointerMove e s
  | OnPointerUp e => handlePointerUp e s
  | OnPointerLeave e => handlePointerUp e s
  | OnClick => if negb (isEditingDrawing s) then set_isEditingDrawing true s else s
  end.

Definition inputs (l : list CanvasInput) (s : State) : State :=
  fold_left (fun st i => onCanvas i st) l s.

(** The [keydown] listener of the window. *)
Definition handleKeyDown (e : KeyboardEvent) (s : State) : Js.Outcome State :=
  if negb (isEditingDrawing s) then Js.Ok s
  else if ctrlKey e && String.eqb (key e) "z" then
    if shiftKey e then redo s else undo s
  else Js.Ok s.

(** A run of key presses, stopping at the first exception. *)
Fixpoint keys (es : list KeyboardEvent) (s : State) : Js.Outcome State :=
  match es with
  | [] => Js.Ok s
  | e :: rest => s' <- handleKeyDown e s ;; keys rest s'
  end.

(** What changes the overlay in edit mode and saves it: a completed
    gesture and the clear button. *)
Inductive Action :=
| Stroke (down : PointerEvent) (ms : list PointerEvent) (up : PointerEvent)
| Clear.

Definition act (a : Action) (s : State) : State :=
  match a with
  | Stroke down ms up => gesture down ms up s
  | Clear => handleClearDrawing s
  end.

Definition acts (l : list Action) (s : State) : State :=
  fold_left (fun st a => act a st) l s.

(** [n] presses of undo (redo), stopping at the first exception. *)
Fixpoint undos (n : nat) (s : State) : Js.Outcome State :=
  match n with
  | O => Js.Ok s
  | S n' => s' <- undo s ;; undos n' s'
  end.

Fixpoint redos (n : nat) (s : State) : Js.Outcome State :=
  match n with
  | O => Js.Ok s
  | S n' => s' <- redo s ;; redos n' s'
  end.

End Component.

Arguments paintCustomPage : simpl never.
Arguments drawLine : simpl never.
Arguments getCanvasPoint : simpl never.

End PDFCell.

(* ------------------------------------------------------------------ *)
(** ** The notes of a PDF page ([MiniNotebook]) *)

Module MiniNotebook.
Import Types.

Inductive MiniCellType := Markdown | Drawing | Image.

(** A [MiniCell] object: the fields of the three kinds of mini cell, a
    field a kind does not have being absent. *)
Record MiniCell := mkMiniCell {
  id : string;
  type : MiniCellType;
  content : option string;
  dataUrl : option string;
  height : option Z;
  background : option BackgroundType;
  alt : option string
}.

(** A [Partial<MiniCell>]: the fields an update carries. *)
Record Updates := mkUpdates {
  u_id : option string;
  u_type : option MiniCellType;
  u_content : option string;
  u_dataUrl : option string;
  u_height : option Z;
  u_background : option BackgroundType;
  u_alt : option string
}.

Definition over {A : Type} (new : option A) (old : A) : A :=
  match new with
  | Some v => v
  | None => old
  end.

Definition over_field {A : Type} (new old : option A) : option A :=
  match new with
  | Some v => Some v
  | None => old
  end.

(** [{ ...c, ...updates }]. *)
Definition spread (c : MiniCell) (u : Updates) : MiniCell :=
  mkMiniCell (over (u_id u) (id c)) (over (u_type u) (type c))
    (over_field (u_content u) (content c)) (over_field (u_dataUrl u) (dataUrl c))
    (over_field (u_height u) (height c)) (over_field (u_background u) (background c))
    (over_field (u_alt u) (alt c)).

(** The updates the three kinds of mini cell hand to [updateCell]. *)
Definition markdownUpdate (text : string) : Updates :=
  mkUpdates None None (Some text) None None None None.
Definition drawingUpdate (url : string) (h : Z) (bg : BackgroundType) : Updates :=
  mkUpdates None None None (Some url) (Some h) (Some bg) None.
Definition imageUpdate (url a : string) : Updates :=
  mkUpdates None None None (Some url) None None (Some a).

Inductive Direction := Up | Down.

Definition has_id (i : string) (c : MiniCell) : bool := String.eqb (id c) i.

(** Each function returns the array it hands to [onUpdate], [None] when
    it returns without calling it; [newId] is what [uuidv4()] yields. *)
Definition addCell (newId : string) (t : MiniCellType) (cells : list MiniCell)
    : list MiniCell :=
  let newCell :=
    match t with
    | Markdown => mkMiniCell newId Markdown (Some "") None None None None
    | Drawing => mkMiniCell newId Drawing None (Some "") (Some 150) (Some Blank) None
    | Image => mkMiniCell newId Image None (Some "") None None (Some "")
    end in
  cells ++ [newCell].

Definition updateCell (i : string) (updates : Updates) (cells : list MiniCell)
    : list MiniCell :=
  map (fun c => if has_id i c then spread c updates else c) cells.

Definition deleteCell (i : string) (cells : list MiniCell) : list MiniCell :=
  filter (fun c => negb (has_id i c)) cells.

(** The destructuring swap reads both slots and then writes them; the
    slots of the array handed on may hold [undefined]. *)
Definition moveCell (i : string) (direction : Direction) (cells : list MiniCell)
    : option (list (option MiniCell)) :=
  let index := Js.findIndex (has_id i) cells in
  let n := Z.of_nat (List.length cells) in
  let at_end :=
    match direction with
    | Up => index =? 0
    | Down => index =? n - 1
    end in
  if at_end then None
  else
    let newCells := map Some cells in
    let swapIndex :=
      match direction with
      | Up => index - 1
      | Down => index + 1
      end in
    let a := Js.read newCells swapIndex in
    let b := Js.read newCells index in
    let newCells := Js.assign newCells index a in
    let newCells := Js.assign newCells swapIndex b in
    Some newCells.

End MiniNotebook.

(* ------------------------------------------------------------------ *)
(** ** The pages of a PDF cell and its notes column ([PDFCell]) *)

Module PDFCellPages.
Import Types.

(** A [PDFPage] object with all its fields. *)
Record PDFPage := mkPDFPage {
  id : string;
  pageNumber : option Z;
  drawingDataUrl : string;
  notes : string;
  noteCells : list MiniNotebook.MiniCell;
  isCustomPage : bool;
  customDrawingDataUrl : option string
}.

(** The part of a page the render effect reads. *)
Definition overlay_page (p : PDFPage) : PDFCell.PDFPage :=
  PDFCell.mkPage (pageNumber p) (drawingDataUrl p) (isCustomPage p)
    (match customDrawingDataUrl p with Some url => url | None => "" end).

(** [cell.pages], as the parent keeps it after each [onUpdate], and the
    hook state of the component that deals with pages and with the width
    of the notes column. *)
Record State := mkState {
  pages : list PDFPage;
  currentPageIndex : Z;
  customPageBackground : BackgroundType;
  showAddPageMenu : bool;
  isEditingDrawing : bool;
  notesWidth : Q;
  isResizing : bool
}.

Definition set_pages (ps : list PDFPage) (s : State) : State :=
  mkState ps (currentPageIndex s) (customPageBackground s) (showAddPageMenu s)
    (isEditingDrawing s) (notesWidth s) (isResizing s).
Definition setCurrentPageIndex (i : Z) (s : State) : State :=
  mkState (pages s) i (customPageBackground s) (showAddPageMenu s)
    (isEditingDrawing s) (notesWidth s) (isResizing s).
Definition setCustomPageBackground (b : BackgroundType) (s : State) : State :=
  mkState (pages s) (currentPageIndex s) b (showAddPageMenu s)
    (isEditingDrawing s) (notesWidth s) (isResizing s).
Definition setShowAddPageMenu (b : bool) (s : State) : State :=
  mkState (pages s) (currentPageIndex s) (customPageBackground s) b
    (isEditingDrawing s) (notesWidth s) (isResizing s).
Definition setIsEditingDrawing (b : bool) (s : State) : State :=
  mkState (pages s) (currentPageIndex s) (customPageBackground s) (showAddPageMenu s)
    b (notesWidth s) (isResizing s).
Definition setNotesWidth (w : Q) (s : State) : State :=
  mkState (pages s) (currentPageIndex s) (customPageBackground s) (showAddPageMenu s)
    (isEditingDrawing s) w (isResizing s).
Definition setIsResizing (b : bool) (s : State) : State :=
  mkState (pages s) (currentPageIndex s) (customPageBackground s) (showAddPageMenu s)
    (isEditingDrawing s) (notesWidth s) b.

Definition currentPage (s : State) : option PDFPage :=
  Js.index (pages s) (currentPageIndex s).

(** The loop of [handleFileUpload] that lists the pages of the document;
    [uuid i] is what [uuidv4()] yields for page [i]. *)
Fixpoint listPages (fuel : nat) (i numPages : Z) (uuid : Z -> string) (acc : list PDFPage)
    : list PDFPage :=
  match fuel with
  | O => acc
  | S fuel' =>
      if i <=? numPages
      then listPages fuel' (i + 1) numPages uuid
             (Js.push acc (mkPDFPage (uuid i) (Some i) "" "" [] false None))
      else acc
  end.

(** The state once an uploaded document with [numPages] pages has been
    processed. *)
Definition handleFileUpload (numPages : Z) (uuid : Z -> string) (s : State) : State :=
  let pages := listPages (Z.to_nat numPages) 1 numPages uuid [] in
  setCurrentPageIndex 0 (set_pages pages s).

(** The two navigation buttons; each is disabled at its end. *)
Definition previousPage (s : State) : State :=
  if currentPageIndex s =? 0 then s
  else setCurrentPageIndex (Z.max 0 (currentPageIndex s - 1)) s.

Definition nextPage (s : State) : State :=
  if currentPageIndex s =? Z.of_nat (List.length (pages s)) - 1 then s
  else setCurrentPageIndex
         (Z.min (Z.of_nat (List.length (pages s)) - 1) (currentPageIndex s + 1)) s.

Definition addPageAfterCurrent (newId : string) (type : BackgroundType) (s : State) : State :=
  let newPage := mkPDFPage newId None "" "" [] true (Some "") in
  let updatedPages := Js.splice_insert (currentPageIndex s + 1) newPage (pages s) in
  let s' := set_pages updatedPages s in
  let s' := setCurrentPageIndex (currentPageIndex s + 1) s' in
  let s' := setCustomPageBackground type s' in
  setShowAddPageMenu false s'.

Definition deletePage (s : State) : State :=
  if (Z.of_nat (List.length (pages s)) <=? 1) then s
  else
    let updatedPages :=
      Js.filter_index (fun index => negb (index =? currentPageIndex s)) (pages s) in
    let s' := set_pages updatedPages s in
    if currentPageIndex s >=? Z.of_nat (List.length updatedPages)
    then setCurrentPageIndex (Z.of_nat (List.length updatedPages) - 1) s'
    else s'.

(** The delete button is rendered on custom pages only. *)
Definition deleteButton (s : State) : State :=
  match currentPage s with
  | Some p => if isCustomPage p then deletePage s else s
  | None => s
  end.

(** [updatedPages[currentPageIndex] = page] on a copy of the pages, the
    position being one of the array where [currentPage] is defined. *)
Definition replace_current (page : PDFPage) (s : State) : list PDFPage :=
  let i := currentPageIndex s in
  if i <? 0 then pages s
  else firstn (Z.to_nat i) (pages s) ++ page :: skipn (S (Z.to_nat i)) (pages s).

(** [dataUrl] is [canvas.toDataURL('image/png')] of the overlay. *)
Definition handleSaveDrawing (dataUrl : string) (s : State) : State :=
  match currentPage s with
  | None => s
  | Some p =>
      let page :=
        if isCustomPage p
        then mkPDFPage (id p) (pageNumber p) (drawingDataUrl p) (notes p) (noteCells p)
               (isCustomPage p) (Some dataUrl)
        else mkPDFPage (id p) (pageNumber p) dataUrl (notes p) (noteCells p)
               (isCustomPage p) (customDrawingDataUrl p) in
      setIsEditingDrawing false (set_pages (replace_current page s) s)
  end.

Definition handleUpdateNoteCells (cells : list MiniNotebook.MiniCell) (s : State) : State :=
  match currentPage s with
  | None => s
  | Some p =>
      let page :=
        mkPDFPage (id p) (pageNumber p) (drawingDataUrl p) (notes p) cells
          (isCustomPage p) (customDrawingDataUrl p) in
      set_pages (replace_current page s) s
  end.

(** The divider between page and notes: [right] is the right edge of the
    container, [clientX] the position of the mouse; the listeners exist
    only while [isResizing] holds. *)
Definition handleResizeStart (s : State) : State := setIsResizing true s.

Definition handleMouseMove (right clientX : Q) (s : State) : State :=
  let newWidth := (right - clientX)%Q in
  setNotesWidth (Qmin 600 (Qmax 200 newWidth)) s.

Definition mouseMove (right clientX : Q) (s : State) : State :=
  if isResizing s then handleMouseMove right clientX s else s.

Definition mouseUp (s : State) : State :=
  if isResizing s then setIsResizing false s else s.

(** What the user can do to the pages of a loaded document. *)
Inductive Op :=
| Previous
| Next
| AddPage (newId : string) (type : BackgroundType)
| DeletePage
| SaveDrawing (dataUrl : string)
| UpdateNotes (cells : list MiniNotebook.MiniCell).

Definition apply (o : Op) (s : State) : State :=
  match o with
  | Previous => previousPage s
  | Next => nextPage s
  | AddPage newId type => addPageAfterCurrent newId type s
  | DeletePage => deleteButton s
  | SaveDrawing dataUrl => handleSaveDrawing dataUrl s
  | UpdateNotes cells => handleUpdateNoteCells cells s
  end.

Definition applies (l : list Op) (s : State) : State :=
  fold_left (fun st o => apply o st) l s.

(** The first state of a mounted cell that holds no document yet. *)
Definition mount : State := mkState [] 0 Lines false false 320 false.

End PDFCellPages.

(* ------------------------------------------------------------------ *)
(** ** Notebooks and projects ([useNotebook], [useProjects]) *)

Module Notebooks.

Inductive CellType := Markdown | Drawing | Image | Pdf.

(** A [Cell] object: the fields all cells have and the fields of the
    four kinds of cell, a field a kind does not have being absent. *)
Record Cell := mkCell {
  id : string;
  type : CellType;
  createdAt : Z;
  updatedAt : Z;
  content : option string;
  dataUrl : option string;
  width : option Z;
  height : option Z;
  alt : option string;
  pdfData : option string;
  fileName : option string;
  pages : option (list PDFCellPages.PDFPage);
  totalOriginalPages : option Z
}.

(** The updates the cells of the page hand to [updateCell]: they carry
    fields of the payload. *)
Record Updates := mkUpdates {
  u_content : option string;
  u_dataUrl : option string;
  u_alt : option string;
  u_pdfData : option string;
  u_fileName : option string;
  u_pages : option (list PDFCellPages.PDFPage);
  u_totalOriginalPages : option Z
}.

Definition over_field {A : Type} (new old : option A) : option A :=
  match new with
  | Some v => Some v
  | None => old
  end.

(** [{ ...cell, ...updates, updatedAt: now }]. *)
Definition spread (c : Cell) (u : Updates) (now : Z) : Cell :=
  mkCell (id c) (type c) (createdAt c) now
    (over_field (u_content u) (content c)) (over_field (u_dataUrl u) (dataUrl c))
    (width c) (height c) (over_field (u_alt u) (alt c))
    (over_field (u_pdfData u) (pdfData c)) (over_field (u_fileName u) (fileName c))
    (over_field (u_pages u) (pages c))
    (over_field (u_totalOriginalPages u) (totalOriginalPages c)).

Definition DEFAULT_CANVAS_WIDTH : Z := 800.
Definition DEFAULT_CANVAS_HEIGHT : Z := 400.

(** [createCell] of [useProjects]; [newId] is what [uuidv4()] yields and
    [now] what [Date.now()] yields. *)
Definition createCell (newId : string) (now : Z) (t : CellType) : Cell :=
  match t with
  | Markdown =>
      mkCell newId Markdown now now (Some "") None None None None None None None None
  | Drawing =>
      mkCell newId Drawing now now None (Some "") (Some DEFAULT_CANVAS_WIDTH)
        (Some DEFAULT_CANVAS_HEIGHT) None None None None None
  | Image =>
      mkCell newId Image now now None (Some "") None None (Some "") None None None None
  | Pdf =>
      mkCell newId Pdf now now None None None None None (Some "") (Some "") (Some [])
        (Some 0)
  end.

Inductive Direction := Up | Down.

Definition has_id (i : string) (c : Cell) : bool := String.eqb (id c) i.

(** The four operations on the cells of one notebook, as [useNotebook]
    and [useProjects] both write them; [None] stands for returning the
    notebook as it is. *)
Definition insertCell (newCell : Cell) (afterId : option string) (cells : list Cell)
    : list Cell :=
  match afterId with
  | Some a =>
      if Js.truthy a then
        let index := Js.findIndex (has_id a) cells in
        Js.slice0 (index + 1) cells ++ newCell :: Js.slice_from (index + 1) cells
      else cells ++ [newCell]
  | None => cells ++ [newCell]
  end.

Definition changeCell (i : string) (updates : Updates) (now : Z) (cells : list Cell)
    : list Cell :=
  map (fun cell => if has_id i cell then spread cell updates now else cell) cells.

Definition removeCell (i : string) (cells : list Cell) : list Cell :=
  filter (fun cell => negb (has_id i cell)) cells.

Definition swapCell (i : string) (direction : Direction) (cells : list Cell)
    : option (list (option Cell)) :=
  let index := Js.findIndex (has_id i) cells in
  if index =? -1 then None
  else
    let newIndex :=
      match direction with
      | Up => index - 1
      | Down => index + 1
      end in
    if (newIndex <? 0) || (newIndex >=? Z.of_nat (List.length cells)) then None
    else
      let arr := map Some cells in
      let a := Js.read arr newIndex in
      let b := Js.read arr index in
      let arr := Js.assign arr index a in
      let arr := Js.assign arr newIndex b in
      Some arr.

(** An array all of whose slots are filled, as a list. *)
Fixpoint filled {A : Type} (arr : list (option A)) : option (list A) :=
  match arr with
  | [] => Some []
  | Some a :: rest =>
      match filled rest with
      | Some l => Some (a :: l)
      | None => None
      end
  | None :: _ => None
  end.

Record Notebook := mkNotebook {
  nb_id : string;
  title : string;
  cells : list Cell;
  nb_createdAt : Z;
  nb_updatedAt : Z;
  projectId : option string
}.

Record Project := mkProject {
  pr_id : string;
  name : string;
  parentId : option string;
  pr_createdAt : Z;
  pr_updatedAt : Z
}.

Record ProjectStore := mkStore {
  projects : list Project;
  notebooks : list Notebook;
  activeNotebookId : option string
}.

Definition createNotebook (newId : string) (now : Z) (project : option string) : Notebook :=
  mkNotebook newId "Nuevo Notebook" [] now now project.

Definition createProject (newId : string) (now : Z) (n : string) (parent : option string)
    : Project :=
  mkProject newId n parent now now.

Definition createInitialStore (newId : string) (now : Z) : ProjectStore :=
  let notebook := createNotebook newId now None in
  mkStore [] [notebook] (Some (nb_id notebook)).

(** [!prev.activeNotebookId]: [null] and the empty string. *)
Definition active (st : ProjectStore) : option string :=
  match activeNotebookId st with
  | Some a => if Js.truthy a then Some a else None
  | None => None
  end.

Definition is_notebook (i : string) (n : Notebook) : bool := String.eqb (nb_id n) i.

(** [prev.notebooks.map(notebook => notebook.id !== active ? notebook :
    f(notebook))]. *)
Definition on_active (f : Notebook -> Notebook) (st : ProjectStore) : ProjectStore :=
  match active st with
  | None => st
  | Some a =>
      mkStore (projects st)
        (map (fun notebook => if is_notebook a notebook then f notebook else notebook)
           (notebooks st))
        (activeNotebookId st)
  end.

Definition with_cells (l : list Cell) (now : Z) (n : Notebook) : Notebook :=
  mkNotebook (nb_id n) (title n) l (nb_createdAt n) now (projectId n).

(** The cell operations of [useProjects], on the store the hook holds
    ([prev], when it is not [null]). *)
Definition addCell (newId : string) (now : Z) (t : CellType) (afterId : option string)
    (st : ProjectStore) : ProjectStore :=
  on_active (fun n => with_cells (insertCell (createCell newId now t) afterId (cells n)) now n)
    st.

Definition updateCell (cellId : string) (updates : Updates) (now : Z) (st : ProjectStore)
    : ProjectStore :=
  on_active (fun n => with_cells (changeCell cellId updates now (cells n)) now n) st.

Definition deleteCell (cellId : string) (now : Z) (st : ProjectStore) : ProjectStore :=
  on_active (fun n => with_cells (removeCell cellId (cells n)) now n) st.

(** The swap writes slots that exist, so the array it leaves is full. *)
Definition moveCell (cellId : string) (direction : Direction) (now : Z) (st : ProjectStore)
    : ProjectStore :=
  on_active
    (fun n =>
       match swapCell cellId direction (cells n) with
       | Some arr =>
           match filled arr with
           | Some l => with_cells l now n
           | None => n
           end
       | None => n
       end) st.

Definition clearNotebook (now : Z) (st : ProjectStore) : ProjectStore :=
  on_active (fun n => with_cells [] now n) st.

(** The notebook operations. *)
Definition addNotebook (newId : string) (now : Z) (project : option string)
    (st : ProjectStore) : ProjectStore :=
  let newNotebook := createNotebook newId now project in
  mkStore (projects st) (notebooks st ++ [newNotebook]) (Some (nb_id newNotebook)).

Definition selectNotebook (i : string) (st : ProjectStore) : ProjectStore :=
  mkStore (projects st) (notebooks st) (Some i).

Definition same_id (a : option string) (i : string) : bool :=
  match a with
  | Some x => String.eqb x i
  | None => false
  end.

Definition deleteNotebook (i : string) (st : ProjectStore) : ProjectStore :=
  let remaining := filter (fun n => negb (is_notebook i n)) (notebooks st) in
  let activeId :=
    if same_id (activeNotebookId st) i then
      match remaining with
      | first :: _ => Some (nb_id first)
      | [] => None
      end
    else activeNotebookId st in
  mkStore (projects st) remaining activeId.

Definition moveNotebook (i : string) (project : option string) (now : Z) (st : ProjectStore)
    : ProjectStore :=
  mkStore (projects st)
    (map (fun n =>
            if is_notebook i n
            then mkNotebook (nb_id n) (title n) (cells n) (nb_createdAt n) now project
            else n) (notebooks st))
    (activeNotebookId st).

Definition updateNotebookTitle (i : string) (t : string) (now : Z) (st : ProjectStore)
    : ProjectStore :=
  mkStore (projects st)
    (map (fun n =>
            if is_notebook i n
            then mkNotebook (nb_id n) t (cells n) (nb_createdAt n) now (projectId n)
            else n) (notebooks st))
    (activeNotebookId st).

(** The project operations. *)
Definition is_project (i : string) (p : Project) : bool := String.eqb (pr_id p) i.

Definition child_of (parent : string) (p : Project) : bool := same_id (parentId p) parent.

Definition addProject (newId : string) (now : Z) (n : string) (parent : option string)
    (st : ProjectStore) : ProjectStore :=
  mkStore (projects st ++ [createProject newId now n parent]) (notebooks st)
    (activeNotebookId st).

Definition renameProject (i : string) (n : string) (now : Z) (st : ProjectStore)
    : ProjectStore :=
  mkStore
    (map (fun p =>
            if is_project i p
            then mkProject (pr_id p) n (parentId p) (pr_createdAt p) now
            else p) (projects st))
    (notebooks st) (activeNotebookId st).

(** [children.flatMap(c => [c.id, ...getAllChildProjectIds(c.id)])], the
    recursion being cut at depth [fuel]: [None] stands for the
    [RangeError] of an exhausted call stack. *)
Fixpoint getAllChildProjectIds (fuel : nat) (ps : list Project) (parent : string)
    : option (list string) :=
  match fuel with
  | O => None
  | S fuel' =>
      let children := filter (child_of parent) ps in
      fold_right
        (fun c acc =>
           match getAllChildProjectIds fuel' ps (pr_id c), acc with
           | Some below, Some rest => Some ((pr_id c :: below) ++ rest)
           | _, _ => None
           end)
        (Some []) children
  end.

Definition includes (l : list string) (i : string) : bool := existsb (String.eqb i) l.

Definition deleteProject (fuel : nat) (i : string) (st : ProjectStore)
    : Js.Outcome ProjectStore :=
  match getAllChildProjectIds fuel (projects st) i with
  | None => Js.Throw "RangeError"
  | Some below =>
      let projectIdsToDelete := i :: below in
      let notebooks' :=
        map (fun n =>
               match projectId n with
               | Some q =>
                   if Js.truthy q && includes projectIdsToDelete q
                   then mkNotebook (nb_id n) (title n) (cells n) (nb_createdAt n)
                          (nb_updatedAt n) None
                   else n
               | None => n
               end) (notebooks st) in
      Js.Ok (mkStore
               (filter (fun p => negb (includes projectIdsToDelete (pr_id p))) (projects st))
               notebooks' (activeNotebookId st))
  end.

Definition moveProject (fuel : nat) (i : string) (newParentId : option string) (now : Z)
    (st : ProjectStore) : Js.Outcome ProjectStore :=
  let moved :=
    mkStore
      (map (fun p =>
              if is_project i p
              then mkProject (pr_id p) (name p) newParentId (pr_createdAt p) now
              else p) (projects st))
      (notebooks st) (activeNotebookId st) in
  match newParentId with
  | Some q =>
      if Js.truthy q then
        if String.eqb q i then Js.Ok st
        else
          match getAllChildProjectIds fuel (projects st) i with
          | None => Js.Throw "RangeError"
          | Some below => if includes below q then Js.Ok st else Js.Ok moved
          end
      else Js.Ok moved
  | None => Js.Ok moved
  end.

(** [getProjectChildren(parentId)]: at the root, the projects without a
    parent and the notebooks without a project. *)
Definition getProjectChildren (parent : option string) (st : ProjectStore)
    : list Project * list Notebook :=
  (filter (fun p =>
             match parent, parentId p with
             | Some a, Some b => String.eqb b a
             | None, None => true
             | _, _ => false
             end) (projects st),
   filter (fun n =>
             match parent with
             | None =>
                 match projectId n with
                 | Some q => negb (Js.truthy q)
                 | None => true
                 end
             | Some a => same_id (projectId n) a
             end) (notebooks st)).

End Notebooks.

(* ------------------------------------------------------------------ *)
(** ** A reference rasteriser

    Bitmaps map pixel coordinates to RGBA bytes; a shape covers a pixel
    when it contains the pixel's centre (no anti-aliasing), and colours
    are composed with the Porter-Duff rules of the canvas. *)

Module RefRaster.
Import Canvas2D.

Record RGBA := mkRGBA { red : Z; green : Z; blue : Z; alpha : Z }.

Definition transparent : RGBA := mkRGBA 0 0 0 0.

Record Bitmap := mkBitmap { bw : Z; bh : Z; px_at : Z -> Z -> RGBA }.

Definition inside (w h i j : Z) : bool :=
  (0 <=? i) && (i <? w) && (0 <=? j) && (j <? h).

Definition hex_digit (c : ascii) : Z :=
  let n := Z.of_nat (nat_of_ascii c) in
  if (48 <=? n) && (n <=? 57) then n - 48
  else if (97 <=? n) && (n <=? 102) then n - 87
  else if (65 <=? n) && (n <=? 70) then n - 55
  else 0.

(** ["#rrggbb"]; every other colour text of the program is opaque black. *)
Definition parse_color (c : Color) : RGBA :=
  match c with
  | String "#" (String r1 (String r0 (String g1 (String g0 (String b1 (String b0 EmptyString)))))) =>
      mkRGBA (16 * hex_digit r1 + hex_digit r0) (16 * hex_digit g1 + hex_digit g0)
             (16 * hex_digit b1 + hex_digit b0) 255
  | _ => mkRGBA 0 0 0 255
  end.

Definition centre (i : Z) : Q := (2 * i + 1) # 2.

Definition qle (a b : Q) : bool := Qle_bool a b.
Definition qlt (a b : Q) : bool := negb (Qle_bool b a).
Definition sq (a : Q) : Q := (a * a)%Q.

Definition in_rect (x y w h px py : Q) : bool :=
  let x0 := if qlt w 0 then (x + w)%Q else x in
  let x1 := if qlt w 0 then x else (x + w)%Q in
  let y0 := if qlt h 0 then (y + h)%Q else y in
  let y1 := if qlt h 0 then y else (y + h)%Q in
  qle x0 px && qle px x1 && qle y0 py && qle py y1.

(** Is [(px, py)] within [half] of the segment from [a] to [b]
    (round caps), or of its body only (other caps)? *)
Definition on_segment (cap : LineCap) (half ax ay ex ey px py : Q) : bool :=
  let dx := (ex - ax)%Q in
  let dy := (ey - ay)%Q in
  let len2 := (sq dx + sq dy)%Q in
  let t := ((px - ax) * dx + (py - ay) * dy)%Q in
  let d2a := (sq (px - ax) + sq (py - ay))%Q in
  let d2e := (sq (px - ex) + sq (py - ey))%Q in
  let r2 := sq half in
  let round := match cap with CapRound => true | _ => false end in
  if Qeq_bool len2 0 then round && qle d2a r2
  else if qlt t 0 then round && qle d2a r2
  else if qlt len2 t then round && qle d2e r2
  else qle (d2a * len2 - sq t) (r2 * len2).

Definition in_ellipse (cx cy rx ry px py : Q) : bool :=
  qle 0 rx && qle 0 ry &&
  qle (sq (px - cx) * sq ry + sq (py - cy) * sq rx) (sq rx * sq ry).

Definition on_ellipse (half cx cy rx ry px py : Q) : bool :=
  in_ellipse cx cy (rx + half) (ry + half) px py &&
  negb (qlt half rx && qlt half ry &&
        in_ellipse cx cy (rx - half) (ry - half) px py &&
        negb (Qeq_bool (sq (px - cx) * sq (ry - half) + sq (py - cy) * sq (rx - half))
                       (sq (rx - half) * sq (ry - half)))).

Fixpoint stroke_covers (pen : LineStyle) (cur : option (Q * Q)) (p : list PathCmd)
    (px py : Q) : bool :=
  let half := (ls_width pen / 2)%Q in
  match p with
  | [] => false
  | MoveTo x y :: rest => stroke_covers pen (Some (x, y)) rest px py
  | LineTo x y :: rest =>
      match cur with
      | Some a => on_segment (ls_cap pen) half (fst a) (snd a) x y px py
      | None => false
      end || stroke_covers pen (Some (x, y)) rest px py
  | Arc x y r :: rest =>
      on_ellipse half x y r r px py || stroke_covers pen (Some ((x + r)%Q, y)) rest px py
  | Ellipse cx cy rx ry :: rest =>
      on_ellipse half cx cy rx ry px py || stroke_covers pen (Some ((cx + rx)%Q, cy)) rest px py
  end.

(** Only the closed curves of a path enclose an area here; the program
    fills no polygon. *)
Fixpoint fill_covers (p : list PathCmd) (px py : Q) : bool :=
  match p with
  | [] => false
  | Arc x y r :: rest => in_ellipse x y r r px py || fill_covers rest px py
  | Ellipse cx cy rx ry :: rest => in_ellipse cx cy rx ry px py || fill_covers rest px py
  | _ :: rest => fill_covers rest px py
  end.

Definition on_frame (half x y w h px py : Q) : bool :=
  let x0 := if qlt w 0 then (x + w)%Q else x in
  let y0 := if qlt h 0 then (y + h)%Q else y in
  let aw := Qabs w in
  let ah := Qabs h in
  in_rect (x0 - half) (y0 - half) (aw + 2 * half) (ah + 2 * half) px py &&
  negb (qlt (2 * half) aw && qlt (2 * half) ah &&
        qlt (x0 + half) px && qlt px (x0 + aw - half) &&
        qlt (y0 + half) py && qlt py (y0 + ah - half)).

Definition chan (q : Q) : Z := Z.max 0 (Z.min 255 (Qfloor (q + (1 # 2)))).

(** Porter-Duff composition of a source colour onto a destination pixel
    under the blend settings of the context. *)
Definition composite (b : Blend) (src dst : RGBA) : RGBA :=
  let sa := ((inject_Z (alpha src) / 255) * b_alpha b)%Q in
  let da := (inject_Z (alpha dst) / 255)%Q in
  match b_op b with
  | DestinationOut =>
      let oa := (da * (1 - sa))%Q in
      if Qeq_bool oa 0 then transparent
      else mkRGBA (red dst) (green dst) (blue dst) (chan (oa * 255))
  | op =>
      if Qeq_bool sa 1 && match op with SourceOver => true | _ => false end then src
      else
        let mix (cs cd : Z) : Q :=
          match op with
          | Multiply =>
              ((1 - da) * inject_Z cs + da * (inject_Z cs * inject_Z cd / 255))%Q
          | _ => inject_Z cs
          end in
        let oa := (sa + da * (1 - sa))%Q in
        if Qeq_bool oa 0 then transparent
        else
          let out (cs cd : Z) : Z :=
            chan ((mix cs cd * sa + inject_Z cd * da * (1 - sa)) / oa) in
          mkRGBA (out (red src) (red dst)) (out (green src) (green dst))
                 (out (blue src) (blue dst)) (chan (oa * 255))
  end.

(** The pixel of [img] that lands on the destination point [(px, py)]
    when [img] is drawn at [(x, y)] with the given size. *)
Definition sample (img : Bitmap) (x y : Q) (size : option (Q * Q)) (px py : Q) : option RGBA :=
  let iw := inject_Z (bw img) in
  let ih := inject_Z (bh img) in
  let w := match size with Some wh => fst wh | None => iw end in
  let h := match size with Some wh => snd wh | None => ih end in
  if Qeq_bool w 0 || Qeq_bool h 0 then None
  else
    let u := Qfloor ((px - x) * iw / w) in
    let v := Qfloor ((py - y) * ih / h) in
    if inside (bw img) (bh img) u v then Some (px_at img u v) else None.

Definition shade (op : DrawOp Bitmap) (i j : Z) (dst : RGBA) : RGBA :=
  let px := centre i in
  let py := centre j in
  match op with
  | FillRect b c x y w h =>
      if in_rect x y w h px py then composite b (parse_color c) dst else dst
  | StrokeRect b c pen x y w h =>
      if on_frame (ls_width pen / 2) x y w h px py then composite b (parse_color c) dst else dst
  | ClearRect x y w h =>
      if in_rect x y w h px py then transparent else dst
  | StrokePath b c pen p =>
      if stroke_covers pen None p px py then composite b (parse_color c) dst else dst
  | FillPath b c p =>
      if fill_covers p px py then composite b (parse_color c) dst else dst
  | DrawImage b img x y size =>
      match sample img x y size px py with
      | Some src => composite b src dst
      | None => dst
      end
  end.

Definition ref_blank (w h : Z) : Bitmap := mkBitmap w h (fun _ _ => transparent).

Definition ref_render (op : DrawOp Bitmap) (bm : Bitmap) : Bitmap :=
  mkBitmap (bw bm) (bh bm)
    (fun i j => if inside (bw bm) (bh bm) i j then shade op i j (px_at bm i j) else transparent).

Definition ref_put (img bm : Bitmap) : Bitmap :=
  if (bw img =? bw bm) && (bh img =? bh bm) then img
  else
    mkBitmap (bw bm) (bh bm)
      (fun i j =>
         if inside (bw bm) (bh bm) i j
         then if inside (bw img) (bh img) i j then px_at img i j else px_at bm i j
         else transparent).

(** What the stacked canvases show at a pixel: each layer composed over
    the ones below it, bottom first. *)
Definition shown (layers : list Bitmap) (i j : Z) : RGBA :=
  fold_left (fun under bm => composite (mkBlend 1 SourceOver) (px_at bm i j) under)
    layers transparent.

(** A lossless stand-in for the PNG codec: after the data-URL header come
    the two dimensions (two bytes each) and the RGBA bytes, row by row. *)
Definition header : string := "data:image/png;base64,".

Definition byte (n : Z) : ascii := ascii_of_nat (Z.to_nat (n mod 256)).
Definition unbyte (c : ascii) : Z := Z.of_nat (nat_of_ascii c).

Definition ref_encode (bm : Bitmap) : string :=
  let cells := Z.to_nat (bw bm * bh bm) in
  let bytes_of (k : nat) :=
    let p := px_at bm (Z.of_nat k mod bw bm) (Z.of_nat k / bw bm) in
    [byte (red p); byte (green p); byte (blue p); byte (alpha p)] in
  (header ++ string_of_list_ascii
     ([byte (bw bm / 256); byte (bw bm); byte (bh bm / 256); byte (bh bm)]
        ++ flat_map bytes_of (seq 0 cells)))%string.

Definition ref_decode (url : string) : option Bitmap :=
  if String.prefix header url then
    match list_ascii_of_string (substring (String.length header)
                                  (String.length url - String.length header) url) with
    | w1 :: w0 :: h1 :: h0 :: body =>
        let w := 256 * unbyte w1 + unbyte w0 in
        let h := 256 * unbyte h1 + unbyte h0 in
        if Nat.eqb (List.length body) (Z.to_nat (4 * w * h)) then
          let at_ (k : Z) := unbyte (nth (Z.to_nat k) body zero) in
          Some (mkBitmap w h
                  (fun i j =>
                     if inside w h i j then
                       let o := 4 * (j * w + i) in
                       mkRGBA (at_ o) (at_ (o + 1)) (at_ (o + 2)) (at_ (o + 3))
                     else transparent))
        else None
    | _ => None
    end
  else None.

#[export] Instance ref_backend : Backend := {|
  Pixels := Bitmap;
  blank := ref_blank;
  dims := fun bm => (bw bm, bh bm);
  render := ref_render;
  put := ref_put;
  decode := ref_decode;
  encode := ref_encode
|}.

(** A rational stand-in for the arrow-head trigonometry: the direction is
    normalised with an integer square root and turned by thirty degrees
    with [cos = 866/1000], [sin = 1/2]. *)
Definition ref_barb (len : Q) (s e : Q * Q) (plus : bool) : Q * Q :=
  let dx := (fst e - fst s)%Q in
  let dy := (snd e - snd s)%Q in
  let n := (inject_Z (Z.sqrt (Qfloor ((sq dx + sq dy) * 1000000))) / 1000)%Q in
  let ux : Q := if Qeq_bool n 0 then 1%Q else (dx / n)%Q in
  let uy : Q := if Qeq_bool n 0 then 0%Q else (dy / n)%Q in
  let c : Q := 866 # 1000 in
  let sn : Q := if plus then (1 # 2)%Q else (- (1 # 2))%Q in
  ((fst e - len * (ux * c - uy * sn))%Q, (snd e - len * (uy * c + ux * sn))%Q).

#[export] Instance ref_trig : Trig := {| barb := ref_barb |}.

(** A three-page document whose pages are uniformly tinted sheets. *)
Definition sheet (n : Z) (size : Z * Z) : Bitmap :=
  mkBitmap (fst size) (snd size)
    (fun i j => if inside (fst size) (snd size) i j then mkRGBA (80 * n) 255 255 255 else transparent).

#[export] Instance ref_document : PDFCell.PdfDocument := {|
  PDFCell.hasPage := fun n => (1 <=? n) && (n <=? 3);
  PDFCell.viewport := fun n w => (w, w * 297 / 210);
  PDFCell.pageRaster := sheet
|}.

End RefRaster.

(* ------------------------------------------------------------------ *)
(** ** Vocabulary of the properties *)

Module Laws.
Import Canvas2D.

(** What every rasteriser of the canvas API guarantees: drawing and
    [putImageData] keep the bitmap's size, [putImageData] of an image as
    large as the bitmap replaces it, and filling the whole bitmap with an
    opaque colour under the default blend settings forgets what was
    there. *)
Class Lawful (B : Backend) : Prop := {
  dims_blank : forall w h, dims (blank w h) = (w, h);
  dims_render : forall op px, dims (render op px) = dims px;
  dims_put : forall img px, dims (put img px) = dims px;
  put_same : forall img px, dims img = dims px -> put img px = img;
  fill_full : forall c w h px px',
    opaque c = true -> dims px = (w, h) -> dims px' = (w, h) ->
    render (FillRect (mkBlend 1 SourceOver) c 0 0 (inject_Z w) (inject_Z h)) px =
    render (FillRect (mkBlend 1 SourceOver) c 0 0 (inject_Z w) (inject_Z h)) px'
}.

End Laws.

Module HistorySpec.
Import Canvas2D History.

Section Spec.
Context {B : Backend}.

Definition size (r : Refs) : Z := Z.of_nat (List.length (historyRef r)).

(** The cursor is [-1] on the empty history and a valid position
    otherwise; at most fifty snapshots are kept. *)
Definition wf (r : Refs) : Prop :=
  -1 <= historyIndexRef r < size r /\ size r <= 50.

(** The snapshot under the cursor. *)
Definition current (r : Refs) : option Pixels :=
  Js.index (historyRef r) (historyIndexRef r).


End Spec.

End HistorySpec.

Module DrawingSpec.
Import Canvas2D Types History DrawingCell.

Section Spec.
Context {B : Backend} {T : Trig}.

(** A surface at rest in edit mode whose ink layer is the snapshot under
    the cursor, all snapshots having the size of the canvas. *)
Definition Settled (s : State) : Prop :=
  isDrawing s = false /\
  isEditing s = true /\
  HistorySpec.current (history s) = Some (pixels (canvas s)) /\
  Forall (fun e => dims e = dims (pixels (canvas s))) (historyRef (history s)) /\
  HistorySpec.size (history s) <= 50.


(** A cell mounted without a saved payload has, before any input, an ink
    layer without content. *)
Definition ink_empty_at_start (width height : Z) (dark : bool) : Prop :=
  pixels (canvas (mount "" width height dark)) = blank width height.

(** A surface whose ink layer is the snapshot under the cursor. *)
Definition Coherent (s : State) : Prop :=
  HistorySpec.current (history s) = Some (pixels (canvas s)) /\
  Forall (fun e => dims e = dims (pixels (canvas s))) (historyRef (history s)).

End Spec.

End DrawingSpec.

Module SurfaceSpec.
Import Canvas2D Types.

Section Spec.
Context {B : Backend} {T : Trig} {D : PDFCell.PdfDocument}.

(** The pointer interface the three surfaces share, with the history
    each of them keeps. *)
Record Surface := mkSurface {
  St : Type;
  editable : St -> bool;
  down : PointerEvent -> St -> St;
  move : PointerEvent -> St -> St;
  up : PointerEvent -> St -> St;
  ink : St -> Ctx;
  entries : St -> History.Refs
}.

Definition drawing_surface : Surface :=
  mkSurface DrawingCell.State DrawingCell.isEditing DrawingCell.handlePointerDown
    DrawingCell.handlePointerMove DrawingCell.handlePointerUp DrawingCell.canvas
    DrawingCell.history.

Definition pdf_surface : Surface :=
  mkSurface PDFCell.State PDFCell.isEditingDrawing PDFCell.handlePointerDown
    PDFCell.handlePointerMove PDFCell.handlePointerUp PDFCell.drawingCanvas
    PDFCell.history.

(** [MiniDrawing] declares no history refs: it never holds a snapshot. *)
Definition mini_surface : Surface :=
  mkSurface MiniDrawing.State MiniDrawing.isEditing MiniDrawing.handlePointerDown
    MiniDrawing.handlePointerMove MiniDrawing.handlePointerUp MiniDrawing.canvas
    (fun _ => History.empty).

Definition after_moves (S : Surface) (ms : list PointerEvent) (s : St S) : St S :=
  fold_left (fun st e => move S e st) ms s.

(** One completed gesture pushes exactly one snapshot, the ink layer at
    pointer-up; while the pointer moves the history stays as it was. *)
Definition one_entry_per_gesture (S : Surface) : Prop :=
  forall (s : St S) (d : PointerEvent) (ms : list PointerEvent) (u : PointerEvent),
    editable S s = true ->
    (forall k, entries S (after_moves S (firstn k ms) (down S d s)) = entries S s) /\
    (let s' := up S u (after_moves S ms (down S d s)) in
     entries S s' = History.saveToHistory (ink S s') (entries S s)).

End Spec.

End SurfaceSpec.

Module OverlaySpec.
Import Canvas2D Types PDFCell.

Section Spec.
Context {B : Backend} {D : PdfDocument}.

(** Bitmaps made of annotation only: an empty canvas, cleared regions,
    stroked segments, decoded saved overlays and restored snapshots. *)
Inductive Annotation : Pixels -> Prop :=
| an_blank : forall w h, Annotation (blank w h)
| an_clear : forall x y w h px,
    Annotation px -> Annotation (render (ClearRect x y w h) px)
| an_stroke : forall b c pen x0 y0 x1 y1 px,
    Annotation px ->
    Annotation (render (StrokePath b c pen [MoveTo x0 y0; LineTo x1 y1]) px)
| an_overlay : forall b url img px,
    decode url = Some img -> Annotation px ->
    Annotation (render (DrawImage b img 0 0 None) px)
| an_restore : forall img px,
    Annotation img -> Annotation px -> Annotation (put img px).

Definition Reachable (s : State) : Prop :=
  exists ps evs, run evs (mount ps) = Js.Ok s.

(** The invariant: ink layer and snapshots are annotation, and the
    images waiting for their [onload] are decoded payloads. *)
Definition Inv (s : State) : Prop :=
  Annotation (pixels (drawingCanvas s)) /\
  Forall Annotation (History.historyRef (history s)) /\
  Forall (fun img => exists url, decode url = Some img) (loading s).

End Spec.

End OverlaySpec.

Module EraserSpec.
Import Canvas2D Types RefRaster.

(** The pixels an eraser segment of the given width covers. *)
Definition erased (width : Q) (from to : Point) (i j : Z) : bool :=
  stroke_covers (mkLineStyle width CapRound JoinRound) None
    [MoveTo (x from) (y from); LineTo (x to) (y to)] (centre i) (centre j).

(** Erasing reveals the background pattern: where the eraser went, the
    stacked canvases show what the base layer holds. *)
Definition reveals_pattern (s : DrawingCell.State) (from to : Point) : Prop :=
  let s' := DrawingCell.set_canvas (DrawingCell.drawLine s from to (DrawingCell.canvas s)) s in
  forall i j,
    inside (bw (pixels (DrawingCell.canvas s))) (bh (pixels (DrawingCell.canvas s))) i j = true ->
    erased (DrawingCell.brushSize s * 8) from to i j = true ->
    shown (DrawingCell.layers s') i j = px_at (pixels (DrawingCell.bgCanvas s')) i j.

End EraserSpec.

Module BackgroundSpec.
Import Canvas2D.

Section Spec.
Context {B : Backend}.

(** Two contexts that stroke alike, and two that fill alike. *)
Definition same_stroke (c1 c2 : Ctx) : Prop :=
  pixels c1 = pixels c2 /\ strokeStyle c1 = strokeStyle c2 /\
  lineWidth c1 = lineWidth c2 /\ lineCap c1 = lineCap c2 /\ lineJoin c1 = lineJoin c2 /\
  globalAlpha c1 = globalAlpha c2 /\
  globalCompositeOperation c1 = globalCompositeOperation c2.

Definition same_fill (c1 c2 : Ctx) : Prop :=
  pixels c1 = pixels c2 /\ fillStyle c1 = fillStyle c2 /\
  globalAlpha c1 = globalAlpha c2 /\
  globalCompositeOperation c1 = globalCompositeOperation c2.

(** A context on a [w] x [h] canvas with the default blend settings. *)
Definition plain (w h : Z) (c : Ctx) : Prop :=
  dims (pixels c) = (w, h) /\ globalAlpha c = 1%Q /\
  globalCompositeOperation c = SourceOver.

(** Painting keeps the canvas size, the blend settings and the shape of
    line ends. *)
Definition kept (w h : Z) (k : LineCap) (j : LineJoin) (c : Ctx) : Prop :=
  plain w h c /\ lineCap c = k /\ lineJoin c = j.

End Spec.

End BackgroundSpec.

Module BlendSpec.
Import Canvas2D Types PDFCell.

Section Spec.
Context {B : Backend} {D : PdfDocument}.

Definition default_blend (c : Ctx) : Prop :=
  globalCompositeOperation c = SourceOver /\ globalAlpha c = 1%Q.

(** The blend settings a tool strokes with. *)
Definition tool_blend (t : Tool) : Blend :=
  match t with
  | Pen => mkBlend 1 SourceOver
  | Eraser => mkBlend 1 DestinationOut
  | Highlighter => mkBlend (3 # 10) Multiply
  end.

(** Drawing a list of segments, each with its own tool settings. *)
Definition segments (l : list (State * Point * Point)) (ctx : Ctx) : Ctx :=
  fold_left (fun c seg => drawLine (fst (fst seg)) (snd (fst seg)) (snd seg) c) l ctx.

End Spec.

End BlendSpec.

Module ResizeSpec.

(** The height the resize handler settles on. *)
Definition clamp (h : Z) : Z := Z.max 100 (Z.min 600 h).

End ResizeSpec.

Module OverlayHistorySpec.
Import Canvas2D Types History PDFCell.

Section Spec.
Context {B : Backend} {D : PdfDocument}.

(** An overlay at rest in edit mode whose ink layer is the snapshot under
    the cursor, all snapshots having the size of the canvas. *)
Definition Rested (s : State) : Prop :=
  isDrawing s = false /\
  isEditingDrawing s = true /\
  HistorySpec.current (history s) = Some (pixels (drawingCanvas s)) /\
  Forall (fun e => dims e = dims (pixels (drawingCanvas s))) (historyRef (history s)) /\
  HistorySpec.size (history s) <= 50.

End Spec.

End OverlayHistorySpec.

Module InputSpec.
Import Types.

(** The pointer listeners, as opposed to the click listener. *)
Definition is_pointer (i : CanvasInput) : bool :=
  match i with
  | OnClick => false
  | _ => true
  end.

(** A pointer event inside the box the canvas is displayed in, the box
    having a positive area. *)
Definition in_box (e : PointerEvent) : Prop :=
  (0 < rect_width e /\ 0 < rect_height e /\
   rect_left e <= clientX e <= rect_left e + rect_width e /\
   rect_top e <= clientY e <= rect_top e + rect_height e)%Q.

(** A point of a bitmap [w] wide and [h] high. *)
Definition on_bitmap (w h : Z) (px py : Q) : Prop :=
  (0 <= px <= inject_Z w /\ 0 <= py <= inject_Z h)%Q.

End InputSpec.

Module PagesSpec.
Import PDFCellPages.

(** The current page exists. *)
Definition Valid (s : State) : Prop :=
  0 <= currentPageIndex s < Z.of_nat (List.length (pages s)).

(** The pages that came with the document, by id and page number, in
    their order. *)
Definition originals (s : State) : list (string * option Z) :=
  map (fun p => (id p, pageNumber p)) (filter (fun p => negb (isCustomPage p)) (pages s)).

(** Page [i] of an uploaded document, as [handleFileUpload] lists it. *)
Definition original (uuid : Z -> string) (i : Z) : PDFPage :=
  mkPDFPage (uuid i) (Some i) "" "" [] false None.

(** A page with another drawing, and with other notes. *)
Definition with_drawing (url : string) (p : PDFPage) : PDFPage :=
  if isCustomPage p
  then mkPDFPage (id p) (pageNumber p) (drawingDataUrl p) (notes p) (noteCells p)
         (isCustomPage p) (Some url)
  else mkPDFPage (id p) (pageNumber p) url (notes p) (noteCells p)
         (isCustomPage p) (customDrawingDataUrl p).

Definition with_notes (cells : list MiniNotebook.MiniCell) (p : PDFPage) : PDFPage :=
  mkPDFPage (id p) (pageNumber p) (drawingDataUrl p) (notes p) cells
    (isCustomPage p) (customDrawingDataUrl p).

End PagesSpec.

Module StoreSpec.
Import Notebooks.

(** The active notebook exists, and there is one whenever there is a
    notebook at all. *)
Definition ActiveOk (st : ProjectStore) : Prop :=
  match activeNotebookId st with
  | Some a => exists n, In n (notebooks st) /\ nb_id n = a
  | None => notebooks st = []
  end.

(** [d] is the id of a project below the project [x]. *)
Inductive below (ps : list Project) (x : string) : string -> Prop :=
| below_child : forall p,
    In p ps -> parentId p = Some x -> below ps x (pr_id p)
| below_deeper : forall p y,
    In p ps -> parentId p = Some y -> below ps x y -> below ps x (pr_id p).

(** [height] ranks the projects by id: every project lies strictly lower
    than its parent. *)
Definition Ranked (height : string -> nat) (ps : list Project) : Prop :=
  forall p q, In p ps -> parentId p = Some q -> (height (pr_id p) < height q)%nat.

(** The projects form a forest: they can be ranked. *)
Definition Forest (ps : list Project) : Prop := exists height, Ranked height ps.

(** What a user does to the cells of the active notebook. *)
Inductive CellOp :=
| AddCell (newId : string) (t : CellType) (afterId : option string)
| UpdateCell (cellId : string) (updates : Updates)
| DeleteCell (cellId : string)
| MoveCell (cellId : string) (direction : Direction)
| ClearNotebook.

Definition cell_op (o : CellOp) (now : Z) (st : ProjectStore) : ProjectStore :=
  match o with
  | AddCell newId t afterId => addCell newId now t afterId st
  | UpdateCell cellId updates => updateCell cellId updates now st
  | DeleteCell cellId => deleteCell cellId now st
  | MoveCell cellId direction => moveCell cellId direction now st
  | ClearNotebook => clearNotebook now st
  end.

(** What a user does to the notebooks; the side bar offers for
    selection the notebooks of the store. *)
Inductive NotebookOp :=
| AddNotebook (newId : string) (project : option string)
| SelectNotebook (i : string)
| DeleteNotebook (i : string)
| MoveNotebook (i : string) (project : option string)
| UpdateNotebookTitle (i : string) (t : string).

Definition notebook_op (o : NotebookOp) (now : Z) (st : ProjectStore) : ProjectStore :=
  match o with
  | AddNotebook newId project => addNotebook newId now project st
  | SelectNotebook i => selectNotebook i st
  | DeleteNotebook i => deleteNotebook i st
  | MoveNotebook i project => moveNotebook i project now st
  | UpdateNotebookTitle i t => updateNotebookTitle i t now st
  end.

Definition offered (o : NotebookOp) (st : ProjectStore) : Prop :=
  match o with
  | SelectNotebook i => exists n, In n (notebooks st) /\ nb_id n = i
  | _ => True
  end.

(** The ids gathered from a list of children, each followed by the ids
    [g] finds below it: the [flatMap] of [getAllChildProjectIds] with the
    recursive call named. *)
Definition collect (g : Notebooks.Project -> option (list string))
    (cs : list Notebooks.Project) : option (list string) :=
  fold_right
    (fun c acc =>
       match g c, acc with
       | Some b, Some rest => Some ((Notebooks.pr_id c :: b) ++ rest)
       | _, _ => None
       end)
    (Some []) cs.

End StoreSpec.

(** Concrete inputs used to run the components. *)
Module Samples.
Import Canvas2D Types RefRaster.

Definition at_ (x y : Z) (w h : Z) : PointerEvent :=
  mkPointerEvent (inject_Z x) (inject_Z y) 0 0 0 (inject_Z w) (inject_Z h).

(** A blank 4 x 4 drawing cell in light mode. *)
Definition small : DrawingCell.State := DrawingCell.mount "" 4 4 false.

(** A pen stroke from (1,1) to (3,3). *)
Definition scribble : DrawingCell.Gesture :=
  DrawingCell.mkGesture DrawingCell.Pen "#000000" 3 false
    (at_ 1 1 4 4) [at_ 3 3 4 4] (at_ 3 3 4 4).

(** A blank 24 x 4 drawing cell switched to the grid background, with
    the eraser selected. *)
Definition ruled : DrawingCell.State :=
  DrawingCell.setTool DrawingCell.Eraser
    (DrawingCell.setBackground Grid (DrawingCell.mount "" 24 4 false)).

(** A mini drawing cell of height 150. *)
Definition mini : MiniDrawing.State := MiniDrawing.mount "" 150 Blank.

(** A three-page document in the PDF cell. *)
Definition page (n : Z) : PDFCell.PDFPage := PDFCell.mkPage (Some n) "" false "".
Definition book : list PDFCell.PDFPage := [page 1; page 2; page 3].

(** Page 1 is shown; page 2 is requested, then page 3 before the document
    has handed over page 2; page 3 is rendered; then page 2 arrives and
    is rendered. *)
Definition overtaken : list PDFCell.Event :=
  [PDFCell.PdfLoaded; PDFCell.GetPageSettled 0; PDFCell.RenderSettled 0 true;
   PDFCell.GoToPage 1; PDFCell.GoToPage 2;
   PDFCell.GetPageSettled 1; PDFCell.RenderSettled 1 true;
   PDFCell.GetPageSettled 0; PDFCell.RenderSettled 0 true].

(** The same two requests, the document handing over page 2 first: the
    render task of page 3 is started on the canvas that the task of page
    2 is still using; it settles first (completing when [ok], failing
    otherwise), then the task of page 2 completes. *)
Definition raced (ok : bool) : list PDFCell.Event :=
  [PDFCell.PdfLoaded; PDFCell.GetPageSettled 0; PDFCell.RenderSettled 0 true;
   PDFCell.GoToPage 1; PDFCell.GoToPage 2;
   PDFCell.GetPageSettled 0; PDFCell.GetPageSettled 0;
   PDFCell.RenderSettled 1 ok; PDFCell.RenderSettled 0 true].

(** Page 2 is requested and its render task is running when page 3 is
    requested; the cancelled task then settles, and page 3 is rendered. *)
Definition superseded : list PDFCell.Event :=
  [PDFCell.PdfLoaded; PDFCell.GetPageSettled 0; PDFCell.RenderSettled 0 true;
   PDFCell.GoToPage 1; PDFCell.GetPageSettled 0; PDFCell.GoToPage 2;
   PDFCell.RenderSettled 0 true;
   PDFCell.GetPageSettled 0; PDFCell.RenderSettled 0 true].

(** Page 1 is shown and annotated with one pen stroke. *)
Definition annotate : list PDFCell.Event :=
  [PDFCell.PdfLoaded; PDFCell.GetPageSettled 0; PDFCell.RenderSettled 0 true;
   PDFCell.Edit; PDFCell.PointerDown (at_ 10 10 800 1131);
   PDFCell.PointerMove (at_ 30 30 800 1131); PDFCell.PointerUp (at_ 30 30 800 1131)].

Definition annotated : PDFCell.State :=
  match PDFCell.run annotate (PDFCell.mount book) with
  | Js.Ok s => s
  | Js.Throw _ => PDFCell.mount book
  end.

(** The PDF cell with the eraser selected. *)
Definition rubbing : PDFCell.State := PDFCell.set_tool PDFCell.Eraser (PDFCell.mount book).

(** The end points of an eraser segment along the middle of [ruled]. *)
Definition wipe_from : Point := mkPoint 14 2 (1 # 2).
Definition wipe_to : Point := mkPoint 22 2 (1 # 2).

(** What a run of the PDF cell ends with: page index, page shown, render
    tasks, error reports, history cursor. *)
Definition report (o : Js.Outcome PDFCell.State) :=
  match o with
  | Js.Ok s =>
      Some (PDFCell.currentPageIndex s, PDFCell.currentPage s, PDFCell.tasks s,
            PDFCell.console s, History.historyIndexRef (PDFCell.history s))
  | Js.Throw _ => None
  end.

Definition base_at (o : Js.Outcome PDFCell.State) (i j : Z) : option RGBA :=
  match o with
  | Js.Ok s => Some (px_at (pixels (PDFCell.pdfCanvas s)) i j)
  | Js.Throw _ => None
  end.



(** A canvas that already carries a dark dotted background. *)
Definition used : Ctx := DrawingCell.drawBackground (fresh 40 40) 40 40 Dots true.

End Samples.

(** Further inputs: sessions on the two surfaces with a history, notes,
    pages, and a store with projects. *)
Module Cases.
Import Canvas2D Types RefRaster Samples.

(** A picture of 2 x 2 pixels. *)
Definition stamp : Bitmap := pixels (fresh 2 2).

(** A pen stroke, a clear and an inserted picture. *)
Definition session : list DrawingCell.Action :=
  [DrawingCell.Stroke scribble; DrawingCell.Clear; DrawingCell.Insert stamp].

(** A rectangle dragged from (1,1) to (3,3) through (2,2). *)
Definition box : DrawingCell.Gesture :=
  DrawingCell.mkGesture DrawingCell.Rect "#000000" 3 false
    (at_ 1 1 4 4) [at_ 2 2 4 4] (at_ 3 3 4 4).

(** A drawing cell mounted with a saved drawing: it starts in view mode. *)
Definition viewed : DrawingCell.State := DrawingCell.mount "data:image/png;base64,AA" 4 4 false.

(** A mini drawing cell mounted with a saved drawing. *)
Definition mini_viewed : MiniDrawing.State :=
  MiniDrawing.mount "data:image/png;base64,AA" 150 Blank.

(** The PDF cell in edit mode, its overlay cleared. *)
Definition marking : PDFCell.State :=
  PDFCell.handleClearDrawing (PDFCell.set_isEditingDrawing true (PDFCell.mount book)).

Definition overlay_session : list PDFCell.Action :=
  [PDFCell.Stroke (at_ 10 10 800 1000) [at_ 30 30 800 1000] (at_ 30 30 800 1000);
   PDFCell.Clear].

(** A loaded document of one page followed by an empty custom page, the
    overlay of page 1 cleared. *)
Definition leaflet : PDFCell.State :=
  PDFCell.handleClearDrawing
    (PDFCell.set_pdfDoc true (PDFCell.mount [page 1; PDFCell.mkPage None "" true ""])).

(** Pointer events on a 4 x 4 canvas shown at its own size. *)
Definition taps : list CanvasInput :=
  [OnPointerDown (at_ 1 1 4 4); OnPointerMove (at_ 2 2 4 4); OnPointerUp (at_ 2 2 4 4);
   OnPointerLeave (at_ 2 2 4 4)].

(** Ctrl+Z, then Ctrl+Shift+Z. *)
Definition undo_redo_keys : list KeyboardEvent :=
  [mkKeyboardEvent true false "z"; mkKeyboardEvent true true "z"].

(** Two mini drawing cells that differ in what was drawn. *)
Definition mini_drawn : MiniDrawing.State :=
  MiniDrawing.gesture (at_ 1 1 400 150) [at_ 5 5 400 150] (at_ 5 5 400 150) mini.
Definition mini_scrawled : MiniDrawing.State :=
  MiniDrawing.gesture (at_ 20 20 400 150) [at_ 90 40 400 150] (at_ 90 40 400 150) mini.

(** An empty markdown note. *)
Definition memo (i : string) : MiniNotebook.MiniCell :=
  MiniNotebook.mkMiniCell i MiniNotebook.Markdown (Some "") None None None None.

(** A document of three pages, just uploaded; the id of page [k] is the
    digit [k]. *)
Definition page_id (k : Z) : string :=
  String (Ascii.ascii_of_nat (48 + Z.to_nat k)) EmptyString.

Definition folio : PDFCellPages.State :=
  PDFCellPages.handleFileUpload 3 page_id PDFCellPages.mount.

(** An empty markdown cell. *)
Definition para (i : string) : Notebooks.Cell := Notebooks.createCell i 0 Notebooks.Markdown.

(** A store with a project inside another, a third project beside them,
    and a notebook in each of the last two. *)
Definition shelf : Notebooks.ProjectStore :=
  Notebooks.mkStore
    [Notebooks.mkProject "p1" "Work" None 0 0;
     Notebooks.mkProject "p2" "Plans" (Some "p1") 0 0;
     Notebooks.mkProject "p3" "Home" None 0 0]
    [Notebooks.mkNotebook "n1" "Ideas" [para "c1"; para "c2"] 0 0 (Some "p2");
     Notebooks.mkNotebook "n2" "Recipes" [] 0 0 (Some "p3")]
    (Some "n1").

Definition rank (i : string) : nat := if String.eqb i "p2" then 0%nat else 1%nat.

End Cases.

(* ================================================================== *)
(** * Properties *)

(** ** Arrays and the history of snapshots *)

Module HistoryFacts.
Import Canvas2D History HistorySpec.

Lemma slice0_firstn : forall (A : Type) (arr : list A) (e : Z),
  0 <= e -> Js.slice0 e arr = firstn (Z.to_nat e) arr.
Proof.
  intros A arr e He. unfold Js.slice0.
  destruct (Z.ltb_spec e 0) as [Hneg | _]; [lia |].
  destruct (Z.le_gt_cases e (Z.of_nat (List.length arr))) as [Hin | Hout].
  - now rewrite Z.min_l.
  - rewrite Z.min_r by lia. rewrite Nat2Z.id.
    rewrite firstn_all. symmetry. apply firstn_all2. lia.
Qed.

Lemma index_nth : forall (A : Type) (arr : list A) (i : Z),
  0 <= i -> Js.index arr i = nth_error arr (Z.to_nat i).
Proof.
  intros A arr i Hi. unfold Js.index.
  destruct (Z.ltb_spec i 0); [lia | reflexivity].
Qed.

Lemma index_in_range : forall (A : Type) (arr : list A) (i : Z),
  0 <= i < Z.of_nat (List.length arr) -> exists a, Js.index arr i = Some a.
Proof.
  intros A arr i Hi. rewrite index_nth by lia.
  destruct (nth_error arr (Z.to_nat i)) as [a |] eqn:E; [now exists a |].
  apply nth_error_None in E. lia.
Qed.

Lemma index_some_range : forall (A : Type) (arr : list A) (i : Z) (a : A),
  Js.index arr i = Some a -> 0 <= i < Z.of_nat (List.length arr).
Proof.
  intros A arr i a H. unfold Js.index in H.
  destruct (Z.ltb_spec i 0); [discriminate |].
  assert (Hn : nth_error arr (Z.to_nat i) <> None) by congruence.
  apply nth_error_Some in Hn. lia.
Qed.

Lemma index_app_l : forall (A : Type) (l1 l2 : list A) (i : Z),
  0 <= i < Z.of_nat (List.length l1) -> Js.index (l1 ++ l2) i = Js.index l1 i.
Proof.
  intros A l1 l2 i Hi. rewrite !index_nth by lia.
  apply nth_error_app1. lia.
Qed.

Lemma index_app_last : forall (A : Type) (l : list A) (a : A),
  Js.index (l ++ [a]) (Z.of_nat (List.length l)) = Some a.
Proof.
  intros A l a. rewrite index_nth by lia. rewrite Nat2Z.id.
  rewrite nth_error_app2 by lia. now rewrite Nat.sub_diag.
Qed.

Lemma index_firstn : forall (A : Type) (l : list A) (n : nat) (i : Z),
  0 <= i < Z.of_nat n -> Js.index (firstn n l) i = Js.index l i.
Proof.
  intros A l n i Hi. rewrite !index_nth by lia.
  rewrite nth_error_firstn.
  destruct (Nat.ltb_spec (Z.to_nat i) n); [reflexivity | lia].
Qed.

Section Facts.
Context {B : Backend}.

(** What a push does to a well-formed history: the entries after the
    cursor go, the snapshot is appended, and the oldest entry is dropped
    when that makes fifty-one. *)
Lemma saveToHistory_spec : forall (c : Ctx) (r : Refs),
  -1 <= historyIndexRef r < size r ->
  let kept := firstn (Z.to_nat (historyIndexRef r + 1)) (historyRef r) in
  saveToHistory c r =
    if 49 <=? historyIndexRef r
    then mkRefs (tl (kept ++ [pixels c])) (historyIndexRef r)
    else mkRefs (kept ++ [pixels c]) (historyIndexRef r + 1).
Proof.
  intros c r Hr kept. unfold saveToHistory, Js.push, Js.shift, getImageData, size in *.
  rewrite slice0_firstn by lia. fold kept.
  assert (Hk : Z.of_nat (List.length (kept ++ [pixels c])) = historyIndexRef r + 2).
  { unfold kept. rewrite length_app, length_firstn. simpl. lia. }
  rewrite Hk.
  destruct (Z.leb_spec 49 (historyIndexRef r)) as [Hfull | Hroom].
  - destruct (Z.gtb_spec (historyIndexRef r + 2) 50); [| lia].
    f_equal. lia.
  - destruct (Z.gtb_spec (historyIndexRef r + 2) 50); [lia |].
    f_equal. lia.
Qed.

Lemma saveToHistory_wf : forall (c : Ctx) (r : Refs),
  wf r ->
  wf (saveToHistory c r) /\
  0 <= historyIndexRef (saveToHistory c r) /\
  current (saveToHistory c r) = Some (pixels c).
Proof.
  intros c r [Hi Hn]. pose proof (saveToHistory_spec c r Hi) as E. cbv zeta in E.
  set (kept := firstn (Z.to_nat (historyIndexRef r + 1)) (historyRef r)) in *.
  assert (Hk : Z.of_nat (List.length kept) = historyIndexRef r + 1).
  { unfold kept, size in *. rewrite length_firstn. lia. }
  rewrite E. unfold wf, current, size in *.
  destruct (Z.leb_spec 49 (historyIndexRef r)) as [Hfull | Hroom]; simpl.
  - destruct kept as [| a kept']; [simpl in Hk; lia |].
    simpl in *. rewrite length_app. simpl. repeat split; try lia.
    replace (historyIndexRef r) with (Z.of_nat (List.length kept')) by lia.
    apply index_app_last.
  - rewrite length_app. simpl. repeat split; try lia.
    replace (historyIndexRef r + 1) with (Z.of_nat (List.length kept)) by lia.
    apply index_app_last.
Qed.


Lemma empty_wf : wf empty.
Proof. unfold wf, size, empty. simpl. lia. Qed.


Lemma undo_at_start : forall (c : Ctx) (r : Refs),
  historyIndexRef r <= 0 -> undo c r = Js.Ok (c, r).
Proof.
  intros c r H. unfold undo.
  destruct (Z.gtb_spec (historyIndexRef r) 0); [lia | reflexivity].
Qed.

Lemma redo_at_end : forall (c : Ctx) (r : Refs),
  size r - 1 <= historyIndexRef r -> redo c r = Js.Ok (c, r).
Proof.
  intros c r H. unfold redo, size in *.
  destruct (Z.ltb_spec (historyIndexRef r) (Z.of_nat (List.length (historyRef r)) - 1));
    [lia | reflexivity].
Qed.

Lemma undo_step : forall (c : Ctx) (r : Refs),
  0 < historyIndexRef r < size r ->
  exists img,
    Js.index (historyRef r) (historyIndexRef r - 1) = Some img /\
    undo c r = Js.Ok (putImageData img c, mkRefs (historyRef r) (historyIndexRef r - 1)).
Proof.
  intros c r H. unfold undo, size in *.
  destruct (Z.gtb_spec (historyIndexRef r) 0); [| lia].
  destruct (index_in_range _ (historyRef r) (historyIndexRef r - 1)) as [img E]; [lia |].
  exists img. now rewrite E.
Qed.

Lemma redo_step : forall (c : Ctx) (r : Refs),
  -1 <= historyIndexRef r < size r - 1 ->
  exists img,
    Js.index (historyRef r) (historyIndexRef r + 1) = Some img /\
    redo c r = Js.Ok (putImageData img c, mkRefs (historyRef r) (historyIndexRef r + 1)).
Proof.
  intros c r H. unfold redo, size in *.
  destruct (Z.ltb_spec (historyIndexRef r) (Z.of_nat (List.length (historyRef r)) - 1));
    [| lia].
  destruct (index_in_range _ (historyRef r) (historyIndexRef r + 1)) as [img E]; [lia |].
  exists img. now rewrite E.
Qed.

(** Neither operation can raise on a well-formed history. *)
Lemma undo_total : forall (c : Ctx) (r : Refs),
  wf r -> exists c' r', undo c r = Js.Ok (c', r') /\ wf r'.
Proof.
  intros c r Hr. destruct (Z.le_gt_cases (historyIndexRef r) 0) as [H0 | Hpos].
  - exists c, r. split; [now apply undo_at_start | assumption].
  - destruct Hr as [Hi Hn].
    destruct (undo_step c r) as [img [_ E]]; [lia |].
    eexists _, _. split; [exact E |]. unfold wf, size in *. simpl. lia.
Qed.

Lemma redo_total : forall (c : Ctx) (r : Refs),
  wf r -> exists c' r', redo c r = Js.Ok (c', r') /\ wf r'.
Proof.
  intros c r Hr. destruct (Z.le_gt_cases (size r - 1) (historyIndexRef r)) as [Hend | Hin].
  - exists c, r. split; [now apply redo_at_end | assumption].
  - destruct Hr as [Hi Hn].
    destruct (redo_step c r) as [img [_ E]]; [lia |].
    eexists _, _. split; [exact E |]. unfold wf, size in *. simpl. lia.
Qed.

End Facts.

End HistoryFacts.

(** ** The history cap *)

Section HistoryCap.
Import Canvas2D History HistorySpec HistoryFacts.
Context {B : Backend}.


(** After an undo the cursor is no longer on the last entry, and a push
    at fifty entries then only cuts the entries after the cursor: the
    oldest entry stays. *)
Lemma push_below_tail_keeps_oldest : forall (c : Ctx) (r : Refs),
  wf r -> 0 <= historyIndexRef r < 49 ->
  hd_error (historyRef (saveToHistory c r)) = hd_error (historyRef r) /\
  size (saveToHistory c r) = historyIndexRef r + 2.
Proof.
  intros c r [Hi Hn] Hc. rewrite (saveToHistory_spec c r Hi). cbv zeta.
  destruct (Z.leb_spec 49 (historyIndexRef r)); [lia |].
  unfold size in *. simpl. rewrite length_app, length_firstn. simpl. split; [| lia].
  destruct (historyRef r) as [| a h]; [simpl in *; lia |].
  destruct (Z.to_nat (historyIndexRef r + 1)) eqn:E; [lia | reflexivity].
Qed.

End HistoryCap.

(** ** Undo and redo at the ends of the history *)

Section Boundaries.
Import Canvas2D History HistorySpec HistoryFacts.
Context {B : Backend} {T : Trig} {D : PDFCell.PdfDocument}.

Lemma drawing_never_raises : forall s : DrawingCell.State,
  wf (DrawingCell.history s) ->
  (exists s', DrawingCell.undo s = Js.Ok s') /\ (exists s', DrawingCell.redo s = Js.Ok s').
Proof.
  intros s Hwf. split.
  - destruct (undo_total (DrawingCell.canvas s) _ Hwf) as [c' [r' [E _]]].
    unfold DrawingCell.undo. rewrite E. simpl. eauto.
  - destruct (redo_total (DrawingCell.canvas s) _ Hwf) as [c' [r' [E _]]].
    unfold DrawingCell.redo. rewrite E. simpl. eauto.
Qed.

Lemma overlay_never_raises : forall s : PDFCell.State,
  wf (PDFCell.history s) ->
  (exists s', PDFCell.undo s = Js.Ok s') /\ (exists s', PDFCell.redo s = Js.Ok s').
Proof.
  intros s Hwf. split.
  - destruct (undo_total (PDFCell.drawingCanvas s) _ Hwf) as [c' [r' [E _]]].
    unfold PDFCell.undo. rewrite E. simpl. eauto.
  - destruct (redo_total (PDFCell.drawingCanvas s) _ Hwf) as [c' [r' [E _]]].
    unfold PDFCell.redo. rewrite E. simpl. eauto.
Qed.

(** C8.  With the cursor on the first entry [undo] returns normally and
    leaves the whole component state (cursor, history and ink layer
    included) as it was, and so does [redo] with the cursor on the last
    entry; and on any history the pushes, undos and redos of the
    component can produce (cursor within the entries, or -1 when there
    is none) neither operation raises.  This holds for the drawing cell
    and for the PDF overlay. *)
Theorem undo_redo_noop_at_ends :
  (forall s : DrawingCell.State,
     historyIndexRef (DrawingCell.history s) = 0 -> DrawingCell.undo s = Js.Ok s) /\
  (forall s : DrawingCell.State,
     historyIndexRef (DrawingCell.history s) = size (DrawingCell.history s) - 1 ->
     DrawingCell.redo s = Js.Ok s) /\
  (forall s : DrawingCell.State,
     wf (DrawingCell.history s) ->
     (exists s', DrawingCell.undo s = Js.Ok s') /\ (exists s', DrawingCell.redo s = Js.Ok s')) /\
  (forall s : PDFCell.State,
     historyIndexRef (PDFCell.history s) = 0 -> PDFCell.undo s = Js.Ok s) /\
  (forall s : PDFCell.State,
     historyIndexRef (PDFCell.history s) = size (PDFCell.history s) - 1 ->
     PDFCell.redo s = Js.Ok s) /\
  (forall s : PDFCell.State,
     wf (PDFCell.history s) ->
     (exists s', PDFCell.undo s = Js.Ok s') /\ (exists s', PDFCell.redo s = Js.Ok s')).
Proof.
  split; [| split; [| split; [| split; [| split]]]]; intros s H.
  - unfold DrawingCell.undo. rewrite undo_at_start by lia. now destruct s.
  - unfold DrawingCell.redo. rewrite redo_at_end by lia. now destruct s.
  - now apply drawing_never_raises.
  - unfold PDFCell.undo. rewrite undo_at_start by lia. now destruct s.
  - unfold PDFCell.redo. rewrite redo_at_end by lia. now destruct s.
  - now apply overlay_never_raises.
Qed.

End Boundaries.

(** ** Drag-resizing the mini drawing cell *)

Section Resize.
Import Canvas2D Types MiniDrawing ResizeSpec.
Context {B : Backend} {T : Trig}.

Lemma initEffect_frame : forall s : State,
  canvasHeight (initEffect s) = canvasHeight s /\
  isResizing (initEffect s) = isResizing s /\
  resizeStartY (initEffect s) = resizeStartY s /\
  resizeStartHeight (initEffect s) = resizeStartHeight s.
Proof.
  intros s. unfold initEffect. cbv zeta.
  destruct (Js.truthy _); [destruct (decode _) |]; repeat split; reflexivity.
Qed.

Lemma backgroundEffect_frame : forall s : State,
  canvasHeight (backgroundEffect s) = canvasHeight s /\
  isResizing (backgroundEffect s) = isResizing s /\
  resizeStartY (backgroundEffect s) = resizeStartY s /\
  resizeStartHeight (backgroundEffect s) = resizeStartHeight s.
Proof. intros s. repeat split; reflexivity. Qed.

Lemma setCanvasHeight_frame : forall (h : Z) (s : State),
  canvasHeight (setCanvasHeight h s) = h /\
  isResizing (setCanvasHeight h s) = isResizing s /\
  resizeStartY (setCanvasHeight h s) = resizeStartY s /\
  resizeStartHeight (setCanvasHeight h s) = resizeStartHeight s.
Proof.
  intros h s. unfold setCanvasHeight.
  destruct (Z.eqb_spec h (canvasHeight s)) as [-> | _]; [now repeat split |].
  cbv zeta.
  set (s1 := set_previewCanvas _ _).
  destruct (initEffect_frame s1) as (A1 & A2 & A3 & A4).
  destruct (backgroundEffect_frame (initEffect s1)) as (B1 & B2 & B3 & B4).
  rewrite B1, B2, B3, B4, A1, A2, A3, A4. repeat split; reflexivity.
Qed.

Lemma mouseMove_resizing : forall (y : Z) (s : State),
  isResizing s = true ->
  canvasHeight (mouseMove y s) = clamp (resizeStartHeight s + (y - resizeStartY s)) /\
  isResizing (mouseMove y s) = true /\
  resizeStartY (mouseMove y s) = resizeStartY s /\
  resizeStartHeight (mouseMove y s) = resizeStartHeight s.
Proof.
  intros y s Hr. unfold mouseMove, handleMouseMove. rewrite Hr.
  destruct (setCanvasHeight_frame
              (Z.max 100 (Z.min 600 (resizeStartHeight s + (y - resizeStartY s)))) s)
    as [Hh [Hres [Hy Hs]]].
  repeat split; try assumption. now rewrite Hres.
Qed.

Lemma moves_resizing : forall (ys : list Z) (s : State),
  isResizing s = true ->
  let s' := fold_left (fun st y => mouseMove y st) ys s in
  isResizing s' = true /\
  resizeStartY s' = resizeStartY s /\
  resizeStartHeight s' = resizeStartHeight s.
Proof.
  induction ys as [| y ys IH]; intros s Hr; simpl; [now repeat split |].
  destruct (mouseMove_resizing y s Hr) as [_ [Hr' [Hy Hs]]].
  destruct (IH (mouseMove y s) Hr') as [Hr'' [Hy' Hs']].
  repeat split; congruence.
Qed.

(** C9.  Press the resize handle at [y0] on a cell of any height and move
    the mouse through any positions, the last being [y]: the canvas
    height then is [max 100 (min 600 (startHeight + (y - y0)))], which
    lies between 100 and 600. *)
Theorem resize_height_clamped : forall (s : State) (y0 : Z) (ys : list Z) (y : Z),
  let s' := drag y0 (ys ++ [y]) s in
  canvasHeight s' = Z.max 100 (Z.min 600 (canvasHeight s + (y - y0))) /\
  100 <= canvasHeight s' <= 600.
Proof.
  intros s y0 ys y s'. subst s'. unfold drag. rewrite fold_left_app. simpl.
  set (s1 := handleResizeStart y0 s).
  assert (H1 : isResizing s1 = true /\ resizeStartY s1 = y0 /\
               resizeStartHeight s1 = canvasHeight s) by (now repeat split).
  destruct H1 as [Hr [Hy Hs]].
  destruct (moves_resizing ys s1 Hr) as [Hr' [Hy' Hs']].
  destruct (mouseMove_resizing y _ Hr') as [Hh _].
  rewrite Hh, Hy', Hs', Hy, Hs. unfold clamp. split; [reflexivity | lia].
Qed.

End Resize.

(** ** Blend settings around a segment on the PDF overlay *)

Section OverlayBlend.
Import Canvas2D Types PDFCell BlendSpec.
Context {B : Backend} {D : PdfDocument}.

Lemma drawLine_blend : forall (s : State) (from to : Point) (ctx : Ctx),
  default_blend (drawLine s from to ctx).
Proof. intros s from to ctx. unfold default_blend, drawLine. now split. Qed.

Lemma drawLine_stroke_blend : forall (s : State) (from to : Point) (ctx : Ctx),
  globalAlpha ctx = 1%Q ->
  exists style pen,
    pixels (drawLine s from to ctx) =
    render (StrokePath (tool_blend (tool s)) style pen
              [MoveTo (x from) (y from); LineTo (x to) (y to)]) (pixels ctx).
Proof.
  intros s from to ctx Ha. unfold drawLine, tool_blend.
  destruct (tool s); simpl; unfold stroke, blend_of; simpl.
  - unfold set_lineWidth.
    destruct (Qlt_le_dec 0 (brushSize s * ((1 # 2) + (pressure from + pressure to) / 2)));
      simpl; eauto.
  - unfold set_lineWidth. destruct (Qlt_le_dec 0 (brushSize s * 3)); simpl; rewrite Ha; eauto.
  - unfold set_lineWidth. destruct (Qlt_le_dec 0 (brushSize s * 4)); simpl; eauto.
Qed.

(** C10.  Whatever the tool, the points and the context a segment is
    drawn on, the context comes back with [globalCompositeOperation] at
    ['source-over'] and [globalAlpha] at 1; hence in any run of segments
    every segment after the first is stroked with exactly the blend
    settings of its own tool. *)
Theorem overlay_segment_restores_blend :
  (forall (s : State) (from to : Point) (ctx : Ctx),
     globalCompositeOperation (drawLine s from to ctx) = SourceOver /\
     globalAlpha (drawLine s from to ctx) = 1%Q) /\
  (forall (l : list (State * Point * Point)) (s0 s : State) (f0 t0 from to : Point) (ctx : Ctx),
     let before := segments l (drawLine s0 f0 t0 ctx) in
     exists style pen,
       pixels (drawLine s from to before) =
       render (StrokePath (tool_blend (tool s)) style pen
                 [MoveTo (x from) (y from); LineTo (x to) (y to)]) (pixels before)).
Proof.
  split.
  - intros s from to ctx. apply drawLine_blend.
  - intros l s0 s f0 t0 from to ctx before.
    apply drawLine_stroke_blend.
    assert (Hb : default_blend before).
    { subst before. generalize (drawLine s0 f0 t0 ctx) (drawLine_blend s0 f0 t0 ctx).
      induction l as [| seg l IH]; intros c Hc; simpl; [assumption |].
      apply IH. apply drawLine_blend. }
    apply Hb.
Qed.

End OverlayBlend.

(** ** The background pattern generator *)

Section Background.
Import Canvas2D Types Ruling Laws BackgroundSpec.
Context {B : Backend} {L : Lawful B}.

Lemma set_lineWidth_one : forall c : Ctx,
  set_lineWidth 1 c =
  mkCtx (pixels c) (fillStyle c) (strokeStyle c) 1 (lineCap c) (lineJoin c)
        (globalAlpha c) (globalCompositeOperation c) (path c).
Proof.
  intros c. unfold set_lineWidth. destruct (Qlt_le_dec 0 1) as [_ | H]; [reflexivity |].
  exfalso. revert H. compute. intros H. now apply H.
Qed.

Lemma for_from_S : forall (fuel : nat) (v limit : Z) (body : Z -> Ctx -> Ctx) (c : Ctx),
  for_from (S fuel) v limit body c =
  if v <? limit then for_from fuel (v + gridSize) limit body (body v c) else c.
Proof. reflexivity. Qed.

Lemma for_from_rel : forall (R : Ctx -> Ctx -> Prop) (body : Z -> Ctx -> Ctx),
  (forall v c1 c2, R c1 c2 -> R (body v c1) (body v c2)) ->
  forall fuel v limit c1 c2,
    R c1 c2 -> R (for_from fuel v limit body c1) (for_from fuel v limit body c2).
Proof.
  intros R body Hbody. induction fuel as [| fuel IH]; intros v limit c1 c2 H;
    [exact H |].
  rewrite !for_from_S. destruct (v <? limit); [| assumption]. apply IH, Hbody, H.
Qed.

Lemma for_from_inv : forall (P : Ctx -> Prop) (body : Z -> Ctx -> Ctx),
  (forall v c, P c -> P (body v c)) ->
  forall fuel v limit c, P c -> P (for_from fuel v limit body c).
Proof.
  intros P body Hbody. induction fuel as [| fuel IH]; intros v limit c H;
    [exact H |].
  rewrite for_from_S. destruct (v <? limit); [| assumption]. apply IH, Hbody, H.
Qed.

(** The loop of the program stops by its own test: more fuel than the
    limit changes nothing. *)
Lemma for_from_fuel : forall (body : Z -> Ctx -> Ctx) (fuel : nat) (v limit : Z) (c : Ctx),
  0 < v -> limit - v < Z.of_nat fuel ->
  for_from (S fuel) v limit body c = for_from fuel v limit body c.
Proof.
  intros body. induction fuel as [| fuel IH]; intros v limit c Hv Hf.
  - rewrite for_from_S. destruct (Z.ltb_spec v limit); [simpl in Hf; lia | reflexivity].
  - rewrite (for_from_S (S fuel) v limit body c), (for_from_S fuel v limit body c).
    destruct (v <? limit); [| reflexivity].
    apply IH; unfold gridSize; lia.
Qed.

Lemma for_grid_complete : forall (body : Z -> Ctx -> Ctx) (limit : Z) (c : Ctx),
  for_from (S (Z.to_nat limit)) gridSize limit body c = for_grid limit body c.
Proof.
  intros body limit c. unfold for_grid. apply for_from_fuel; unfold gridSize; lia.
Qed.

Lemma vline_same : forall height v c1 c2,
  same_stroke c1 c2 -> same_stroke (vline height v c1) (vline height v c2).
Proof.
  intros height v c1 c2 (Hp & Hs & Hw & Hc & Hj & Ha & Ho).
  unfold same_stroke, vline, stroke, blend_of, pen_of. simpl.
  rewrite Hp, Hs, Hw, Hc, Hj, Ha, Ho. now repeat split.
Qed.

Lemma hline_same : forall width v c1 c2,
  same_stroke c1 c2 -> same_stroke (hline width v c1) (hline width v c2).
Proof.
  intros width v c1 c2 (Hp & Hs & Hw & Hc & Hj & Ha & Ho).
  unfold same_stroke, hline, stroke, blend_of, pen_of. simpl.
  rewrite Hp, Hs, Hw, Hc, Hj, Ha, Ho. now repeat split.
Qed.

Lemma dot_same : forall u v c1 c2,
  same_fill c1 c2 -> same_fill (dot u v c1) (dot u v c2).
Proof.
  intros u v c1 c2 (Hp & Hs & Ha & Ho).
  unfold same_fill, dot, fill, blend_of. simpl.
  rewrite Hp, Hs, Ha, Ho. now repeat split.
Qed.

Lemma grid_same : forall width height c1 c2,
  same_stroke c1 c2 ->
  pixels (for_grid height (hline width) (for_grid width (vline height) c1)) =
  pixels (for_grid height (hline width) (for_grid width (vline height) c2)).
Proof.
  intros width height c1 c2 H. unfold for_grid.
  apply (for_from_rel same_stroke); [apply hline_same |].
  apply (for_from_rel same_stroke); [apply vline_same | exact H].
Qed.

Lemma lines_same : forall width height c1 c2,
  same_stroke c1 c2 ->
  pixels (for_grid height (hline width) c1) = pixels (for_grid height (hline width) c2).
Proof.
  intros width height c1 c2 H. unfold for_grid.
  apply (for_from_rel same_stroke); [apply hline_same | exact H].
Qed.

Lemma dots_same : forall width height c1 c2,
  same_fill c1 c2 ->
  pixels (for_grid width (fun u c => for_grid height (fun v c' => dot u v c') c) c1) =
  pixels (for_grid width (fun u c => for_grid height (fun v c' => dot u v c') c) c2).
Proof.
  intros width height c1 c2 H. unfold for_grid.
  apply (for_from_rel same_fill); [| exact H].
  intros u d1 d2 Hd. apply (for_from_rel same_fill); [| exact Hd].
  intros v e1 e2 He. now apply dot_same.
Qed.

(** The opening fill of every painter wipes what the bitmaps held. *)
Lemma fill_wipes : forall (bg : Color) (w h : Z) (c1 c2 : Ctx),
  opaque bg = true -> plain w h c1 -> plain w h c2 ->
  pixels (fillRect 0 0 (inject_Z w) (inject_Z h) (set_fillStyle bg c1)) =
  pixels (fillRect 0 0 (inject_Z w) (inject_Z h) (set_fillStyle bg c2)).
Proof.
  intros bg w h c1 c2 Hbg (Hd1 & Ha1 & Ho1) (Hd2 & Ha2 & Ho2).
  unfold fillRect, blend_of. simpl. rewrite Ha1, Ho1, Ha2, Ho2.
  now apply fill_full.
Qed.

Lemma drawing_background_same : forall (w h : Z) (bg : BackgroundType) (dark : bool)
    (c1 c2 : Ctx),
  plain w h c1 -> plain w h c2 ->
  lineCap c1 = lineCap c2 -> lineJoin c1 = lineJoin c2 ->
  pixels (DrawingCell.drawBackground c1 w h bg dark) =
  pixels (DrawingCell.drawBackground c2 w h bg dark).
Proof.
  intros w h bg dark c1 c2 H1 H2 Hc Hj.
  assert (Hfill : forall col, opaque col = true ->
            pixels (fillRect 0 0 (inject_Z w) (inject_Z h) (set_fillStyle col c1)) =
            pixels (fillRect 0 0 (inject_Z w) (inject_Z h) (set_fillStyle col c2))).
  { intros col Hcol. now apply fill_wipes. }
  destruct H1 as (Hd1 & Ha1 & Ho1), H2 as (Hd2 & Ha2 & Ho2).
  unfold DrawingCell.drawBackground.
  assert (Hbg : opaque (if dark then "#1f2937" else "#ffffff") = true) by now destruct dark.
  specialize (Hfill _ Hbg).
  destruct bg.
  - exact Hfill.
  - rewrite !set_lineWidth_one. apply grid_same.
    unfold same_stroke. simpl. rewrite Ha1, Ha2, Ho1, Ho2. now repeat split.
  - rewrite !set_lineWidth_one. apply lines_same.
    unfold same_stroke. simpl. rewrite Ha1, Ha2, Ho1, Ho2. now repeat split.
  - apply dots_same.
    unfold same_fill. simpl. rewrite Ha1, Ha2, Ho1, Ho2. now repeat split.
Qed.

Lemma mini_background_same : forall (w h : Z) (bg : BackgroundType) (c1 c2 : Ctx),
  plain w h c1 -> plain w h c2 ->
  lineCap c1 = lineCap c2 -> lineJoin c1 = lineJoin c2 ->
  pixels (MiniDrawing.drawBackground c1 w h bg) =
  pixels (MiniDrawing.drawBackground c2 w h bg).
Proof.
  intros w h bg c1 c2 H1 H2 Hc Hj.
  pose proof (fill_wipes "#ffffff" w h c1 c2 eq_refl H1 H2) as Hfill.
  destruct H1 as (Hd1 & Ha1 & Ho1), H2 as (Hd2 & Ha2 & Ho2).
  unfold MiniDrawing.drawBackground. rewrite !set_lineWidth_one.
  destruct bg.
  - exact Hfill.
  - apply grid_same.
    unfold same_stroke. simpl. rewrite Ha1, Ha2, Ho1, Ho2. now repeat split.
  - apply lines_same.
    unfold same_stroke. simpl. rewrite Ha1, Ha2, Ho1, Ho2. now repeat split.
  - apply dots_same.
    unfold same_fill. simpl. rewrite Ha1, Ha2, Ho1, Ho2. now repeat split.
Qed.

Lemma kept_vline : forall w h k j height v c, kept w h k j c -> kept w h k j (vline height v c).
Proof.
  intros w h k j height v c ((Hd & Ha & Ho) & Hk & Hj).
  unfold kept, plain, vline, stroke. simpl. rewrite dims_render. now repeat split.
Qed.

Lemma kept_hline : forall w h k j width v c, kept w h k j c -> kept w h k j (hline width v c).
Proof.
  intros w h k j width v c ((Hd & Ha & Ho) & Hk & Hj).
  unfold kept, plain, hline, stroke. simpl. rewrite dims_render. now repeat split.
Qed.

Lemma kept_dot : forall w h k j u v c, kept w h k j c -> kept w h k j (dot u v c).
Proof.
  intros w h k j u v c ((Hd & Ha & Ho) & Hk & Hj).
  unfold kept, plain, dot, fill. simpl. rewrite dims_render. now repeat split.
Qed.

Lemma kept_fill : forall w h k j col x y rw rh c,
  kept w h k j c -> kept w h k j (fillRect x y rw rh (set_fillStyle col c)).
Proof.
  intros w h k j col x y rw rh c ((Hd & Ha & Ho) & Hk & Hj).
  unfold kept, plain, fillRect. simpl. rewrite dims_render. now repeat split.
Qed.

Lemma kept_strokeStyle : forall w h k j col c,
  kept w h k j c -> kept w h k j (set_strokeStyle col c).
Proof. intros w h k j col c ((Hd & Ha & Ho) & Hk & Hj). now repeat split. Qed.

Lemma kept_fillStyle : forall w h k j col c,
  kept w h k j c -> kept w h k j (set_fillStyle col c).
Proof. intros w h k j col c ((Hd & Ha & Ho) & Hk & Hj). now repeat split. Qed.

Lemma kept_lineWidth : forall w h k j c,
  kept w h k j c -> kept w h k j (set_lineWidth 1 c).
Proof.
  intros w h k j c ((Hd & Ha & Ho) & Hk & Hj). rewrite set_lineWidth_one.
  now repeat split.
Qed.

Lemma drawing_background_kept : forall w h k j bg dark c,
  kept w h k j c -> kept w h k j (DrawingCell.drawBackground c w h bg dark).
Proof.
  intros w h k j bg dark c H. unfold DrawingCell.drawBackground.
  pose proof (kept_fill w h k j (if dark then "#1f2937" else "#ffffff") 0 0
                (inject_Z w) (inject_Z h) c H) as Hf.
  destruct bg; unfold for_grid.
  - exact Hf.
  - apply for_from_inv; [intros; now apply kept_hline |].
    apply for_from_inv; [intros; now apply kept_vline |].
    apply kept_lineWidth, kept_strokeStyle, Hf.
  - apply for_from_inv; [intros; now apply kept_hline |].
    apply kept_lineWidth, kept_strokeStyle, Hf.
  - apply for_from_inv; [| apply kept_fillStyle, Hf].
    intros u d Hd. apply for_from_inv; [intros; now apply kept_dot | exact Hd].
Qed.

Lemma mini_background_kept : forall w h k j bg c,
  kept w h k j c -> kept w h k j (MiniDrawing.drawBackground c w h bg).
Proof.
  intros w h k j bg c H. unfold MiniDrawing.drawBackground.
  pose proof (kept_fill w h k j "#ffffff" 0 0 (inject_Z w) (inject_Z h) c H) as Hf.
  assert (Hs : kept w h k j
            (set_lineWidth 1 (set_fillStyle "#e5e7eb" (set_strokeStyle "#e5e7eb"
               (fillRect 0 0 (inject_Z w) (inject_Z h) (set_fillStyle "#ffffff" c)))))).
  { apply kept_lineWidth, kept_fillStyle, kept_strokeStyle, Hf. }
  destruct bg; unfold for_grid.
  - exact Hs.
  - apply for_from_inv; [intros; now apply kept_hline |].
    apply for_from_inv; [intros; now apply kept_vline | exact Hs].
  - apply for_from_inv; [intros; now apply kept_hline | exact Hs].
  - apply for_from_inv; [| exact Hs].
    intros u d Hd. apply for_from_inv; [intros; now apply kept_dot | exact Hd].
Qed.

(** C7.  For every width, height, background type and palette, the
    raster the generator leaves on a canvas of that size (in the default
    blend state) depends on nothing else: two canvases that differ in
    their bitmaps, styles, line widths or paths end with identical
    pixels, and generating again over the result gives the same pixels as
    the first generation; this holds for the generator of the drawing
    cell and for the one of the mini drawing cell. *)
Theorem background_deterministic :
  forall (w h : Z) (bg : BackgroundType) (dark : bool) (c1 c2 : Ctx),
    plain w h c1 -> plain w h c2 ->
    lineCap c1 = lineCap c2 -> lineJoin c1 = lineJoin c2 ->
    (pixels (DrawingCell.drawBackground c1 w h bg dark) =
     pixels (DrawingCell.drawBackground c2 w h bg dark) /\
     pixels (DrawingCell.drawBackground (DrawingCell.drawBackground c1 w h bg dark) w h bg dark) =
     pixels (DrawingCell.drawBackground c1 w h bg dark)) /\
    (pixels (MiniDrawing.drawBackground c1 w h bg) =
     pixels (MiniDrawing.drawBackground c2 w h bg) /\
     pixels (MiniDrawing.drawBackground (MiniDrawing.drawBackground c1 w h bg) w h bg) =
     pixels (MiniDrawing.drawBackground c1 w h bg)).
Proof.
  intros w h bg dark c1 c2 H1 H2 Hc Hj.
  assert (K1 : kept w h (lineCap c1) (lineJoin c1) c1) by (split; [exact H1 | now split]).
  split; split.
  - now apply drawing_background_same.
  - destruct (drawing_background_kept w h _ _ bg dark c1 K1) as (Hp & Hk & Hjn).
    now apply drawing_background_same.
  - now apply mini_background_same.
  - destruct (mini_background_kept w h _ _ bg c1 K1) as (Hp & Hk & Hjn).
    now apply mini_background_same.
Qed.

End Background.

(** ** The reference rasteriser obeys the laws *)

Module RefFacts.
Import Canvas2D RefRaster Laws.

Lemma opaque_parse : forall c : Color, opaque c = true -> alpha (parse_color c) = 255.
Proof.
  intros c H. unfold opaque in H. unfold parse_color.
  repeat match goal with
         | H : context [match ?x with _ => _ end] |- _ => destruct x; try discriminate H
         end;
    reflexivity.
Qed.

Lemma composite_opaque : forall src dst : RGBA,
  alpha src = 255 -> composite (mkBlend 1 SourceOver) src dst = src.
Proof.
  intros src dst H. unfold composite. simpl b_op. simpl b_alpha. rewrite H. reflexivity.
Qed.

Lemma composite_erase : forall src dst : RGBA,
  alpha src = 255 -> composite (mkBlend 1 DestinationOut) src dst = transparent.
Proof.
  intros src dst H. unfold composite. simpl b_op. simpl b_alpha. rewrite H.
  assert (E : Qeq_bool (inject_Z (alpha dst) / 255 * (1 - inject_Z 255 / 255 * 1)) 0 = true).
  { apply Qeq_bool_iff. unfold Qeq, Qmult, Qminus, Qplus, Qdiv, Qopp, Qinv, inject_Z. simpl.
    lia. }
  now rewrite E.
Qed.

Lemma centre_in_canvas : forall w h i j : Z,
  inside w h i j = true ->
  in_rect 0 0 (inject_Z w) (inject_Z h) (centre i) (centre j) = true.
Proof.
  intros w h i j H. unfold inside in H.
  apply andb_prop in H. destruct H as [H Hj2].
  apply andb_prop in H. destruct H as [H Hj1].
  apply andb_prop in H. destruct H as [Hi1 Hi2].
  apply Z.leb_le in Hi1, Hj1. apply Z.ltb_lt in Hi2, Hj2.
  unfold in_rect, qlt, qle.
  assert (Hw : Qle_bool 0 (inject_Z w) = true).
  { apply Qle_bool_iff. unfold Qle, inject_Z. simpl. lia. }
  assert (Hh : Qle_bool 0 (inject_Z h) = true).
  { apply Qle_bool_iff. unfold Qle, inject_Z. simpl. lia. }
  rewrite Hw, Hh. simpl.
  repeat (apply andb_true_intro; split); apply Qle_bool_iff;
    unfold Qle, Qplus, centre, inject_Z; cbn [Qnum Qden Pos.mul]; lia.
Qed.

Lemma ref_lawful : Lawful ref_backend.
Proof.
  constructor.
  - reflexivity.
  - reflexivity.
  - intros img px. simpl. unfold ref_put.
    destruct (Z.eqb_spec (bw img) (bw px)) as [Hw |]; [| reflexivity].
    destruct (Z.eqb_spec (bh img) (bh px)) as [Hh |]; [| reflexivity].
    simpl. congruence.
  - intros img px H. simpl in *. unfold ref_put. injection H as Hw Hh.
    now rewrite Hw, Hh, !Z.eqb_refl.
  - intros c w h px px' Hc H1 H2. simpl in *. unfold ref_render.
    injection H1 as Hw1 Hh1. injection H2 as Hw2 Hh2. rewrite Hw1, Hh1, Hw2, Hh2.
    f_equal. apply functional_extensionality. intros i.
    apply functional_extensionality. intros j.
    destruct (inside w h i j) eqn:E; [| reflexivity].
    unfold shade. rewrite (centre_in_canvas w h i j E).
    rewrite !composite_opaque by now apply opaque_parse. reflexivity.
Qed.

End RefFacts.

(** ** Drawing never changes the size of a bitmap *)

Module CanvasFacts.
Import Canvas2D Laws.

Section Facts.
Context {B : Backend} {L : Lawful B}.

Lemma pixels_set_lineWidth : forall w c, pixels (set_lineWidth w c) = pixels c.
Proof. intros w c. unfold set_lineWidth. now destruct (Qlt_le_dec 0 w). Qed.

Lemma pixels_set_globalAlpha : forall a c, pixels (set_globalAlpha a c) = pixels c.
Proof. intros a c. unfold set_globalAlpha. now destruct (Qle_bool 0 a && Qle_bool a 1). Qed.

Lemma path_set_lineWidth : forall w c, path (set_lineWidth w c) = path c.
Proof. intros w c. unfold set_lineWidth. now destruct (Qlt_le_dec 0 w). Qed.

Lemma dims_stroke : forall c, dims (pixels (stroke c)) = dims (pixels c).
Proof. intros c. unfold stroke. simpl. apply dims_render. Qed.

Lemma dims_fill : forall c, dims (pixels (fill c)) = dims (pixels c).
Proof. intros c. unfold fill. simpl. apply dims_render. Qed.

Lemma dims_fillRect : forall x y w h c, dims (pixels (fillRect x y w h c)) = dims (pixels c).
Proof. intros. unfold fillRect. simpl. apply dims_render. Qed.

Lemma dims_strokeRect : forall x y w h c, dims (pixels (strokeRect x y w h c)) = dims (pixels c).
Proof. intros. unfold strokeRect. simpl. apply dims_render. Qed.

Lemma dims_clearRect : forall x y w h c, dims (pixels (clearRect x y w h c)) = dims (pixels c).
Proof. intros. unfold clearRect. simpl. apply dims_render. Qed.

Lemma dims_drawImage : forall img x y c, dims (pixels (drawImage img x y c)) = dims (pixels c).
Proof. intros. unfold drawImage. simpl. apply dims_render. Qed.

Lemma dims_putImageData : forall img c, dims (pixels (putImageData img c)) = dims (pixels c).
Proof. intros. unfold putImageData. simpl. apply dims_put. Qed.

Lemma putImageData_same : forall img c,
  dims img = dims (pixels c) -> pixels (putImageData img c) = img.
Proof. intros img c H. unfold putImageData. simpl. now apply put_same. Qed.

End Facts.

End CanvasFacts.

(** ** Gestures, undo and redo on the drawing cell *)

Module DrawingFacts.
Import Canvas2D Types History HistorySpec HistoryFacts Laws CanvasFacts DrawingCell DrawingSpec.

Section Facts.
Context {B : Backend} {T : Trig} {L : Lawful B}.

Lemma dims_drawLine : forall (s : State) (from to : Point) (ctx : Ctx),
  dims (pixels (drawLine s from to ctx)) = dims (pixels ctx).
Proof.
  intros s from to ctx. unfold drawLine. rewrite dims_stroke. simpl.
  rewrite pixels_set_lineWidth. reflexivity.
Qed.

Lemma dims_drawShape : forall (s : State) (ctx : Ctx) (a b : Point) (t : ToolType) (p : bool),
  dims (pixels (drawShape s ctx a b t p)) = dims (pixels ctx).
Proof.
  intros s ctx a b t p. unfold drawShape. cbv zeta.
  set (c0 := set_lineJoin JoinRound
               (set_lineCap CapRound (set_lineWidth (brushSize s)
                  (set_strokeStyle (color s) (beginPath ctx))))).
  assert (H0 : dims (pixels c0) = dims (pixels ctx)).
  { unfold c0. simpl. now rewrite pixels_set_lineWidth. }
  assert (H1 : dims (pixels (if fillShape s && negb p then set_fillStyle (color s) c0 else c0))
               = dims (pixels ctx)).
  { now destruct (fillShape s && negb p). }
  set (c1 := if fillShape s && negb p then set_fillStyle (color s) c0 else c0) in *.
  destruct t; try exact H1.
  - now rewrite dims_stroke.
  - rewrite dims_strokeRect. destruct (fillShape s && negb p); [| exact H1].
    now rewrite dims_fillRect.
  - rewrite dims_stroke. destruct (fillShape s && negb p); [| exact H1].
    now rewrite dims_fill.
  - rewrite dims_stroke. change (dims (pixels (stroke (lineTo (x b) (y b) (moveTo (x a) (y a) c1))))
                               = dims (pixels ctx)).
    now rewrite dims_stroke.
Qed.

Lemma configure_frame : forall (g : Gesture) (s : State),
  history (configure g s) = history s /\ canvas (configure g s) = canvas s /\
  isEditing (configure g s) = isEditing s /\ isDrawing (configure g s) = isDrawing s.
Proof. intros g s. now repeat split. Qed.

Lemma down_frame : forall (e : PointerEvent) (s : State),
  history (handlePointerDown e s) = history s /\
  canvas (handlePointerDown e s) = canvas s /\
  isEditing (handlePointerDown e s) = isEditing s /\
  (isEditing s = true -> isDrawing (handlePointerDown e s) = true).
Proof.
  intros e s. unfold handlePointerDown.
  destruct (isEditing s) eqn:E; simpl; [| repeat split; congruence].
  destruct (isShapeTool (tool s)); simpl; now repeat split.
Qed.

Lemma move_frame : forall (e : PointerEvent) (s : State),
  history (handlePointerMove e s) = history s /\
  dims (pixels (canvas (handlePointerMove e s))) = dims (pixels (canvas s)) /\
  isEditing (handlePointerMove e s) = isEditing s /\
  isDrawing (handlePointerMove e s) = isDrawing s.
Proof.
  intros e s. unfold handlePointerMove.
  destruct (negb (isDrawing s) || negb (isEditing s)); [now repeat split |].
  destruct (isShapeTool (tool s)).
  - destruct (shapeStartPoint s); now repeat split.
  - destruct (lastPoint s); [| now repeat split].
    repeat split. cbn [canvas set_lastPoint set_canvas]. apply dims_drawLine.
Qed.

Lemma moves_frame : forall (es : list PointerEvent) (s : State),
  history (moves es s) = history s /\
  dims (pixels (canvas (moves es s))) = dims (pixels (canvas s)) /\
  isEditing (moves es s) = isEditing s /\
  isDrawing (moves es s) = isDrawing s.
Proof.
  unfold moves. induction es as [| e es IH]; intros s; simpl; [now repeat split |].
  destruct (IH (handlePointerMove e s)) as (Hh & Hd & He & Hdr).
  destruct (move_frame e s) as (Hh' & Hd' & He' & Hdr').
  repeat split; congruence.
Qed.

Lemma up_frame : forall (e : PointerEvent) (s : State),
  isDrawing s = true ->
  let s' := handlePointerUp e s in
  history s' = History.saveToHistory (canvas s') (history s) /\
  dims (pixels (canvas s')) = dims (pixels (canvas s)) /\
  isEditing s' = isEditing s /\ isDrawing s' = false.
Proof.
  intros e s Hd. unfold handlePointerUp. rewrite Hd. simpl negb. cbv iota.
  destruct (isShapeTool (tool s)); [destruct (shapeStartPoint s) |];
    repeat split; try reflexivity.
  cbn [canvas DrawingCell.saveToHistory set_history set_lastPoint setIsDrawing set_shapeStartPoint
       clearPreviewCanvas set_previewCanvas set_canvas].
  apply dims_drawShape.
Qed.

Lemma up_idle : forall (e : PointerEvent) (s : State),
  isDrawing s = false -> handlePointerUp e s = s.
Proof. intros e s H. unfold handlePointerUp. now rewrite H. Qed.

(** One gesture on a surface in edit mode: a single push, of the ink
    layer as the gesture left it. *)
Lemma gesture_pushes_once : forall (g : Gesture) (s : State),
  isEditing s = true ->
  let s' := gesture g s in
  history s' = History.saveToHistory (canvas s') (history s) /\
  dims (pixels (canvas s')) = dims (pixels (canvas s)) /\
  isEditing s' = true /\ isDrawing s' = false.
Proof.
  intros g s He. unfold gesture.
  destruct (configure_frame g s) as (Hh0 & Hc0 & He0 & _).
  destruct (down_frame (g_down g) (configure g s)) as (Hh1 & Hc1 & He1 & Hd1).
  destruct (moves_frame (g_moves g) (handlePointerDown (g_down g) (configure g s)))
    as (Hh2 & Hdim2 & He2 & Hd2).
  assert (Hdraw : isDrawing (moves (g_moves g) (handlePointerDown (g_down g) (configure g s)))
                  = true).
  { rewrite Hd2. apply Hd1. congruence. }
  destruct (up_frame (g_up g) _ Hdraw) as (Hh3 & Hdim3 & He3 & Hd3).
  repeat split.
  - rewrite Hh3. congruence.
  - rewrite Hdim3, Hdim2, Hc1, Hc0. reflexivity.
  - congruence.
  - exact Hd3.
Qed.

Lemma settled_wf : forall s : State, Settled s -> wf (history s) /\ 0 <= historyIndexRef (history s).
Proof.
  intros s (_ & _ & Hcur & _ & Hn). unfold current in Hcur.
  apply index_some_range in Hcur. unfold wf, size in *. lia.
Qed.

Lemma Forall_tl : forall (A : Type) (P : A -> Prop) (l : list A), Forall P l -> Forall P (tl l).
Proof. intros A P l H. destruct H; [constructor | assumption]. Qed.

Lemma Forall_firstn : forall (A : Type) (P : A -> Prop) (n : nat) (l : list A),
  Forall P l -> Forall P (firstn n l).
Proof.
  intros A P. induction n as [| n IH]; intros l H; simpl; [constructor |].
  destruct H; [constructor |]. constructor; auto.
Qed.

Lemma save_sizes : forall (c : Ctx) (r : Refs) (d : Z * Z),
  -1 <= historyIndexRef r < size r ->
  Forall (fun e => dims e = d) (historyRef r) -> dims (pixels c) = d ->
  Forall (fun e => dims e = d) (historyRef (History.saveToHistory c r)).
Proof.
  intros c r d Hi Hall Hc. rewrite (saveToHistory_spec c r Hi). cbv zeta.
  assert (Hk : Forall (fun e => dims e = d)
                 (firstn (Z.to_nat (historyIndexRef r + 1)) (historyRef r) ++ [pixels c])).
  { apply Forall_app. split; [now apply Forall_firstn | now constructor]. }
  destruct (49 <=? historyIndexRef r); simpl; [now apply Forall_tl | exact Hk].
Qed.



Lemma restore_coherent : forall (s : State) (i : Z) (img : Pixels),
  Coherent s -> Js.index (historyRef (history s)) i = Some img ->
  let s' := set_history (mkRefs (historyRef (history s)) i)
              (set_canvas (putImageData img (canvas s)) s) in
  Coherent s' /\ pixels (canvas s') = img.
Proof.
  intros s i img [Hcur Hall] Himg s'.
  assert (Hdim : dims img = dims (pixels (canvas s))).
  { rewrite Forall_forall in Hall. apply Hall.
    unfold Js.index in Himg. destruct (i <? 0); [discriminate |].
    eapply nth_error_In; eauto. }
  assert (Hpx : pixels (canvas s') = img) by (simpl; now apply putImageData_same).
  split; [| exact Hpx]. split.
  - unfold current. simpl historyRef. simpl historyIndexRef. now rewrite Hpx.
  - rewrite Hpx. simpl historyRef.
    eapply Forall_impl; [| exact Hall]. intros e He. simpl in He. congruence.
Qed.

Lemma undos_back : forall (n : nat) (s : State),
  Coherent s -> Z.of_nat n <= historyIndexRef (history s) ->
  exists u,
    undos n s = Js.Ok u /\ Coherent u /\
    historyRef (history u) = historyRef (history s) /\
    historyIndexRef (history u) = historyIndexRef (history s) - Z.of_nat n.
Proof.
  induction n as [| n IH]; intros s Hc Hn.
  - exists s. simpl. split; [reflexivity |]. split; [assumption |]. split; [reflexivity | lia].
  - assert (Hr : 0 < historyIndexRef (history s) < size (history s)).
    { destruct Hc as [Hcur _]. apply index_some_range in Hcur. unfold size. lia. }
    destruct (undo_step (canvas s) (history s) Hr) as [img [Himg E]].
    destruct (restore_coherent s _ img Hc Himg) as [Hc' _].
    simpl undos. unfold undo. rewrite E. simpl Js.bind. simpl fst. simpl snd.
    destruct (IH _ Hc') as (u & Hu & Hcu & Hru & Hiu); [simpl; lia |].
    exists u. split; [assumption |]. split; [assumption |]. split; [assumption |].
    simpl in Hiu. lia.
Qed.

Lemma redos_forth : forall (n : nat) (s : State),
  Coherent s -> historyIndexRef (history s) + Z.of_nat n < size (history s) ->
  exists v,
    redos n s = Js.Ok v /\ Coherent v /\
    historyRef (history v) = historyRef (history s) /\
    historyIndexRef (history v) = historyIndexRef (history s) + Z.of_nat n.
Proof.
  induction n as [| n IH]; intros s Hc Hn.
  - exists s. simpl. split; [reflexivity |]. split; [assumption |]. split; [reflexivity | lia].
  - assert (Hr : -1 <= historyIndexRef (history s) < size (history s) - 1).
    { destruct Hc as [Hcur _]. apply index_some_range in Hcur. unfold size in *. lia. }
    destruct (redo_step (canvas s) (history s) Hr) as [img [Himg E]].
    destruct (restore_coherent s _ img Hc Himg) as [Hc' _].
    simpl redos. unfold redo. rewrite E. simpl Js.bind. simpl fst. simpl snd.
    destruct (IH _ Hc') as (v & Hv & Hcv & Hrv & Hiv); [unfold size in *; simpl; lia |].
    exists v. split; [assumption |]. split; [assumption |]. split; [assumption |].
    simpl in Hiv. lia.
Qed.

Lemma dims_drawBackground : forall (c : Ctx) (w h : Z) (bg : BackgroundType) (dark : bool),
  dims (pixels (drawBackground c w h bg dark)) = dims (pixels c).
Proof.
  intros c w h bg dark. unfold drawBackground. cbv zeta.
  set (P := fun c' : Ctx => dims (pixels c') = dims (pixels c)).
  assert (Hv : forall height v c', P c' -> P (Ruling.vline height v c')).
  { intros height v c' H. unfold P, Ruling.vline. now rewrite dims_stroke. }
  assert (Hh : forall width v c', P c' -> P (Ruling.hline width v c')).
  { intros width v c' H. unfold P, Ruling.hline. now rewrite dims_stroke. }
  assert (Hd : forall u v c', P c' -> P (Ruling.dot u v c')).
  { intros u v c' H. unfold P, Ruling.dot. now rewrite dims_fill. }
  assert (H0 : P (fillRect 0 0 (inject_Z w) (inject_Z h)
                    (set_fillStyle (if dark then "#1f2937" else "#ffffff") c))).
  { unfold P. now rewrite dims_fillRect. }
  destruct bg; unfold Ruling.for_grid.
  - exact H0.
  - apply (for_from_inv P); [now apply Hh |]. apply (for_from_inv P); [now apply Hv |].
    unfold P. rewrite pixels_set_lineWidth. exact H0.
  - apply (for_from_inv P); [now apply Hh |].
    unfold P. rewrite pixels_set_lineWidth. exact H0.
  - apply (for_from_inv P); [| exact H0].
    intros u d Hdd. apply (for_from_inv P); [now apply Hd | exact Hdd].
Qed.

(** The init effect of a cell without a saved payload leaves it at
    rest with its ink layer under the cursor. *)
Lemma initEffect_settled : forall s : State,
  cell_dataUrl s = "" -> isDrawing s = false -> isEditing s = true ->
  wf (history s) ->
  Forall (fun e => dims e = dims (pixels (canvas s))) (historyRef (history s)) ->
  Settled (initEffect s).
Proof.
  intros s Hurl Hdr He Hwf Hall. unfold initEffect. cbv zeta.
  cbn [cell_dataUrl set_bgCanvas]. rewrite Hurl. cbn [Js.truthy].
  set (c' := drawBackground _ _ _ _ _).
  assert (Hdim : dims (pixels c') = dims (pixels (canvas s))).
  { unfold c'. cbn [canvas set_bgCanvas]. apply dims_drawBackground. }
  destruct (saveToHistory_wf c' (history s) Hwf) as [[Hi' Hn'] [_ Hcur']].
  unfold Settled, DrawingCell.saveToHistory.
  cbn [isDrawing isEditing history canvas set_history set_canvas set_bgCanvas].
  fold c'. repeat split; try assumption.
  apply save_sizes; [apply Hwf | | reflexivity]. now rewrite Hdim.
Qed.

Lemma backgroundEffect_settled : forall s : State, Settled s -> Settled (backgroundEffect s).
Proof. intros s H. exact H. Qed.

Lemma colorEffect_settled : forall s : State, Settled s -> Settled (colorEffect s).
Proof.
  intros s H. unfold colorEffect.
  destruct (isDarkMode s && String.eqb (color s) "#000000"); [exact H |].
  destruct (negb (isDarkMode s) && String.eqb (color s) "#ffffff"); exact H.
Qed.

Lemma colorEffect_url : forall s : State, cell_dataUrl (colorEffect s) = cell_dataUrl s.
Proof.
  intros s. unfold colorEffect.
  destruct (isDarkMode s && String.eqb (color s) "#000000"); [reflexivity |].
  destruct (negb (isDarkMode s) && String.eqb (color s) "#ffffff"); reflexivity.
Qed.

Lemma initEffect_url : forall s : State, cell_dataUrl (initEffect s) = cell_dataUrl s.
Proof.
  intros s. unfold initEffect. cbv zeta. cbn [cell_dataUrl set_bgCanvas].
  destruct (Js.truthy (cell_dataUrl s)); [destruct (decode (cell_dataUrl s)) |]; reflexivity.
Qed.

(** A cell mounted without a saved payload is at rest in edit mode with
    its ink layer under the cursor, in light and in dark mode. *)
Lemma mount_settled : forall (w h : Z) (dark : bool), Settled (mount "" w h dark).
Proof.
  intros w h dark. unfold mount. cbv zeta.
  set (s0 := mkState _ _ _ _ _ _ _ _ _ _ _ _ _ _ _ _ _).
  assert (H1 : Settled (colorEffect (backgroundEffect (initEffect s0)))).
  { apply colorEffect_settled, backgroundEffect_settled, initEffect_settled;
      try reflexivity; [apply empty_wf | constructor]. }
  destruct dark; [| exact H1].
  unfold setIsDarkMode.
  set (s1 := colorEffect (backgroundEffect (initEffect s0))) in *.
  destruct (Bool.eqb true (isDarkMode s1)); [exact H1 |].
  apply colorEffect_settled, backgroundEffect_settled.
  destruct (settled_wf s1 H1) as [Hwf _].
  destruct H1 as (Hdr & He & _ & Hall & _).
  apply initEffect_settled; try assumption.
  cbn [cell_dataUrl set_isDarkMode]. unfold s1. rewrite colorEffect_url.
  cbn [cell_dataUrl backgroundEffect set_bgCanvas]. now rewrite initEffect_url.
Qed.

(** So is a cell mounted with a saved payload once the image has loaded
    and the user has switched to edit mode: its history holds the decoded
    drawing alone, so the first undo changes nothing. *)
Lemma loaded_settled : forall (url : string) (img : Pixels) (w h : Z),
  Js.truthy url = true -> decode url = Some img ->
  let s := setIsEditing true (onload (mount url w h false)) in
  Settled s /\ historyIndexRef (history s) = 0.
Proof.
  intros url img w h Ht Hd. unfold mount. rewrite Ht. cbv zeta.
  set (s0 := mkState _ _ _ _ _ _ _ _ _ _ _ _ _ _ _ _ _).
  assert (E : loading (colorEffect (backgroundEffect (initEffect s0))) = [img] /\
              history (colorEffect (backgroundEffect (initEffect s0))) = History.empty /\
              isDrawing (colorEffect (backgroundEffect (initEffect s0))) = false).
  { unfold colorEffect, backgroundEffect, initEffect. cbv zeta.
    cbn [cell_dataUrl set_bgCanvas s0]. rewrite Ht, Hd.
    cbn [isDarkMode set_bgCanvas set_loading s0 andb negb color].
    cbn [String.eqb Ascii.eqb Bool.eqb andb]. now repeat split. }
  destruct E as (El & Eh & Ed).
  set (s1 := colorEffect (backgroundEffect (initEffect s0))) in *.
  unfold onload. rewrite El. cbv zeta.
  unfold Settled, DrawingCell.saveToHistory.
  cbn [isDrawing isEditing history canvas set_history set_canvas set_loading setIsEditing].
  rewrite Eh, Ed.
  split; [| reflexivity].
  split; [reflexivity |]. split; [reflexivity |]. split; [reflexivity |].
  split; [repeat constructor | vm_compute; discriminate].
Qed.

End Facts.

End DrawingFacts.

(** ** Undo and redo across a run of gestures *)

Section UndoRedo.
Import Canvas2D Types History HistorySpec HistoryFacts Laws DrawingCell DrawingSpec DrawingFacts.
Context {B : Backend} {T : Trig} {L : Lawful B}.



End UndoRedo.

(** ** One history entry per gesture *)

Section OneEntry.
Import Canvas2D Types History Laws SurfaceSpec.
Context {B : Backend} {T : Trig} {D : PDFCell.PdfDocument}.

Lemma drawing_down_history : forall (e : PointerEvent) (s : DrawingCell.State),
  DrawingCell.history (DrawingCell.handlePointerDown e s) = DrawingCell.history s /\
  (DrawingCell.isEditing s = true ->
   DrawingCell.isDrawing (DrawingCell.handlePointerDown e s) = true).
Proof.
  intros e s. unfold DrawingCell.handlePointerDown.
  destruct (DrawingCell.isEditing s); simpl; [| split; [reflexivity | discriminate]].
  destruct (DrawingCell.isShapeTool (DrawingCell.tool s)); now split.
Qed.

Lemma drawing_move_history : forall (e : PointerEvent) (s : DrawingCell.State),
  DrawingCell.history (DrawingCell.handlePointerMove e s) = DrawingCell.history s /\
  DrawingCell.isDrawing (DrawingCell.handlePointerMove e s) = DrawingCell.isDrawing s.
Proof.
  intros e s. unfold DrawingCell.handlePointerMove.
  destruct (negb (DrawingCell.isDrawing s) || negb (DrawingCell.isEditing s)); [now split |].
  destruct (DrawingCell.isShapeTool (DrawingCell.tool s)).
  - destruct (DrawingCell.shapeStartPoint s); now split.
  - destruct (DrawingCell.lastPoint s); now split.
Qed.

Lemma drawing_moves_history : forall (es : list PointerEvent) (s : DrawingCell.State),
  DrawingCell.history (after_moves drawing_surface es s) = DrawingCell.history s /\
  DrawingCell.isDrawing (after_moves drawing_surface es s) = DrawingCell.isDrawing s.
Proof.
  unfold after_moves, drawing_surface. cbn [move St].
  induction es as [| e es IH]; intros s; simpl; [now split |].
  destruct (IH (DrawingCell.handlePointerMove e s)) as [Hh Hd].
  destruct (drawing_move_history e s) as [Hh' Hd']. split; congruence.
Qed.

Lemma drawing_up_history : forall (e : PointerEvent) (s : DrawingCell.State),
  DrawingCell.isDrawing s = true ->
  DrawingCell.history (DrawingCell.handlePointerUp e s) =
  saveToHistory (DrawingCell.canvas (DrawingCell.handlePointerUp e s)) (DrawingCell.history s).
Proof.
  intros e s Hd. unfold DrawingCell.handlePointerUp. rewrite Hd. simpl negb. cbv iota.
  destruct (DrawingCell.isShapeTool (DrawingCell.tool s));
    [destruct (DrawingCell.shapeStartPoint s) |]; reflexivity.
Qed.

Lemma pdf_down_history : forall (e : PointerEvent) (s : PDFCell.State),
  PDFCell.history (PDFCell.handlePointerDown e s) = PDFCell.history s /\
  (PDFCell.isEditingDrawing s = true ->
   PDFCell.isDrawing (PDFCell.handlePointerDown e s) = true).
Proof.
  intros e s. unfold PDFCell.handlePointerDown.
  destruct (PDFCell.isEditingDrawing s); simpl; [now split | split; [reflexivity | discriminate]].
Qed.

Lemma pdf_move_history : forall (e : PointerEvent) (s : PDFCell.State),
  PDFCell.history (PDFCell.handlePointerMove e s) = PDFCell.history s /\
  PDFCell.isDrawing (PDFCell.handlePointerMove e s) = PDFCell.isDrawing s.
Proof.
  intros e s. unfold PDFCell.handlePointerMove.
  destruct (negb (PDFCell.isDrawing s) || negb (PDFCell.isEditingDrawing s)); [now split |].
  destruct (PDFCell.lastPoint s); now split.
Qed.

Lemma pdf_moves_history : forall (es : list PointerEvent) (s : PDFCell.State),
  PDFCell.history (after_moves pdf_surface es s) = PDFCell.history s /\
  PDFCell.isDrawing (after_moves pdf_surface es s) = PDFCell.isDrawing s.
Proof.
  unfold after_moves, pdf_surface. cbn [move St].
  induction es as [| e es IH]; intros s; simpl; [now split |].
  destruct (IH (PDFCell.handlePointerMove e s)) as [Hh Hd].
  destruct (pdf_move_history e s) as [Hh' Hd']. split; congruence.
Qed.

Lemma pdf_up_history : forall (e : PointerEvent) (s : PDFCell.State),
  PDFCell.isDrawing s = true ->
  PDFCell.history (PDFCell.handlePointerUp e s) =
  saveToHistory (PDFCell.drawingCanvas (PDFCell.handlePointerUp e s)) (PDFCell.history s).
Proof.
  intros e s Hd. unfold PDFCell.handlePointerUp. rewrite Hd. reflexivity.
Qed.

(** C2 (amended).  On the standalone drawing cell and on the PDF
    annotation overlay, a completed gesture started in edit mode leaves
    the history untouched after the pointer-down and after every
    pointer-move, and the pointer-up (or pointer-leave) pushes exactly one
    snapshot, the ink layer as the gesture left it; the mini drawing cell
    keeps no history, so a gesture there produces no entry. *)
Theorem one_history_entry_per_gesture :
  one_entry_per_gesture drawing_surface /\
  one_entry_per_gesture pdf_surface /\
  (forall s d ms u,
     entries mini_surface (up mini_surface u (after_moves mini_surface ms (down mini_surface d s)))
     = History.empty).
Proof.
  split; [| split].
  - intros s d ms u He. simpl in *.
    destruct (drawing_down_history d s) as [Hh1 Hd1].
    split.
    + intros k.
      destruct (drawing_moves_history (firstn k ms) (DrawingCell.handlePointerDown d s))
        as [Hh2 _].
      congruence.
    + destruct (drawing_moves_history ms (DrawingCell.handlePointerDown d s)) as [Hh2 Hd2].
      rewrite drawing_up_history by (rewrite Hd2; now apply Hd1).
      now rewrite Hh2, Hh1.
  - intros s d ms u He. simpl in *.
    destruct (pdf_down_history d s) as [Hh1 Hd1].
    split.
    + intros k.
      destruct (pdf_moves_history (firstn k ms) (PDFCell.handlePointerDown d s)) as [Hh2 _].
      congruence.
    + destruct (pdf_moves_history ms (PDFCell.handlePointerDown d s)) as [Hh2 Hd2].
      rewrite pdf_up_history by (rewrite Hd2; now apply Hd1).
      now rewrite Hh2, Hh1.
  - reflexivity.
Qed.

End OneEntry.

(** ** Runs on the reference rasteriser *)

Section Runs.
Import Canvas2D Types History HistorySpec Laws RefRaster RefFacts Samples BackgroundSpec.

Lemma small_settled : DrawingSpec.Settled small.
Proof.
  unfold DrawingSpec.Settled. split; [reflexivity |]. split; [reflexivity |].
  split; [reflexivity |]. split; [| vm_compute; discriminate].
  repeat constructor.
Defined.



(** C2, as stated for every surface, fails on the mini drawing cell: a
    completed gesture there leaves no history entry. *)
Lemma mini_gesture_counterexample :
  ~ SurfaceSpec.one_entry_per_gesture SurfaceSpec.mini_surface.
Proof.
  intros H.
  destruct (H mini (at_ 1 1 400 150) [at_ 5 5 400 150] (at_ 5 5 400 150) eq_refl) as [_ E].
  cbv zeta in E. apply (f_equal historyIndexRef) in E.
  vm_compute in E. discriminate E.
Qed.

Lemma one_history_entry_per_gesture_witness :
  SurfaceSpec.editable SurfaceSpec.drawing_surface small = true /\
  (let s' := SurfaceSpec.up SurfaceSpec.drawing_surface (at_ 3 3 4 4)
               (SurfaceSpec.after_moves SurfaceSpec.drawing_surface [at_ 3 3 4 4]
                  (SurfaceSpec.down SurfaceSpec.drawing_surface (at_ 1 1 4 4) small)) in
   SurfaceSpec.entries SurfaceSpec.drawing_surface s' =
   saveToHistory (SurfaceSpec.ink SurfaceSpec.drawing_surface s')
     (SurfaceSpec.entries SurfaceSpec.drawing_surface small)).
Proof.
  split; [reflexivity |].
  destruct (one_history_entry_per_gesture (B := ref_backend)) as [Hd _].
  exact (proj2 (Hd small (at_ 1 1 4 4) [at_ 3 3 4 4] (at_ 3 3 4 4) eq_refl)).
Defined.


Lemma undo_redo_noop_at_ends_witness :
  historyIndexRef (DrawingCell.history small) = 0 /\
  historyIndexRef (DrawingCell.history small) = size (DrawingCell.history small) - 1 /\
  wf (DrawingCell.history small) /\
  DrawingCell.undo small = Js.Ok small /\ DrawingCell.redo small = Js.Ok small /\
  (exists s', DrawingCell.undo small = Js.Ok s').
Proof.
  assert (Hwf : wf (DrawingCell.history small)).
  { unfold wf, size. vm_compute. repeat split; discriminate. }
  split; [reflexivity |]. split; [reflexivity |]. split; [exact Hwf |].
  destruct (undo_redo_noop_at_ends (B := ref_backend)) as (Hu & Hr & Hn & _).
  split; [apply Hu; reflexivity |]. split; [apply Hr; reflexivity |].
  exact (proj1 (Hn small Hwf)).
Defined.

Lemma background_deterministic_witness :
  plain 40 40 (fresh 40 40) /\ plain 40 40 used /\
  pixels (DrawingCell.drawBackground (fresh 40 40) 40 40 Grid false) =
  pixels (DrawingCell.drawBackground used 40 40 Grid false).
Proof.
  assert (H1 : plain 40 40 (fresh 40 40)) by (repeat split).
  assert (H2 : plain 40 40 used) by (repeat split).
  split; [exact H1 |]. split; [exact H2 |].
  exact (proj1 (proj1 (background_deterministic (B := ref_backend) (L := ref_lawful)
                         40 40 Grid false (fresh 40 40) used H1 H2 eq_refl eq_refl))).
Defined.

End Runs.

(** ** What reaches the ink layer of the PDF overlay *)

Module OverlayFacts.
Import Canvas2D Types History PDFCell OverlaySpec.

Section Facts.
Context {B : Backend} {D : PdfDocument}.

Lemma inv_same : forall s s' : State,
  drawingCanvas s' = drawingCanvas s -> history s' = history s -> loading s' = loading s ->
  Inv s -> Inv s'.
Proof. intros s s' Hc Hh Hl. unfold Inv. now rewrite Hc, Hh, Hl. Qed.

Lemma save_all : forall (P : Pixels -> Prop) (c : Ctx) (r : Refs),
  Forall P (historyRef r) -> P (pixels c) -> Forall P (historyRef (History.saveToHistory c r)).
Proof.
  intros P c r Hall Hc. unfold History.saveToHistory, Js.push, Js.shift, Js.slice0, getImageData.
  set (k := Z.to_nat _).
  assert (Hk : Forall P (firstn k (historyRef r) ++ [pixels c])).
  { apply Forall_app. split; [now apply DrawingFacts.Forall_firstn | now constructor]. }
  destruct (_ >? 50); simpl; [now apply DrawingFacts.Forall_tl | exact Hk].
Qed.

Lemma inv_save : forall s : State, Inv s -> Inv (saveToHistory s).
Proof.
  intros s (Hc & Hh & Hl). unfold Inv, saveToHistory.
  cbn [drawingCanvas history loading set_history]. repeat split; try assumption.
  now apply save_all.
Qed.

Lemma inv_clear : forall s : State, Inv s -> Inv (clearDrawing s).
Proof.
  intros s (Hc & Hh & Hl). unfold Inv, clearDrawing.
  cbn [drawingCanvas history loading set_drawingCanvas]. repeat split; try assumption.
  unfold clearRect. cbn [pixels with_pixels]. now apply an_clear.
Qed.

Lemma inv_loadOverlay : forall (url : string) (s : State), Inv s -> Inv (loadOverlay url s).
Proof.
  intros url s H. unfold loadOverlay. destruct (Js.truthy url).
  - destruct (decode url) as [img |] eqn:E; [| exact H].
    destruct H as (Hc & Hh & Hl). unfold Inv. cbn [drawingCanvas history loading set_loading].
    repeat split; try assumption. apply Forall_app. split; [assumption |].
    constructor; [now exists url | constructor].
  - now apply inv_save, inv_clear.
Qed.

Lemma inv_cancel : forall (t : nat) (s : State), Inv s -> Inv (cancel t s).
Proof.
  intros t s H. unfold cancel. destruct (nth_error (tasks s) t) as [[] |]; exact H.
Qed.

Lemma inv_renderPage : forall (p : PDFPage) (s : State), Inv s -> Inv (renderPage p s).
Proof.
  intros p s H. unfold renderPage.
  assert (H1 : Inv match renderTaskRef s with
                   | Some t => set_renderTaskRef None (cancel t s)
                   | None => s
                   end).
  { destruct (renderTaskRef s) as [t |]; [| exact H].
    apply (inv_same (cancel t s)); try reflexivity. now apply inv_cancel. }
  cbv zeta. destruct (isCustomPage p).
  - apply inv_loadOverlay. eapply inv_same; [| | | exact H1]; reflexivity.
  - destruct (pageNumber p); [| exact H1].
    eapply inv_same; [| | | exact H1]; reflexivity.
Qed.

Lemma inv_renderEffect : forall s : State, Inv s -> Inv (renderEffect s).
Proof.
  intros s H. unfold renderEffect. cbv zeta.
  assert (H1 : Inv (if armed s then cleanup s else s)).
  { destruct (armed s); [| exact H]. unfold cleanup.
    destruct (renderTaskRef s); [now apply inv_cancel | exact H]. }
  destruct (pdfDoc _); [destruct (currentPage _) |].
  - apply (inv_same (renderPage p (if armed s then cleanup s else s))); try reflexivity.
    now apply inv_renderPage.
  - now apply (inv_same (if armed s then cleanup s else s)).
  - now apply (inv_same (if armed s then cleanup s else s)).
Qed.

Lemma inv_resumeGetPage : forall (k : nat) (s : State), Inv s -> Inv (resumeGetPage k s).
Proof.
  intros k s H. unfold resumeGetPage.
  destruct (nth_error (parked s) k) as [[p | p t] |]; try exact H.
  cbv zeta. destruct (pageNumber p) as [n |]; [| now apply (inv_same s)].
  destruct (hasPage n); [| now apply (inv_same s)].
  destruct H as (Hc & Hh & Hl). unfold Inv.
  cbn [drawingCanvas history loading set_parked set_renderTaskRef set_tasks
       set_drawingCanvas set_pdfCanvas].
  repeat split; try assumption. apply an_blank.
Qed.

Lemma inv_resumeRender : forall (k : nat) (ok : bool) (s : State),
  Inv s -> Inv (resumeRender k ok s).
Proof.
  intros k ok s H. unfold resumeRender.
  destruct (nth_error (parked s) k) as [[p | p t] |]; try exact H.
  destruct (nth_error (tasks s) t) as [[n size | | |] |]; try exact H.
  cbv zeta. destruct ok; [apply inv_loadOverlay |]; exact H.
Qed.

Lemma inv_onload : forall s : State, Inv s -> Inv (onload s).
Proof.
  intros s H. unfold onload. destruct (loading s) as [| img rest] eqn:E; [exact H |].
  cbv zeta. apply inv_save.
  destruct H as (Hc & Hh & Hl). rewrite E in Hl. inversion Hl as [| ? ? [url Hurl] Hrest]; subst.
  unfold Inv, clearDrawing.
  cbn [drawingCanvas history loading set_drawingCanvas set_loading].
  repeat split; try assumption.
  unfold drawImage, clearRect. cbn [pixels with_pixels].
  eapply an_overlay; [exact Hurl |]. now apply an_clear.
Qed.

Lemma drawLine_stroke : forall (s : State) (from to : Point) (ctx : Ctx),
  exists b style pen,
    pixels (drawLine s from to ctx) =
    render (StrokePath b style pen [MoveTo (x from) (y from); LineTo (x to) (y to)])
      (pixels ctx).
Proof.
  intros s from to ctx. unfold drawLine.
  destruct (tool s); cbv zeta; unfold stroke, blend_of, set_lineWidth;
    match goal with |- context [Qlt_le_dec 0 ?w] => destruct (Qlt_le_dec 0 w) end;
    simpl; eauto.
Qed.

Lemma inv_move : forall (e : PointerEvent) (s : State), Inv s -> Inv (handlePointerMove e s).
Proof.
  intros e s H. unfold handlePointerMove.
  destruct (negb (isDrawing s) || negb (isEditingDrawing s)); [exact H |].
  destruct (lastPoint s) as [last |]; [| exact H].
  destruct H as (Hc & Hh & Hl). unfold Inv. cbv zeta.
  cbn [drawingCanvas history loading set_lastPoint set_drawingCanvas].
  repeat split; try assumption.
  destruct (drawLine_stroke s last (getCanvasPoint e s) (drawingCanvas s))
    as (b & style & pen & E).
  rewrite E. now apply an_stroke.
Qed.

Lemma inv_down : forall (e : PointerEvent) (s : State), Inv s -> Inv (handlePointerDown e s).
Proof.
  intros e s H. unfold handlePointerDown.
  destruct (negb (isEditingDrawing s)); [exact H | now apply (inv_same s)].
Qed.

Lemma inv_up : forall (e : PointerEvent) (s : State), Inv s -> Inv (handlePointerUp e s).
Proof.
  intros e s H. unfold handlePointerUp.
  destruct (negb (isDrawing s)); [exact H |].
  cbv zeta. apply inv_save. now apply (inv_same s).
Qed.

Lemma inv_restore : forall (s : State) (i : Z) (img : Pixels),
  Inv s -> Js.index (historyRef (history s)) i = Some img ->
  Inv (set_history (mkRefs (historyRef (history s)) i)
         (set_drawingCanvas (putImageData img (drawingCanvas s)) s)).
Proof.
  intros s i img (Hc & Hh & Hl) Himg. unfold Inv.
  cbn [drawingCanvas history loading set_history set_drawingCanvas historyRef].
  repeat split; try assumption.
  unfold putImageData. cbn [pixels with_pixels]. apply an_restore; [| assumption].
  rewrite Forall_forall in Hh. apply Hh.
  unfold Js.index in Himg. destruct (i <? 0); [discriminate |].
  eapply nth_error_In; eauto.
Qed.

Lemma inv_undo : forall s s' : State, Inv s -> undo s = Js.Ok s' -> Inv s'.
Proof.
  intros s s' H E. unfold undo, History.undo in E.
  destruct (historyIndexRef (history s) >? 0).
  - destruct (Js.index (historyRef (history s)) (historyIndexRef (history s) - 1))
      as [img |] eqn:Ei; [| discriminate].
    simpl in E. injection E as <-. now apply inv_restore.
  - simpl in E. injection E as <-. now apply (inv_same s).
Qed.

Lemma inv_redo : forall s s' : State, Inv s -> redo s = Js.Ok s' -> Inv s'.
Proof.
  intros s s' H E. unfold redo, History.redo in E.
  destruct (historyIndexRef (history s) <? _).
  - destruct (Js.index (historyRef (history s)) (historyIndexRef (history s) + 1))
      as [img |] eqn:Ei; [| discriminate].
    simpl in E. injection E as <-. now apply inv_restore.
  - simpl in E. injection E as <-. now apply (inv_same s).
Qed.

Lemma inv_handleSaveDrawing : forall s : State, Inv s -> Inv (handleSaveDrawing s).
Proof.
  intros s H. unfold handleSaveDrawing. destruct (currentPage s); [| exact H].
  now apply (inv_same s).
Qed.

Lemma inv_toolbar : forall (s s' : State) (k : Js.Outcome State),
  Inv s -> (forall t, k = Js.Ok t -> Inv t) -> toolbar s k = Js.Ok s' -> Inv s'.
Proof.
  intros s s' k H Hk E. unfold toolbar in E. destruct (isEditingDrawing s).
  - now apply Hk.
  - now injection E as <-.
Qed.

Lemma inv_step : forall (ev : Event) (s s' : State), Inv s -> step ev s = Js.Ok s' -> Inv s'.
Proof.
  intros ev s s' H E. destruct ev; cbn [step] in E.
  - injection E as <-. now apply inv_down.
  - injection E as <-. now apply inv_move.
  - injection E as <-. now apply inv_up.
  - injection E as <-. now apply inv_up.
  - apply (inv_toolbar s s' _ H) in E; [exact E |]. intros st. now apply inv_undo.
  - apply (inv_toolbar s s' _ H) in E; [exact E |]. intros st. now apply inv_redo.
  - apply (inv_toolbar s s' _ H) in E; [exact E |]. intros st Et. injection Et as <-.
    unfold handleClearDrawing. now apply inv_save, inv_clear.
  - apply (inv_toolbar s s' _ H) in E; [exact E |]. intros st Et. injection Et as <-.
    now apply inv_handleSaveDrawing.
  - injection E as <-. exact H.
  - apply (inv_toolbar s s' _ H) in E; [exact E |]. intros st Et. injection Et as <-. exact H.
  - apply (inv_toolbar s s' _ H) in E; [exact E |]. intros st Et. injection Et as <-. exact H.
  - apply (inv_toolbar s s' _ H) in E; [exact E |]. intros st Et. injection Et as <-. exact H.
  - apply (inv_toolbar s s' _ H) in E; [exact E |]. intros st Et. injection Et as <-. exact H.
  - injection E as <-. unfold setPdfDoc. apply inv_renderEffect. exact H.
  - injection E as <-. unfold setCurrentPageIndex.
    destruct (i =? currentPageIndex s); [exact H |]. apply inv_renderEffect. exact H.
  - injection E as <-. unfold setIsDarkMode.
    destruct (Bool.eqb b (isDarkMode s)); [exact H |]. apply inv_renderEffect. exact H.
  - injection E as <-. unfold setCustomPageBackground.
    destruct (bg_eqb b (customPageBackground s)); [exact H |]. apply inv_renderEffect. exact H.
  - injection E as <-. unfold setPages. apply inv_renderEffect. exact H.
  - injection E as <-. now apply inv_resumeGetPage.
  - injection E as <-. now apply inv_resumeRender.
  - injection E as <-. now apply inv_onload.
Qed.

Lemma inv_run : forall (evs : list Event) (s s' : State),
  Inv s -> run evs s = Js.Ok s' -> Inv s'.
Proof.
  induction evs as [| ev evs IH]; intros s s' H E; simpl in E.
  - now injection E as <-.
  - destruct (step ev s) as [s1 |] eqn:E1; [| discriminate].
    simpl in E. eapply IH; [| exact E]. now apply (inv_step ev s).
Qed.

Lemma inv_mount : forall ps : list PDFPage, Inv (mount ps).
Proof.
  intros ps. unfold Inv, mount. cbn [drawingCanvas history loading].
  repeat split; try constructor.
Qed.

End Facts.

End OverlayFacts.

(** ** Layers *)

Section Layers.
Import Canvas2D Types History OverlaySpec OverlayFacts.
Context {B : Backend} {T : Trig} {D : PDFCell.PdfDocument}.

(** C4 (amended).  On the PDF overlay, in every reachable state the ink
    layer and every snapshot of it are annotation only (an empty canvas,
    cleared regions, stroked segments, decoded saved overlays, restored
    snapshots): page image and custom-page pattern go to the base canvas
    alone.  The two drawing cells paint their generated background into
    the ink canvas too, when initialised without a saved payload and on
    clear.  The canvases are stacked base first, then ink, then (on the
    drawing cells) preview. *)
Theorem ink_layer_contents :
  (forall s : PDFCell.State,
     Reachable s ->
     Annotation (pixels (PDFCell.drawingCanvas s)) /\
     Forall Annotation (historyRef (PDFCell.history s))) /\
  (forall s : DrawingCell.State,
     (DrawingCell.cell_dataUrl s = "" ->
      DrawingCell.canvas (DrawingCell.initEffect s) =
      DrawingCell.drawBackground (DrawingCell.canvas s)
        (canvas_width (DrawingCell.canvas s)) (canvas_height (DrawingCell.canvas s))
        (DrawingCell.background s) (DrawingCell.isDarkMode s)) /\
     DrawingCell.canvas (DrawingCell.handleClear s) =
     DrawingCell.drawBackground (DrawingCell.canvas s)
       (canvas_width (DrawingCell.canvas s)) (canvas_height (DrawingCell.canvas s))
       (DrawingCell.background s) (DrawingCell.isDarkMode s)) /\
  (forall s : MiniDrawing.State,
     (MiniDrawing.cell_dataUrl s = "" ->
      MiniDrawing.canvas (MiniDrawing.initEffect s) =
      MiniDrawing.drawBackground (MiniDrawing.canvas s) MiniDrawing.CANVAS_WIDTH
        (MiniDrawing.canvasHeight s) (MiniDrawing.background s)) /\
     MiniDrawing.canvas (MiniDrawing.handleClear s) =
     MiniDrawing.drawBackground (MiniDrawing.canvas s) MiniDrawing.CANVAS_WIDTH
       (MiniDrawing.canvasHeight s) (MiniDrawing.background s)) /\
  (forall s : PDFCell.State,
     PDFCell.layers s = [pixels (PDFCell.pdfCanvas s); pixels (PDFCell.drawingCanvas s)]) /\
  (forall s : DrawingCell.State,
     DrawingCell.layers s =
     [pixels (DrawingCell.bgCanvas s); pixels (DrawingCell.canvas s);
      pixels (DrawingCell.previewCanvas s)]) /\
  (forall s : MiniDrawing.State,
     MiniDrawing.layers s =
     [pixels (MiniDrawing.bgCanvas s); pixels (MiniDrawing.canvas s);
      pixels (MiniDrawing.previewCanvas s)]).
Proof.
  split; [| split; [| split; [| repeat split]]].
  - intros s (ps & evs & Hrun).
    destruct (inv_run evs (PDFCell.mount ps) s (inv_mount ps) Hrun) as (Hc & Hh & _).
    now split.
  - intros s. split; [| reflexivity].
    intros Hurl. unfold DrawingCell.initEffect. cbv zeta.
    cbn [DrawingCell.cell_dataUrl DrawingCell.set_bgCanvas]. rewrite Hurl. reflexivity.
  - intros s. split; [| reflexivity].
    intros Hurl. unfold MiniDrawing.initEffect. cbv zeta.
    cbn [MiniDrawing.cell_dataUrl MiniDrawing.set_bgCanvas]. rewrite Hurl. reflexivity.
Qed.

End Layers.

(** ** The eraser *)

Section Eraser.
Import Canvas2D Types RefRaster RefFacts EraserSpec.

Lemma scaled_positive : forall (b : Q) (k : positive), (0 < b)%Q -> (0 < b * (Z.pos k # 1))%Q.
Proof.
  intros [n d] k H. unfold Qlt, Qmult in *. simpl in *. nia.
Qed.

Lemma set_lineWidth_positive : forall (B : Backend) (w : Q) (c : Ctx),
  (0 < w)%Q ->
  set_lineWidth w c =
  mkCtx (pixels c) (fillStyle c) (strokeStyle c) w (lineCap c) (lineJoin c)
        (globalAlpha c) (globalCompositeOperation c) (path c).
Proof.
  intros B w c H. unfold set_lineWidth. destruct (Qlt_le_dec 0 w) as [_ | Hle]; [reflexivity |].
  exfalso. apply (Qlt_not_le _ _ H Hle).
Qed.

(** The render request an eraser segment of the drawing cell issues: a
    stroke in the theme's base colour, under the blend settings the
    context already has. *)
Lemma drawing_eraser_request :
  forall (B : Backend) (T : Trig) (s : DrawingCell.State) (from to : Point) (ctx : Ctx),
    DrawingCell.tool s = DrawingCell.Eraser -> (0 < DrawingCell.brushSize s)%Q ->
    pixels (DrawingCell.drawLine s from to ctx) =
    render (StrokePath (blend_of ctx) (DrawingCell.bgColor s)
              (mkLineStyle (DrawingCell.brushSize s * 8) CapRound JoinRound)
              [MoveTo (x from) (y from); LineTo (x to) (y to)]) (pixels ctx).
Proof.
  intros B T s from to ctx Ht Hb. unfold DrawingCell.drawLine. rewrite Ht. cbv zeta.
  rewrite set_lineWidth_positive by now apply (scaled_positive _ 8).
  reflexivity.
Qed.

(** The render request an eraser segment of the PDF overlay issues: a
    stroke in opaque black under ['destination-out']. *)
Lemma overlay_eraser_request :
  forall (B : Backend) (D : PDFCell.PdfDocument) (s : PDFCell.State) (from to : Point)
         (ctx : Ctx),
    PDFCell.tool s = PDFCell.Eraser -> (0 < PDFCell.brushSize s)%Q ->
    pixels (PDFCell.drawLine s from to ctx) =
    render (StrokePath (mkBlend (globalAlpha ctx) DestinationOut) "rgba(0,0,0,1)"
              (mkLineStyle (PDFCell.brushSize s * 3) CapRound JoinRound)
              [MoveTo (x from) (y from); LineTo (x to) (y to)]) (pixels ctx).
Proof.
  intros B D s from to ctx Ht Hb. unfold PDFCell.drawLine. rewrite Ht. cbv zeta.
  rewrite set_lineWidth_positive by now apply (scaled_positive _ 3).
  reflexivity.
Qed.

(** The render request an eraser move of the mini drawing cell issues: a
    stroke in white, the fill of its background. *)
Lemma mini_eraser_request :
  forall (B : Backend) (T : Trig) (s : MiniDrawing.State) (e : PointerEvent)
         (last : MiniDrawing.Point),
    MiniDrawing.isDrawing s = true -> MiniDrawing.isEditing s = true ->
    MiniDrawing.tool s = MiniDrawing.Eraser -> MiniDrawing.lastPoint s = Some last ->
    (0 < MiniDrawing.brushSize s)%Q ->
    pixels (MiniDrawing.canvas (MiniDrawing.handlePointerMove e s)) =
    render (StrokePath (blend_of (MiniDrawing.canvas s)) "#ffffff"
              (mkLineStyle (MiniDrawing.brushSize s * 8) CapRound
                 (lineJoin (MiniDrawing.canvas s)))
              [MoveTo (MiniDrawing.x last) (MiniDrawing.y last);
               LineTo (MiniDrawing.x (MiniDrawing.getCanvasPoint e s))
                      (MiniDrawing.y (MiniDrawing.getCanvasPoint e s))])
      (pixels (MiniDrawing.canvas s)).
Proof.
  intros B T s e last Hd He Ht Hl Hb. unfold MiniDrawing.handlePointerMove.
  rewrite Hd, He, Ht, Hl. cbn [negb orb MiniDrawing.isShapeTool]. cbv zeta.
  rewrite set_lineWidth_positive by now apply (scaled_positive _ 8).
  reflexivity.
Qed.

(** C5 (amended).  An eraser segment of the standalone drawing cell is a
    stroke in the theme's base fill colour with the context's own blend
    settings (no layer clearing), so under the default settings every
    pixel it covers becomes that opaque colour; the mini drawing cell
    erases likewise, in white; an eraser segment of the PDF overlay is a
    stroke under ['destination-out'], so every pixel it covers becomes
    fully transparent. *)
Theorem eraser_semantics :
  (forall (B : Backend) (T : Trig) (s : DrawingCell.State) (from to : Point) (ctx : Ctx),
     DrawingCell.tool s = DrawingCell.Eraser -> (0 < DrawingCell.brushSize s)%Q ->
     pixels (DrawingCell.drawLine s from to ctx) =
     render (StrokePath (blend_of ctx) (DrawingCell.bgColor s)
               (mkLineStyle (DrawingCell.brushSize s * 8) CapRound JoinRound)
               [MoveTo (x from) (y from); LineTo (x to) (y to)]) (pixels ctx)) /\
  (forall (B : Backend) (T : Trig) (s : MiniDrawing.State) (e : PointerEvent)
          (last : MiniDrawing.Point),
     MiniDrawing.isDrawing s = true -> MiniDrawing.isEditing s = true ->
     MiniDrawing.tool s = MiniDrawing.Eraser -> MiniDrawing.lastPoint s = Some last ->
     (0 < MiniDrawing.brushSize s)%Q ->
     pixels (MiniDrawing.canvas (MiniDrawing.handlePointerMove e s)) =
     render (StrokePath (blend_of (MiniDrawing.canvas s)) "#ffffff"
               (mkLineStyle (MiniDrawing.brushSize s * 8) CapRound
                  (lineJoin (MiniDrawing.canvas s)))
               [MoveTo (MiniDrawing.x last) (MiniDrawing.y last);
                LineTo (MiniDrawing.x (MiniDrawing.getCanvasPoint e s))
                       (MiniDrawing.y (MiniDrawing.getCanvasPoint e s))])
       (pixels (MiniDrawing.canvas s))) /\
  (forall (B : Backend) (D : PDFCell.PdfDocument) (s : PDFCell.State) (from to : Point)
          (ctx : Ctx),
     PDFCell.tool s = PDFCell.Eraser -> (0 < PDFCell.brushSize s)%Q ->
     pixels (PDFCell.drawLine s from to ctx) =
     render (StrokePath (mkBlend (globalAlpha ctx) DestinationOut) "rgba(0,0,0,1)"
               (mkLineStyle (PDFCell.brushSize s * 3) CapRound JoinRound)
               [MoveTo (x from) (y from); LineTo (x to) (y to)]) (pixels ctx)) /\
  (forall (s : DrawingCell.State) (from to : Point) (ctx : Ctx) (i j : Z),
     DrawingCell.tool s = DrawingCell.Eraser -> (0 < DrawingCell.brushSize s)%Q ->
     globalAlpha ctx = 1%Q -> globalCompositeOperation ctx = SourceOver ->
     inside (bw (pixels ctx)) (bh (pixels ctx)) i j = true ->
     erased (DrawingCell.brushSize s * 8) from to i j = true ->
     px_at (pixels (DrawingCell.drawLine s from to ctx)) i j =
       parse_color (DrawingCell.bgColor s) /\
     alpha (parse_color (DrawingCell.bgColor s)) = 255) /\
  (forall (s : PDFCell.State) (from to : Point) (ctx : Ctx) (i j : Z),
     PDFCell.tool s = PDFCell.Eraser -> (0 < PDFCell.brushSize s)%Q ->
     globalAlpha ctx = 1%Q ->
     inside (bw (pixels ctx)) (bh (pixels ctx)) i j = true ->
     erased (PDFCell.brushSize s * 3) from to i j = true ->
     px_at (pixels (PDFCell.drawLine s from to ctx)) i j = transparent).
Proof.
  split; [exact drawing_eraser_request |]. split; [exact mini_eraser_request |].
  split; [exact overlay_eraser_request |]. split.
  - intros s from to ctx i j Ht Hb Ha Ho Hin Hcov.
    assert (Hop : alpha (parse_color (DrawingCell.bgColor s)) = 255).
    { unfold DrawingCell.bgColor. now destruct (DrawingCell.isDarkMode s). }
    split; [| exact Hop].
    rewrite (drawing_eraser_request ref_backend ref_trig s from to ctx Ht Hb).
    unfold blend_of. rewrite Ha, Ho. simpl render. unfold ref_render.
    cbn [px_at]. rewrite Hin. unfold shade. unfold erased in Hcov. rewrite Hcov.
    now apply composite_opaque.
  - intros s from to ctx i j Ht Hb Ha Hin Hcov.
    rewrite (overlay_eraser_request ref_backend ref_document s from to ctx Ht Hb).
    rewrite Ha. simpl render. unfold ref_render.
    cbn [px_at]. rewrite Hin. unfold shade. unfold erased in Hcov. rewrite Hcov.
    now apply composite_erase.
Qed.

End Eraser.

(** ** Further runs on the reference rasteriser *)

Section MoreRuns.
Import Canvas2D Types History Laws RefRaster RefFacts Samples.

(** C4, as stated, fails on the drawing cell: a cell mounted without a
    saved payload has, before any input, an ink layer that is not empty
    but holds the opaque fill of the generated background, pixel for
    pixel what the base layer shows. *)
Lemma ink_holds_background_counterexample :
  ~ DrawingSpec.ink_empty_at_start 4 4 false /\
  px_at (pixels (DrawingCell.canvas small)) 0 0 = mkRGBA 255 255 255 255 /\
  px_at (pixels (DrawingCell.bgCanvas small)) 0 0 = mkRGBA 255 255 255 255.
Proof.
  split; [| split; vm_compute; reflexivity].
  unfold DrawingSpec.ink_empty_at_start. intros H.
  apply (f_equal (fun bm => alpha (px_at bm 0 0))) in H.
  vm_compute in H. discriminate H.
Qed.

Lemma ink_layer_contents_witness :
  OverlaySpec.Reachable annotated /\
  OverlaySpec.Annotation (pixels (PDFCell.drawingCanvas annotated)) /\
  Forall OverlaySpec.Annotation (historyRef (PDFCell.history annotated)).
Proof.
  assert (R : OverlaySpec.Reachable annotated).
  { unfold annotated.
    destruct (PDFCell.run annotate (PDFCell.mount book)) as [s | e] eqn:E.
    - exists book, annotate. exact E.
    - exists book, []. reflexivity. }
  split; [exact R |].
  exact (proj1 (ink_layer_contents (B := ref_backend) (D := ref_document)) annotated R).
Defined.

(** The run behind [annotated] does end normally, with the snapshot of
    the stroke under the cursor. *)
Lemma annotated_run :
  report (PDFCell.run annotate (PDFCell.mount book)) =
    Some (0, Some (page 1), [PDFCell.Finished], [], 1).
Proof. vm_compute. reflexivity. Qed.

(** C5, as stated, fails on a ruled background: the eraser dragged over
    the grid line at x = 20 of a 24 x 4 cell leaves the base fill colour
    there, while the base layer shows the ruling. *)
Lemma eraser_hides_pattern_counterexample :
  ~ EraserSpec.reveals_pattern ruled wipe_from wipe_to.
Proof.
  unfold EraserSpec.reveals_pattern. cbv zeta. intros H.
  specialize (H 19 1 eq_refl eq_refl).
  apply (f_equal red) in H. vm_compute in H. discriminate H.
Qed.

Lemma eraser_semantics_witness :
  DrawingCell.tool ruled = DrawingCell.Eraser /\
  (0 < DrawingCell.brushSize ruled)%Q /\
  EraserSpec.erased (DrawingCell.brushSize ruled * 8) wipe_from wipe_to 19 1 = true /\
  px_at (pixels (DrawingCell.drawLine ruled wipe_from wipe_to (DrawingCell.canvas ruled))) 19 1
    = parse_color (DrawingCell.bgColor ruled) /\
  px_at (pixels (PDFCell.drawLine rubbing wipe_from wipe_to (PDFCell.drawingCanvas rubbing))) 19 1
    = transparent.
Proof.
  assert (Hb : (0 < 3)%Q) by reflexivity.
  split; [reflexivity |]. split; [exact Hb |]. split; [reflexivity |].
  destruct eraser_semantics as (_ & _ & _ & Hd & Hp). split.
  - exact (proj1 (Hd ruled wipe_from wipe_to (DrawingCell.canvas ruled) 19 1
                    eq_refl Hb eq_refl eq_refl eq_refl eq_refl)).
  - exact (Hp rubbing wipe_from wipe_to (PDFCell.drawingCanvas rubbing) 19 1
             eq_refl Hb eq_refl eq_refl eq_refl).
Defined.

(** C6 fails on this run: page 2 is requested and, while the document
    has not yet handed it over, page 3 is requested; nothing is cancelled
    (all three render tasks finish), and when page 2 arrives afterwards it
    is rendered over page 3: the cell shows page index 2 (page 3) but the
    base layer holds the raster of page 2, and the overlay of page 2 has
    been installed and pushed onto the history. *)
Lemma stale_render_applied :
  report (PDFCell.run overtaken (PDFCell.mount book)) =
    Some (2, Some (page 3), [PDFCell.Finished; PDFCell.Finished; PDFCell.Finished], [], 2) /\
  base_at (PDFCell.run overtaken (PDFCell.mount book)) 0 0 =
    Some (px_at (sheet 2 (800, 1131)) 0 0) /\
  px_at (sheet 2 (800, 1131)) 0 0 <> px_at (sheet 3 (800, 1131)) 0 0.
Proof.
  split; [vm_compute; reflexivity |]. split; [vm_compute; reflexivity |].
  vm_compute. discriminate.
Qed.

(** The same happens when the document hands over page 2 before page 3:
    the render task of page 2 is started after the only cancellation
    point of the request for page 3 has passed, and it is never
    cancelled; whether the task of page 3 completes or fails, the base
    layer ends with page 2 while page 3 is the current page. *)
Lemma stale_render_races : forall ok : bool,
  option_map (fun r => fst (fst (fst r))) (report (PDFCell.run (raced ok) (PDFCell.mount book))) =
    Some (2, Some (page 3)) /\
  option_map (fun r => nth_error (snd (fst (fst r))) 1)
    (report (PDFCell.run (raced ok) (PDFCell.mount book))) = Some (Some PDFCell.Finished) /\
  base_at (PDFCell.run (raced ok) (PDFCell.mount book)) 0 0 =
    Some (px_at (sheet 2 (800, 1131)) 0 0).
Proof. intros [|]; (split; [| split]); vm_compute; reflexivity. Qed.

(** When the superseded request already has its render task, the task is
    cancelled, its rejection is dropped without a report, and the base
    layer ends with the page requested last. *)
Lemma running_render_cancelled :
  report (PDFCell.run superseded (PDFCell.mount book)) =
    Some (2, Some (page 3), [PDFCell.Finished; PDFCell.Cancelled; PDFCell.Finished], [], 1) /\
  base_at (PDFCell.run superseded (PDFCell.mount book)) 0 0 =
    Some (px_at (sheet 3 (800, 1131)) 0 0).
Proof. split; vm_compute; reflexivity. Qed.

End MoreRuns.

(* ------------------------------------------------------------------ *)
(** * Further properties of the components *)

(** ** Entries that survive a push *)

Module HistoryMoreFacts.
Import Canvas2D History HistorySpec HistoryFacts.

Section Facts.
Context {B : Backend}.

Lemma index_tl : forall (A : Type) (l : list A) (j : Z),
  0 <= j -> Js.index (tl l) j = Js.index l (j + 1).
Proof.
  intros A l j Hj. rewrite !index_nth by lia.
  replace (Z.to_nat (j + 1)) with (S (Z.to_nat j)) by lia.
  destruct l as [| a l]; simpl; [now destruct (Z.to_nat j) | reflexivity].
Qed.

(** After a push the cursor is on the last entry. *)
Lemma push_cursor_last : forall (c : Ctx) (r : Refs),
  wf r -> historyIndexRef (saveToHistory c r) = size (saveToHistory c r) - 1.
Proof.
  intros c r [Hi Hn]. rewrite (saveToHistory_spec c r Hi). cbv zeta.
  assert (Hk : List.length (firstn (Z.to_nat (historyIndexRef r + 1)) (historyRef r))
               = Z.to_nat (historyIndexRef r + 1)).
  { rewrite length_firstn. unfold size in *. lia. }
  destruct (Z.leb_spec 49 (historyIndexRef r)); unfold size; simpl.
  - destruct (firstn _ _ ++ [pixels c]) as [| a l] eqn:E.
    + apply (f_equal (@List.length _)) in E. rewrite length_app in E. simpl in E. lia.
    + apply (f_equal (@List.length _)) in E. rewrite length_app in E. simpl in *.
      unfold size in *. lia.
  - rewrite length_app. simpl. lia.
Qed.

(** The entry [k] places below the cursor is [k + 1] places below it
    after a push, as long as that is at most 49 places. *)
Lemma push_keeps : forall (c : Ctx) (r : Refs) (k : Z),
  wf r -> 0 <= k <= historyIndexRef r -> k + 1 <= 49 ->
  Js.index (historyRef (saveToHistory c r)) (historyIndexRef (saveToHistory c r) - (k + 1)) =
  Js.index (historyRef r) (historyIndexRef r - k).
Proof.
  intros c r k [Hi Hn] Hk H49. rewrite (saveToHistory_spec c r Hi). cbv zeta.
  assert (Hlen : Z.of_nat (List.length (firstn (Z.to_nat (historyIndexRef r + 1)) (historyRef r)))
                 = historyIndexRef r + 1).
  { rewrite length_firstn. unfold size in *. lia. }
  destruct (Z.leb_spec 49 (historyIndexRef r)); simpl.
  - rewrite index_tl by (unfold size in *; lia).
    replace (historyIndexRef r - (k + 1) + 1) with (historyIndexRef r - k) by lia.
    rewrite index_app_l by lia. apply index_firstn. lia.
  - replace (historyIndexRef r + 1 - (k + 1)) with (historyIndexRef r - k) by lia.
    rewrite index_app_l by lia. apply index_firstn. lia.
Qed.

End Facts.

End HistoryMoreFacts.

(** ** How far undo reaches on the drawing cell *)

Module ActionFacts.
Import Canvas2D Types History HistorySpec HistoryFacts HistoryMoreFacts Laws.
Import DrawingCell DrawingSpec CanvasFacts DrawingFacts.

Section Facts.
Context {B : Backend} {T : Trig} {L : Lawful B}.

Lemma dims_handleInsertImage : forall (img : Pixels) (s : State),
  dims (pixels (canvas (handleInsertImage img s))) = dims (pixels (canvas s)).
Proof.
  intros img s. unfold handleInsertImage. cbv zeta.
  destruct (Js.min _ _); try reflexivity.
  cbn [canvas DrawingCell.saveToHistory set_history set_canvas drawImageScaled with_pixels pixels].
  apply dims_render.
Qed.

(** Every action saves the ink layer it leaves, once. *)
Lemma act_pushes : forall (a : Action) (s : State),
  isEditing s = true ->
  let s' := act a s in
  history s' = History.saveToHistory (canvas s') (history s) /\
  dims (pixels (canvas s')) = dims (pixels (canvas s)) /\
  isEditing s' = true /\ (isDrawing s = false -> isDrawing s' = false).
Proof.
  intros a s He. destruct a as [g | | img]; cbn [act].
  - destruct (gesture_pushes_once g s He) as (H1 & H2 & H3 & H4). repeat split; auto.
  - unfold handleClear. cbv zeta. repeat split; auto.
    cbn [canvas DrawingCell.saveToHistory set_history set_canvas].
    apply dims_drawBackground.
  - split; [| split; [apply dims_handleInsertImage | split]].
    + unfold handleInsertImage. cbv zeta. destruct (Js.min _ _); reflexivity.
    + unfold handleInsertImage. cbv zeta. destruct (Js.min _ _); exact He.
    + unfold handleInsertImage. cbv zeta. destruct (Js.min _ _); auto.
Qed.

Lemma act_settled : forall (a : Action) (s : State), Settled s -> Settled (act a s).
Proof.
  intros a s Hs. destruct (settled_wf s Hs) as [Hwf H0].
  destruct Hs as (Hdr & He & Hcur & Hall & Hn).
  destruct (act_pushes a s He) as (Hh & Hd & He' & Hdr').
  destruct (saveToHistory_wf (canvas (act a s)) (history s) Hwf) as [[Hi' Hn'] [_ Hcur']].
  unfold Settled. rewrite Hh. repeat split; auto.
  apply save_sizes; [apply Hwf | | reflexivity]. now rewrite Hd.
Qed.

(** The ink layer that sits [k] entries below the cursor sits
    [k + length l] entries below it after the actions [l], as long as
    that is at most 49. *)
Lemma acts_keep : forall (l : list Action) (s : State) (k : Z) (px : Pixels),
  Settled s -> 0 <= k ->
  Js.index (historyRef (history s)) (historyIndexRef (history s) - k) = Some px ->
  k + Z.of_nat (List.length l) <= 49 ->
  Settled (acts l s) /\
  Js.index (historyRef (history (acts l s)))
    (historyIndexRef (history (acts l s)) - (k + Z.of_nat (List.length l))) = Some px.
Proof.
  unfold acts. induction l as [| a l IH]; intros s k px Hs Hk Hpx Hroom.
  - simpl. split; [assumption |]. now rewrite Z.add_0_r.
  - simpl fold_left. simpl List.length in *.
    destruct (settled_wf s Hs) as [Hwf H0].
    pose proof (act_settled a s Hs) as Hs'.
    destruct Hs as (Hdr & He & Hcur & Hall & Hn).
    destruct (act_pushes a s He) as (Hh & _).
    assert (Hk' : k <= historyIndexRef (history s)).
    { apply index_some_range in Hpx. lia. }
    destruct (IH (act a s) (k + 1) px Hs') as [Hs'' Hpx'']; [lia | | lia |].
    + rewrite Hh. rewrite push_keeps by (try assumption; lia). exact Hpx.
    + split; [exact Hs'' |].
      replace (k + Z.of_nat (S (List.length l))) with (k + 1 + Z.of_nat (List.length l)) by lia.
      exact Hpx''.
Qed.

End Facts.

End ActionFacts.

Section UndoDepth.
Import Canvas2D Types History HistorySpec HistoryFacts Laws.
Import DrawingCell DrawingSpec DrawingFacts ActionFacts.
Context {B : Backend} {T : Trig} {L : Lawful B}.

(** X1.  On a drawing cell at rest, whatever the cursor and however full the
    history, after up to 49 actions (gestures, clears, inserted pictures) as
    many undos return normally with the ink layer from before them, and as
    many redos then bring back the ink layer from after them. *)
Theorem undo_reaches_back_49 : forall (s : State) (l : list Action),
  Settled s -> (List.length l <= 49)%nat ->
  let n := List.length l in
  let s' := acts l s in
  exists u v,
    undos n s' = Js.Ok u /\ pixels (canvas u) = pixels (canvas s) /\
    redos n u = Js.Ok v /\ pixels (canvas v) = pixels (canvas s') /\
    history v = history s'.
Proof.
  intros s l Hs Hlen n s'.
  assert (Hcur0 : Js.index (historyRef (history s)) (historyIndexRef (history s) - 0)
                  = Some (pixels (canvas s))).
  { rewrite Z.sub_0_r. apply Hs. }
  destruct (acts_keep l s 0 _ Hs (Z.le_refl 0) Hcur0) as [Hs' Hpx]; [lia |].
  fold s' in Hs', Hpx. rewrite Z.add_0_l in Hpx. fold n in Hpx.
  assert (Hc' : Coherent s') by (destruct Hs' as (_ & _ & H1 & H2 & _); now split).
  pose proof (index_some_range _ _ _ _ Hpx) as Hr.
  destruct (undos_back n s' Hc') as (u & Hu & Hcu & Hru & Hiu); [lia |].
  assert (Hsz : historyIndexRef (history s') < size (history s')).
  { destruct Hc' as [Hc _]. apply index_some_range in Hc. unfold size. lia. }
  destruct (redos_forth n u Hcu) as (v & Hv & Hcv & Hrv & Hiv).
  { unfold size. rewrite Hru, Hiu. unfold size in Hsz. lia. }
  exists u, v. split; [exact Hu |]. split; [| split; [exact Hv | split]].
  - destruct Hcu as [Hcur _]. unfold current in Hcur. rewrite Hru, Hiu in Hcur. congruence.
  - destruct Hcv as [Hcur _]. unfold current in Hcur.
    rewrite Hrv, Hru, Hiv, Hiu in Hcur.
    replace (historyIndexRef (history s') - Z.of_nat n + Z.of_nat n)
      with (historyIndexRef (history s')) in Hcur by lia.
    destruct Hc' as [Hcur' _]. unfold current in Hcur'. congruence.
  - destruct (history v) as [hv iv] eqn:Ev, (history s') as [hs' is'] eqn:Es.
    simpl in *. subst. f_equal. lia.
Qed.

End UndoDepth.

(** ** How far undo reaches on the PDF overlay *)

Module OverlayActionFacts.
Import Canvas2D Types History HistorySpec HistoryFacts HistoryMoreFacts Laws.
Import PDFCell OverlayHistorySpec CanvasFacts.

Section Facts.
Context {B : Backend} {D : PdfDocument} {L : Lawful B}.

Lemma dims_overlay_drawLine : forall (s : State) (from to : Point) (ctx : Ctx),
  dims (pixels (drawLine s from to ctx)) = dims (pixels ctx).
Proof.
  intros s from to ctx. unfold drawLine. cbv zeta.
  rewrite pixels_set_globalAlpha.
  cbn [pixels set_globalCompositeOperation]. rewrite dims_stroke.
  cbn [pixels set_lineJoin set_lineCap].
  destruct (tool s); rewrite ?pixels_set_globalAlpha, ?pixels_set_lineWidth; reflexivity.
Qed.

Lemma overlay_down_frame : forall (e : PointerEvent) (s : State),
  history (handlePointerDown e s) = history s /\
  drawingCanvas (handlePointerDown e s) = drawingCanvas s /\
  isEditingDrawing (handlePointerDown e s) = isEditingDrawing s /\
  (isEditingDrawing s = true -> isDrawing (handlePointerDown e s) = true).
Proof.
  intros e s. unfold handlePointerDown.
  destruct (isEditingDrawing s) eqn:E; cbn [negb]; cbv zeta;
    repeat split; try reflexivity; try assumption; congruence.
Qed.

Lemma overlay_move_frame : forall (e : PointerEvent) (s : State),
  history (handlePointerMove e s) = history s /\
  dims (pixels (drawingCanvas (handlePointerMove e s))) = dims (pixels (drawingCanvas s)) /\
  isEditingDrawing (handlePointerMove e s) = isEditingDrawing s /\
  isDrawing (handlePointerMove e s) = isDrawing s.
Proof.
  intros e s. unfold handlePointerMove.
  destruct (negb (isDrawing s) || negb (isEditingDrawing s)); [now repeat split |].
  destruct (lastPoint s); [| now repeat split].
  repeat split. cbn [drawingCanvas set_lastPoint set_drawingCanvas]. apply dims_overlay_drawLine.
Qed.

Lemma overlay_moves_frame : forall (es : list PointerEvent) (s : State),
  history (moves es s) = history s /\
  dims (pixels (drawingCanvas (moves es s))) = dims (pixels (drawingCanvas s)) /\
  isEditingDrawing (moves es s) = isEditingDrawing s /\
  isDrawing (moves es s) = isDrawing s.
Proof.
  unfold moves. induction es as [| e es IH]; intros s; simpl; [now repeat split |].
  destruct (IH (handlePointerMove e s)) as (Hh & Hd & He & Hdr).
  destruct (overlay_move_frame e s) as (Hh' & Hd' & He' & Hdr').
  repeat split; congruence.
Qed.

(** Every action saves the overlay it leaves, once. *)
Lemma overlay_act_pushes : forall (a : Action) (s : State),
  isEditingDrawing s = true ->
  let s' := act a s in
  history s' = History.saveToHistory (drawingCanvas s') (history s) /\
  dims (pixels (drawingCanvas s')) = dims (pixels (drawingCanvas s)) /\
  isEditingDrawing s' = true /\ (isDrawing s = false -> isDrawing s' = false).
Proof.
  intros a s He. destruct a as [d ms u |]; cbn [act].
  - unfold gesture.
    destruct (overlay_down_frame d s) as (Hh1 & Hc1 & He1 & Hd1).
    destruct (overlay_moves_frame ms (handlePointerDown d s)) as (Hh2 & Hdim2 & He2 & Hd2).
    set (s2 := moves ms (handlePointerDown d s)) in *.
    assert (Hdraw : isDrawing s2 = true) by (rewrite Hd2; auto).
    unfold handlePointerUp. rewrite Hdraw. cbn [negb]. cbv zeta.
    cbn [history drawingCanvas isEditingDrawing isDrawing PDFCell.saveToHistory set_history
         set_lastPoint set_isDrawing].
    repeat split; try congruence.
  - unfold handleClearDrawing, clearDrawing, PDFCell.saveToHistory. cbv zeta.
    cbn [history drawingCanvas isEditingDrawing isDrawing set_history set_drawingCanvas].
    split; [reflexivity |]. split; [apply dims_clearRect |]. split; [exact He | auto].
Qed.

Lemma rested_wf : forall s : State,
  Rested s -> wf (history s) /\ 0 <= historyIndexRef (history s).
Proof.
  intros s (_ & _ & Hcur & _ & Hn). unfold current in Hcur.
  apply index_some_range in Hcur. unfold wf, size in *. lia.
Qed.

Lemma overlay_act_rested : forall (a : Action) (s : State), Rested s -> Rested (act a s).
Proof.
  intros a s Hs. destruct (rested_wf s Hs) as [Hwf H0].
  destruct Hs as (Hdr & He & Hcur & Hall & Hn).
  destruct (overlay_act_pushes a s He) as (Hh & Hd & He' & Hdr').
  destruct (saveToHistory_wf (drawingCanvas (act a s)) (history s) Hwf)
    as [[Hi' Hn'] [_ Hcur']].
  unfold Rested. rewrite Hh. repeat split; auto.
  apply DrawingFacts.save_sizes; [apply Hwf | | reflexivity]. now rewrite Hd.
Qed.

Lemma overlay_acts_keep : forall (l : list Action) (s : State) (k : Z) (px : Pixels),
  Rested s -> 0 <= k ->
  Js.index (historyRef (history s)) (historyIndexRef (history s) - k) = Some px ->
  k + Z.of_nat (List.length l) <= 49 ->
  Rested (acts l s) /\
  Js.index (historyRef (history (acts l s)))
    (historyIndexRef (history (acts l s)) - (k + Z.of_nat (List.length l))) = Some px.
Proof.
  unfold acts. induction l as [| a l IH]; intros s k px Hs Hk Hpx Hroom.
  - simpl. split; [assumption |]. now rewrite Z.add_0_r.
  - simpl fold_left. simpl List.length in *.
    destruct (rested_wf s Hs) as [Hwf H0].
    pose proof (overlay_act_rested a s Hs) as Hs'.
    destruct Hs as (Hdr & He & Hcur & Hall & Hn).
    destruct (overlay_act_pushes a s He) as (Hh & _).
    assert (Hk' : k <= historyIndexRef (history s)).
    { apply index_some_range in Hpx. lia. }
    destruct (IH (act a s) (k + 1) px Hs') as [Hs'' Hpx'']; [lia | | lia |].
    + rewrite Hh. rewrite push_keeps by (try assumption; lia). exact Hpx.
    + split; [exact Hs'' |].
      replace (k + Z.of_nat (S (List.length l))) with (k + 1 + Z.of_nat (List.length l)) by lia.
      exact Hpx''.
Qed.

(** An overlay whose ink layer is the snapshot under the cursor. *)
Lemma overlay_restore : forall (s : State) (i : Z) (img : Pixels),
  current (history s) = Some (pixels (drawingCanvas s)) ->
  Forall (fun e => dims e = dims (pixels (drawingCanvas s))) (historyRef (history s)) ->
  Js.index (historyRef (history s)) i = Some img ->
  let s' := set_history (mkRefs (historyRef (history s)) i)
              (set_drawingCanvas (putImageData img (drawingCanvas s)) s) in
  current (history s') = Some (pixels (drawingCanvas s')) /\
  Forall (fun e => dims e = dims (pixels (drawingCanvas s'))) (historyRef (history s')) /\
  pixels (drawingCanvas s') = img.
Proof.
  intros s i img Hcur Hall Himg s'.
  assert (Hdim : dims img = dims (pixels (drawingCanvas s))).
  { rewrite Forall_forall in Hall. apply Hall.
    unfold Js.index in Himg. destruct (i <? 0); [discriminate |].
    eapply nth_error_In; eauto. }
  assert (Hpx : pixels (drawingCanvas s') = img) by (simpl; now apply putImageData_same).
  split; [| split; [| exact Hpx]].
  - unfold current. rewrite Hpx. exact Himg.
  - rewrite Hpx, Hdim. exact Hall.
Qed.

Lemma overlay_undos_back : forall (n : nat) (s : State),
  current (history s) = Some (pixels (drawingCanvas s)) ->
  Forall (fun e => dims e = dims (pixels (drawingCanvas s))) (historyRef (history s)) ->
  Z.of_nat n <= historyIndexRef (history s) ->
  exists u,
    undos n s = Js.Ok u /\
    current (history u) = Some (pixels (drawingCanvas u)) /\
    Forall (fun e => dims e = dims (pixels (drawingCanvas u))) (historyRef (history u)) /\
    historyRef (history u) = historyRef (history s) /\
    historyIndexRef (history u) = historyIndexRef (history s) - Z.of_nat n.
Proof.
  induction n as [| n IH]; intros s Hc Hall Hn.
  - exists s. simpl. repeat split; auto. lia.
  - assert (Hr : 0 < historyIndexRef (history s) < size (history s)).
    { pose proof (index_some_range _ _ _ _ Hc). unfold size. lia. }
    destruct (undo_step (drawingCanvas s) (history s) Hr) as [img [Himg E]].
    destruct (overlay_restore s _ img Hc Hall Himg) as (Hc' & Hall' & _).
    destruct (IH _ Hc' Hall') as (u & Hu & Hcu & Hau & Hru & Hiu); [simpl; lia |].
    exists u. split.
    + cbn [undos]. unfold PDFCell.undo. rewrite E. cbn [Js.bind fst snd]. exact Hu.
    + repeat split; auto. simpl in Hiu. lia.
Qed.

Lemma overlay_redos_forth : forall (n : nat) (s : State),
  current (history s) = Some (pixels (drawingCanvas s)) ->
  Forall (fun e => dims e = dims (pixels (drawingCanvas s))) (historyRef (history s)) ->
  historyIndexRef (history s) + Z.of_nat n < size (history s) ->
  exists v,
    redos n s = Js.Ok v /\
    current (history v) = Some (pixels (drawingCanvas v)) /\
    Forall (fun e => dims e = dims (pixels (drawingCanvas v))) (historyRef (history v)) /\
    historyRef (history v) = historyRef (history s) /\
    historyIndexRef (history v) = historyIndexRef (history s) + Z.of_nat n.
Proof.
  induction n as [| n IH]; intros s Hc Hall Hn.
  - exists s. simpl. repeat split; auto. lia.
  - assert (Hr : -1 <= historyIndexRef (history s) < size (history s) - 1).
    { pose proof (index_some_range _ _ _ _ Hc). unfold size in *. lia. }
    destruct (redo_step (drawingCanvas s) (history s) Hr) as [img [Himg E]].
    destruct (overlay_restore s _ img Hc Hall Himg) as (Hc' & Hall' & _).
    destruct (IH _ Hc' Hall') as (v & Hv & Hcv & Hav & Hrv & Hiv).
    { unfold size in *. simpl. lia. }
    exists v. split.
    + cbn [redos]. unfold PDFCell.redo. rewrite E. cbn [Js.bind fst snd]. exact Hv.
    + repeat split; auto. simpl in Hiv. lia.
Qed.

End Facts.

End OverlayActionFacts.

Section OverlayUndoDepth.
Import Canvas2D Types History HistorySpec HistoryFacts Laws.
Import PDFCell OverlayHistorySpec OverlayActionFacts.
Context {B : Backend} {D : PdfDocument} {L : Lawful B}.

(** X2.  On a PDF overlay at rest in edit mode, whatever the cursor and
    however full the history, after up to 49 actions (gestures and clears)
    as many undos return normally with the overlay from before them, and as
    many redos then bring back the overlay from after them. *)
Theorem overlay_undo_reaches_back_49 : forall (s : State) (l : list Action),
  Rested s -> (List.length l <= 49)%nat ->
  let n := List.length l in
  let s' := acts l s in
  exists u v,
    undos n s' = Js.Ok u /\ pixels (drawingCanvas u) = pixels (drawingCanvas s) /\
    redos n u = Js.Ok v /\ pixels (drawingCanvas v) = pixels (drawingCanvas s') /\
    history v = history s'.
Proof.
  intros s l Hs Hlen n s'.
  assert (Hcur0 : Js.index (historyRef (history s)) (historyIndexRef (history s) - 0)
                  = Some (pixels (drawingCanvas s))).
  { rewrite Z.sub_0_r. apply Hs. }
  destruct (overlay_acts_keep l s 0 _ Hs (Z.le_refl 0) Hcur0) as [Hs' Hpx]; [lia |].
  fold s' in Hs', Hpx. rewrite Z.add_0_l in Hpx. fold n in Hpx.
  destruct Hs' as (_ & _ & Hc' & Hall' & _).
  pose proof (index_some_range _ _ _ _ Hpx) as Hr.
  destruct (overlay_undos_back n s' Hc' Hall') as (u & Hu & Hcu & Hau & Hru & Hiu); [lia |].
  assert (Hsz : historyIndexRef (history s') < size (history s')).
  { pose proof (index_some_range _ _ _ _ Hc'). unfold size. lia. }
  destruct (overlay_redos_forth n u Hcu Hau) as (v & Hv & Hcv & Hav & Hrv & Hiv).
  { unfold size. rewrite Hru, Hiu. unfold size in Hsz. lia. }
  exists u, v. split; [exact Hu |]. split; [| split; [exact Hv | split]].
  - unfold current in Hcu. rewrite Hru, Hiu in Hcu. congruence.
  - unfold current in Hcv. rewrite Hrv, Hru, Hiv, Hiu in Hcv.
    replace (historyIndexRef (history s') - Z.of_nat n + Z.of_nat n)
      with (historyIndexRef (history s')) in Hcv by lia.
    unfold current in Hc'. congruence.
  - destruct (history v) as [hv iv] eqn:Ev, (history s') as [hs' is'] eqn:Es.
    simpl in *. subst. f_equal. lia.
Qed.

End OverlayUndoDepth.

(** ** Pointer input outside edit mode *)

Section ViewMode.
Import Canvas2D Types InputSpec.
Context {B : Backend} {T : Trig} {D : PDFCell.PdfDocument}.

(** X3.  On each of the three surfaces, while the cell is neither in edit
    mode nor in the middle of a stroke, pointer-down, pointer-move,
    pointer-up and pointer-leave in any number and order leave the whole
    state as it is; on the drawing cell and on the PDF overlay a click then
    enters edit mode without touching ink layer or history. *)
Theorem pointer_ignored_outside_edit_mode :
  (forall (s : DrawingCell.State) (l : list CanvasInput),
     DrawingCell.isEditing s = false -> DrawingCell.isDrawing s = false ->
     forallb is_pointer l = true ->
     DrawingCell.inputs l s = s /\
     DrawingCell.isEditing (DrawingCell.onCanvas OnClick s) = true /\
     DrawingCell.canvas (DrawingCell.onCanvas OnClick s) = DrawingCell.canvas s /\
     DrawingCell.history (DrawingCell.onCanvas OnClick s) = DrawingCell.history s) /\
  (forall (s : MiniDrawing.State) (l : list CanvasInput),
     MiniDrawing.isEditing s = false -> MiniDrawing.isDrawing s = false ->
     forallb is_pointer l = true ->
     MiniDrawing.inputs l s = s) /\
  (forall (s : PDFCell.State) (l : list CanvasInput),
     PDFCell.isEditingDrawing s = false -> PDFCell.isDrawing s = false ->
     forallb is_pointer l = true ->
     PDFCell.inputs l s = s /\
     PDFCell.isEditingDrawing (PDFCell.onCanvas OnClick s) = true /\
     PDFCell.drawingCanvas (PDFCell.onCanvas OnClick s) = PDFCell.drawingCanvas s /\
     PDFCell.history (PDFCell.onCanvas OnClick s) = PDFCell.history s).
Proof.
  split; [| split].
  - intros s l He Hd Hl. split.
    + unfold DrawingCell.inputs. induction l as [| i l IH]; [reflexivity |].
      simpl in Hl. apply andb_true_iff in Hl. destruct Hl as [Hi Hl].
      assert (E : DrawingCell.onCanvas i s = s).
      { destruct i; try discriminate; simpl;
          unfold DrawingCell.handlePointerDown, DrawingCell.handlePointerMove,
                 DrawingCell.handlePointerUp; now rewrite ?He, ?Hd. }
      simpl. rewrite E. now apply IH.
    + simpl. now rewrite He.
  - intros s l He Hd Hl.
    unfold MiniDrawing.inputs. induction l as [| i l IH]; [reflexivity |].
    simpl in Hl. apply andb_true_iff in Hl. destruct Hl as [Hi Hl].
    assert (E : MiniDrawing.onCanvas i s = s).
    { destruct i; try discriminate; simpl;
        unfold MiniDrawing.handlePointerDown, MiniDrawing.handlePointerMove,
               MiniDrawing.handlePointerUp; now rewrite ?He, ?Hd. }
    simpl. rewrite E. now apply IH.
  - intros s l He Hd Hl. split.
    + unfold PDFCell.inputs. induction l as [| i l IH]; [reflexivity |].
      simpl in Hl. apply andb_true_iff in Hl. destruct Hl as [Hi Hl].
      assert (E : PDFCell.onCanvas i s = s).
      { destruct i; try discriminate; simpl;
          unfold PDFCell.handlePointerDown, PDFCell.handlePointerMove,
                 PDFCell.handlePointerUp; now rewrite ?He, ?Hd. }
      simpl. rewrite E. now apply IH.
    + simpl. now rewrite He.
Qed.

End ViewMode.

(** ** The keyboard shortcuts *)

Section Keyboard.
Import Canvas2D Types History HistorySpec HistoryFacts Laws.
Context {B : Backend} {T : Trig} {D : PDFCell.PdfDocument} {L : Lawful B}.

Lemma drawing_key : forall (e : KeyboardEvent) (s : DrawingCell.State),
  DrawingSpec.Coherent s ->
  exists i px,
    Js.index (historyRef (DrawingCell.history s)) i = Some px /\
    DrawingCell.handleKeyDown e s =
    Js.Ok (DrawingCell.set_history (mkRefs (historyRef (DrawingCell.history s)) i)
             (DrawingCell.set_canvas (with_pixels px (DrawingCell.canvas s)) s)).
Proof.
  intros e s [Hcur Hall].
  assert (Hsame : exists i px,
            Js.index (historyRef (DrawingCell.history s)) i = Some px /\
            Js.Ok s =
            Js.Ok (DrawingCell.set_history (mkRefs (historyRef (DrawingCell.history s)) i)
                     (DrawingCell.set_canvas (with_pixels px (DrawingCell.canvas s)) s))).
  { exists (historyIndexRef (DrawingCell.history s)), (pixels (DrawingCell.canvas s)).
    split; [exact Hcur |].
    destruct s as [u c]. destruct c, history. reflexivity. }
  assert (Hput : forall i img,
            Js.index (historyRef (DrawingCell.history s)) i = Some img ->
            putImageData img (DrawingCell.canvas s) = with_pixels img (DrawingCell.canvas s)).
  { intros i img Himg. unfold putImageData. f_equal. apply put_same.
    rewrite Forall_forall in Hall. apply Hall.
    unfold Js.index in Himg. destruct (i <? 0); [discriminate |].
    eapply nth_error_In; eauto. }
  pose proof (index_some_range _ _ _ _ Hcur) as Hr.
  unfold DrawingCell.handleKeyDown.
  destruct (negb (DrawingCell.isEditing s)); [exact Hsame |].
  destruct (ctrlKey e && String.eqb (key e) "z"); [| exact Hsame].
  destruct (shiftKey e).
  - unfold DrawingCell.redo.
    destruct (Z.le_gt_cases (size (DrawingCell.history s) - 1)
                (historyIndexRef (DrawingCell.history s))) as [Hend | Hin].
    + rewrite redo_at_end by exact Hend. cbn [Js.bind fst snd].
      destruct Hsame as (i & px & Hi & E). exists i, px. split; [exact Hi |].
      rewrite <- E. destruct s as [u c]. destruct history. reflexivity.
    + destruct (redo_step (DrawingCell.canvas s) (DrawingCell.history s)) as [img [Himg E]];
        [unfold size in *; lia |].
      rewrite E. cbn [Js.bind fst snd]. rewrite (Hput _ _ Himg).
      exists (historyIndexRef (DrawingCell.history s) + 1), img. now split.
  - unfold DrawingCell.undo.
    destruct (Z.le_gt_cases (historyIndexRef (DrawingCell.history s)) 0) as [H0 | Hpos].
    + rewrite undo_at_start by exact H0. cbn [Js.bind fst snd].
      destruct Hsame as (i & px & Hi & E). exists i, px. split; [exact Hi |].
      rewrite <- E. destruct s as [u c]. destruct history. reflexivity.
    + destruct (undo_step (DrawingCell.canvas s) (DrawingCell.history s)) as [img [Himg E]];
        [unfold size in *; lia |].
      rewrite E. cbn [Js.bind fst snd]. rewrite (Hput _ _ Himg).
      exists (historyIndexRef (DrawingCell.history s) - 1), img. now split.
Qed.

Lemma overlay_key : forall (e : KeyboardEvent) (s : PDFCell.State),
  current (PDFCell.history s) = Some (pixels (PDFCell.drawingCanvas s)) ->
  Forall (fun img => dims img = dims (pixels (PDFCell.drawingCanvas s)))
    (historyRef (PDFCell.history s)) ->
  exists i px,
    Js.index (historyRef (PDFCell.history s)) i = Some px /\
    PDFCell.handleKeyDown e s =
    Js.Ok (PDFCell.set_history (mkRefs (historyRef (PDFCell.history s)) i)
             (PDFCell.set_drawingCanvas (with_pixels px (PDFCell.drawingCanvas s)) s)).
Proof.
  intros e s Hcur Hall.
  assert (Hsame : exists i px,
            Js.index (historyRef (PDFCell.history s)) i = Some px /\
            Js.Ok s =
            Js.Ok (PDFCell.set_history (mkRefs (historyRef (PDFCell.history s)) i)
                     (PDFCell.set_drawingCanvas (with_pixels px (PDFCell.drawingCanvas s)) s))).
  { exists (historyIndexRef (PDFCell.history s)), (pixels (PDFCell.drawingCanvas s)).
    split; [exact Hcur |].
    destruct s. destruct drawingCanvas, history. reflexivity. }
  assert (Hput : forall i img,
            Js.index (historyRef (PDFCell.history s)) i = Some img ->
            putImageData img (PDFCell.drawingCanvas s) =
            with_pixels img (PDFCell.drawingCanvas s)).
  { intros i img Himg. unfold putImageData. f_equal. apply put_same.
    rewrite Forall_forall in Hall. apply Hall.
    unfold Js.index in Himg. destruct (i <? 0); [discriminate |].
    eapply nth_error_In; eauto. }
  pose proof (index_some_range _ _ _ _ Hcur) as Hr.
  unfold PDFCell.handleKeyDown.
  destruct (negb (PDFCell.isEditingDrawing s)); [exact Hsame |].
  destruct (ctrlKey e && String.eqb (key e) "z"); [| exact Hsame].
  destruct (shiftKey e).
  - unfold PDFCell.redo.
    destruct (Z.le_gt_cases (size (PDFCell.history s) - 1)
                (historyIndexRef (PDFCell.history s))) as [Hend | Hin].
    + rewrite redo_at_end by exact Hend. cbn [Js.bind fst snd].
      destruct Hsame as (i & px & Hi & E). exists i, px. split; [exact Hi |].
      rewrite <- E. destruct s. destruct history. reflexivity.
    + destruct (redo_step (PDFCell.drawingCanvas s) (PDFCell.history s)) as [img [Himg E]];
        [unfold size in *; lia |].
      rewrite E. cbn [Js.bind fst snd]. rewrite (Hput _ _ Himg).
      exists (historyIndexRef (PDFCell.history s) + 1), img. now split.
  - unfold PDFCell.undo.
    destruct (Z.le_gt_cases (historyIndexRef (PDFCell.history s)) 0) as [H0 | Hpos].
    + rewrite undo_at_start by exact H0. cbn [Js.bind fst snd].
      destruct Hsame as (i & px & Hi & E). exists i, px. split; [exact Hi |].
      rewrite <- E. destruct s. destruct history. reflexivity.
    + destruct (undo_step (PDFCell.drawingCanvas s) (PDFCell.history s)) as [img [Himg E]];
        [unfold size in *; lia |].
      rewrite E. cbn [Js.bind fst snd]. rewrite (Hput _ _ Himg).
      exists (historyIndexRef (PDFCell.history s) - 1), img. now split.
Qed.

(** X4.  On the drawing cell and on the PDF overlay, when the ink layer is
    the snapshot under the cursor, any run of key presses returns normally
    and changes nothing but the cursor and the pixels of the ink layer,
    which end as the snapshot under the new cursor: the list of snapshots,
    the context settings and every other part of the state are as before.  A
    key press outside edit mode, without Ctrl, or with a key other than the
    lower-case ["z"] changes nothing at all. *)
Theorem keys_move_cursor_only :
  (forall (es : list KeyboardEvent) (s : DrawingCell.State),
     DrawingSpec.Coherent s ->
     exists i px,
       Js.index (historyRef (DrawingCell.history s)) i = Some px /\
       DrawingCell.keys es s =
       Js.Ok (DrawingCell.set_history (mkRefs (historyRef (DrawingCell.history s)) i)
                (DrawingCell.set_canvas (with_pixels px (DrawingCell.canvas s)) s))) /\
  (forall (e : KeyboardEvent) (s : DrawingCell.State),
     DrawingCell.isEditing s = false \/ ctrlKey e = false \/ key e <> "z" ->
     DrawingCell.handleKeyDown e s = Js.Ok s) /\
  (forall (es : list KeyboardEvent) (s : PDFCell.State),
     current (PDFCell.history s) = Some (pixels (PDFCell.drawingCanvas s)) ->
     Forall (fun img => dims img = dims (pixels (PDFCell.drawingCanvas s)))
       (historyRef (PDFCell.history s)) ->
     exists i px,
       Js.index (historyRef (PDFCell.history s)) i = Some px /\
       PDFCell.keys es s =
       Js.Ok (PDFCell.set_history (mkRefs (historyRef (PDFCell.history s)) i)
                (PDFCell.set_drawingCanvas (with_pixels px (PDFCell.drawingCanvas s)) s))) /\
  (forall (e : KeyboardEvent) (s : PDFCell.State),
     PDFCell.isEditingDrawing s = false \/ ctrlKey e = false \/ key e <> "z" ->
     PDFCell.handleKeyDown e s = Js.Ok s).
Proof.
  split; [| split; [| split]].
  - induction es as [| e es IH]; intros s Hc.
    + destruct Hc as [Hcur Hall].
      exists (historyIndexRef (DrawingCell.history s)), (pixels (DrawingCell.canvas s)).
      split; [exact Hcur |]. simpl. destruct s as [u c]. destruct c, history. reflexivity.
    + destruct (drawing_key e s Hc) as (i & px & Hi & E).
      set (s1 := DrawingCell.set_history _ _) in E.
      assert (Hc1 : DrawingSpec.Coherent s1).
      { destruct Hc as [Hcur Hall]. split; [exact Hi |].
        assert (Hdim : dims px = dims (pixels (DrawingCell.canvas s))).
        { rewrite Forall_forall in Hall. apply Hall.
          unfold Js.index in Hi. destruct (i <? 0); [discriminate |].
          eapply nth_error_In; eauto. }
        cbn [s1 DrawingCell.history DrawingCell.canvas DrawingCell.set_history
             DrawingCell.set_canvas historyRef with_pixels pixels].
        rewrite Hdim. exact Hall. }
      destruct (IH s1 Hc1) as (i' & px' & Hi' & E').
      exists i', px'. split; [exact Hi' |].
      cbn [DrawingCell.keys]. rewrite E. cbn [Js.bind]. rewrite E'. reflexivity.
  - intros e s H. unfold DrawingCell.handleKeyDown.
    destruct (DrawingCell.isEditing s); [| reflexivity]. cbn [negb].
    destruct H as [H | [H | H]]; [discriminate | now rewrite H |].
    destruct (String.eqb_spec (key e) "z"); [contradiction |].
    now rewrite andb_false_r.
  - induction es as [| e es IH]; intros s Hcur Hall.
    + exists (historyIndexRef (PDFCell.history s)), (pixels (PDFCell.drawingCanvas s)).
      split; [exact Hcur |]. simpl. destruct s. destruct drawingCanvas, history. reflexivity.
    + destruct (overlay_key e s Hcur Hall) as (i & px & Hi & E).
      set (s1 := PDFCell.set_history _ _) in E.
      assert (Hall1 : Forall (fun img => dims img = dims (pixels (PDFCell.drawingCanvas s1)))
                        (historyRef (PDFCell.history s1))).
      { assert (Hdim : dims px = dims (pixels (PDFCell.drawingCanvas s))).
        { rewrite Forall_forall in Hall. apply Hall.
          unfold Js.index in Hi. destruct (i <? 0); [discriminate |].
          eapply nth_error_In; eauto. }
        cbn [s1 PDFCell.history PDFCell.drawingCanvas PDFCell.set_history
             PDFCell.set_drawingCanvas historyRef with_pixels pixels].
        rewrite Hdim. exact Hall. }
      destruct (IH s1 Hi Hall1) as (i' & px' & Hi' & E').
      exists i', px'. split; [exact Hi' |].
      cbn [PDFCell.keys]. rewrite E. cbn [Js.bind]. rewrite E'. reflexivity.
  - intros e s H. unfold PDFCell.handleKeyDown.
    destruct (PDFCell.isEditingDrawing s); [| reflexivity]. cbn [negb].
    destruct H as [H | [H | H]]; [discriminate | now rewrite H |].
    destruct (String.eqb_spec (key e) "z"); [contradiction |].
    now rewrite andb_false_r.
Qed.

End Keyboard.

(** ** Where a pointer event lands, and how wide the pen draws *)

Module PointFacts.

Lemma half : forall x : Q, (x / 2 == x * (1 # 2))%Q.
Proof. intros x. unfold Qdiv. reflexivity. Qed.

(** A displayed offset [d] within a box [rw] wide, scaled by
    [W / rw], lies within [0, W]. *)
Lemma scale_in : forall d W rw : Q,
  (0 < rw -> 0 <= d -> d <= rw -> 0 <= W ->
   0 <= d * (W / rw) /\ d * (W / rw) <= W)%Q.
Proof.
  intros d W rw Hrw Hd Hdr HW.
  assert (Hz : (W / rw * rw == W)%Q) by (field; lra).
  assert (Hz0 : (0 <= W / rw)%Q) by (apply Qle_shift_div_l; lra).
  set (z := (W / rw)%Q) in *. split; nra.
Qed.

Lemma scale_full : forall W rw : Q, (0 < rw -> rw * (W / rw) == W)%Q.
Proof. intros W rw H. field. lra. Qed.

Lemma pen_width : forall b p1 p2 : Q,
  (0 < b -> 0 <= p1 <= 1 -> 0 <= p2 <= 1 ->
   b * (1 # 2) <= b * ((1 # 2) + (p1 + p2) / 2) <= b * (3 # 2))%Q.
Proof.
  intros b p1 p2 Hb H1 H2. rewrite half.
  set (t := ((1 # 2) + (p1 + p2) * (1 # 2))%Q).
  assert (Ht : ((1 # 2) <= t <= (3 # 2))%Q) by (unfold t; lra).
  split; nra.
Qed.

End PointFacts.

Section Pointer.
Import Canvas2D Types InputSpec PointFacts.
Context {B : Backend} {T : Trig} {D : PDFCell.PdfDocument}.

(** X5.  On each of the three surfaces, a pointer event inside the box the
    canvas is displayed in is mapped to a point of the bitmap, whatever the
    ratio between displayed and bitmap size; on the drawing cell the
    top-left corner of the box is mapped to (0, 0) and the bottom-right
    corner to (width, height). *)
Theorem pointer_lands_on_bitmap :
  (forall (e : PointerEvent) (s : DrawingCell.State),
     in_box e ->
     0 <= canvas_width (DrawingCell.canvas s) -> 0 <= canvas_height (DrawingCell.canvas s) ->
     let p := DrawingCell.getCanvasPoint e s in
     on_bitmap (canvas_width (DrawingCell.canvas s)) (canvas_height (DrawingCell.canvas s))
       (x p) (y p) /\
     (clientX e == rect_left e -> x p == 0)%Q /\
     (clientY e == rect_top e -> y p == 0)%Q /\
     (clientX e == rect_left e + rect_width e ->
      x p == inject_Z (canvas_width (DrawingCell.canvas s)))%Q /\
     (clientY e == rect_top e + rect_height e ->
      y p == inject_Z (canvas_height (DrawingCell.canvas s)))%Q) /\
  (forall (e : PointerEvent) (s : MiniDrawing.State),
     in_box e ->
     0 <= canvas_width (MiniDrawing.canvas s) -> 0 <= canvas_height (MiniDrawing.canvas s) ->
     let p := MiniDrawing.getCanvasPoint e s in
     on_bitmap (canvas_width (MiniDrawing.canvas s)) (canvas_height (MiniDrawing.canvas s))
       (MiniDrawing.x p) (MiniDrawing.y p)) /\
  (forall (e : PointerEvent) (s : PDFCell.State),
     in_box e ->
     0 <= canvas_width (PDFCell.drawingCanvas s) ->
     0 <= canvas_height (PDFCell.drawingCanvas s) ->
     let p := PDFCell.getCanvasPoint e s in
     on_bitmap (canvas_width (PDFCell.drawingCanvas s))
       (canvas_height (PDFCell.drawingCanvas s)) (x p) (y p)).
Proof.
  assert (Hz : forall z : Z, 0 <= z -> (0 <= inject_Z z)%Q).
  { intros z Hz. unfold Qle, inject_Z. simpl. lia. }
  split; [| split].
  - intros e s (Hw & Hh & Hx & Hy) HW HH p.
    apply Hz in HW, HH.
    destruct (scale_in (clientX e - rect_left e) (inject_Z (canvas_width (DrawingCell.canvas s)))
                (rect_width e) Hw) as [Hx0 Hx1]; try lra.
    destruct (scale_in (clientY e - rect_top e) (inject_Z (canvas_height (DrawingCell.canvas s)))
                (rect_height e) Hh) as [Hy0 Hy1]; try lra.
    unfold p, DrawingCell.getCanvasPoint, on_bitmap. cbv zeta. cbn [x y].
    split; [tauto |]. repeat split.
    + intros E. rewrite E. ring.
    + intros E. rewrite E. ring.
    + intros E. rewrite E.
      setoid_replace (rect_left e + rect_width e - rect_left e)%Q with (rect_width e) by ring.
      now apply scale_full.
    + intros E. rewrite E.
      setoid_replace (rect_top e + rect_height e - rect_top e)%Q with (rect_height e) by ring.
      now apply scale_full.
  - intros e s (Hw & Hh & Hx & Hy) HW HH p.
    apply Hz in HW, HH.
    destruct (scale_in (clientX e - rect_left e) (inject_Z (canvas_width (MiniDrawing.canvas s)))
                (rect_width e) Hw) as [Hx0 Hx1]; try lra.
    destruct (scale_in (clientY e - rect_top e) (inject_Z (canvas_height (MiniDrawing.canvas s)))
                (rect_height e) Hh) as [Hy0 Hy1]; try lra.
    unfold p, MiniDrawing.getCanvasPoint, on_bitmap. cbn [MiniDrawing.x MiniDrawing.y]. tauto.
  - intros e s (Hw & Hh & Hx & Hy) HW HH p.
    apply Hz in HW, HH.
    destruct (scale_in (clientX e - rect_left e)
                (inject_Z (canvas_width (PDFCell.drawingCanvas s)))
                (rect_width e) Hw) as [Hx0 Hx1]; try lra.
    destruct (scale_in (clientY e - rect_top e)
                (inject_Z (canvas_height (PDFCell.drawingCanvas s)))
                (rect_height e) Hh) as [Hy0 Hy1]; try lra.
    unfold p, PDFCell.getCanvasPoint, on_bitmap. cbv zeta. cbn [x y]. tauto.
Qed.

End Pointer.

Section PenWidth.
Import Canvas2D Types PointFacts.
Context {B : Backend} {T : Trig} {D : PDFCell.PdfDocument}.

Lemma positive_width : forall b t : Q, (0 < b -> (1 # 2) <= t -> 0 < b * t)%Q.
Proof. intros b t Hb Ht. nra. Qed.

(** X6.  A pen segment of the drawing cell, and of the PDF overlay, is one
    stroke from point to point in the selected colour whose width is
    [brushSize * (0.5 + mean pressure)]: with pressures between 0 and 1 it
    lies between half and one and a half times the brush size, and on the
    drawing cell, for two events that report no pressure (read as 0.5), it
    is the brush size itself. *)
Theorem pen_segment_width :
  (forall (s : DrawingCell.State) (from to : Point) (ctx : Ctx),
     DrawingCell.tool s = DrawingCell.Pen -> (0 < DrawingCell.brushSize s)%Q ->
     (0 <= pressure from <= 1)%Q -> (0 <= pressure to <= 1)%Q ->
     let w := (DrawingCell.brushSize s * ((1 # 2) + (pressure from + pressure to) / 2))%Q in
     pixels (DrawingCell.drawLine s from to ctx) =
     render (StrokePath (blend_of ctx) (DrawingCell.color s)
               (mkLineStyle w CapRound JoinRound)
               [MoveTo (x from) (y from); LineTo (x to) (y to)]) (pixels ctx) /\
     (DrawingCell.brushSize s * (1 # 2) <= w <= DrawingCell.brushSize s * (3 # 2))%Q) /\
  (forall (s : DrawingCell.State) (e0 e1 : PointerEvent) (ctx : Ctx),
     DrawingCell.tool s = DrawingCell.Pen -> (0 < DrawingCell.brushSize s)%Q ->
     (e_pressure e0 == 0)%Q -> (e_pressure e1 == 0)%Q ->
     (lineWidth (DrawingCell.drawLine s (DrawingCell.getCanvasPoint e0 s)
                   (DrawingCell.getCanvasPoint e1 s) ctx) == DrawingCell.brushSize s)%Q) /\
  (forall (s : PDFCell.State) (from to : Point) (ctx : Ctx),
     PDFCell.tool s = PDFCell.Pen -> (0 < PDFCell.brushSize s)%Q ->
     (0 <= pressure from <= 1)%Q -> (0 <= pressure to <= 1)%Q ->
     let w := (PDFCell.brushSize s * ((1 # 2) + (pressure from + pressure to) / 2))%Q in
     pixels (PDFCell.drawLine s from to ctx) =
     render (StrokePath (mkBlend 1 SourceOver) (PDFCell.color s)
               (mkLineStyle w CapRound JoinRound)
               [MoveTo (x from) (y from); LineTo (x to) (y to)]) (pixels ctx) /\
     (PDFCell.brushSize s * (1 # 2) <= w <= PDFCell.brushSize s * (3 # 2))%Q).
Proof.
  split; [| split].
  - intros s from to ctx Ht Hb H1 H2 w.
    pose proof (pen_width _ _ _ Hb H1 H2) as Hw. fold w in Hw.
    split; [| exact Hw].
    unfold DrawingCell.drawLine. rewrite Ht. cbv zeta. fold w.
    rewrite set_lineWidth_positive by lra. reflexivity.
  - intros s e0 e1 ctx Ht Hb H0 H1.
    unfold DrawingCell.drawLine. rewrite Ht. cbv zeta.
    unfold DrawingCell.getCanvasPoint. cbv zeta. cbn [pressure x y].
    apply Qeq_bool_iff in H0, H1. rewrite H0, H1.
    rewrite set_lineWidth_positive.
    + cbn [lineWidth stroke with_pixels set_lineJoin set_lineCap]. field.
    + apply positive_width; [exact Hb |]. rewrite half. lra.
  - intros s from to ctx Ht Hb H1 H2 w.
    pose proof (pen_width _ _ _ Hb H1 H2) as Hw. fold w in Hw.
    split; [| exact Hw].
    unfold PDFCell.drawLine. rewrite Ht. cbv zeta. fold w.
    rewrite set_lineWidth_positive by lra.
    unfold set_globalAlpha. cbn [Qle_bool Qnum Qden Z.leb Z.mul Z.compare Pos.mul andb].
    reflexivity.
Qed.

End PenWidth.

(** ** Inserting a picture into the drawing cell *)

Module FitFacts.

(** Scaling a picture [iw] by [ih] to fit a canvas [cw] by [ch] without
    enlarging it, and centring it. *)
Lemma fit : forall iw ih cw ch : Q,
  (0 < iw -> 0 < ih -> 0 < cw -> 0 < ch ->
   let scale := Qmin (Qmin (cw / iw) (ch / ih)) 1 in
   let w := iw * scale in
   let h := ih * scale in
   let x := (cw - w) / 2 in
   let y := (ch - h) / 2 in
   0 <= x /\ 0 <= y /\ x + w <= cw /\ y + h <= ch /\
   x + w + x == cw /\ y + h + y == ch /\
   0 < w <= iw /\ 0 < h <= ih /\ w * ih == h * iw /\
   (w == cw \/ h == ch \/ (w == iw /\ h == ih)))%Q.
Proof.
  intros iw ih cw ch Hiw Hih Hcw Hch scale w h x y.
  assert (Ha : (cw / iw * iw == cw)%Q) by (field; lra).
  assert (Hb : (ch / ih * ih == ch)%Q) by (field; lra).
  assert (Ha0 : (0 < cw / iw)%Q) by (apply Qlt_shift_div_l; lra).
  assert (Hb0 : (0 < ch / ih)%Q) by (apply Qlt_shift_div_l; lra).
  assert (H1 : (scale <= cw / iw)%Q).
  { unfold scale. eapply Qle_trans; [apply Q.le_min_l | apply Q.le_min_l]. }
  assert (H2 : (scale <= ch / ih)%Q).
  { unfold scale. eapply Qle_trans; [apply Q.le_min_l | apply Q.le_min_r]. }
  assert (H3 : (scale <= 1)%Q) by apply Q.le_min_r.
  assert (H4 : (0 < scale)%Q).
  { unfold scale. apply Q.min_glb_lt; [apply Q.min_glb_lt; assumption | lra]. }
  assert (H5 : (scale == cw / iw \/ scale == ch / ih \/ scale == 1)%Q).
  { unfold scale. destruct (Q.min_dec (Qmin (cw / iw) (ch / ih)) 1) as [E | E].
    - destruct (Q.min_dec (cw / iw) (ch / ih)) as [E' | E'].
      + left. now rewrite E.
      + right; left. now rewrite E.
    - right; right. exact E. }
  set (a := (cw / iw)%Q) in *. set (b := (ch / ih)%Q) in *.
  assert (Hw : (w <= cw)%Q) by (unfold w; nra).
  assert (Hh : (h <= ch)%Q) by (unfold h; nra).
  unfold x, y. rewrite !PointFacts.half.
  repeat split; try (unfold w, h; nra); try lra.
Qed.

Lemma positive_nonzero : forall z : Z, 0 < z -> Qeq_bool (inject_Z z) 0 = false.
Proof.
  intros z Hz. destruct (Qeq_bool (inject_Z z) 0) eqn:E; [| reflexivity].
  apply Qeq_bool_iff in E. unfold Qeq in E. simpl in E. lia.
Qed.

Lemma positive_inject : forall z : Z, 0 < z -> (0 < inject_Z z)%Q.
Proof. intros z Hz. unfold Qlt. simpl. lia. Qed.

End FitFacts.

Section InsertImage.
Import Canvas2D Types DrawingCell FitFacts.
Context {B : Backend} {T : Trig}.

(** X7.  A picture with a positive width and height, inserted into a canvas
    with a positive width and height, is drawn once, scaled by one factor
    for both directions (its proportions are kept), never enlarged, entirely
    inside the canvas and centred in it; it touches two opposite borders of
    the canvas unless it is drawn at its own size.  The result is saved as
    one history entry. *)
Theorem inserted_picture_fits : forall (img : Pixels) (s : State),
  0 < fst (dims img) -> 0 < snd (dims img) ->
  0 < canvas_width (canvas s) -> 0 < canvas_height (canvas s) ->
  let s' := handleInsertImage img s in
  let iw := inject_Z (fst (dims img)) in
  let ih := inject_Z (snd (dims img)) in
  let cw := inject_Z (canvas_width (canvas s)) in
  let ch := inject_Z (canvas_height (canvas s)) in
  exists x y w h : Q,
    canvas s' = drawImageScaled img x y w h (canvas s) /\
    history s' = History.saveToHistory (canvas s') (history s) /\
    (0 <= x /\ 0 <= y /\ x + w <= cw /\ y + h <= ch)%Q /\
    (x + w + x == cw /\ y + h + y == ch)%Q /\
    (0 < w <= iw /\ 0 < h <= ih)%Q /\
    (w * ih == h * iw)%Q /\
    (w == cw \/ h == ch \/ (w == iw /\ h == ih))%Q.
Proof.
  intros img s Hiw Hih Hcw Hch s' iw ih cw ch.
  pose proof (fit iw ih cw ch (positive_inject _ Hiw) (positive_inject _ Hih)
                (positive_inject _ Hcw) (positive_inject _ Hch)) as F.
  cbv zeta in F.
  destruct F as (F1 & F2 & F3 & F4 & F5 & F6 & F7 & F8 & F9 & F10).
  set (scale := Qmin (Qmin (cw / iw) (ch / ih)) 1) in *.
  exists ((cw - iw * scale) / 2)%Q, ((ch - ih * scale) / 2)%Q, (iw * scale)%Q, (ih * scale)%Q.
  assert (E : s' = DrawingCell.saveToHistory
                     (set_canvas (drawImageScaled img ((cw - iw * scale) / 2)%Q
                                    ((ch - ih * scale) / 2)%Q (iw * scale)%Q (ih * scale)%Q
                                    (canvas s)) s)).
  { unfold s', handleInsertImage. cbv zeta. unfold Js.div.
    fold iw ih cw ch.
    unfold iw at 1, ih at 1. rewrite !positive_nonzero by assumption.
    cbn [Js.min]. reflexivity. }
  split; [now rewrite E |]. split; [now rewrite E |].
  repeat split; auto; try apply F7; try apply F8.
Qed.

End InsertImage.

(** ** Shape gestures on the drawing cell *)

Section Shapes.
Import Canvas2D Types DrawingCell.
Context {B : Backend} {T : Trig}.

(** While a shape is dragged only the preview canvas changes. *)
Lemma shape_moves_preview : forall (es : list PointerEvent) (s : State) (p : Ctx),
  isShapeTool (tool s) = true ->
  exists p', moves es (set_previewCanvas p s) = set_previewCanvas p' s.
Proof.
  unfold moves. induction es as [| e es IH]; intros s p Ht; simpl fold_left.
  - now exists p.
  - assert (E : exists p1, handlePointerMove e (set_previewCanvas p s) = set_previewCanvas p1 s).
    { unfold handlePointerMove.
      cbn [isDrawing isEditing tool shapeStartPoint set_previewCanvas].
      destruct (negb (isDrawing s) || negb (isEditing s)); [now exists p |].
      rewrite Ht. destruct (shapeStartPoint s) as [start |]; [| now exists p].
      eexists. cbv zeta. unfold clearPreviewCanvas. cbv zeta.
      cbn [previewCanvas set_previewCanvas]. reflexivity. }
    destruct E as [p1 E]. rewrite E. now apply IH.
Qed.

(** X8.  A completed gesture with a shape tool in edit mode leaves on the
    ink layer exactly the shape spanned by the press point and the release
    point, drawn once over the ink as it was before the gesture: the pointer
    moves in between, which only repaint the preview canvas, have no
    influence on it; the history receives that ink layer as its one new
    entry. *)
Theorem shape_spans_press_and_release : forall (g : Gesture) (s : State),
  isEditing s = true -> isShapeTool (g_tool g) = true ->
  let s' := gesture g s in
  canvas s' =
    drawShape (configure g s) (canvas s) (getCanvasPoint (g_down g) s)
      (getCanvasPoint (g_up g) s) (g_tool g) false /\
  history s' = History.saveToHistory (canvas s') (history s) /\
  (forall k, canvas (moves (firstn k (g_moves g)) (handlePointerDown (g_down g) (configure g s)))
             = canvas s).
Proof.
  intros g s He Ht s'.
  set (s0 := configure g s).
  set (pt := getCanvasPoint (g_down g) s).
  set (s1 := set_shapeStartPoint (Some pt) (set_lastPoint (Some pt) (setIsDrawing true s0))).
  assert (E1 : handlePointerDown (g_down g) s0 = set_previewCanvas (previewCanvas s) s1).
  { unfold handlePointerDown. cbn [isEditing s0 configure setFillShape setBrushSize setColor setTool].
    rewrite He. cbn [negb]. cbv zeta.
    match goal with |- context [isShapeTool ?t] => change t with (g_tool g) end.
    rewrite Ht. unfold s1, pt, s0, getCanvasPoint. cbv zeta.
    destruct s. reflexivity. }
  assert (Ht1 : isShapeTool (tool s1) = true) by exact Ht.
  assert (Hm : forall es, exists p, moves es (handlePointerDown (g_down g) s0)
                                    = set_previewCanvas p s1).
  { intros es. rewrite E1. now apply shape_moves_preview. }
  split; [| split].
  - unfold s', gesture. fold s0. destruct (Hm (g_moves g)) as [p Ep]. rewrite Ep.
    unfold handlePointerUp.
    cbn [isDrawing tool shapeStartPoint set_previewCanvas s1 set_shapeStartPoint set_lastPoint
         setIsDrawing negb].
    change (tool s0) with (g_tool g). rewrite Ht. cbv zeta.
    cbn [canvas DrawingCell.saveToHistory set_history set_lastPoint setIsDrawing
         set_shapeStartPoint clearPreviewCanvas set_previewCanvas set_canvas].
    unfold drawShape, getCanvasPoint. reflexivity.
  - unfold s', gesture. fold s0. destruct (Hm (g_moves g)) as [p Ep]. rewrite Ep.
    unfold handlePointerUp.
    cbn [isDrawing tool shapeStartPoint set_previewCanvas s1 set_shapeStartPoint set_lastPoint
         setIsDrawing negb].
    change (tool s0) with (g_tool g). rewrite Ht. cbv zeta. reflexivity.
  - intros k. destruct (Hm (firstn k (g_moves g))) as [p Ep]. fold s0. rewrite Ep. reflexivity.
Qed.

End Shapes.

(** ** Changing the background or the theme of a drawing cell *)

Section Repaint.
Import Canvas2D Types History HistorySpec HistoryFacts HistoryMoreFacts Laws.
Import DrawingCell DrawingSpec CanvasFacts DrawingFacts.
Context {B : Backend} {T : Trig} {L : Lawful B}.

(** One undo after a state change that saved the ink layer it left. *)
Lemma saved_then_undo : forall s s' : State,
  Settled s ->
  history s' = History.saveToHistory (canvas s') (history s) ->
  dims (pixels (canvas s')) = dims (pixels (canvas s)) ->
  exists u, undo s' = Js.Ok u /\ pixels (canvas u) = pixels (canvas s).
Proof.
  intros s s' Hs Hh Hd. destruct (settled_wf s Hs) as [Hwf H0].
  destruct Hs as (_ & _ & Hcur & Hall & _).
  pose proof (push_keeps (canvas s') (history s) 0 Hwf) as Hk.
  rewrite <- Hh, Z.sub_0_r in Hk. specialize (Hk ltac:(lia) ltac:(lia)).
  unfold current in Hcur. rewrite Hcur in Hk. simpl in Hk.
  pose proof (index_some_range _ _ _ _ Hk) as Hr.
  destruct (undo_step (canvas s') (history s')) as [img [Himg E]].
  { destruct (saveToHistory_wf (canvas s') (history s) Hwf) as [[Hi _] _].
    rewrite <- Hh in Hi. unfold size in *. lia. }
  rewrite Hk in Himg. injection Himg as <-.
  eexists. split.
  - unfold undo. rewrite E. cbn [Js.bind fst snd]. reflexivity.
  - cbn [canvas set_history set_canvas]. apply putImageData_same. now rewrite Hd.
Qed.

(** X9.  On a cell at rest that has no saved drawing, choosing another
    background type, or a change of theme, repaints the ink layer with the
    new background over whatever was drawn and saves the result as one
    history entry; one undo then returns normally with the ink layer as it
    was before the change. *)
Theorem repaint_is_undoable :
  (forall (s : State) (b : BackgroundType),
     Settled s -> cell_dataUrl s = "" -> b <> background s ->
     let s' := setBackground b s in
     canvas s' =
       drawBackground (canvas s) (canvas_width (canvas s)) (canvas_height (canvas s))
         b (isDarkMode s) /\
     history s' = History.saveToHistory (canvas s') (history s) /\
     exists u, undo s' = Js.Ok u /\ pixels (canvas u) = pixels (canvas s)) /\
  (forall (s : State) (dark : bool),
     Settled s -> cell_dataUrl s = "" -> dark <> isDarkMode s ->
     let s' := setIsDarkMode dark s in
     canvas s' =
       drawBackground (canvas s) (canvas_width (canvas s)) (canvas_height (canvas s))
         (background s) dark /\
     history s' = History.saveToHistory (canvas s') (history s) /\
     exists u, undo s' = Js.Ok u /\ pixels (canvas u) = pixels (canvas s)).
Proof.
  split.
  - intros s b Hs Hurl Hb s'.
    assert (E : s' = backgroundEffect (initEffect (set_background b s))).
    { unfold s', setBackground. destruct (bg_eqb b (background s)) eqn:Eb; [| reflexivity].
      exfalso. apply Hb. destruct b, (background s); simpl in Eb; congruence. }
    assert (Hc : canvas s' =
                 drawBackground (canvas s) (canvas_width (canvas s)) (canvas_height (canvas s))
                   b (isDarkMode s)).
    { rewrite E. unfold backgroundEffect, initEffect. cbv zeta.
      cbn [cell_dataUrl set_bgCanvas set_background]. rewrite Hurl. cbn [Js.truthy].
      reflexivity. }
    assert (Hh : history s' = History.saveToHistory (canvas s') (history s)).
    { rewrite E. unfold backgroundEffect, initEffect. cbv zeta.
      cbn [cell_dataUrl set_bgCanvas set_background]. rewrite Hurl. cbn [Js.truthy].
      reflexivity. }
    split; [exact Hc |]. split; [exact Hh |].
    apply saved_then_undo; [exact Hs | exact Hh |].
    rewrite Hc. apply dims_drawBackground.
  - intros s dark Hs Hurl Hd s'.
    assert (E : s' = colorEffect (backgroundEffect (initEffect (set_isDarkMode dark s)))).
    { unfold s', setIsDarkMode. destruct (Bool.eqb dark (isDarkMode s)) eqn:Eb; [| reflexivity].
      exfalso. apply Hd. now apply Bool.eqb_prop. }
    assert (F : forall t : State, canvas (colorEffect t) = canvas t /\
                                  history (colorEffect t) = history t).
    { intros t. unfold colorEffect.
      destruct (isDarkMode t && String.eqb (color t) "#000000"); [now split |].
      destruct (negb (isDarkMode t) && String.eqb (color t) "#ffffff"); now split. }
    assert (Hc : canvas s' =
                 drawBackground (canvas s) (canvas_width (canvas s)) (canvas_height (canvas s))
                   (background s) dark).
    { rewrite E. rewrite (proj1 (F _)). unfold backgroundEffect, initEffect. cbv zeta.
      cbn [cell_dataUrl set_bgCanvas set_isDarkMode]. rewrite Hurl. cbn [Js.truthy].
      reflexivity. }
    assert (Hh : history s' = History.saveToHistory (canvas s') (history s)).
    { rewrite E. rewrite (proj1 (F _)), (proj2 (F _)). unfold backgroundEffect, initEffect.
      cbv zeta. cbn [cell_dataUrl set_bgCanvas set_isDarkMode]. rewrite Hurl. cbn [Js.truthy].
      reflexivity. }
    split; [exact Hc |]. split; [exact Hh |].
    apply saved_then_undo; [exact Hs | exact Hh |].
    rewrite Hc. apply dims_drawBackground.
Qed.

End Repaint.

(** ** What the mini drawing cell forgets *)

Section MiniForgets.
Import Canvas2D Types Laws BackgroundSpec MiniDrawing.
Context {B : Backend} {T : Trig} {L : Lawful B}.

Lemma mini_setCanvasHeight_canvas : forall (h : Z) (s : State),
  cell_dataUrl s = "" ->
  cell_dataUrl (setCanvasHeight h s) = "" /\
  background (setCanvasHeight h s) = background s /\
  ((canvas (setCanvasHeight h s) = canvas s /\ canvasHeight (setCanvasHeight h s) = canvasHeight s)
   \/
   (canvasHeight (setCanvasHeight h s) = h /\
    canvas (setCanvasHeight h s) =
      drawBackground (fresh CANVAS_WIDTH h) CANVAS_WIDTH h (background s))).
Proof.
  intros h s Hurl. unfold setCanvasHeight.
  destruct (h =? canvasHeight s); [split; [exact Hurl |]; split; [reflexivity | now left] |].
  cbv zeta. unfold backgroundEffect, initEffect. cbv zeta.
  cbn [cell_dataUrl set_bgCanvas set_previewCanvas set_canvas set_canvasHeight].
  rewrite Hurl. cbn [Js.truthy].
  split; [exact Hurl |]. split; [reflexivity |]. right. split; reflexivity.
Qed.

(** X10.  The mini drawing cell keeps no history, and loses what was drawn
    on a cell without a saved drawing in two ways.  After a drag of the
    resize handle the ink layer is either untouched, no move having changed
    the height, or it is the background generated on a new, empty canvas of
    the final height.  Entering or leaving edit mode paints the background
    over the ink layer, so that two cells that differ only in what was drawn
    end with the same pixels. *)
Theorem mini_forgets_unsaved_ink :
  (forall (s : State) (y0 : Z) (ys : list Z),
     cell_dataUrl s = "" ->
     let s' := drag y0 ys s in
     (canvas s' = canvas s /\ canvasHeight s' = canvasHeight s) \/
     canvas s' =
       drawBackground (fresh CANVAS_WIDTH (canvasHeight s')) CANVAS_WIDTH (canvasHeight s')
         (background s)) /\
  (forall (s1 s2 : State) (b : bool),
     cell_dataUrl s1 = "" -> cell_dataUrl s2 = "" ->
     b <> isEditing s1 -> b <> isEditing s2 ->
     canvasHeight s1 = canvasHeight s2 -> background s1 = background s2 ->
     plain CANVAS_WIDTH (canvasHeight s1) (canvas s1) ->
     plain CANVAS_WIDTH (canvasHeight s2) (canvas s2) ->
     lineCap (canvas s1) = lineCap (canvas s2) ->
     lineJoin (canvas s1) = lineJoin (canvas s2) ->
     pixels (canvas (setIsEditing b s1)) = pixels (canvas (setIsEditing b s2))).
Proof.
  split.
  - intros s y0 ys Hurl s'. unfold s', drag.
    set (s1 := handleResizeStart y0 s).
    assert (H1 : cell_dataUrl s1 = "" /\ background s1 = background s /\
                 ((canvas s1 = canvas s /\ canvasHeight s1 = canvasHeight s) \/
                  canvas s1 =
                    drawBackground (fresh CANVAS_WIDTH (canvasHeight s1)) CANVAS_WIDTH
                      (canvasHeight s1) (background s))).
    { split; [exact Hurl |]. split; [reflexivity |]. left. now split. }
    clearbody s1. revert s1 H1.
    induction ys as [| y ys IH]; intros s1 (Hu1 & Hb1 & Hc1); simpl fold_left.
    + exact Hc1.
    + apply IH. unfold mouseMove.
      destruct (isResizing s1); [| now repeat split].
      unfold handleMouseMove. cbv zeta.
      set (h := Z.max 100 (Z.min 600 (resizeStartHeight s1 + (y - resizeStartY s1)))).
      destruct (mini_setCanvasHeight_canvas h s1 Hu1) as (Hu2 & Hb2 & Hc2).
      split; [exact Hu2 |]. split; [congruence |].
      destruct Hc2 as [[Hc2 Hh2] | [Hh2 Hc2]].
      * rewrite Hc2, Hh2. exact Hc1.
      * right. rewrite Hc2, Hh2, Hb1. reflexivity.
  - intros s1 s2 b Hu1 Hu2 Hb1 Hb2 Hh Hbg Hp1 Hp2 Hcap Hjoin.
    assert (E : forall s : State, cell_dataUrl s = "" -> b <> isEditing s ->
                canvas (setIsEditing b s) =
                drawBackground (canvas s) CANVAS_WIDTH (canvasHeight s) (background s)).
    { intros s Hu Hb. unfold setIsEditing.
      destruct (Bool.eqb b (isEditing s)) eqn:Eb; [exfalso; apply Hb; now apply Bool.eqb_prop |].
      unfold initEffect. cbv zeta. cbn [cell_dataUrl set_bgCanvas set_isEditing].
      rewrite Hu. cbn [Js.truthy]. reflexivity. }
    rewrite (E s1 Hu1 Hb1), (E s2 Hu2 Hb2), <- Hh, <- Hbg.
    apply mini_background_same; try assumption. now rewrite Hh.
Qed.

End MiniForgets.

(** ** One history for all pages of the PDF cell *)

Section SharedHistory.
Import Canvas2D Types History HistorySpec HistoryFacts HistoryMoreFacts Laws.
Import PDFCell CanvasFacts.
Context {B : Backend} {D : PdfDocument} {L : Lawful B}.

Lemma cancel_frame : forall (t : nat) (s : State),
  history (cancel t s) = history s /\
  drawingCanvas (cancel t s) = drawingCanvas s /\
  pdfCanvas (cancel t s) = pdfCanvas s /\
  pages (cancel t s) = pages s /\
  currentPageIndex (cancel t s) = currentPageIndex s /\
  pdfDoc (cancel t s) = pdfDoc s /\
  renderTaskRef (cancel t s) = renderTaskRef s.
Proof.
  intros t s. unfold cancel.
  destruct (nth_error (tasks s) t) as [[] |]; now repeat split.
Qed.

(** Turning to a custom page that has no drawing of its own clears the
    overlay and saves it in the history the pages share. *)
Lemma turn_to_custom_page : forall (s : State) (i : Z) (page : PDFPage),
  pdfDoc s = true -> i <> currentPageIndex s ->
  Js.index (pages s) i = Some page ->
  isCustomPage page = true -> customDrawingDataUrl page = "" ->
  let s' := setCurrentPageIndex i s in
  currentPageIndex s' = i /\
  drawingCanvas s' =
    clearRect 0 0 (inject_Z (canvas_width (drawingCanvas s)))
      (inject_Z (canvas_height (drawingCanvas s))) (drawingCanvas s) /\
  history s' = History.saveToHistory (drawingCanvas s') (history s).
Proof.
  intros s i page Hdoc Hi Hpage Hcust Hurl s'. unfold s', setCurrentPageIndex.
  destruct (Z.eqb_spec i (currentPageIndex s)) as [E | _]; [contradiction |].
  unfold renderEffect. cbv zeta. cbn [armed set_currentPageIndex].
  set (s1 := if armed s then cleanup (set_currentPageIndex i s) else set_currentPageIndex i s).
  assert (F : history s1 = history s /\ drawingCanvas s1 = drawingCanvas s /\
              pages s1 = pages s /\ currentPageIndex s1 = i /\ pdfDoc s1 = true).
  { unfold s1. destruct (armed s); [| now repeat split].
    unfold cleanup. cbn [renderTaskRef set_currentPageIndex].
    destruct (renderTaskRef s) as [t |]; [| now repeat split].
    destruct (cancel_frame t (set_currentPageIndex i s)) as (H1 & H2 & _ & H4 & H5 & H6 & _).
    rewrite H1, H2, H4, H5, H6. now repeat split. }
  destruct F as (Fh & Fc & Fp & Fi & Fd).
  rewrite Fd. unfold currentPage. rewrite Fp, Fi, Hpage.
  unfold renderPage. cbv zeta. rewrite Hcust.
  set (s2 := match renderTaskRef s1 with
             | Some t => set_renderTaskRef None (cancel t s1)
             | None => s1
             end).
  assert (G : history s2 = history s /\ drawingCanvas s2 = drawingCanvas s /\
              currentPageIndex s2 = i).
  { unfold s2. destruct (renderTaskRef s1) as [t |]; [| now repeat split].
    destruct (cancel_frame t s1) as (H1 & H2 & _ & _ & H5 & _).
    cbn [history drawingCanvas currentPageIndex set_renderTaskRef].
    rewrite H1, H2, H5. now repeat split. }
  destruct G as (Gh & Gc & Gi).
  unfold loadOverlay. rewrite Hurl. cbn [Js.truthy].
  unfold PDFCell.saveToHistory, clearDrawing. cbv zeta.
  cbn [currentPageIndex drawingCanvas history set_armed set_history set_drawingCanvas
       set_pdfCanvas].
  rewrite Gh, Gc, Gi. now repeat split.
Qed.

(** X11.  The history of the PDF cell is not kept per page.  Turning to a
    custom page that has no drawing of its own pushes the cleared overlay
    onto the entries of the page left behind; one undo then returns
    normally, stays on the new page and puts there the overlay of the page
    left behind. *)
Theorem undo_crosses_pages : forall (s : State) (i : Z) (page : PDFPage),
  pdfDoc s = true -> i <> currentPageIndex s ->
  Js.index (pages s) i = Some page ->
  isCustomPage page = true -> customDrawingDataUrl page = "" ->
  current (history s) = Some (pixels (drawingCanvas s)) ->
  Forall (fun e => dims e = dims (pixels (drawingCanvas s))) (historyRef (history s)) ->
  size (history s) <= 50 ->
  let s' := setCurrentPageIndex i s in
  history s' = History.saveToHistory (drawingCanvas s') (history s) /\
  exists u,
    undo s' = Js.Ok u /\ currentPageIndex u = i /\
    pixels (drawingCanvas u) = pixels (drawingCanvas s).
Proof.
  intros s i page Hdoc Hi Hpage Hcust Hurl Hcur Hall Hn s'.
  destruct (turn_to_custom_page s i page Hdoc Hi Hpage Hcust Hurl) as (Hidx & Hc & Hh).
  fold s' in Hidx, Hc, Hh. split; [exact Hh |].
  assert (Hwf : wf (history s)).
  { pose proof (index_some_range _ _ _ _ Hcur). unfold wf, size in *. lia. }
  pose proof (index_some_range _ _ _ _ Hcur) as Hr0.
  pose proof (push_keeps (drawingCanvas s') (history s) 0 Hwf) as Hk.
  rewrite <- Hh, Z.sub_0_r in Hk. specialize (Hk ltac:(lia) ltac:(lia)).
  unfold current in Hcur. rewrite Hcur in Hk. simpl in Hk.
  pose proof (index_some_range _ _ _ _ Hk) as Hr.
  destruct (undo_step (drawingCanvas s') (history s')) as [img [Himg E]].
  { destruct (saveToHistory_wf (drawingCanvas s') (history s) Hwf) as [[Hi' _] _].
    rewrite <- Hh in Hi'. unfold size in *. lia. }
  rewrite Hk in Himg. injection Himg as <-.
  eexists. split; [| split].
  - unfold undo. rewrite E. cbn [Js.bind fst snd]. reflexivity.
  - exact Hidx.
  - cbn [drawingCanvas set_history set_drawingCanvas]. apply putImageData_same.
    rewrite Hc. now rewrite dims_clearRect.
Qed.

End SharedHistory.

(** ** Redo after a new action *)

Section RedoTail.
Import Canvas2D Types History HistorySpec HistoryFacts HistoryMoreFacts Laws.
Context {B : Backend} {T : Trig} {D : PDFCell.PdfDocument} {L : Lawful B}.

(** X12.  On the drawing cell and on the PDF overlay in edit mode, an undo
    leaves the surface at rest, and any action that follows (a gesture, a
    clear, an inserted picture) puts the cursor on the last entry: the
    entries that were undone are cut off, and redo then returns normally
    without changing anything. *)
Theorem action_cuts_redo :
  (forall s : DrawingCell.State,
     DrawingSpec.Settled s ->
     exists u, DrawingCell.undo s = Js.Ok u /\ DrawingSpec.Settled u) /\
  (forall (s : DrawingCell.State) (a : DrawingCell.Action),
     DrawingSpec.Settled s ->
     let s' := DrawingCell.act a s in
     historyIndexRef (DrawingCell.history s') = size (DrawingCell.history s') - 1 /\
     DrawingCell.redo s' = Js.Ok s') /\
  (forall s : PDFCell.State,
     OverlayHistorySpec.Rested s ->
     exists u, PDFCell.undo s = Js.Ok u /\ OverlayHistorySpec.Rested u) /\
  (forall (s : PDFCell.State) (a : PDFCell.Action),
     OverlayHistorySpec.Rested s ->
     let s' := PDFCell.act a s in
     historyIndexRef (PDFCell.history s') = size (PDFCell.history s') - 1 /\
     PDFCell.redo s' = Js.Ok s').
Proof.
  split; [| split; [| split]].
  - intros s Hs. destruct (DrawingFacts.settled_wf s Hs) as [Hwf H0].
    destruct (Z.le_gt_cases (historyIndexRef (DrawingCell.history s)) 0) as [Hz | Hpos].
    + exists s. split; [| exact Hs].
      unfold DrawingCell.undo. rewrite undo_at_start by exact Hz. cbn [Js.bind fst snd].
      destruct s. now destruct history.
    + destruct (undo_step (DrawingCell.canvas s) (DrawingCell.history s)) as [img [Himg E]];
        [destruct Hwf; lia |].
      destruct Hs as (Hdr & He & Hcur & Hall & Hn).
      destruct (DrawingFacts.restore_coherent s _ img (conj Hcur Hall) Himg) as [[Hc1 Hc2] _].
      eexists. split.
      * unfold DrawingCell.undo. rewrite E. cbn [Js.bind fst snd]. reflexivity.
      * unfold DrawingSpec.Settled. repeat split; try assumption.
  - intros s a Hs s'. destruct (DrawingFacts.settled_wf s Hs) as [Hwf H0].
    destruct Hs as (Hdr & He & Hcur & Hall & Hn).
    destruct (ActionFacts.act_pushes a s He) as (Hh & _). fold s' in Hh.
    assert (Hlast : historyIndexRef (DrawingCell.history s')
                    = size (DrawingCell.history s') - 1).
    { rewrite Hh. now apply push_cursor_last. }
    split; [exact Hlast |].
    unfold DrawingCell.redo. rewrite redo_at_end by lia. cbn [Js.bind fst snd].
    destruct s'. now destruct history.
  - intros s Hs. destruct (OverlayActionFacts.rested_wf s Hs) as [Hwf H0].
    destruct (Z.le_gt_cases (historyIndexRef (PDFCell.history s)) 0) as [Hz | Hpos].
    + exists s. split; [| exact Hs].
      unfold PDFCell.undo. rewrite undo_at_start by exact Hz. cbn [Js.bind fst snd].
      destruct s. now destruct history.
    + destruct (undo_step (PDFCell.drawingCanvas s) (PDFCell.history s)) as [img [Himg E]];
        [destruct Hwf; lia |].
      destruct Hs as (Hdr & He & Hcur & Hall & Hn).
      destruct (OverlayActionFacts.overlay_restore s _ img Hcur Hall Himg) as (Hc1 & Hc2 & _).
      eexists. split.
      * unfold PDFCell.undo. rewrite E. cbn [Js.bind fst snd]. reflexivity.
      * unfold OverlayHistorySpec.Rested. repeat split; try assumption.
  - intros s a Hs s'. destruct (OverlayActionFacts.rested_wf s Hs) as [Hwf H0].
    destruct Hs as (Hdr & He & Hcur & Hall & Hn).
    destruct (OverlayActionFacts.overlay_act_pushes a s He) as (Hh & _). fold s' in Hh.
    assert (Hlast : historyIndexRef (PDFCell.history s') = size (PDFCell.history s') - 1).
    { rewrite Hh. now apply push_cursor_last. }
    split; [exact Hlast |].
    unfold PDFCell.redo. rewrite redo_at_end by lia. cbn [Js.bind fst snd].
    destruct s'. now destruct history.
Qed.

End RedoTail.

(** ** Arrays *)

Module ArrayFacts.

Lemma findIndex_from_none : forall (A : Type) (p : A -> bool) (l : list A) (i : Z),
  (forall x, In x l -> p x = false) -> Js.findIndex_from p l i = -1.
Proof.
  intros A p. induction l as [| a l IH]; intros i H; simpl; [reflexivity |].
  rewrite (H a) by now left. apply IH. intros x Hx. apply H. now right.
Qed.

Lemma findIndex_from_first : forall (A : Type) (p : A -> bool) (l1 : list A) (a : A)
    (l2 : list A) (i : Z),
  (forall x, In x l1 -> p x = false) -> p a = true ->
  Js.findIndex_from p (l1 ++ a :: l2) i = i + Z.of_nat (List.length l1).
Proof.
  intros A p. induction l1 as [| b l1 IH]; intros a l2 i H Ha; simpl.
  - rewrite Ha. lia.
  - rewrite (H b) by now left. rewrite IH; [lia | | exact Ha].
    intros x Hx. apply H. now right.
Qed.

Lemma findIndex_none : forall (A : Type) (p : A -> bool) (l : list A),
  (forall x, In x l -> p x = false) -> Js.findIndex p l = -1.
Proof. intros. now apply findIndex_from_none. Qed.

Lemma findIndex_first : forall (A : Type) (p : A -> bool) (l1 : list A) (a : A) (l2 : list A),
  (forall x, In x l1 -> p x = false) -> p a = true ->
  Js.findIndex p (l1 ++ a :: l2) = Z.of_nat (List.length l1).
Proof. intros. unfold Js.findIndex. now rewrite findIndex_from_first. Qed.

Lemma read_middle : forall (A : Type) (l1 : list (option A)) (v : option A)
    (l2 : list (option A)),
  Js.read (l1 ++ v :: l2) (Z.of_nat (List.length l1)) = v.
Proof.
  intros A l1 v l2. unfold Js.read, Js.index.
  destruct (Z.ltb_spec (Z.of_nat (List.length l1)) 0); [lia |].
  rewrite Nat2Z.id, nth_error_app2 by lia. now rewrite Nat.sub_diag.
Qed.

Lemma read_outside : forall (A : Type) (l : list (option A)) (i : Z),
  i < 0 -> Js.read l i = None.
Proof.
  intros A l i H. unfold Js.read, Js.index.
  destruct (Z.ltb_spec i 0); [reflexivity | lia].
Qed.

Lemma assign_middle : forall (A : Type) (l1 : list (option A)) (v w : option A)
    (l2 : list (option A)),
  Js.assign (l1 ++ v :: l2) (Z.of_nat (List.length l1)) w = l1 ++ w :: l2.
Proof.
  intros A l1 v w l2. unfold Js.assign.
  destruct (Z.ltb_spec (Z.of_nat (List.length l1)) 0); [lia |].
  rewrite Nat2Z.id.
  destruct (Nat.ltb_spec (List.length l1) (List.length (l1 ++ v :: l2))) as [_ | Hge].
  - rewrite firstn_app, Nat.sub_diag, firstn_all. cbn [firstn]. rewrite app_nil_r.
    f_equal. f_equal. clear. induction l1 as [| x l1 IH]; [reflexivity | exact IH].
  - rewrite length_app in Hge. simpl in Hge. lia.
Qed.

Lemma assign_outside : forall (A : Type) (l : list (option A)) (i : Z) (w : option A),
  i < 0 -> Js.assign l i w = l.
Proof.
  intros A l i w H. unfold Js.assign. destruct (Z.ltb_spec i 0); [reflexivity | lia].
Qed.

Lemma read_second : forall (A : Type) (l1 : list (option A)) (v w : option A)
    (l2 : list (option A)),
  Js.read (l1 ++ v :: w :: l2) (Z.of_nat (List.length l1) + 1) = w.
Proof.
  intros A l1 v w l2.
  replace (Z.of_nat (List.length l1) + 1) with (Z.of_nat (List.length (l1 ++ [v])))
    by (rewrite length_app; simpl; lia).
  replace (l1 ++ v :: w :: l2) with ((l1 ++ [v]) ++ w :: l2) by now rewrite <- app_assoc.
  apply read_middle.
Qed.

Lemma assign_second : forall (A : Type) (l1 : list (option A)) (v w u : option A)
    (l2 : list (option A)),
  Js.assign (l1 ++ v :: w :: l2) (Z.of_nat (List.length l1) + 1) u = l1 ++ v :: u :: l2.
Proof.
  intros A l1 v w u l2.
  replace (Z.of_nat (List.length l1) + 1) with (Z.of_nat (List.length (l1 ++ [v])))
    by (rewrite length_app; simpl; lia).
  replace (l1 ++ v :: w :: l2) with ((l1 ++ [v]) ++ w :: l2) by now rewrite <- app_assoc.
  rewrite assign_middle. now rewrite <- app_assoc.
Qed.

End ArrayFacts.

(** ** Moving, changing and deleting the notes of a page *)

Section Notes.
Import MiniNotebook ArrayFacts.

Lemma not_has_id : forall (i : string) (l : list MiniCell),
  (forall x, In x l -> id x <> i) -> forall x, In x l -> has_id i x = false.
Proof.
  intros i l H x Hx. unfold has_id. destruct (String.eqb_spec (id x) i); [| reflexivity].
  exfalso. now apply (H x).
Qed.

(** X13.  Moving the first note that carries the id down swaps it with its
    successor, and moving it up swaps it with its predecessor, all other
    notes staying where they are, so that the one move undoes the other; at
    the first position a move up, and at the last position a move down,
    hands nothing to [onUpdate]. *)
Theorem note_move_swaps_neighbours :
  forall (i : string) (l1 : list MiniCell) (a b : MiniCell) (l2 : list MiniCell),
    id a = i -> id b <> i -> (forall x, In x l1 -> id x <> i) ->
    moveCell i Down (l1 ++ a :: b :: l2) = Some (map Some (l1 ++ b :: a :: l2)) /\
    moveCell i Up (l1 ++ b :: a :: l2) = Some (map Some (l1 ++ a :: b :: l2)) /\
    moveCell i Up (a :: l2) = None /\
    moveCell i Down (l1 ++ [a]) = None.
Proof.
  intros i l1 a b l2 Ha Hb Hl1.
  assert (Hpa : has_id i a = true) by (unfold has_id; rewrite Ha; apply String.eqb_refl).
  assert (Hpb : has_id i b = false).
  { unfold has_id. destruct (String.eqb_spec (id b) i); [contradiction | reflexivity]. }
  pose proof (not_has_id i l1 Hl1) as Hp1.
  set (k := Z.of_nat (List.length (map Some l1))).
  assert (Hk : Z.of_nat (List.length l1) = k) by (unfold k; now rewrite length_map).
  split; [| split; [| split]].
  - unfold moveCell. rewrite findIndex_first by assumption. cbv zeta.
    rewrite length_app. simpl List.length.
    destruct (Z.eqb_spec (Z.of_nat (List.length l1))
                (Z.of_nat (List.length l1 + S (S (List.length l2))) - 1)) as [E | _]; [lia |].
    rewrite map_app. simpl map. rewrite Hk. unfold k.
    rewrite read_second, read_middle, assign_middle, assign_second.
    now rewrite map_app.
  - unfold moveCell.
    replace (l1 ++ b :: a :: l2) with ((l1 ++ [b]) ++ a :: l2) by now rewrite <- app_assoc.
    rewrite findIndex_first; [| | exact Hpa].
    2:{ intros x Hx. apply in_app_or in Hx. destruct Hx as [Hx | [<- | []]]; auto. }
    cbv zeta. rewrite length_app. simpl List.length.
    destruct (Z.eqb_spec (Z.of_nat (List.length l1 + 1)) 0) as [E | _]; [lia |].
    rewrite <- app_assoc. simpl app. rewrite map_app. simpl map.
    replace (Z.of_nat (List.length l1 + 1) - 1) with k by lia.
    replace (Z.of_nat (List.length l1 + 1)) with (k + 1) by lia. unfold k.
    rewrite read_second, read_middle, assign_second, assign_middle.
    now rewrite map_app.
  - unfold moveCell.
    assert (E : Js.findIndex (has_id i) (a :: l2) = 0).
    { apply (findIndex_first _ (has_id i) [] a l2); [intros x [] | exact Hpa]. }
    now rewrite E.
  - unfold moveCell. rewrite findIndex_first by assumption. cbv zeta.
    rewrite length_app. simpl List.length.
    destruct (Z.eqb_spec (Z.of_nat (List.length l1)) (Z.of_nat (List.length l1 + 1) - 1));
      [reflexivity | lia].
Qed.

(** X14.  A move of a note whose id no note carries is not refused.  A move
    up hands the notes to [onUpdate] as they are; a move down hands them on
    with the first note replaced by [undefined], unless there is no note at
    all, when nothing is handed on. *)
Theorem note_move_unknown_id :
  forall (i : string) (cells : list MiniCell),
    (forall x, In x cells -> id x <> i) ->
    moveCell i Up cells = Some (map Some cells) /\
    (cells = [] -> moveCell i Down cells = None) /\
    (forall c rest, cells = c :: rest ->
       moveCell i Down cells = Some (None :: map Some rest)).
Proof.
  intros i cells H. pose proof (not_has_id i cells H) as Hp.
  split; [| split].
  - unfold moveCell. rewrite findIndex_none by exact Hp. cbv zeta. cbn [Z.eqb].
    rewrite !read_outside by lia. now rewrite !assign_outside by lia.
  - intros ->. reflexivity.
  - intros c rest ->. unfold moveCell. rewrite findIndex_none by exact Hp. cbv zeta.
    simpl List.length.
    destruct (Z.eqb_spec (-1) (Z.of_nat (S (List.length rest)) - 1)) as [E | _]; [lia |].
    rewrite (read_outside _ _ (-1)) by lia. rewrite (assign_outside _ _ (-1)) by lia.
    reflexivity.
Qed.

(** X15.  Changing or deleting a note by its id touches that note alone:
    when one note carries the id, an update that carries no id of its own
    replaces this note by its merge with the update, and a deletion removes
    it, the notes before and after it staying as they are and in their
    order; when no note carries the id the notes are handed on unchanged;
    and deleting a note just added under a new id gives back the notes from
    before. *)
Theorem note_update_and_delete_touch_one :
  (forall (i : string) (u : Updates) (l1 : list MiniCell) (a : MiniCell) (l2 : list MiniCell),
     id a = i -> (forall x, In x (l1 ++ l2) -> id x <> i) ->
     updateCell i u (l1 ++ a :: l2) = l1 ++ spread a u :: l2 /\
     deleteCell i (l1 ++ a :: l2) = l1 ++ l2 /\
     (u_id u = None -> map id (updateCell i u (l1 ++ a :: l2)) = map id (l1 ++ a :: l2))) /\
  (forall (i : string) (u : Updates) (cells : list MiniCell),
     (forall x, In x cells -> id x <> i) ->
     updateCell i u cells = cells /\ deleteCell i cells = cells) /\
  (forall (i : string) (t : MiniCellType) (cells : list MiniCell),
     (forall x, In x cells -> id x <> i) ->
     deleteCell i (addCell i t cells) = cells).
Proof.
  assert (Hmap : forall i u l, (forall x, In x l -> id x <> i) ->
            map (fun c => if has_id i c then spread c u else c) l = l).
  { intros i u l H. pose proof (not_has_id i l H) as Hp.
    induction l as [| c l IH]; [reflexivity |]. simpl.
    rewrite (Hp c) by now left. f_equal. apply IH.
    - intros x Hx. apply H. now right.
    - intros x Hx. apply Hp. now right. }
  assert (Hfilter : forall i l, (forall x, In x l -> id x <> i) ->
            filter (fun c => negb (has_id i c)) l = l).
  { intros i l H. pose proof (not_has_id i l H) as Hp.
    induction l as [| c l IH]; [reflexivity |]. simpl.
    rewrite (Hp c) by now left. simpl. f_equal. apply IH.
    - intros x Hx. apply H. now right.
    - intros x Hx. apply Hp. now right. }
  split; [| split].
  - intros i u l1 a l2 Ha H.
    assert (H1 : forall x, In x l1 -> id x <> i).
    { intros x Hx. apply H, in_or_app. now left. }
    assert (H2 : forall x, In x l2 -> id x <> i).
    { intros x Hx. apply H, in_or_app. now right. }
    assert (Hpa : has_id i a = true) by (unfold has_id; rewrite Ha; apply String.eqb_refl).
    assert (Eu : updateCell i u (l1 ++ a :: l2) = l1 ++ spread a u :: l2).
    { unfold updateCell. rewrite map_app. simpl. rewrite Hpa.
      now rewrite (Hmap i u l1 H1), (Hmap i u l2 H2). }
    split; [exact Eu |]. split.
    + unfold deleteCell. rewrite filter_app. simpl. rewrite Hpa. simpl.
      now rewrite (Hfilter i l1 H1), (Hfilter i l2 H2).
    + intros Hu. rewrite Eu, !map_app. simpl. unfold over. now rewrite Hu.
  - intros i u cells H. split; [now apply Hmap | now apply Hfilter].
  - intros i t cells H. unfold deleteCell, addCell. cbv zeta. rewrite filter_app.
    rewrite (Hfilter i cells H).
    assert (E : forall c, id c = i -> filter (fun c => negb (has_id i c)) [c] = []).
    { intros c Hc. simpl. unfold has_id. rewrite Hc, String.eqb_refl. reflexivity. }
    rewrite E; [apply app_nil_r | now destruct t].
Qed.

End Notes.

(** ** The pages of a PDF cell *)

Module PagesFacts.
Import PDFCellPages PagesSpec HistoryFacts.

Lemma slice0_in : forall (A : Type) (l : list A) (k : Z),
  0 <= k -> Js.slice0 k l = firstn (Z.to_nat k) l.
Proof. intros. now apply slice0_firstn. Qed.

Lemma slice_from_in : forall (A : Type) (l : list A) (k : Z),
  0 <= k -> Js.slice_from k l = skipn (Z.to_nat k) l.
Proof.
  intros A l k Hk. unfold Js.slice_from.
  destruct (Z.ltb_spec k 0); [lia |].
  destruct (Z.le_gt_cases k (Z.of_nat (List.length l))) as [Hin | Hout].
  - now rewrite Z.min_l.
  - rewrite Z.min_r by lia. rewrite Nat2Z.id, skipn_all.
    symmetry. apply skipn_all2. lia.
Qed.

Lemma splice_insert_in : forall (A : Type) (l : list A) (k : Z) (x : A),
  0 <= k ->
  Js.splice_insert k x l = firstn (Z.to_nat k) l ++ x :: skipn (Z.to_nat k) l.
Proof.
  intros A l k x Hk. unfold Js.splice_insert.
  now rewrite slice0_in, slice_from_in.
Qed.

Lemma filter_index_from_keep : forall (A : Type) (l : list A) (c z : Z),
  c < z -> Js.filter_index_from (fun k => negb (k =? c)) l z = l.
Proof.
  intros A. induction l as [| a l IH]; intros c z Hz; simpl; [reflexivity |].
  destruct (Z.eqb_spec z c); [lia |]. simpl. f_equal. apply IH. lia.
Qed.

Lemma filter_index_from_drop : forall (A : Type) (l : list A) (c i0 : Z),
  i0 <= c ->
  Js.filter_index_from (fun k => negb (k =? c)) l i0 =
  firstn (Z.to_nat (c - i0)) l ++ skipn (S (Z.to_nat (c - i0))) l.
Proof.
  intros A. induction l as [| a l IH]; intros c i0 H; simpl.
  - now rewrite firstn_nil.
  - destruct (Z.eqb_spec i0 c) as [-> | Hne]; simpl.
    + rewrite Z.sub_diag. simpl. apply filter_index_from_keep. lia.
    + rewrite IH by lia.
      replace (Z.to_nat (c - i0)) with (S (Z.to_nat (c - (i0 + 1)))) by lia.
      reflexivity.
Qed.

Lemma filter_index_drop : forall (A : Type) (l : list A) (c : Z),
  0 <= c ->
  Js.filter_index (fun k => negb (k =? c)) l =
  firstn (Z.to_nat c) l ++ skipn (S (Z.to_nat c)) l.
Proof.
  intros A l c Hc. unfold Js.filter_index. rewrite filter_index_from_drop by lia.
  now rewrite Z.sub_0_r.
Qed.

(** A list around one of its positions. *)
Lemma split_at : forall (A : Type) (l : list A) (k : nat) (a : A),
  nth_error l k = Some a ->
  l = firstn k l ++ a :: skipn (S k) l /\ List.length (firstn k l) = k.
Proof.
  intros A. induction l as [| b l IH]; intros k a H.
  - destruct k; discriminate.
  - destruct k as [| k]; simpl in *.
    + injection H as ->. now split.
    + destruct (IH k a H) as [E Hlen]. split; [now rewrite <- E | now rewrite Hlen].
Qed.

Lemma index_current : forall (s : State) (p : PDFPage),
  currentPage s = Some p ->
  Valid s /\
  pages s = firstn (Z.to_nat (currentPageIndex s)) (pages s) ++
            p :: skipn (S (Z.to_nat (currentPageIndex s))) (pages s).
Proof.
  intros s p H. unfold currentPage in H.
  pose proof (index_some_range _ _ _ _ H) as Hr. split; [exact Hr |].
  rewrite index_nth in H by lia. now apply split_at.
Qed.

Lemma valid_current : forall s : State, Valid s -> exists p, currentPage s = Some p.
Proof. intros s H. now apply index_in_range. Qed.

(** The pages listed for a document of [n] pages. *)
Lemma listPages_spec : forall (uuid : Z -> string) (n : Z) (fuel : nat) (i : Z)
    (acc : list PDFPage),
  Z.of_nat fuel = n - i + 1 ->
  listPages fuel i n uuid acc =
  acc ++ map (fun k => original uuid (i + Z.of_nat k)) (seq 0 fuel).
Proof.
  intros uuid n. induction fuel as [| fuel IH]; intros i acc H.
  - simpl. now rewrite app_nil_r.
  - cbn [listPages]. destruct (Z.leb_spec i n); [| lia].
    rewrite IH by lia. unfold Js.push. rewrite <- app_assoc. f_equal.
    cbn [seq map app]. rewrite Z.add_0_r. f_equal.
    rewrite <- seq_shift, map_map. apply map_ext. intros k. f_equal. lia.
Qed.

End PagesFacts.

Section Pages.
Import PDFCellPages PagesSpec PagesFacts HistoryFacts.

(** X16.  A document of [n >= 1] pages is listed as [n] pages without a
    drawing or notes, the page at position [k] being page [k + 1] of the
    document, and the first of them is shown; a document reported to have no
    page leaves the cell without a current page. *)
Theorem uploaded_pages_follow_document :
  (forall (n : Z) (uuid : Z -> string) (s : State),
     1 <= n ->
     let s' := handleFileUpload n uuid s in
     Z.of_nat (List.length (pages s')) = n /\
     currentPageIndex s' = 0 /\
     (forall k, 0 <= k < n -> Js.index (pages s') k = Some (original uuid (k + 1)))) /\
  (forall (n : Z) (uuid : Z -> string) (s : State),
     n <= 0 ->
     pages (handleFileUpload n uuid s) = [] /\
     currentPage (handleFileUpload n uuid s) = None).
Proof.
  split.
  - intros n uuid s Hn s'.
    assert (E : pages s' = map (fun k => original uuid (1 + Z.of_nat k)) (seq 0 (Z.to_nat n))).
    { unfold s', handleFileUpload. cbv zeta. cbn [pages setCurrentPageIndex set_pages].
      rewrite listPages_spec by lia. reflexivity. }
    split; [| split; [reflexivity |]].
    + rewrite E, length_map, length_seq. lia.
    + intros k Hk. rewrite E, index_nth by lia.
      rewrite nth_error_map, nth_error_seq.
      destruct (Nat.ltb_spec (Z.to_nat k) (Z.to_nat n)) as [_ | Hge]; [| exfalso; lia].
      cbn [option_map Nat.add]. do 2 f_equal. lia.
  - intros n uuid s Hn.
    assert (E : pages (handleFileUpload n uuid s) = []).
    { unfold handleFileUpload. cbv zeta. cbn [pages setCurrentPageIndex set_pages].
      replace (Z.to_nat n) with O by lia. reflexivity. }
    split; [exact E |]. unfold currentPage. now rewrite E.
Qed.

Lemma length_replace : forall (A : Type) (l : list A) (k : nat) (a b : A),
  nth_error l k = Some a ->
  List.length (firstn k l ++ b :: skipn (S k) l) = List.length l.
Proof.
  intros A l k a b H. destruct (split_at _ l k a H) as [E Hlen].
  rewrite E at 3. rewrite !length_app. reflexivity.
Qed.

Lemma originals_replace : forall (l1 l2 : list PDFPage) (p q : PDFPage),
  id q = id p -> pageNumber q = pageNumber p -> isCustomPage q = isCustomPage p ->
  map (fun p => (id p, pageNumber p)) (filter (fun p => negb (isCustomPage p)) (l1 ++ q :: l2)) =
  map (fun p => (id p, pageNumber p)) (filter (fun p => negb (isCustomPage p)) (l1 ++ p :: l2)).
Proof.
  intros l1 l2 p q Hi Hn Hc. rewrite !filter_app, !map_app. f_equal. simpl.
  rewrite Hc. destruct (negb (isCustomPage p)); [| reflexivity]. simpl. now rewrite Hi, Hn.
Qed.

Lemma originals_custom : forall (l1 l2 : list PDFPage) (p : PDFPage),
  isCustomPage p = true ->
  map (fun p => (id p, pageNumber p)) (filter (fun p => negb (isCustomPage p)) (l1 ++ p :: l2)) =
  map (fun p => (id p, pageNumber p)) (filter (fun p => negb (isCustomPage p)) (l1 ++ l2)).
Proof.
  intros l1 l2 p Hc. rewrite !filter_app, !map_app. f_equal. simpl. now rewrite Hc.
Qed.

Lemma apply_keeps : forall (o : Op) (s : State),
  Valid s -> Valid (apply o s) /\ originals (apply o s) = originals s.
Proof.
  intros o s Hv. unfold Valid in Hv.
  destruct (valid_current s Hv) as [p Hp].
  destruct (index_current s p Hp) as [_ Esplit].
  assert (Hnth : nth_error (pages s) (Z.to_nat (currentPageIndex s)) = Some p).
  { unfold currentPage in Hp. now rewrite index_nth in Hp by lia. }
  destruct o as [| | newId t | | url | cells]; cbn [apply].
  - unfold previousPage. destruct (currentPageIndex s =? 0); [now split |].
    split; [| reflexivity]. unfold Valid. simpl. lia.
  - unfold nextPage.
    destruct (currentPageIndex s =? Z.of_nat (List.length (pages s)) - 1); [now split |].
    split; [| reflexivity]. unfold Valid. simpl. lia.
  - unfold addPageAfterCurrent. cbv zeta. rewrite splice_insert_in by lia.
    split.
    + unfold Valid. cbn [pages currentPageIndex setShowAddPageMenu setCustomPageBackground
                         setCurrentPageIndex set_pages].
      rewrite length_app, length_firstn. simpl List.length. rewrite length_skipn. lia.
    + unfold originals.
      cbn [pages setShowAddPageMenu setCustomPageBackground setCurrentPageIndex set_pages].
      rewrite originals_custom by reflexivity. now rewrite firstn_skipn.
  - unfold deleteButton. rewrite Hp. destruct (isCustomPage p) eqn:Hc; [| now split].
    unfold deletePage. destruct (Z.leb_spec (Z.of_nat (List.length (pages s))) 1); [now split |].
    cbv zeta. rewrite filter_index_drop by lia.
    assert (Hlen : Z.of_nat (List.length (firstn (Z.to_nat (currentPageIndex s)) (pages s) ++
                                          skipn (S (Z.to_nat (currentPageIndex s))) (pages s)))
                   = Z.of_nat (List.length (pages s)) - 1).
    { rewrite length_app, length_firstn, length_skipn. lia. }
    assert (Horig : map (fun p => (id p, pageNumber p))
                      (filter (fun p => negb (isCustomPage p))
                         (firstn (Z.to_nat (currentPageIndex s)) (pages s) ++
                          skipn (S (Z.to_nat (currentPageIndex s))) (pages s)))
                    = originals s).
    { unfold originals. rewrite Esplit at 3. now rewrite originals_custom. }
    destruct (Z.geb_spec (currentPageIndex s)
                (Z.of_nat (List.length (firstn (Z.to_nat (currentPageIndex s)) (pages s) ++
                                        skipn (S (Z.to_nat (currentPageIndex s))) (pages s))))).
    + split; [| exact Horig]. unfold Valid. cbn [pages currentPageIndex setCurrentPageIndex set_pages].
      lia.
    + split; [| exact Horig]. unfold Valid. cbn [pages currentPageIndex set_pages]. lia.
  - unfold handleSaveDrawing. rewrite Hp. cbv zeta. unfold replace_current. cbv zeta.
    destruct (Z.ltb_spec (currentPageIndex s) 0); [lia |].
    split.
    + unfold Valid. cbn [pages currentPageIndex setIsEditingDrawing set_pages].
      rewrite (length_replace _ _ _ p) by exact Hnth. lia.
    + unfold originals. cbn [pages setIsEditingDrawing set_pages].
      rewrite Esplit at 3. apply originals_replace; now destruct (isCustomPage p).
  - unfold handleUpdateNoteCells. rewrite Hp. cbv zeta. unfold replace_current. cbv zeta.
    destruct (Z.ltb_spec (currentPageIndex s) 0); [lia |].
    split.
    + unfold Valid. cbn [pages currentPageIndex set_pages].
      rewrite (length_replace _ _ _ p) by exact Hnth. lia.
    + unfold originals. cbn [pages set_pages].
      rewrite Esplit at 3. now apply originals_replace.
Qed.

(** X17.  Whatever the user does to the pages of a cell whose current page
    exists (turning pages, adding custom pages, deleting with the button a
    custom page shows, saving drawings, editing notes), the current page
    still exists afterwards, and the pages that came with the document are
    all still there, in their order, with their ids and page numbers: only
    custom pages are ever added or removed. *)
Theorem pages_keep_current_and_originals : forall (l : list Op) (s : State),
  Valid s -> Valid (applies l s) /\ originals (applies l s) = originals s.
Proof.
  unfold applies. induction l as [| o l IH]; intros s Hv; simpl; [now split |].
  destruct (apply_keeps o s Hv) as [Hv' Ho'].
  destruct (IH _ Hv') as [Hv'' Ho'']. split; [exact Hv'' | congruence].
Qed.

(** X18.  A page added on a cell whose current page exists is a custom page
    without a drawing, placed right after the current page, all other pages
    keeping their order; it becomes the current page and its background type
    becomes the one of the cell.  Deleting it at once gives back the pages
    from before the addition. *)
Theorem added_page_follows_current :
  forall (newId : string) (t : Types.BackgroundType) (s : State),
    Valid s ->
    let s' := addPageAfterCurrent newId t s in
    let k := Z.to_nat (currentPageIndex s + 1) in
    let newPage := mkPDFPage newId None "" "" [] true (Some "") in
    pages s' = firstn k (pages s) ++ newPage :: skipn k (pages s) /\
    currentPageIndex s' = currentPageIndex s + 1 /\
    currentPage s' = Some newPage /\
    customPageBackground s' = t /\
    pages (deleteButton s') = pages s.
Proof.
  intros newId t s Hv s' k newPage. unfold Valid in Hv.
  assert (E : pages s' = firstn k (pages s) ++ newPage :: skipn k (pages s)).
  { unfold s', addPageAfterCurrent. cbv zeta.
    cbn [pages setShowAddPageMenu setCustomPageBackground setCurrentPageIndex set_pages].
    now rewrite splice_insert_in by lia. }
  assert (Hk : List.length (firstn k (pages s)) = k).
  { rewrite length_firstn. unfold k. lia. }
  assert (Hcur : currentPage s' = Some newPage).
  { unfold currentPage. rewrite E.
    change (currentPageIndex s') with (currentPageIndex s + 1).
    rewrite index_nth by lia. fold k. rewrite nth_error_app2 by lia.
    now rewrite Hk, Nat.sub_diag. }
  split; [exact E |]. split; [reflexivity |]. split; [exact Hcur |]. split; [reflexivity |].
  unfold deleteButton. rewrite Hcur. cbn [isCustomPage newPage].
  unfold deletePage.
  assert (Hlen : Z.of_nat (List.length (pages s')) = Z.of_nat (List.length (pages s)) + 1).
  { rewrite E, length_app, length_firstn. simpl List.length. rewrite length_skipn. unfold k. lia. }
  destruct (Z.leb_spec (Z.of_nat (List.length (pages s'))) 1); [lia |].
  cbv zeta.
  assert (Ep : Js.filter_index (fun index => negb (index =? currentPageIndex s')) (pages s')
               = pages s).
  { change (currentPageIndex s') with (currentPageIndex s + 1).
    rewrite filter_index_drop by lia. fold k. rewrite E.
    rewrite firstn_app, Hk, Nat.sub_diag, firstn_all2 by lia. cbn [firstn].
    rewrite app_nil_r.
    replace (S k) with (List.length (firstn k (pages s) ++ [newPage]))
      by (rewrite length_app, Hk; simpl; lia).
    replace (firstn k (pages s) ++ newPage :: skipn k (pages s))
      with ((firstn k (pages s) ++ [newPage]) ++ skipn k (pages s))
      by now rewrite <- app_assoc.
    rewrite skipn_app, Nat.sub_diag, skipn_all. cbn [skipn app].
    apply firstn_skipn. }
  rewrite Ep. now destruct (_ >=? _).
Qed.

Lemma replace_twice : forall (l : list PDFPage) (i : nat) (q r : PDFPage),
  (i < List.length l)%nat ->
  firstn i (firstn i l ++ q :: skipn (S i) l) ++
  r :: skipn (S i) (firstn i l ++ q :: skipn (S i) l)
  = firstn i l ++ r :: skipn (S i) l.
Proof.
  intros l i q r Hi.
  assert (Hlen : List.length (firstn i l) = i) by (rewrite length_firstn; lia).
  rewrite firstn_app, Hlen, Nat.sub_diag, firstn_all2 by lia.
  cbn [firstn]. rewrite app_nil_r. f_equal. f_equal.
  replace (S i) with (List.length (firstn i l ++ [q])) at 1
    by (rewrite length_app, Hlen; simpl; lia).
  replace (firstn i l ++ q :: skipn (S i) l)
    with ((firstn i l ++ [q]) ++ skipn (S i) l)
    by now rewrite <- app_assoc.
  now rewrite skipn_app, Nat.sub_diag, skipn_all.
Qed.

Lemma replaced_current : forall (l : list PDFPage) (i : Z) (q : PDFPage),
  0 <= i < Z.of_nat (List.length l) ->
  Js.index (firstn (Z.to_nat i) l ++ q :: skipn (S (Z.to_nat i)) l) i = Some q.
Proof.
  intros l i q Hi. rewrite index_nth by lia.
  assert (Hlen : List.length (firstn (Z.to_nat i) l) = Z.to_nat i)
    by (rewrite length_firstn; lia).
  rewrite nth_error_app2 by lia. now rewrite Hlen, Nat.sub_diag.
Qed.

Lemma save_pages : forall (url : string) (s : State) (p : PDFPage),
  currentPage s = Some p ->
  let i := Z.to_nat (currentPageIndex s) in
  pages (handleSaveDrawing url s) =
    firstn i (pages s) ++ with_drawing url p :: skipn (S i) (pages s) /\
  currentPageIndex (handleSaveDrawing url s) = currentPageIndex s /\
  currentPage (handleSaveDrawing url s) = Some (with_drawing url p).
Proof.
  intros url s p Hp i. destruct (index_current s p Hp) as [Hv _]. unfold Valid in Hv.
  assert (E : handleSaveDrawing url s =
              setIsEditingDrawing false
                (set_pages (firstn i (pages s) ++ with_drawing url p :: skipn (S i) (pages s)) s)).
  { unfold handleSaveDrawing. rewrite Hp. cbv zeta. unfold replace_current. cbv zeta.
    destruct (Z.ltb_spec (currentPageIndex s) 0); [lia | reflexivity]. }
  rewrite E. split; [reflexivity |]. split; [reflexivity |].
  unfold currentPage. cbn [pages currentPageIndex setIsEditingDrawing set_pages].
  now apply replaced_current.
Qed.

Lemma note_pages : forall (cells : list MiniNotebook.MiniCell) (s : State) (p : PDFPage),
  currentPage s = Some p ->
  let i := Z.to_nat (currentPageIndex s) in
  pages (handleUpdateNoteCells cells s) =
    firstn i (pages s) ++ with_notes cells p :: skipn (S i) (pages s) /\
  currentPageIndex (handleUpdateNoteCells cells s) = currentPageIndex s /\
  currentPage (handleUpdateNoteCells cells s) = Some (with_notes cells p).
Proof.
  intros cells s p Hp i. destruct (index_current s p Hp) as [Hv _]. unfold Valid in Hv.
  assert (E : handleUpdateNoteCells cells s =
              set_pages (firstn i (pages s) ++ with_notes cells p :: skipn (S i) (pages s)) s).
  { unfold handleUpdateNoteCells. rewrite Hp. cbv zeta. unfold replace_current. cbv zeta.
    destruct (Z.ltb_spec (currentPageIndex s) 0); [lia | reflexivity]. }
  rewrite E. split; [reflexivity |]. split; [reflexivity |].
  unfold currentPage. cbn [pages currentPageIndex set_pages].
  now apply replaced_current.
Qed.

(** X19.  Saving a drawing and editing the notes each replace the current
    page by a copy that differs in one field (the drawing of a document
    page, the drawing of a custom page, or the notes), every other page
    staying as it is and where it is; done one after the other, in either
    order, they give the same pages. *)
Theorem drawing_and_notes_are_independent :
  forall (url : string) (cells : list MiniNotebook.MiniCell) (s : State) (p : PDFPage),
    currentPage s = Some p ->
    let i := Z.to_nat (currentPageIndex s) in
    pages (handleSaveDrawing url s) =
      firstn i (pages s) ++ with_drawing url p :: skipn (S i) (pages s) /\
    pages (handleUpdateNoteCells cells s) =
      firstn i (pages s) ++ with_notes cells p :: skipn (S i) (pages s) /\
    pages (handleUpdateNoteCells cells (handleSaveDrawing url s)) =
    pages (handleSaveDrawing url (handleUpdateNoteCells cells s)).
Proof.
  intros url cells s p Hp i.
  destruct (index_current s p Hp) as [Hv _]. unfold Valid in Hv.
  destruct (save_pages url s p Hp) as (Es & Is & Cs).
  destruct (note_pages cells s p Hp) as (En & In & Cn).
  fold i in Es, En.
  split; [exact Es |]. split; [exact En |].
  destruct (note_pages cells _ _ Cs) as (E1 & _).
  destruct (save_pages url _ _ Cn) as (E2 & _).
  rewrite E1, E2, Is, In. fold i. rewrite Es, En.
  rewrite !replace_twice by lia.
  f_equal. f_equal. unfold with_drawing, with_notes. cbn [isCustomPage].
  now destruct (isCustomPage p).
Qed.

(** X20.  The width of the notes column is whatever lies between the mouse
    and the right edge of the container, kept within 200 and 600: a width
    between these bounds stays between them through any moves of the mouse,
    while resizing or not, and a move while resizing that asks for a width
    within the bounds gets exactly that width. *)
Theorem notes_width_clamped :
  (forall (s : State) (moves : list (Q * Q)),
     (200 <= notesWidth s <= 600)%Q ->
     let s' := fold_left (fun st m => mouseMove (fst m) (snd m) st) moves s in
     (200 <= notesWidth s' <= 600)%Q) /\
  (forall (s : State) (right clientX : Q),
     isResizing s = true ->
     (200 <= notesWidth (mouseMove right clientX s) <= 600)%Q /\
     ((200 <= right - clientX <= 600)%Q ->
      (notesWidth (mouseMove right clientX s) == right - clientX)%Q)).
Proof.
  assert (C : forall w : Q, (200 <= Qmin 600 (Qmax 200 w) <= 600)%Q).
  { intros w. split; [| apply Q.le_min_l].
    apply Q.min_glb; [unfold Qle; simpl; lia | apply Q.le_max_l]. }
  split.
  - intros s moves. revert s. induction moves as [| m moves IH]; intros s Hs; simpl.
    + exact Hs.
    + apply IH. unfold mouseMove. destruct (isResizing s); [| exact Hs].
      unfold handleMouseMove. cbv zeta. cbn [notesWidth setNotesWidth]. apply C.
  - intros s right clientX Hr. unfold mouseMove. rewrite Hr.
    unfold handleMouseMove. cbv zeta. cbn [notesWidth setNotesWidth].
    split; [apply C |]. intros [Hlo Hhi].
    rewrite Q.max_r by exact Hlo. now rewrite Q.min_r by exact Hhi.
Qed.

End Pages.

(** ** The cells of a notebook *)

Section Cells.
Import Notebooks ArrayFacts PagesFacts.

Lemma not_cell_id : forall (i : string) (l : list Cell),
  (forall x, In x l -> id x <> i) -> forall x, In x l -> has_id i x = false.
Proof.
  intros i l H x Hx. unfold has_id. destruct (String.eqb_spec (id x) i); [| reflexivity].
  exfalso. now apply (H x).
Qed.

(** X21.  A new cell is placed right after the first cell that carries the
    id given; when no cell carries that id it is placed before all cells;
    and without an id, or with the empty one, it is placed after all cells.
    The cells that were there keep their order. *)
Theorem cell_inserted_after :
  (forall (c a : Cell) (i : string) (l1 l2 : list Cell),
     Js.truthy i = true -> id a = i -> (forall x, In x l1 -> id x <> i) ->
     insertCell c (Some i) (l1 ++ a :: l2) = l1 ++ a :: c :: l2) /\
  (forall (c : Cell) (i : string) (cells : list Cell),
     Js.truthy i = true -> (forall x, In x cells -> id x <> i) ->
     insertCell c (Some i) cells = c :: cells) /\
  (forall (c : Cell) (cells : list Cell),
     insertCell c None cells = cells ++ [c] /\
     insertCell c (Some "") cells = cells ++ [c]).
Proof.
  split; [| split].
  - intros c a i l1 l2 Ht Ha Hl1. unfold insertCell. rewrite Ht. cbv zeta.
    rewrite findIndex_first;
      [| now apply not_cell_id | unfold has_id; rewrite Ha; apply String.eqb_refl].
    rewrite slice0_in, slice_from_in by lia.
    replace (Z.to_nat (Z.of_nat (List.length l1) + 1)) with (List.length (l1 ++ [a]))
      by (rewrite length_app; simpl; lia).
    replace (l1 ++ a :: l2) with ((l1 ++ [a]) ++ l2) by now rewrite <- app_assoc.
    rewrite firstn_app, Nat.sub_diag, firstn_all. cbn [firstn]. rewrite app_nil_r.
    rewrite skipn_app, Nat.sub_diag, skipn_all. cbn [skipn app].
    now rewrite <- app_assoc.
  - intros c i cells Ht H. unfold insertCell. rewrite Ht. cbv zeta.
    rewrite findIndex_none by now apply not_cell_id.
    change (-1 + 1) with 0. now rewrite slice0_in, slice_from_in by lia.
  - intros c cells. split; reflexivity.
Qed.

Lemma findIndex_cases : forall (A : Type) (p : A -> bool) (l : list A),
  (Js.findIndex p l = -1 /\ forall x, In x l -> p x = false) \/
  (exists l1 a l2,
     l = l1 ++ a :: l2 /\ (forall x, In x l1 -> p x = false) /\ p a = true /\
     Js.findIndex p l = Z.of_nat (List.length l1)).
Proof.
  intros A p l.
  assert (D : (forall x, In x l -> p x = false) \/
              (exists l1 a l2, l = l1 ++ a :: l2 /\
                 (forall x, In x l1 -> p x = false) /\ p a = true)).
  { induction l as [| b l IH]; [left; intros x [] |].
    destruct (p b) eqn:Eb.
    - right. exists [], b, l. split; [reflexivity |]. split; [intros x [] | exact Eb].
    - destruct IH as [IH | (l1 & a & l2 & -> & H1 & Ha)].
      + left. intros x [<- | Hx]; auto.
      + right. exists (b :: l1), a, l2. split; [reflexivity |]. split; [| exact Ha].
        intros x [<- | Hx]; auto. }
  destruct D as [D | (l1 & a & l2 & -> & H1 & Ha)].
  - left. split; [now apply findIndex_none | exact D].
  - right. exists l1, a, l2. split; [reflexivity |]. split; [exact H1 |]. split; [exact Ha |].
    now apply findIndex_first.
Qed.

Lemma filled_map : forall (A : Type) (l : list A), filled (map Some l) = Some l.
Proof. intros A. induction l as [| a l IH]; simpl; [reflexivity | now rewrite IH]. Qed.

Lemma swap_down : forall (i : string) (l1 : list Cell) (a b : Cell) (l2 : list Cell),
  Js.findIndex (has_id i) (l1 ++ a :: b :: l2) = Z.of_nat (List.length l1) ->
  swapCell i Down (l1 ++ a :: b :: l2) = Some (map Some (l1 ++ b :: a :: l2)).
Proof.
  intros i l1 a b l2 E. unfold swapCell. rewrite E. cbv zeta.
  destruct (Z.eqb_spec (Z.of_nat (List.length l1)) (-1)); [lia |].
  rewrite length_app. simpl List.length.
  destruct (Z.ltb_spec (Z.of_nat (List.length l1) + 1) 0); [lia |].
  destruct (Z.geb_spec (Z.of_nat (List.length l1) + 1)
              (Z.of_nat (List.length l1 + S (S (List.length l2))))); [lia |].
  cbn [orb]. rewrite map_app. simpl map.
  replace (Z.of_nat (List.length l1)) with (Z.of_nat (List.length (map Some l1)))
    by now rewrite length_map.
  rewrite read_second, read_middle, assign_middle, assign_second.
  now rewrite map_app.
Qed.

Lemma swap_up : forall (i : string) (l1 : list Cell) (a b : Cell) (l2 : list Cell),
  Js.findIndex (has_id i) (l1 ++ b :: a :: l2) = Z.of_nat (List.length l1) + 1 ->
  swapCell i Up (l1 ++ b :: a :: l2) = Some (map Some (l1 ++ a :: b :: l2)).
Proof.
  intros i l1 a b l2 E. unfold swapCell. rewrite E. cbv zeta.
  destruct (Z.eqb_spec (Z.of_nat (List.length l1) + 1) (-1)); [lia |].
  rewrite length_app. simpl List.length.
  replace (Z.of_nat (List.length l1) + 1 - 1) with (Z.of_nat (List.length l1)) by lia.
  destruct (Z.ltb_spec (Z.of_nat (List.length l1)) 0); [lia |].
  destruct (Z.geb_spec (Z.of_nat (List.length l1))
              (Z.of_nat (List.length l1 + S (S (List.length l2))))); [lia |].
  cbn [orb]. rewrite map_app. simpl map.
  replace (Z.of_nat (List.length l1)) with (Z.of_nat (List.length (map Some l1)))
    by now rewrite length_map.
  rewrite read_second, read_middle, assign_second, assign_middle.
  now rewrite map_app.
Qed.

(** X22.  A move of a cell in a notebook is safe.  It swaps the first cell
    that carries the id with its neighbour, so that a move down and a move
    up undo each other; at the ends of the list, and for an id no cell
    carries, it leaves the notebook as it is; and whenever it changes the
    list, the new list has every slot filled and holds the same cells, none
    lost and none twice. *)
Theorem cell_move_is_safe :
  (forall (i : string) (l1 : list Cell) (a b : Cell) (l2 : list Cell),
     id a = i -> id b <> i -> (forall x, In x l1 -> id x <> i) ->
     swapCell i Down (l1 ++ a :: b :: l2) = Some (map Some (l1 ++ b :: a :: l2)) /\
     swapCell i Up (l1 ++ b :: a :: l2) = Some (map Some (l1 ++ a :: b :: l2)) /\
     swapCell i Up (a :: l2) = None /\
     swapCell i Down (l1 ++ [a]) = None) /\
  (forall (i : string) (d : Direction) (cells : list Cell),
     (forall x, In x cells -> id x <> i) -> swapCell i d cells = None) /\
  (forall (i : string) (d : Direction) (cells : list Cell) (arr : list (option Cell)),
     swapCell i d cells = Some arr ->
     exists l, filled arr = Some l /\ Permutation cells l).
Proof.
  split; [| split].
  - intros i l1 a b l2 Ha Hb Hl1.
    assert (Hpa : has_id i a = true) by (unfold has_id; rewrite Ha; apply String.eqb_refl).
    pose proof (not_cell_id i l1 Hl1) as Hp1.
    split; [| split; [| split]].
    + apply swap_down. now apply findIndex_first.
    + apply swap_up.
      replace (l1 ++ b :: a :: l2) with ((l1 ++ [b]) ++ a :: l2) by now rewrite <- app_assoc.
      rewrite findIndex_first; [rewrite length_app; simpl; lia | | exact Hpa].
      intros x Hx. apply in_app_or in Hx. destruct Hx as [Hx | [<- | []]]; [auto |].
      unfold has_id. destruct (String.eqb_spec (id b) i); [contradiction | reflexivity].
    + unfold swapCell.
      assert (E : Js.findIndex (has_id i) (a :: l2) = 0).
      { apply (findIndex_first _ (has_id i) [] a l2); [intros x [] | exact Hpa]. }
      now rewrite E.
    + unfold swapCell. rewrite findIndex_first by assumption. cbv zeta.
      destruct (Z.eqb_spec (Z.of_nat (List.length l1)) (-1)); [lia |].
      rewrite length_app. simpl List.length.
      destruct (Z.geb_spec (Z.of_nat (List.length l1) + 1)
                  (Z.of_nat (List.length l1 + 1))); [| lia].
      now rewrite orb_true_r.
  - intros i d cells H. unfold swapCell.
    now rewrite findIndex_none by now apply not_cell_id.
  - intros i d cells arr H.
    destruct (findIndex_cases _ (has_id i) cells) as [[E _] | (l1 & a & l2 & -> & H1 & Ha & E)].
    + unfold swapCell in H. rewrite E in H. discriminate.
    + destruct d.
      * (* up: there is a cell before *)
        destruct (rev l1) as [| b r] eqn:Er.
        -- apply (f_equal (@rev _)) in Er. rewrite rev_involutive in Er. subst l1.
           unfold swapCell in H. rewrite E in H. simpl in H. discriminate.
        -- apply (f_equal (@rev _)) in Er. rewrite rev_involutive in Er. simpl in Er.
           subst l1. rewrite <- app_assoc in H, E. simpl app in H, E.
           rewrite swap_up in H.
           ++ injection H as <-. exists (rev r ++ a :: b :: l2).
              split; [apply filled_map |]. rewrite <- app_assoc. simpl app.
              apply Permutation_app_head, perm_swap.
           ++ rewrite E, length_app. simpl. lia.
      * destruct l2 as [| b l3].
        -- unfold swapCell in H. rewrite E in H. cbv zeta in H.
           destruct (Z.eqb_spec (Z.of_nat (List.length l1)) (-1)); [lia |].
           rewrite length_app in H. simpl List.length in H.
           destruct (Z.geb_spec (Z.of_nat (List.length l1) + 1)
                       (Z.of_nat (List.length l1 + 1))); [| lia].
           rewrite orb_true_r in H. discriminate.
        -- rewrite swap_down in H by exact E. injection H as <-.
           exists (l1 ++ b :: a :: l3). split; [apply filled_map |].
           apply Permutation_app_head, perm_swap.
Qed.

End Cells.

(** ** The store of notebooks *)

Section Store.
Import Notebooks StoreSpec.

Lemma on_active_frame : forall (f : Notebook -> Notebook) (st : ProjectStore),
  (forall n, nb_id (f n) = nb_id n /\ title (f n) = title n /\
             projectId (f n) = projectId n /\ nb_createdAt (f n) = nb_createdAt n) ->
  let st' := on_active f st in
  projects st' = projects st /\
  activeNotebookId st' = activeNotebookId st /\
  map (fun n => (nb_id n, title n, projectId n, nb_createdAt n)) (notebooks st') =
  map (fun n => (nb_id n, title n, projectId n, nb_createdAt n)) (notebooks st) /\
  (forall a k n,
     active st = Some a -> nth_error (notebooks st) k = Some n -> nb_id n <> a ->
     nth_error (notebooks st') k = Some n) /\
  (active st = None -> st' = st).
Proof.
  intros f st Hf st'. unfold st', on_active.
  destruct (active st) as [a |] eqn:Ea.
  - cbn [projects activeNotebookId notebooks].
    split; [reflexivity |]. split; [reflexivity |]. split; [| split].
    + rewrite map_map. apply map_ext. intros n.
      destruct (is_notebook a n); [| reflexivity].
      destruct (Hf n) as (H1 & H2 & H3 & H4). now rewrite H1, H2, H3, H4.
    + intros a' k n Ha Hn Hne. injection Ha as <-.
      rewrite nth_error_map, Hn. cbn [option_map]. unfold is_notebook.
      destruct (String.eqb_spec (nb_id n) a); [contradiction | reflexivity].
    + discriminate.
  - split; [reflexivity |]. split; [reflexivity |]. split; [reflexivity |].
    split; [discriminate | reflexivity].
Qed.

(** X23.  Adding, changing, deleting and moving a cell and clearing the
    notebook touch the active notebook alone: the projects, the choice of
    the active notebook, and the number, order, ids, titles and projects of
    the notebooks are as before, every notebook other than the active one is
    unchanged, and without an active notebook the store is left as it is. *)
Theorem cell_ops_touch_active_notebook_only :
  forall (o : CellOp) (now : Z) (st : ProjectStore),
    let st' := cell_op o now st in
    projects st' = projects st /\
    activeNotebookId st' = activeNotebookId st /\
    map (fun n => (nb_id n, title n, projectId n, nb_createdAt n)) (notebooks st') =
    map (fun n => (nb_id n, title n, projectId n, nb_createdAt n)) (notebooks st) /\
    (forall a k n,
       active st = Some a -> nth_error (notebooks st) k = Some n -> nb_id n <> a ->
       nth_error (notebooks st') k = Some n) /\
    (active st = None -> st' = st).
Proof.
  intros o now st.
  destruct o as [newId t afterId | cellId updates | cellId | cellId direction |];
    cbn [cell_op]; unfold addCell, updateCell, deleteCell, moveCell, clearNotebook;
    apply on_active_frame; intros n; try (now repeat split).
  destruct (swapCell cellId direction (cells n)) as [arr |]; [| now repeat split].
  destruct (filled arr); now repeat split.
Qed.

Lemma active_kept : forall st st' : ProjectStore,
  map nb_id (notebooks st') = map nb_id (notebooks st) ->
  activeNotebookId st' = activeNotebookId st ->
  ActiveOk st -> ActiveOk st'.
Proof.
  intros st st' Hids Hact H. unfold ActiveOk in *. rewrite Hact.
  destruct (activeNotebookId st) as [a |].
  - destruct H as (n & Hn & Ha).
    assert (Hin : In a (map nb_id (notebooks st'))).
    { rewrite Hids, <- Ha. now apply in_map. }
    apply in_map_iff in Hin. destruct Hin as (n' & Hn' & Hin'). now exists n'.
  - rewrite H in Hids. simpl in Hids. now apply map_eq_nil in Hids.
Qed.

Lemma cell_ops_keep_active :
  forall (o : CellOp) (now : Z) (st : ProjectStore),
    map nb_id (notebooks (cell_op o now st)) = map nb_id (notebooks st) /\
    activeNotebookId (cell_op o now st) = activeNotebookId st.
Proof.
  intros o now st.
  assert (F : forall f : Notebook -> Notebook,
            (forall n, nb_id (f n) = nb_id n) ->
            map nb_id (notebooks (on_active f st)) = map nb_id (notebooks st) /\
            activeNotebookId (on_active f st) = activeNotebookId st).
  { intros f Hf. unfold on_active. destruct (active st) as [a |]; [| now split].
    cbn [notebooks activeNotebookId]. split; [| reflexivity].
    rewrite map_map. apply map_ext. intros n. destruct (is_notebook a n); [apply Hf | reflexivity]. }
  destruct o as [newId t afterId | cellId updates | cellId | cellId direction |];
    cbn [cell_op]; unfold addCell, updateCell, deleteCell, moveCell, clearNotebook;
    apply F; intros n; try reflexivity.
  destruct (swapCell cellId direction (cells n)) as [arr |]; [| reflexivity].
  now destruct (filled arr).
Qed.

(** X24.  The active notebook always exists.  The first store has one
    notebook and it is active; after any operation on the notebooks (a
    selection choosing one of the notebooks of the store), on the cells or
    on the projects, the id of the active notebook is again the id of a
    notebook of the store, and no notebook is active only when the store
    holds none: deleting the active notebook activates the first one that
    remains. *)
Theorem active_notebook_exists :
  (forall (newId : string) (now : Z), ActiveOk (createInitialStore newId now)) /\
  (forall (o : NotebookOp) (now : Z) (st : ProjectStore),
     ActiveOk st -> offered o st -> ActiveOk (notebook_op o now st)) /\
  (forall (o : CellOp) (now : Z) (st : ProjectStore),
     ActiveOk st -> ActiveOk (cell_op o now st)) /\
  (forall (fuel : nat) (i : string) (st st' : ProjectStore),
     ActiveOk st -> deleteProject fuel i st = Js.Ok st' -> ActiveOk st') /\
  (forall (i : string) (st : ProjectStore) (first : Notebook) (rest : list Notebook),
     activeNotebookId st = Some i ->
     filter (fun n => negb (is_notebook i n)) (notebooks st) = first :: rest ->
     activeNotebookId (deleteNotebook i st) = Some (nb_id first)).
Proof.
  split; [| split; [| split; [| split]]].
  - intros newId now. unfold ActiveOk. simpl. eexists. split; [now left | reflexivity].
  - intros o now st H Hoff. destruct o as [newId project | i | i | i project | i t];
      cbn [notebook_op].
    + unfold ActiveOk, addNotebook. cbv zeta. cbn [activeNotebookId notebooks].
      eexists. split; [apply in_or_app; right; now left | reflexivity].
    + exact Hoff.
    + unfold ActiveOk in *. unfold deleteNotebook. cbv zeta. cbn [activeNotebookId notebooks].
      destruct (same_id (activeNotebookId st) i) eqn:Es.
      * destruct (filter _ (notebooks st)) as [| first rest] eqn:Ef; [reflexivity |].
        exists first. split; [now left | reflexivity].
      * destruct (activeNotebookId st) as [a |].
        -- destruct H as (n & Hn & Ha). exists n. split; [| exact Ha].
           apply filter_In. split; [exact Hn |]. unfold is_notebook. rewrite Ha.
           simpl in Es. now rewrite Es.
        -- now rewrite H.
    + apply (active_kept st); [| reflexivity | exact H].
      unfold moveNotebook. cbn [notebooks]. rewrite map_map. apply map_ext.
      intros n. now destruct (is_notebook i n).
    + apply (active_kept st); [| reflexivity | exact H].
      unfold updateNotebookTitle. cbn [notebooks]. rewrite map_map. apply map_ext.
      intros n. now destruct (is_notebook i n).
  - intros o now st H.
    destruct (cell_ops_keep_active o now st) as (Hids & Hact).
    now apply (active_kept st).
  - intros fuel i st st' H E. unfold deleteProject in E.
    destruct (getAllChildProjectIds fuel (projects st) i) as [ds |]; [| discriminate].
    injection E as <-. apply (active_kept st); [| reflexivity | exact H].
    cbn [notebooks]. rewrite map_map. apply map_ext. intros n.
    destruct (projectId n) as [q |]; [| reflexivity].
    now destruct (Js.truthy q && _).
  - intros i st first rest Ha Hf. unfold deleteNotebook. cbv zeta. cbn [activeNotebookId].
    rewrite Ha. cbn [same_id]. rewrite String.eqb_refl. now rewrite Hf.
Qed.

End Store.

(** ** Deleting and moving projects *)

Module ProjectFacts.
Import Notebooks StoreSpec.

Lemma includes_In : forall (l : list string) (i : string), includes l i = true <-> In i l.
Proof.
  intros l i. unfold includes. rewrite existsb_exists. split.
  - intros (x & Hx & E). apply String.eqb_eq in E. now subst.
  - intros H. exists i. split; [exact H | apply String.eqb_refl].
Qed.

Lemma child_of_iff : forall (x : string) (p : Project),
  child_of x p = true <-> parentId p = Some x.
Proof.
  intros x p. unfold child_of, same_id. destruct (parentId p) as [q |].
  - rewrite String.eqb_eq. split; [now intros -> | now intros [= ->]].
  - split; discriminate.
Qed.

(** What lies below a project lies below one of its children, or is one
    of them. *)
Lemma below_inv : forall (ps : list Project) (x d : string),
  below ps x d ->
  exists c, In c ps /\ parentId c = Some x /\ (d = pr_id c \/ below ps (pr_id c) d).
Proof.
  intros ps x d H. induction H as [p Hp Hpar | p y Hp Hpar Hy IH].
  - exists p. now repeat split; [| | left].
  - destruct IH as (c & Hc & Hcpar & [-> | Hb]).
    + exists c. repeat split; try assumption. right. now apply below_child.
    + exists c. repeat split; try assumption. right. now apply (below_deeper ps _ p y).
Qed.

Lemma below_under_child : forall (ps : list Project) (x : string) (c : Project) (d : string),
  In c ps -> parentId c = Some x -> below ps (pr_id c) d -> below ps x d.
Proof.
  intros ps x c d Hc Hpar H. induction H as [p Hp Hp' | p y Hp Hp' Hy IH].
  - apply (below_deeper ps x p (pr_id c)); [assumption | assumption |].
    now apply below_child.
  - now apply (below_deeper ps x p y).
Qed.

Section Fold.
Variable g : Project -> option (list string).

Lemma collect_spec : forall (cs : list Project) (ds : list string),
  collect g cs = Some ds ->
  forall d, In d ds <-> exists c b, In c cs /\ g c = Some b /\ (d = pr_id c \/ In d b).
Proof.
  induction cs as [| c cs IH]; intros ds H d.
  - injection H as <-. split; [intros [] | intros (c & b & [] & _)].
  - simpl in H. destruct (g c) as [b |] eqn:Eg; [| discriminate].
    fold (collect g cs) in H. destruct (collect g cs) as [rest |] eqn:Ec; [| discriminate].
    injection H as <-. specialize (IH rest eq_refl d). split.
    + intros [<- | Hin]; [exists c, b; repeat split; auto; now left |].
      apply in_app_or in Hin. destruct Hin as [Hin | Hin].
      * exists c, b. repeat split; auto. now left.
      * apply IH in Hin. destruct Hin as (c' & b' & Hc' & Hg' & Hd).
        exists c', b'. repeat split; auto. now right.
    + intros (c' & b' & [<- | Hc'] & Hg' & Hd).
      * rewrite Eg in Hg'. injection Hg' as <-.
        destruct Hd as [-> | Hd]; [now left | right; apply in_or_app; now left].
      * right. apply in_or_app. right. apply IH. now exists c', b'.
Qed.

Lemma collect_total : forall cs : list Project,
  (forall c, In c cs -> exists b, g c = Some b) -> exists ds, collect g cs = Some ds.
Proof.
  induction cs as [| c cs IH]; intros H; [now exists [] |].
  destruct (H c (or_introl eq_refl)) as [b Eb].
  destruct IH as [rest Er]; [intros c' Hc'; apply H; now right |].
  simpl. fold (collect g cs). rewrite Eb, Er. now eexists.
Qed.

End Fold.

Lemma descend_step : forall (fuel : nat) (ps : list Project) (x : string),
  getAllChildProjectIds (S fuel) ps x =
  collect (fun c => getAllChildProjectIds fuel ps (pr_id c)) (filter (child_of x) ps).
Proof. reflexivity. Qed.

(** Every id the recursion returns is the id of a project below. *)
Lemma descend_sound : forall (fuel : nat) (ps : list Project) (x : string) (ds : list string),
  getAllChildProjectIds fuel ps x = Some ds -> forall d, In d ds -> below ps x d.
Proof.
  induction fuel as [| fuel IH]; intros ps x ds H d Hd; [discriminate |].
  rewrite descend_step in H.
  apply (collect_spec _ _ _ H) in Hd. destruct Hd as (c & b & Hc & Hg & Hd).
  apply filter_In in Hc. destruct Hc as [Hc Hpar]. apply child_of_iff in Hpar.
  destruct Hd as [-> | Hd]; [now apply below_child |].
  apply (below_under_child ps x c); try assumption. now apply (IH ps (pr_id c) b).
Qed.

(** When the projects are ranked the recursion returns, given a call
    stack deeper than the rank of the project, and returns every id
    below. *)
Lemma descend_complete : forall (ps : list Project) (depth : string -> nat),
  (forall p q, In p ps -> parentId p = Some q -> (depth (pr_id p) < depth q)%nat) ->
  forall (fuel : nat) (x : string),
    (depth x < fuel)%nat ->
    exists ds, getAllChildProjectIds fuel ps x = Some ds /\
               forall d, below ps x d -> In d ds.
Proof.
  intros ps depth Hdepth. induction fuel as [| fuel IH]; intros x Hx; [lia |].
  rewrite descend_step.
  assert (Hrec : forall c, In c (filter (child_of x) ps) ->
                 exists b, getAllChildProjectIds fuel ps (pr_id c) = Some b /\
                           forall d, below ps (pr_id c) d -> In d b).
  { intros c Hc. apply filter_In in Hc. destruct Hc as [Hc Hpar].
    apply child_of_iff in Hpar. apply IH. specialize (Hdepth c x Hc Hpar). lia. }
  destruct (collect_total (fun c => getAllChildProjectIds fuel ps (pr_id c))
              (filter (child_of x) ps)) as [ds Eds].
  { intros c Hc. destruct (Hrec c Hc) as [b [Eb _]]. now exists b. }
  exists ds. split; [exact Eds |]. intros d Hd.
  apply (collect_spec _ _ _ Eds).
  destruct (below_inv ps x d Hd) as (c & Hc & Hpar & Hcase).
  assert (Hc' : In c (filter (child_of x) ps)).
  { apply filter_In. split; [exact Hc | now apply child_of_iff]. }
  destruct (Hrec c Hc') as [b [Eb Hb]].
  exists c, b. repeat split; try assumption.
  destruct Hcase as [-> | Hbelow]; [now left | right; now apply Hb].
Qed.

End ProjectFacts.

Section Projects.
Import Notebooks StoreSpec ProjectFacts.

(** X25.  When the projects are ranked, every project strictly lower than
    its parent, and the call stack is deeper than the rank of the project,
    deleting a project returns normally.  It removes the project and every
    project below it and no other; no project that remains has a removed
    project as its parent; every notebook is still there, in the same place
    and with the same cells, the notebooks of a removed project having moved
    to the root; and no notebook that remains refers to a removed project. *)
Theorem delete_project_removes_subtree :
  forall (height : string -> nat) (fuel : nat) (x : string) (st : ProjectStore),
    Ranked height (projects st) -> (height x < fuel)%nat ->
      exists st',
        deleteProject fuel x st = Js.Ok st' /\
        (forall p, In p (projects st') <->
                   In p (projects st) /\ pr_id p <> x /\ ~ below (projects st) x (pr_id p)) /\
        (forall p q, In p (projects st') -> parentId p = Some q ->
                     q <> x /\ ~ below (projects st) x q) /\
        map (fun n => (nb_id n, title n, cells n)) (notebooks st') =
        map (fun n => (nb_id n, title n, cells n)) (notebooks st) /\
        (forall k n, nth_error (notebooks st) k = Some n ->
           nth_error (notebooks st') k = Some n \/
           exists q, projectId n = Some q /\ (q = x \/ below (projects st) x q) /\
                     nth_error (notebooks st') k =
                     Some (mkNotebook (nb_id n) (title n) (cells n) (nb_createdAt n)
                             (nb_updatedAt n) None)) /\
        (forall n q, In n (notebooks st') -> projectId n = Some q -> Js.truthy q = true ->
                     q <> x /\ ~ below (projects st) x q) /\
        activeNotebookId st' = activeNotebookId st.
Proof.
  intros depth fuel x st Hdepth Hfuel.
  destruct (descend_complete (projects st) depth Hdepth fuel x) as [ds [Eds Hall]]; [lia |].
  pose proof (descend_sound fuel (projects st) x ds Eds) as Hsound.
  assert (Hdel : forall q, includes (x :: ds) q = true <-> q = x \/ below (projects st) x q).
  { intros q. rewrite includes_In. split.
    - intros [-> | Hq]; [now left | right; now apply Hsound].
    - intros [-> | Hq]; [now left | right; now apply Hall]. }
  unfold deleteProject. rewrite Eds. cbv zeta. eexists. split; [reflexivity |].
  cbn [projects notebooks activeNotebookId].
  assert (Hproj : forall p,
            In p (filter (fun p => negb (includes (x :: ds) (pr_id p))) (projects st)) <->
            In p (projects st) /\ pr_id p <> x /\ ~ below (projects st) x (pr_id p)).
  { intros p. rewrite filter_In, negb_true_iff. split.
    - intros [Hp Hi]. split; [exact Hp |]. split.
      + intros E. assert (H1 : includes (x :: ds) (pr_id p) = true) by (apply Hdel; now left).
        congruence.
      + intros Hb. assert (H1 : includes (x :: ds) (pr_id p) = true) by (apply Hdel; now right).
        congruence.
    - intros (Hp & Hne & Hnb). split; [exact Hp |].
      destruct (includes (x :: ds) (pr_id p)) eqn:Ei; [| reflexivity].
      apply Hdel in Ei. destruct Ei; contradiction. }
  split; [exact Hproj |]. split; [| split; [| split; [| split; [| reflexivity]]]].
  - intros p q Hp Hpar. apply Hproj in Hp. destruct Hp as (Hp & Hne & Hnb). split.
    + intros ->. apply Hnb. now apply below_child.
    + intros Hq. apply Hnb. now apply (below_deeper (projects st) x p q).
  - rewrite map_map. apply map_ext. intros n.
    destruct (projectId n) as [q |]; [| reflexivity].
    now destruct (Js.truthy q && _).
  - intros k n Hn. rewrite nth_error_map, Hn. cbn [option_map].
    destruct (projectId n) as [q |] eqn:Eq; [| now left].
    destruct (Js.truthy q && includes (x :: ds) q) eqn:Ec; [| now left].
    right. exists q. apply andb_true_iff in Ec. destruct Ec as [_ Ec]. apply Hdel in Ec.
    now repeat split.
  - intros n q Hn Hq Ht. apply in_map_iff in Hn. destruct Hn as (n0 & E & Hn0).
    destruct (projectId n0) as [q0 |] eqn:Eq0.
    + destruct (Js.truthy q0 && includes (x :: ds) q0) eqn:Ec.
      * subst n. discriminate.
      * subst n. rewrite Eq0 in Hq. injection Hq as ->. rewrite Ht in Ec. simpl in Ec.
        change ((q =? x)%string || includes ds q) with (includes (x :: ds) q) in Ec.
        split; intros Hcontra.
        -- assert (H1 : includes (x :: ds) q = true) by (apply Hdel; now left). congruence.
        -- assert (H1 : includes (x :: ds) q = true) by (apply Hdel; now right). congruence.
    + subst n. congruence.
Qed.

(** X26.  When the projects are ranked, every project strictly lower than
    its parent, and the call stack is deeper than the rank of the project,
    moving a project to the root or under a project named by a non-empty id
    returns normally and leaves a forest.  Asked to put the project under
    itself or under a project below it, it changes nothing; otherwise every
    project of that id gets the new parent.  The ids of the projects and the
    notebooks stay as they are. *)
Theorem move_project_keeps_forest :
  forall (height : string -> nat) (fuel : nat) (x : string) (newParentId : option string)
         (now : Z) (st : ProjectStore),
    Ranked height (projects st) -> (height x < fuel)%nat ->
    (forall q, newParentId = Some q -> Js.truthy q = true) ->
      exists st',
        moveProject fuel x newParentId now st = Js.Ok st' /\
        Forest (projects st') /\
        (forall q, newParentId = Some q -> q = x \/ below (projects st) x q -> st' = st) /\
        ((forall q, newParentId = Some q -> q <> x /\ ~ below (projects st) x q) ->
         forall p, In p (projects st') -> pr_id p = x -> parentId p = newParentId) /\
        map pr_id (projects st') = map pr_id (projects st) /\
        notebooks st' = notebooks st /\
        activeNotebookId st' = activeNotebookId st.
Proof.
  intros depth fuel x newParentId now st Hdepth Hfuel Htruthy.
  assert (HF : Forest (projects st)) by now exists depth.
  destruct (descend_complete (projects st) depth Hdepth fuel x) as [ds [Eds Hall]]; [lia |].
  pose proof (descend_sound fuel (projects st) x ds Eds) as Hsound.
  assert (Hds : forall q, includes ds q = true <-> below (projects st) x q).
  { intros q. rewrite includes_In. split; [apply Hsound | apply Hall]. }
  set (f := fun p : Project =>
              if is_project x p
              then mkProject (pr_id p) (name p) newParentId (pr_createdAt p) now
              else p).
  set (moved := mkStore (map f (projects st)) (notebooks st) (activeNotebookId st)).
  assert (Hids : map pr_id (map f (projects st)) = map pr_id (projects st)).
  { rewrite map_map. apply map_ext. intros p. unfold f. now destruct (is_project x p). }
  assert (Hmoved : (forall q, newParentId = Some q -> q <> x /\ ~ below (projects st) x q) ->
                   Forest (projects moved) /\
                   (forall p, In p (projects moved) -> pr_id p = x ->
                              parentId p = newParentId)).
  { intros Hfree. split.
    - exists (fun y => if String.eqb y x || includes ds y
                       then depth y else (depth y + depth x + 1)%nat).
      intros p' q' Hp' Hpar. cbn [projects moved] in Hp'.
      apply in_map_iff in Hp'. destruct Hp' as (p & <- & Hp). unfold f in *.
      unfold is_project in *. destruct (String.eqb (pr_id p) x) eqn:Ex.
      + cbn [pr_id parentId] in *. rewrite Ex. cbn [orb].
        destruct (Hfree q' Hpar) as [Hne Hnb].
        apply String.eqb_neq in Hne. rewrite Hne. cbn [orb].
        destruct (includes ds q') eqn:Eq; [apply Hds in Eq; contradiction |].
        apply String.eqb_eq in Ex. rewrite Ex. lia.
      + specialize (Hdepth p q' Hp Hpar). cbv beta. rewrite Ex. cbn [orb].
        destruct (String.eqb q' x || includes ds q') eqn:Eq.
        * assert (Hb : includes ds (pr_id p) = true).
          { apply Hds. apply orb_true_iff in Eq. destruct Eq as [Eq | Eq].
            - apply String.eqb_eq in Eq. subst q'. now apply below_child.
            - apply Hds in Eq. now apply (below_deeper (projects st) x p q'). }
          rewrite Hb. exact Hdepth.
        * destruct (includes ds (pr_id p)); lia.
    - intros p' Hp' Hid. cbn [projects moved] in Hp'.
      apply in_map_iff in Hp'. destruct Hp' as (p & <- & Hp). unfold f in *.
      unfold is_project in *. destruct (String.eqb (pr_id p) x) eqn:Ex; [reflexivity |].
      apply String.eqb_neq in Ex. contradiction. }
  unfold moveProject. fold f. fold moved. destruct newParentId as [q |].
  - rewrite (Htruthy q eq_refl). destruct (String.eqb q x) eqn:Eqx.
    + apply String.eqb_eq in Eqx. subst q. exists st. split; [reflexivity |].
      split; [exact HF |]. split; [reflexivity |]. split; [| now repeat split].
      intros Hfree. destruct (Hfree x eq_refl) as [Hne _]. contradiction.
    + rewrite Eds. destruct (includes ds q) eqn:Eq.
      * exists st. split; [reflexivity |].
        split; [exact HF |]. split; [reflexivity |]. split; [| now repeat split].
        intros Hfree. destruct (Hfree q eq_refl) as [_ Hnb]. apply Hds in Eq. contradiction.
      * assert (Hfree : forall q0, Some q = Some q0 -> q0 <> x /\ ~ below (projects st) x q0).
        { intros q0 [= <-]. split.
          - now apply String.eqb_neq.
          - intros Hb. apply Hds in Hb. congruence. }
        destruct (Hmoved Hfree) as [H1 H2].
        exists moved. split; [reflexivity |]. split; [exact H1 |]. split.
        { intros q0 [= <-] [-> | Hb].
          - rewrite String.eqb_refl in Eqx. discriminate.
          - apply Hds in Hb. congruence. }
        split; [intros _; exact H2 |]. now repeat split.
  - assert (Hfree : forall q0, @None string = Some q0 ->
                               q0 <> x /\ ~ below (projects st) x q0) by discriminate.
    destruct (Hmoved Hfree) as [H1 H2].
    exists moved. split; [reflexivity |]. split; [exact H1 |].
    split; [discriminate |]. split; [intros _; exact H2 |]. now repeat split.
Qed.

End Projects.

(* ------------------------------------------------------------------ *)
(** ** Runs of the further properties *)

Section FurtherRuns.
Import Canvas2D Types History HistorySpec Laws RefRaster RefFacts Samples Cases InputSpec.

Lemma marking_rested : OverlayHistorySpec.Rested marking.
Proof.
  unfold OverlayHistorySpec.Rested. split; [reflexivity |]. split; [reflexivity |].
  split; [reflexivity |]. split; [| vm_compute; discriminate].
  repeat constructor.
Defined.

Lemma undo_reaches_back_49_witness :
  DrawingSpec.Settled small /\ (List.length session <= 49)%nat /\
  (let n := List.length session in
   let s' := DrawingCell.acts session small in
   exists u v,
     DrawingCell.undos n s' = Js.Ok u /\
     pixels (DrawingCell.canvas u) = pixels (DrawingCell.canvas small) /\
     DrawingCell.redos n u = Js.Ok v /\
     pixels (DrawingCell.canvas v) = pixels (DrawingCell.canvas s') /\
     DrawingCell.history v = DrawingCell.history s').
Proof.
  assert (H : (List.length session <= 49)%nat) by (unfold session; cbn [List.length]; lia).
  split; [exact small_settled |]. split; [exact H |].
  exact (undo_reaches_back_49 (B := ref_backend) (T := ref_trig) (L := ref_lawful)
           small session small_settled H).
Defined.

Lemma overlay_undo_reaches_back_49_witness :
  OverlayHistorySpec.Rested marking /\ (List.length overlay_session <= 49)%nat /\
  (let n := List.length overlay_session in
   let s' := PDFCell.acts overlay_session marking in
   exists u v,
     PDFCell.undos n s' = Js.Ok u /\
     pixels (PDFCell.drawingCanvas u) = pixels (PDFCell.drawingCanvas marking) /\
     PDFCell.redos n u = Js.Ok v /\
     pixels (PDFCell.drawingCanvas v) = pixels (PDFCell.drawingCanvas s') /\
     PDFCell.history v = PDFCell.history s').
Proof.
  assert (H : (List.length overlay_session <= 49)%nat)
    by (unfold overlay_session; cbn [List.length]; lia).
  split; [exact marking_rested |]. split; [exact H |].
  exact (overlay_undo_reaches_back_49 (B := ref_backend) (L := ref_lawful)
           marking overlay_session marking_rested H).
Defined.

Lemma pointer_ignored_outside_edit_mode_witness :
  DrawingCell.isEditing viewed = false /\ DrawingCell.isDrawing viewed = false /\
  forallb is_pointer taps = true /\
  DrawingCell.inputs taps viewed = viewed /\
  DrawingCell.isEditing (DrawingCell.onCanvas OnClick viewed) = true /\
  MiniDrawing.inputs taps mini_viewed = mini_viewed /\
  PDFCell.inputs taps (PDFCell.mount book) = PDFCell.mount book /\
  PDFCell.isEditingDrawing (PDFCell.onCanvas OnClick (PDFCell.mount book)) = true.
Proof.
  destruct (pointer_ignored_outside_edit_mode (B := ref_backend) (T := ref_trig))
    as (Hd & Hm & Hp).
  destruct (Hd viewed taps eq_refl eq_refl eq_refl) as (H1 & H2 & _).
  destruct (Hp (PDFCell.mount book) taps eq_refl eq_refl eq_refl) as (H3 & H4 & _).
  split; [reflexivity |]. split; [reflexivity |]. split; [reflexivity |].
  split; [exact H1 |]. split; [exact H2 |].
  split; [exact (Hm mini_viewed taps eq_refl eq_refl eq_refl) |].
  split; [exact H3 | exact H4].
Defined.

Lemma small_coherent : DrawingSpec.Coherent small.
Proof.
  destruct small_settled as (_ & _ & H1 & H2 & _). split; assumption.
Defined.

Lemma keys_move_cursor_only_witness :
  DrawingSpec.Coherent small /\
  (exists i px,
     Js.index (historyRef (DrawingCell.history small)) i = Some px /\
     DrawingCell.keys undo_redo_keys small =
     Js.Ok (DrawingCell.set_history (mkRefs (historyRef (DrawingCell.history small)) i)
              (DrawingCell.set_canvas (with_pixels px (DrawingCell.canvas small)) small))) /\
  DrawingCell.handleKeyDown (mkKeyboardEvent true true "Z") small = Js.Ok small /\
  (exists i px,
     Js.index (historyRef (PDFCell.history marking)) i = Some px /\
     PDFCell.keys undo_redo_keys marking =
     Js.Ok (PDFCell.set_history (mkRefs (historyRef (PDFCell.history marking)) i)
              (PDFCell.set_drawingCanvas (with_pixels px (PDFCell.drawingCanvas marking))
                 marking))) /\
  PDFCell.handleKeyDown (mkKeyboardEvent false false "z") marking = Js.Ok marking.
Proof.
  destruct (keys_move_cursor_only (B := ref_backend) (L := ref_lawful))
    as (Hd & Hdk & Hp & Hpk).
  destruct marking_rested as (_ & _ & R1 & R2 & _).
  split; [exact small_coherent |].
  split; [exact (Hd undo_redo_keys small small_coherent) |].
  split; [apply Hdk; right; right; discriminate |].
  split; [exact (Hp undo_redo_keys marking R1 R2) |].
  apply Hpk. right. left. reflexivity.
Defined.

Lemma pointer_lands_on_bitmap_witness :
  in_box (at_ 4 2 4 4) /\
  (let p := DrawingCell.getCanvasPoint (at_ 4 2 4 4) small in
   on_bitmap (canvas_width (DrawingCell.canvas small))
     (canvas_height (DrawingCell.canvas small)) (x p) (y p) /\
   (x p == inject_Z (canvas_width (DrawingCell.canvas small)))%Q) /\
  (let p := MiniDrawing.getCanvasPoint (at_ 4 2 4 4) mini in
   on_bitmap (canvas_width (MiniDrawing.canvas mini)) (canvas_height (MiniDrawing.canvas mini))
     (MiniDrawing.x p) (MiniDrawing.y p)) /\
  (let p := PDFCell.getCanvasPoint (at_ 4 2 4 4) marking in
   on_bitmap (canvas_width (PDFCell.drawingCanvas marking))
     (canvas_height (PDFCell.drawingCanvas marking)) (x p) (y p)).
Proof.
  assert (Hbox : in_box (at_ 4 2 4 4)).
  { unfold in_box. repeat split; vm_compute; discriminate. }
  destruct (pointer_lands_on_bitmap (B := ref_backend)) as (Hd & Hm & Hp).
  assert (Hd1 : 0 <= canvas_width (DrawingCell.canvas small)) by (vm_compute; discriminate).
  assert (Hd2 : 0 <= canvas_height (DrawingCell.canvas small)) by (vm_compute; discriminate).
  assert (Hm1 : 0 <= canvas_width (MiniDrawing.canvas mini)) by (vm_compute; discriminate).
  assert (Hm2 : 0 <= canvas_height (MiniDrawing.canvas mini)) by (vm_compute; discriminate).
  assert (Hp1 : 0 <= canvas_width (PDFCell.drawingCanvas marking)) by (vm_compute; discriminate).
  assert (Hp2 : 0 <= canvas_height (PDFCell.drawingCanvas marking))
    by (vm_compute; discriminate).
  split; [exact Hbox |]. split; [| split].
  - destruct (Hd (at_ 4 2 4 4) small Hbox Hd1 Hd2) as (H1 & _ & _ & H4 & _).
    split; [exact H1 |]. apply H4. reflexivity.
  - exact (Hm (at_ 4 2 4 4) mini Hbox Hm1 Hm2).
  - exact (Hp (at_ 4 2 4 4) marking Hbox Hp1 Hp2).
Defined.

Lemma pen_segment_width_witness :
  DrawingCell.tool small = DrawingCell.Pen /\ (0 < DrawingCell.brushSize small)%Q /\
  (let w := (DrawingCell.brushSize small * ((1 # 2) + (pressure wipe_from + pressure wipe_to) / 2))%Q in
   pixels (DrawingCell.drawLine small wipe_from wipe_to (DrawingCell.canvas small)) =
   render (StrokePath (blend_of (DrawingCell.canvas small)) (DrawingCell.color small)
             (mkLineStyle w CapRound JoinRound)
             [MoveTo (x wipe_from) (y wipe_from); LineTo (x wipe_to) (y wipe_to)])
     (pixels (DrawingCell.canvas small)) /\
   (DrawingCell.brushSize small * (1 # 2) <= w <= DrawingCell.brushSize small * (3 # 2))%Q) /\
  (lineWidth (DrawingCell.drawLine small (DrawingCell.getCanvasPoint (at_ 1 1 4 4) small)
                (DrawingCell.getCanvasPoint (at_ 3 3 4 4) small) (DrawingCell.canvas small))
   == DrawingCell.brushSize small)%Q /\
  (let w := (PDFCell.brushSize marking * ((1 # 2) + (pressure wipe_from + pressure wipe_to) / 2))%Q in
   pixels (PDFCell.drawLine marking wipe_from wipe_to (PDFCell.drawingCanvas marking)) =
   render (StrokePath (mkBlend 1 SourceOver) (PDFCell.color marking)
             (mkLineStyle w CapRound JoinRound)
             [MoveTo (x wipe_from) (y wipe_from); LineTo (x wipe_to) (y wipe_to)])
     (pixels (PDFCell.drawingCanvas marking)) /\
   (PDFCell.brushSize marking * (1 # 2) <= w <= PDFCell.brushSize marking * (3 # 2))%Q).
Proof.
  assert (Hb : (0 < 3)%Q) by reflexivity.
  assert (Hp : (0 <= 1 # 2 <= 1)%Q) by (split; vm_compute; discriminate).
  destruct (pen_segment_width (B := ref_backend)) as (H1 & H2 & H3).
  split; [reflexivity |]. split; [exact Hb |].
  split; [exact (H1 small wipe_from wipe_to (DrawingCell.canvas small) eq_refl Hb Hp Hp) |].
  split; [exact (H2 small (at_ 1 1 4 4) (at_ 3 3 4 4) (DrawingCell.canvas small)
                    eq_refl Hb (Qeq_refl 0) (Qeq_refl 0)) |].
  exact (H3 marking wipe_from wipe_to (PDFCell.drawingCanvas marking) eq_refl Hb Hp Hp).
Defined.

Lemma inserted_picture_fits_witness :
  0 < fst (dims stamp) /\ 0 < snd (dims stamp) /\
  0 < canvas_width (DrawingCell.canvas small) /\ 0 < canvas_height (DrawingCell.canvas small) /\
  (let s' := DrawingCell.handleInsertImage stamp small in
   let iw := inject_Z (fst (dims stamp)) in
   let ih := inject_Z (snd (dims stamp)) in
   let cw := inject_Z (canvas_width (DrawingCell.canvas small)) in
   let ch := inject_Z (canvas_height (DrawingCell.canvas small)) in
   exists x y w h : Q,
     DrawingCell.canvas s' = drawImageScaled stamp x y w h (DrawingCell.canvas small) /\
     DrawingCell.history s' =
       History.saveToHistory (DrawingCell.canvas s') (DrawingCell.history small) /\
     (0 <= x /\ 0 <= y /\ x + w <= cw /\ y + h <= ch)%Q /\
     (x + w + x == cw /\ y + h + y == ch)%Q /\
     (0 < w <= iw /\ 0 < h <= ih)%Q /\
     (w * ih == h * iw)%Q /\
     (w == cw \/ h == ch \/ (w == iw /\ h == ih))%Q).
Proof.
  assert (H1 : 0 < fst (dims stamp)) by (vm_compute; reflexivity).
  assert (H2 : 0 < snd (dims stamp)) by (vm_compute; reflexivity).
  assert (H3 : 0 < canvas_width (DrawingCell.canvas small)) by (vm_compute; reflexivity).
  assert (H4 : 0 < canvas_height (DrawingCell.canvas small)) by (vm_compute; reflexivity).
  split; [exact H1 |]. split; [exact H2 |]. split; [exact H3 |]. split; [exact H4 |].
  exact (inserted_picture_fits (B := ref_backend) stamp small H1 H2 H3 H4).
Defined.

Lemma shape_spans_press_and_release_witness :
  DrawingCell.isEditing small = true /\
  DrawingCell.isShapeTool (DrawingCell.g_tool box) = true /\
  (let s' := DrawingCell.gesture box small in
   DrawingCell.canvas s' =
     DrawingCell.drawShape (DrawingCell.configure box small) (DrawingCell.canvas small)
       (DrawingCell.getCanvasPoint (DrawingCell.g_down box) small)
       (DrawingCell.getCanvasPoint (DrawingCell.g_up box) small) (DrawingCell.g_tool box) false /\
   DrawingCell.history s' =
     History.saveToHistory (DrawingCell.canvas s') (DrawingCell.history small) /\
   (forall k,
      DrawingCell.canvas
        (DrawingCell.moves (firstn k (DrawingCell.g_moves box))
           (DrawingCell.handlePointerDown (DrawingCell.g_down box)
              (DrawingCell.configure box small)))
      = DrawingCell.canvas small)).
Proof.
  split; [reflexivity |]. split; [reflexivity |].
  exact (shape_spans_press_and_release (B := ref_backend) (T := ref_trig) box small
           eq_refl eq_refl).
Defined.

Lemma repaint_is_undoable_witness :
  DrawingSpec.Settled small /\ DrawingCell.cell_dataUrl small = "" /\
  Grid <> DrawingCell.background small /\ true <> DrawingCell.isDarkMode small /\
  (let s' := DrawingCell.setBackground Grid small in
   DrawingCell.canvas s' =
     DrawingCell.drawBackground (DrawingCell.canvas small)
       (canvas_width (DrawingCell.canvas small)) (canvas_height (DrawingCell.canvas small))
       Grid (DrawingCell.isDarkMode small) /\
   DrawingCell.history s' =
     History.saveToHistory (DrawingCell.canvas s') (DrawingCell.history small) /\
   exists u, DrawingCell.undo s' = Js.Ok u /\
             pixels (DrawingCell.canvas u) = pixels (DrawingCell.canvas small)) /\
  (let s' := DrawingCell.setIsDarkMode true small in
   DrawingCell.canvas s' =
     DrawingCell.drawBackground (DrawingCell.canvas small)
       (canvas_width (DrawingCell.canvas small)) (canvas_height (DrawingCell.canvas small))
       (DrawingCell.background small) true /\
   DrawingCell.history s' =
     History.saveToHistory (DrawingCell.canvas s') (DrawingCell.history small) /\
   exists u, DrawingCell.undo s' = Js.Ok u /\
             pixels (DrawingCell.canvas u) = pixels (DrawingCell.canvas small)).
Proof.
  assert (Hg : Grid <> DrawingCell.background small) by discriminate.
  assert (Hk : true <> DrawingCell.isDarkMode small) by discriminate.
  destruct (repaint_is_undoable (B := ref_backend) (L := ref_lawful)) as (Hb & Hd).
  split; [exact small_settled |]. split; [reflexivity |].
  split; [exact Hg |]. split; [exact Hk |].
  split; [exact (Hb small Grid small_settled eq_refl Hg) |].
  exact (Hd small true small_settled eq_refl Hk).
Defined.

Lemma mini_forgets_unsaved_ink_witness :
  MiniDrawing.cell_dataUrl mini_scrawled = "" /\ MiniDrawing.cell_dataUrl mini_drawn = "" /\
  false <> MiniDrawing.isEditing mini_scrawled /\ false <> MiniDrawing.isEditing mini_drawn /\
  BackgroundSpec.plain MiniDrawing.CANVAS_WIDTH (MiniDrawing.canvasHeight mini_scrawled)
    (MiniDrawing.canvas mini_scrawled) /\
  BackgroundSpec.plain MiniDrawing.CANVAS_WIDTH (MiniDrawing.canvasHeight mini_drawn)
    (MiniDrawing.canvas mini_drawn) /\
  (let s' := MiniDrawing.drag 100 [130; 160] mini_drawn in
   (MiniDrawing.canvas s' = MiniDrawing.canvas mini_drawn /\
    MiniDrawing.canvasHeight s' = MiniDrawing.canvasHeight mini_drawn) \/
   MiniDrawing.canvas s' =
     MiniDrawing.drawBackground (fresh MiniDrawing.CANVAS_WIDTH (MiniDrawing.canvasHeight s'))
       MiniDrawing.CANVAS_WIDTH (MiniDrawing.canvasHeight s')
       (MiniDrawing.background mini_drawn)) /\
  pixels (MiniDrawing.canvas (MiniDrawing.setIsEditing false mini_scrawled)) =
  pixels (MiniDrawing.canvas (MiniDrawing.setIsEditing false mini_drawn)).
Proof.
  assert (H1 : false <> MiniDrawing.isEditing mini_scrawled) by discriminate.
  assert (H2 : false <> MiniDrawing.isEditing mini_drawn) by discriminate.
  assert (P1 : BackgroundSpec.plain MiniDrawing.CANVAS_WIDTH (MiniDrawing.canvasHeight mini_scrawled)
                 (MiniDrawing.canvas mini_scrawled)) by (repeat split).
  assert (P2 : BackgroundSpec.plain MiniDrawing.CANVAS_WIDTH
                 (MiniDrawing.canvasHeight mini_drawn) (MiniDrawing.canvas mini_drawn))
    by (repeat split).
  destruct (mini_forgets_unsaved_ink (B := ref_backend) (L := ref_lawful)) as (Hr & He).
  split; [reflexivity |]. split; [reflexivity |]. split; [exact H1 |]. split; [exact H2 |].
  split; [exact P1 |]. split; [exact P2 |].
  split; [exact (Hr mini_drawn 100 [130; 160] eq_refl) |].
  exact (He mini_scrawled mini_drawn false eq_refl eq_refl H1 H2 eq_refl eq_refl P1 P2 eq_refl eq_refl).
Defined.

Lemma undo_crosses_pages_witness :
  PDFCell.pdfDoc leaflet = true /\ 1 <> PDFCell.currentPageIndex leaflet /\
  Js.index (PDFCell.pages leaflet) 1 = Some (PDFCell.mkPage None "" true "") /\
  current (PDFCell.history leaflet) = Some (pixels (PDFCell.drawingCanvas leaflet)) /\
  (let s' := PDFCell.setCurrentPageIndex 1 leaflet in
   PDFCell.history s' =
     History.saveToHistory (PDFCell.drawingCanvas s') (PDFCell.history leaflet) /\
   exists u,
     PDFCell.undo s' = Js.Ok u /\ PDFCell.currentPageIndex u = 1 /\
     pixels (PDFCell.drawingCanvas u) = pixels (PDFCell.drawingCanvas leaflet)).
Proof.
  assert (Hi : 1 <> PDFCell.currentPageIndex leaflet) by discriminate.
  assert (Hc : current (PDFCell.history leaflet) = Some (pixels (PDFCell.drawingCanvas leaflet)))
    by reflexivity.
  assert (Hf : Forall (fun e => dims e = dims (pixels (PDFCell.drawingCanvas leaflet)))
                 (historyRef (PDFCell.history leaflet))) by (repeat constructor).
  assert (Hs : size (PDFCell.history leaflet) <= 50) by (vm_compute; discriminate).
  split; [reflexivity |]. split; [exact Hi |]. split; [reflexivity |]. split; [exact Hc |].
  exact (undo_crosses_pages (B := ref_backend) (L := ref_lawful) leaflet 1
           (PDFCell.mkPage None "" true "") eq_refl Hi eq_refl eq_refl eq_refl Hc Hf Hs).
Defined.

Lemma action_cuts_redo_witness :
  DrawingSpec.Settled small /\ OverlayHistorySpec.Rested marking /\
  (exists u, DrawingCell.undo small = Js.Ok u /\ DrawingSpec.Settled u) /\
  (let s' := DrawingCell.act (DrawingCell.Stroke scribble) small in
   historyIndexRef (DrawingCell.history s') = size (DrawingCell.history s') - 1 /\
   DrawingCell.redo s' = Js.Ok s') /\
  (exists u, PDFCell.undo marking = Js.Ok u /\ OverlayHistorySpec.Rested u) /\
  (let s' := PDFCell.act PDFCell.Clear marking in
   historyIndexRef (PDFCell.history s') = size (PDFCell.history s') - 1 /\
   PDFCell.redo s' = Js.Ok s').
Proof.
  destruct (action_cuts_redo (B := ref_backend) (T := ref_trig) (L := ref_lawful))
    as (H1 & H2 & H3 & H4).
  split; [exact small_settled |]. split; [exact marking_rested |].
  split; [exact (H1 small small_settled) |].
  split; [exact (H2 small (DrawingCell.Stroke scribble) small_settled) |].
  split; [exact (H3 marking marking_rested) |].
  exact (H4 marking PDFCell.Clear marking_rested).
Defined.

Lemma note_move_swaps_neighbours_witness :
  MiniNotebook.id (memo "b") = "b" /\ MiniNotebook.id (memo "c") <> "b" /\
  MiniNotebook.moveCell "b" MiniNotebook.Down ([memo "a"] ++ memo "b" :: memo "c" :: []) =
    Some (map Some ([memo "a"] ++ memo "c" :: memo "b" :: [])) /\
  MiniNotebook.moveCell "b" MiniNotebook.Up ([memo "a"] ++ memo "c" :: memo "b" :: []) =
    Some (map Some ([memo "a"] ++ memo "b" :: memo "c" :: [])) /\
  MiniNotebook.moveCell "b" MiniNotebook.Up (memo "b" :: []) = None /\
  MiniNotebook.moveCell "b" MiniNotebook.Down ([memo "a"] ++ [memo "b"]) = None.
Proof.
  assert (Hb : MiniNotebook.id (memo "c") <> "b") by discriminate.
  assert (Hl : forall x, In x [memo "a"] -> MiniNotebook.id x <> "b").
  { intros x [<- | []]. discriminate. }
  split; [reflexivity |]. split; [exact Hb |].
  exact (note_move_swaps_neighbours "b" [memo "a"] (memo "b") (memo "c") [] eq_refl Hb Hl).
Defined.

Lemma note_move_unknown_id_witness :
  (forall x, In x [memo "a"; memo "b"] -> MiniNotebook.id x <> "z") /\
  MiniNotebook.moveCell "z" MiniNotebook.Up [memo "a"; memo "b"] =
    Some (map Some [memo "a"; memo "b"]) /\
  MiniNotebook.moveCell "z" MiniNotebook.Down [memo "a"; memo "b"] =
    Some (None :: map Some [memo "b"]).
Proof.
  assert (Hl : forall x, In x [memo "a"; memo "b"] -> MiniNotebook.id x <> "z").
  { intros x [<- | [<- | []]]; discriminate. }
  destruct (note_move_unknown_id "z" [memo "a"; memo "b"] Hl) as (H1 & _ & H3).
  split; [exact Hl |]. split; [exact H1 |]. exact (H3 (memo "a") [memo "b"] eq_refl).
Defined.

Lemma note_update_and_delete_touch_one_witness :
  (forall x, In x ([memo "a"] ++ [memo "c"]) -> MiniNotebook.id x <> "b") /\
  MiniNotebook.updateCell "b" (MiniNotebook.markdownUpdate "hello")
    ([memo "a"] ++ memo "b" :: [memo "c"]) =
    [memo "a"] ++ MiniNotebook.spread (memo "b") (MiniNotebook.markdownUpdate "hello")
                 :: [memo "c"] /\
  MiniNotebook.deleteCell "b" ([memo "a"] ++ memo "b" :: [memo "c"]) = [memo "a"] ++ [memo "c"] /\
  MiniNotebook.updateCell "b" (MiniNotebook.markdownUpdate "hello") ([memo "a"] ++ [memo "c"]) =
    [memo "a"] ++ [memo "c"] /\
  MiniNotebook.deleteCell "b"
    (MiniNotebook.addCell "b" MiniNotebook.Drawing ([memo "a"] ++ [memo "c"])) =
    [memo "a"] ++ [memo "c"].
Proof.
  assert (Hl : forall x, In x ([memo "a"] ++ [memo "c"]) -> MiniNotebook.id x <> "b").
  { intros x [<- | [<- | []]]; discriminate. }
  destruct note_update_and_delete_touch_one as (H1 & H2 & H3).
  destruct (H1 "b" (MiniNotebook.markdownUpdate "hello") [memo "a"] (memo "b") [memo "c"]
              eq_refl Hl) as (H1a & H1b & _).
  split; [exact Hl |]. split; [exact H1a |]. split; [exact H1b |].
  split; [exact (proj1 (H2 "b" (MiniNotebook.markdownUpdate "hello") _ Hl)) |].
  exact (H3 "b" MiniNotebook.Drawing _ Hl).
Defined.

Lemma uploaded_pages_follow_document_witness :
  1 <= 3 /\ 0 <= 0 /\
  (let s' := PDFCellPages.handleFileUpload 3 page_id PDFCellPages.mount in
   Z.of_nat (List.length (PDFCellPages.pages s')) = 3 /\
   PDFCellPages.currentPageIndex s' = 0 /\
   (forall k, 0 <= k < 3 ->
      Js.index (PDFCellPages.pages s') k = Some (PagesSpec.original page_id (k + 1)))) /\
  PDFCellPages.pages (PDFCellPages.handleFileUpload 0 page_id PDFCellPages.mount) = [] /\
  PDFCellPages.currentPage (PDFCellPages.handleFileUpload 0 page_id PDFCellPages.mount) = None.
Proof.
  assert (H3 : 1 <= 3) by lia. assert (H0 : 0 <= 0) by lia.
  destruct uploaded_pages_follow_document as (H1 & H2).
  split; [exact H3 |]. split; [exact H0 |].
  split; [exact (H1 3 page_id PDFCellPages.mount H3) |].
  exact (H2 0 page_id PDFCellPages.mount H0).
Defined.

Lemma folio_valid : PagesSpec.Valid folio.
Proof. unfold PagesSpec.Valid. vm_compute. split; [discriminate | reflexivity]. Defined.

Lemma pages_keep_current_and_originals_witness :
  PagesSpec.Valid folio /\
  PagesSpec.Valid
    (PDFCellPages.applies
       [PDFCellPages.Next; PDFCellPages.AddPage "x" Grid; PDFCellPages.SaveDrawing "ink";
        PDFCellPages.DeletePage; PDFCellPages.DeletePage; PDFCellPages.Previous] folio) /\
  PagesSpec.originals
    (PDFCellPages.applies
       [PDFCellPages.Next; PDFCellPages.AddPage "x" Grid; PDFCellPages.SaveDrawing "ink";
        PDFCellPages.DeletePage; PDFCellPages.DeletePage; PDFCellPages.Previous] folio) =
  PagesSpec.originals folio.
Proof.
  split; [exact folio_valid |].
  exact (pages_keep_current_and_originals
           [PDFCellPages.Next; PDFCellPages.AddPage "x" Grid; PDFCellPages.SaveDrawing "ink";
            PDFCellPages.DeletePage; PDFCellPages.DeletePage; PDFCellPages.Previous]
           folio folio_valid).
Defined.

Lemma added_page_follows_current_witness :
  PagesSpec.Valid folio /\
  (let s' := PDFCellPages.addPageAfterCurrent "x" Dots folio in
   let k := Z.to_nat (PDFCellPages.currentPageIndex folio + 1) in
   let newPage := PDFCellPages.mkPDFPage "x" None "" "" [] true (Some "") in
   PDFCellPages.pages s' =
     firstn k (PDFCellPages.pages folio) ++ newPage :: skipn k (PDFCellPages.pages folio) /\
   PDFCellPages.currentPageIndex s' = PDFCellPages.currentPageIndex folio + 1 /\
   PDFCellPages.currentPage s' = Some newPage /\
   PDFCellPages.customPageBackground s' = Dots /\
   PDFCellPages.pages (PDFCellPages.deleteButton s') = PDFCellPages.pages folio).
Proof.
  split; [exact folio_valid |].
  exact (added_page_follows_current "x" Dots folio folio_valid).
Defined.

Lemma drawing_and_notes_are_independent_witness :
  PDFCellPages.currentPage folio = Some (PagesSpec.original page_id 1) /\
  (let i := Z.to_nat (PDFCellPages.currentPageIndex folio) in
   PDFCellPages.pages (PDFCellPages.handleSaveDrawing "ink" folio) =
     firstn i (PDFCellPages.pages folio) ++
     PagesSpec.with_drawing "ink" (PagesSpec.original page_id 1) ::
     skipn (S i) (PDFCellPages.pages folio) /\
   PDFCellPages.pages (PDFCellPages.handleUpdateNoteCells [memo "a"] folio) =
     firstn i (PDFCellPages.pages folio) ++
     PagesSpec.with_notes [memo "a"] (PagesSpec.original page_id 1) ::
     skipn (S i) (PDFCellPages.pages folio) /\
   PDFCellPages.pages
     (PDFCellPages.handleUpdateNoteCells [memo "a"] (PDFCellPages.handleSaveDrawing "ink" folio)) =
   PDFCellPages.pages
     (PDFCellPages.handleSaveDrawing "ink" (PDFCellPages.handleUpdateNoteCells [memo "a"] folio))).
Proof.
  split; [reflexivity |].
  exact (drawing_and_notes_are_independent "ink" [memo "a"] folio
           (PagesSpec.original page_id 1) eq_refl).
Defined.

Lemma notes_width_clamped_witness :
  (200 <= PDFCellPages.notesWidth (PDFCellPages.handleResizeStart PDFCellPages.mount)
   <= 600)%Q /\
  PDFCellPages.isResizing (PDFCellPages.handleResizeStart PDFCellPages.mount) = true /\
  (200 <= 1000 - 550 <= 600)%Q /\
  (let s' := fold_left (fun st m => PDFCellPages.mouseMove (fst m) (snd m) st)
               [(1000%Q, 990%Q); (1000%Q, 100%Q)] (PDFCellPages.handleResizeStart PDFCellPages.mount) in
   (200 <= PDFCellPages.notesWidth s' <= 600)%Q) /\
  (PDFCellPages.notesWidth
     (PDFCellPages.mouseMove 1000 550 (PDFCellPages.handleResizeStart PDFCellPages.mount))
   == 1000 - 550)%Q.
Proof.
  assert (Hw : (200 <= PDFCellPages.notesWidth
                         (PDFCellPages.handleResizeStart PDFCellPages.mount) <= 600)%Q)
    by (split; vm_compute; discriminate).
  assert (Hq : (200 <= 1000 - 550 <= 600)%Q) by (split; vm_compute; discriminate).
  destruct notes_width_clamped as (H1 & H2).
  split; [exact Hw |]. split; [reflexivity |]. split; [exact Hq |].
  split; [exact (H1 (PDFCellPages.handleResizeStart PDFCellPages.mount)
                    [(1000%Q, 990%Q); (1000%Q, 100%Q)] Hw) |].
  exact (proj2 (H2 (PDFCellPages.handleResizeStart PDFCellPages.mount) 1000%Q 550%Q eq_refl) Hq).
Defined.

Lemma cell_inserted_after_witness :
  Js.truthy "b" = true /\ Notebooks.id (para "b") = "b" /\
  (forall x, In x [para "a"] -> Notebooks.id x <> "b") /\
  (forall x, In x [para "a"; para "c"] -> Notebooks.id x <> "b") /\
  Notebooks.insertCell (para "n") (Some "b") ([para "a"] ++ para "b" :: [para "c"]) =
    [para "a"] ++ para "b" :: para "n" :: [para "c"] /\
  Notebooks.insertCell (para "n") (Some "b") [para "a"; para "c"] =
    para "n" :: [para "a"; para "c"].
Proof.
  assert (H1 : forall x, In x [para "a"] -> Notebooks.id x <> "b").
  { intros x [<- | []]. discriminate. }
  assert (H2 : forall x, In x [para "a"; para "c"] -> Notebooks.id x <> "b").
  { intros x [<- | [<- | []]]; discriminate. }
  destruct cell_inserted_after as (Ha & Hb & _).
  split; [reflexivity |]. split; [reflexivity |]. split; [exact H1 |]. split; [exact H2 |].
  split; [exact (Ha (para "n") (para "b") "b" [para "a"] [para "c"] eq_refl eq_refl H1) |].
  exact (Hb (para "n") "b" [para "a"; para "c"] eq_refl H2).
Defined.

Lemma cell_move_is_safe_witness :
  Notebooks.id (para "c") <> "b" /\
  (forall x, In x [para "a"] -> Notebooks.id x <> "b") /\
  (forall x, In x [para "a"; para "c"] -> Notebooks.id x <> "b") /\
  Notebooks.swapCell "b" Notebooks.Down ([para "a"] ++ para "b" :: para "c" :: []) =
    Some (map Some ([para "a"] ++ para "c" :: para "b" :: [])) /\
  Notebooks.swapCell "b" Notebooks.Down [para "a"; para "c"] = None /\
  (exists l, Notebooks.filled (map Some ([para "a"] ++ para "c" :: para "b" :: [])) = Some l /\
             Permutation ([para "a"] ++ para "b" :: para "c" :: []) l).
Proof.
  assert (Hc : Notebooks.id (para "c") <> "b") by discriminate.
  assert (H1 : forall x, In x [para "a"] -> Notebooks.id x <> "b").
  { intros x [<- | []]. discriminate. }
  assert (H2 : forall x, In x [para "a"; para "c"] -> Notebooks.id x <> "b").
  { intros x [<- | [<- | []]]; discriminate. }
  destruct cell_move_is_safe as (Ha & Hb & Hp).
  destruct (Ha "b" [para "a"] (para "b") (para "c") [] eq_refl Hc H1) as (Hd & _).
  split; [exact Hc |]. split; [exact H1 |]. split; [exact H2 |]. split; [exact Hd |].
  split; [exact (Hb "b" Notebooks.Down [para "a"; para "c"] H2) |].
  exact (Hp "b" Notebooks.Down _ _ Hd).
Defined.

Lemma cell_ops_touch_active_notebook_only_witness :
  Notebooks.active shelf = Some "n1" /\
  Notebooks.active (Notebooks.selectNotebook "" shelf) = None /\
  (let st' := StoreSpec.cell_op (StoreSpec.DeleteCell "c1") 7 shelf in
   Notebooks.projects st' = Notebooks.projects shelf /\
   Notebooks.activeNotebookId st' = Notebooks.activeNotebookId shelf /\
   nth_error (Notebooks.notebooks st') 1 = nth_error (Notebooks.notebooks shelf) 1) /\
  StoreSpec.cell_op (StoreSpec.DeleteCell "c1") 7 (Notebooks.selectNotebook "" shelf) =
  Notebooks.selectNotebook "" shelf.
Proof.
  destruct (cell_ops_touch_active_notebook_only (StoreSpec.DeleteCell "c1") 7 shelf)
    as (H1 & H2 & _ & H4 & _).
  destruct (cell_ops_touch_active_notebook_only (StoreSpec.DeleteCell "c1") 7
              (Notebooks.selectNotebook "" shelf)) as (_ & _ & _ & _ & H5).
  split; [reflexivity |]. split; [reflexivity |].
  split; [| exact (H5 eq_refl)].
  split; [exact H1 |]. split; [exact H2 |].
  refine (H4 "n1" 1%nat _ eq_refl eq_refl _). discriminate.
Defined.

Lemma shelf_active : StoreSpec.ActiveOk shelf.
Proof.
  exists (Notebooks.mkNotebook "n1" "Ideas" [para "c1"; para "c2"] 0 0 (Some "p2")).
  split; [now left | reflexivity].
Defined.

Lemma active_notebook_exists_witness :
  StoreSpec.ActiveOk shelf /\
  StoreSpec.offered (StoreSpec.SelectNotebook "n2") shelf /\
  StoreSpec.ActiveOk (StoreSpec.notebook_op (StoreSpec.SelectNotebook "n2") 7 shelf) /\
  StoreSpec.ActiveOk (StoreSpec.notebook_op (StoreSpec.DeleteNotebook "n1") 7 shelf) /\
  StoreSpec.ActiveOk (StoreSpec.cell_op StoreSpec.ClearNotebook 7 shelf) /\
  Notebooks.activeNotebookId (Notebooks.deleteNotebook "n1" shelf) = Some "n2".
Proof.
  assert (Ho : StoreSpec.offered (StoreSpec.SelectNotebook "n2") shelf).
  { exists (Notebooks.mkNotebook "n2" "Recipes" [] 0 0 (Some "p3")).
    split; [right; now left | reflexivity]. }
  destruct active_notebook_exists as (_ & Hn & Hc & _ & Hd).
  split; [exact shelf_active |]. split; [exact Ho |].
  split; [exact (Hn (StoreSpec.SelectNotebook "n2") 7 shelf shelf_active Ho) |].
  split; [exact (Hn (StoreSpec.DeleteNotebook "n1") 7 shelf shelf_active I) |].
  split; [exact (Hc StoreSpec.ClearNotebook 7 shelf shelf_active) |].
  exact (Hd "n1" shelf (Notebooks.mkNotebook "n2" "Recipes" [] 0 0 (Some "p3")) []
           eq_refl eq_refl).
Defined.

Lemma shelf_ranked : StoreSpec.Ranked rank (Notebooks.projects shelf).
Proof.
  intros p q [<- | [<- | [<- | []]]] H; cbn in H; try discriminate.
  injection H as <-. cbv. lia.
Defined.

Lemma delete_project_removes_subtree_witness :
  StoreSpec.Ranked rank (Notebooks.projects shelf) /\ (rank "p1" < 2)%nat /\
  exists st',
    Notebooks.deleteProject 2 "p1" shelf = Js.Ok st' /\
    (forall p, In p (Notebooks.projects st') <->
               In p (Notebooks.projects shelf) /\ Notebooks.pr_id p <> "p1" /\
               ~ StoreSpec.below (Notebooks.projects shelf) "p1" (Notebooks.pr_id p)) /\
    map (fun n => (Notebooks.nb_id n, Notebooks.title n, Notebooks.cells n))
      (Notebooks.notebooks st') =
    map (fun n => (Notebooks.nb_id n, Notebooks.title n, Notebooks.cells n))
      (Notebooks.notebooks shelf) /\
    (forall n q, In n (Notebooks.notebooks st') -> Notebooks.projectId n = Some q ->
                 Js.truthy q = true ->
                 q <> "p1" /\ ~ StoreSpec.below (Notebooks.projects shelf) "p1" q).
Proof.
  assert (Hf : (rank "p1" < 2)%nat) by (cbv; lia).
  split; [exact shelf_ranked |]. split; [exact Hf |].
  destruct (delete_project_removes_subtree rank 2 "p1" shelf shelf_ranked Hf)
    as (st' & H1 & H2 & _ & H4 & _ & H6 & _).
  exists st'. split; [exact H1 |]. split; [exact H2 |]. split; [exact H4 | exact H6].
Defined.

Lemma move_project_keeps_forest_witness :
  StoreSpec.Ranked rank (Notebooks.projects shelf) /\ (rank "p1" < 2)%nat /\
  (forall q, Some "p2" = Some q -> Js.truthy q = true) /\
  (forall q, Some "p3" = Some q -> Js.truthy q = true) /\
  Notebooks.moveProject 2 "p1" (Some "p2") 7 shelf = Js.Ok shelf /\
  (exists st',
     Notebooks.moveProject 2 "p1" (Some "p3") 7 shelf = Js.Ok st' /\
     StoreSpec.Forest (Notebooks.projects st') /\
     map Notebooks.pr_id (Notebooks.projects st') =
     map Notebooks.pr_id (Notebooks.projects shelf)).
Proof.
  assert (Hf : (rank "p1" < 2)%nat) by (cbv; lia).
  assert (H2 : forall q, Some "p2" = Some q -> Js.truthy q = true) by (now intros q [= <-]).
  assert (H3 : forall q, Some "p3" = Some q -> Js.truthy q = true) by (now intros q [= <-]).
  split; [exact shelf_ranked |]. split; [exact Hf |]. split; [exact H2 |]. split; [exact H3 |].
  split.
  - destruct (move_project_keeps_forest rank 2 "p1" (Some "p2") 7 shelf shelf_ranked Hf H2)
      as (st' & E & _ & R & _).
    rewrite E. f_equal. apply (R "p2" eq_refl). right.
    apply (StoreSpec.below_child _ _ (Notebooks.mkProject "p2" "Plans" (Some "p1") 0 0));
      [right; now left | reflexivity].
  - destruct (move_project_keeps_forest rank 2 "p1" (Some "p3") 7 shelf shelf_ranked Hf H3)
      as (st' & E & F & _ & _ & Hi & _).
    exists st'. split; [exact E |]. split; [exact F | exact Hi].
Defined.

End FurtherRuns.
